(* ===== verification/_CoqProject ===== *)
-Q . S2P
Prelude.v
Fmt.v
Regions.v
Layout.v
GlobalAlloc.v
Bump.v
LinkedList.v
FixedSizeBlock.v
Frames.v
Paging.v
HeapInit.v
Vga.v
Queue.v
Task.v
SimpleExecutor.v
Keyboard.v
Interrupts.v
System.v
Echo.v
Wakers.v
Locks.v
Console.v
Collections.v
Harness.v
Exceptions.v
WakerMemory.v
Kernel.v
LibTests.v
HeapTests.v
KernelMemory.v
Panics.v
Refine.v
