(* ===== verification/Prelude.v ===== *)
(** * Verification of min-rust-os

    min-rust-os (directory [src/min-rust-os]) is a small x86_64 kernel in Rust:
    heap allocators, frame allocation and paging, a VGA text console, interrupts and
    exceptions, cooperative tasks with a keyboard driver, and a test harness.  This
    development models the kernel's code as executable definitions and proves what
    each part promises to the others.

    ** How the parts fit together

    [kernel_main] ([main.rs]) greets on the screen ([vga_buffer.rs]), loads the
    descriptor tables and enables interrupts ([lib.rs], [gdt.rs], [interrupts.rs]),
    initialises paging ([memory.rs]), maps the heap and hands it to the global
    allocator ([allocator.rs], [allocator/*.rs]), puts a few values on the heap, and runs
    an executor ([task/executor.rs]) with a task that prints key presses
    ([task/keyboard.rs]).  Interrupts feed the keyboard task and print to the screen
    at any point of the kernel's execution.  The tests ([lib.rs], [tests/*.rs]) run on
    the same parts and report over the serial line ([serial.rs]) and QEMU's exit port.

    ** Files

    - [Prelude.v]: outcomes of Rust code (a value, a panic, undefined behaviour, a
      loop out of fuel) as a monad; 64-bit arithmetic, which panics or wraps
      depending on the build profile ([BuildProfile]); loops over ranges; the
      rewrite database [rust] and the tactics [rust_simpl] and [word_lia].
    - [Fmt.v]: the digits of numbers and pointers that are printed.
    - [Regions.v]: ranges of memory, disjointness, and a store of list nodes at
      addresses in which writing to memory destroys the nodes it overlaps.
    - [Layout.v]: [align_up] of [allocator.rs] and [core::alloc::Layout].
    - [GlobalAlloc.v]: the contract of [GlobalAlloc] as a class ([AllocContract]:
      an allocator invariant that allocation, deallocation and the client's own
      stores preserve; [AllocTotal]: no panic), and clients as lists of commands.
      A client theorem is proved once against the class, and each allocator is an
      instance.  Also the [Dummy] allocator.
    - [Bump.v], [LinkedList.v], [FixedSizeBlock.v]: the three allocators, one
      module each with the record of the struct and a definition per method.  The
      linked list allocator refines first fit on an abstract list of free ranges;
      the block allocator is over any fallback heap with the laws of [HeapLaws], and
      has a second, stronger contract that counts the blocks of a size class.
    - [Collections.v]: [Box], [Vec] and [Rc] over any allocator that keeps the
      contract, with the contents of the memory they own, and the functions of
      [tests/heap_allocation.rs].
    - [Frames.v]: the frame allocators of [memory.rs], behind [FrameAllocatorSafe].
    - [Paging.v]: [translate_addr] and [create_example_mapping] of [memory.rs]; the
      reference is a walk of the page tables as an inductive relation.
    - [HeapInit.v]: [init_heap], over any [Mapper] and any frame allocator.
    - [Vga.v]: the writer; the specification is a scroll that never forgets a row.
      [Console.v]: what [main.rs] writes to the screen before it sets up interrupts.
    - [Queue.v], [Task.v], [SimpleExecutor.v]: [ArrayQueue] as an interface; tasks,
      wakers and the two executors over any futures.
    - [Keyboard.v], [Interrupts.v]: both sides of the keyboard, the interrupt
      descriptor table, and the handlers of the hardware interrupts.
    - [Exceptions.v]: the processor's registers that the descriptor tables are loaded
      into, how it delivers an exception (with double and triple faults), [init],
      the exception handlers, the panic handler, and [tests/stack_overflow.rs].
    - [System.v]: the executor with the tasks of [kernel_main] as a machine whose
      steps are atomic operations, interleaved with interrupts.
    - [Echo.v]: the machine from the outside: what is printed, by whom and in which order,
      and bursts of keys.  [Wakers.v]: the reference counts of the wakers, which the
      executor and the interrupt handler share.  [WakerMemory.v]: the memory of the
      executor, its tasks, maps and wakers on the heap, beside the machine.
    - [Refine.v]: the same two tasks as futures of [Task.v], and the simulation between
      the executor's functions and the machine.
    - [Kernel.v]: [kernel_main] from what the bootloader hands over to the state in
      which [System.v] starts, with interrupts behind its statements ([point]) and the memory
      of the executor and its tasks on the heap.  [KernelMemory.v]: [kernel_main] and the
      running executor on one heap.  [Panics.v]: the panic handler and
      [hlt_loop] behind it.
    - [Harness.v]: the serial port, the test runner and its panic handler, the exit port,
      and [tests/should_panic.rs].  [LibTests.v], [HeapTests.v]: the tests of the
      library, [tests/basic_boot.rs] and [tests/heap_allocation.rs] under the harness.
    - [Locks.v]: the spin locks: the code reduced to what it does to locks and to the
      interrupt flag, with an executable check that is sound for absence of deadlock,
      also where the code panics.

    ** What the theorems show

    - Allocators: whatever a client does, the blocks it holds are disjoint, aligned
      and inside the heap, the allocator's own data survives the client's stores,
      and no undefined behaviour occurs ([*_client_safe]); what each operation
      returns on every branch, when it panics, when memory is reused, and that the
      blocks of a size class are never lost.  [align_up] is specified on every address, the
      ones at the end of the address space included.
    - Memory: the frames that are handed out are usable, page aligned and never
      handed out twice; translation agrees with the walk of the tables; after
      [init_heap] every page of the heap is mapped to a frame of its own.
    - Console: what the screen shows is the last rows of the text, cut at line feeds
      and at the width of the screen; no index is out of bounds.
    - Exceptions: after [init], no exception ends in a triple fault, stack overflows
      included, and each of them is reported on the screen.
    - Tasks: the executors are first come first served and drain their queue.
    - Kernel: [kernel_boots] composes all of the above up to the executor, with the values
      and the executor's blocks on the heap, and goes on to its first sleep; from there,
      in every interleaving, the processor never sleeps while a scancode or
      a woken task is waiting, scancodes keep their order, every accepted one is
      handled, and which bursts of interrupts can make the kernel panic; bursts of up to
      100 keys are echoed completely and in order ([kernel_echoes_typing]); the machine
      these theorems are about refines the executor's functions; no lock is ever
      waited for, also where code panics ([kernel_never_spins_on_a_lock]); the wakers
      are reference counted correctly in the memory of the heap, and no interrupt handler
      allocates or frees ([executor_memory_safe]), nor does anything else once the processor has
      slept ([executor_allocates_before_first_sleep]); what [kernel_main] has put on the heap
      is still there however long the executor runs ([kernel_values_survive]).
    - Tests: the harness reports a success exactly when no test panicked, the tests of
      the library pass, and those of the heap fail for lack of memory only.
    - Some theorems state defects: [linked_list_alloc_panics_iff],
      [linked_list_free_bytes], [bump_high_heap_wraps], [vga_two_writers_overwrite],
      [kernel_task_queue_overflows], [stack_overflow_test_any_cause],
      [panic_message_scrolls_away].

    ** Dependencies

    Code of other crates is a parameter: a class of operations and a class of laws
    that state its documentation ([Heap], [PhysOps], [PagingOps], [Mapper],
    [PageOps], [ArrayQueue], [OnceCell], [AtomicWaker], [PcKeyboard],
    [ChainedPics], [ChainedPicsInit], [Gdt], [SerialPort]).  Each has an instance that
    satisfies the laws, which the examples beside the theorems run.  The [alloc]
    crate's [Box], [Vec], [Rc] and [Arc] and the processor's exceptions are modelled from
    the language's and the processor's documentation.

    ** Fuel

    Loops over ranges and lists are structural.  The loops that are not have fuel, and
    the theorems give an amount that is enough: [find_region_loop] (more than the
    number of nodes in the store), [Executor.run_ready_tasks] (one more than the
    queued and outstanding wake-ups), [SimpleExecutor.run] (one more than the polls
    left), [poll_keypresses] (one more than the waiting scancodes), [stack_overflow]
    (any bound after which the stack is used up).  [settle] gives the machine the
    [steps_left] operations that it needs to halt.  Delivering an exception takes at
    most [ATTEMPTS] = 4 attempts: the exception, one more, a double fault, a triple
    fault; [deliver_total] shows that this is enough.  Printed numbers have at most
    20 decimal or 16 hexadecimal digits.

    ** Not modelled

    Outside [Locks.v] each operation runs with its lock held, and a print is one step.
    In [System.v] the operations that allocate do not fail; [WakerMemory.v] runs beside it and stops
    the kernel when they do.
    The layouts of the futures, which the compiler chooses, of the queues of
    [crossbeam_queue], and of the nodes of [BTreeMap] are parameters of [WakerMemory.v];
    the state of a suspended future is kept in the machine and not in the bytes of its box.
    Formatting is that of [core]: a print is the list of the
    pieces it produces.  [kernel_main] ends at [executor.run()], which does not return,
    so the statements behind it, [test_main()] of the test build among them, are not modelled; nor is port I/O, beyond the values that
    are exchanged.  Functions that nothing calls
    ([main.rs]'s own [stack_overflow]) are covered by those of the tests. *)

From stdpp Require Import base list list_numbers numbers gmap sorting strings.
From Stdlib Require Import ZArith Lia.

#[global] Open Scope Z_scope.

(** ** Outcomes of Rust code *)

(** Why a computation panicked. *)
Inductive panic :=
| ArithOverflow
| AssertFailed
| UnwrapFailed (msg : string)
| IndexOutOfBounds
| ExplicitPanic (msg : string)
| FormattedPanic (msg : string) (args : list Z).

(** The outcome of running a piece of Rust code: a value, a panic, undefined
    behaviour (a raw pointer dereferenced where no value of its type is
    stored), or a loop that has not finished within the fuel given to it. *)
Inductive res (A : Type) :=
| Ok (a : A)
| Panic (p : panic)
| Undef
| Diverge.
Arguments Ok {A} a.
Arguments Panic {A} p.
Arguments Undef {A}.
Arguments Diverge {A}.

#[global] Instance res_ret : MRet res := @Ok.
#[global] Instance res_bind : MBind res := fun A B f c =>
  match c with
  | Ok a => f a
  | Panic p => Panic p
  | Undef => Undef
  | Diverge => Diverge
  end.
#[global] Instance res_fmap : FMap res := fun A B f c =>
  match c with
  | Ok a => Ok (f a)
  | Panic p => Panic p
  | Undef => Undef
  | Diverge => Diverge
  end.

Lemma res_bind_assoc {A B C} (r : res A) (f : A -> res B) (g : B -> res C) :
  ((r ≫= f) ≫= g) = (r ≫= fun a => f a ≫= g).
Proof. by destruct r. Qed.

#[global] Instance panic_eq_dec : EqDecision panic.
Proof. solve_decision. Defined.

(** [expect msg o] is [Option::expect]; [unwrap] is the same with no message. *)
Definition expect {A} (msg : string) (o : option A) : res A :=
  match o with Some a => Ok a | None => Panic (UnwrapFailed msg) end.
Definition unwrap {A} (o : option A) : res A := expect "" o.

(** The bytes of a string literal. *)
Fixpoint bytes_of (s : string) : list Z :=
  match s with
  | EmptyString => []
  | String a s' => Z.of_N (Ascii.N_of_ascii a) :: bytes_of s'
  end.

(** [assert! (b)] *)
Definition assert_ (b : bool) : res unit :=
  if b then Ok tt else Panic AssertFailed.

(** [l[i]] and [l[i] = x] on a slice: out of range they panic. *)
Definition index {A} (l : list A) (i : nat) : res A :=
  match l !! i with Some a => Ok a | None => Panic IndexOutOfBounds end.

Definition set_index {A} (l : list A) (i : nat) (x : A) : res (list A) :=
  if decide (i < length l)%nat then Ok (<[i := x]> l) else Panic IndexOutOfBounds.

Lemma index_ok {A} (l : list A) i x : l !! i = Some x -> index l i = Ok x.
Proof. unfold index. by intros ->. Qed.

Lemma set_index_ok {A} (l : list A) i x :
  (i < length l)%nat -> set_index l i x = Ok (<[i := x]> l).
Proof. intros. unfold set_index. by rewrite decide_True. Qed.

(** [iter().position(f)]: the index of the first element that satisfies [f]. *)
Fixpoint position {A} (f : A -> bool) (l : list A) : option nat :=
  match l with
  | [] => None
  | x :: l' => if f x then Some O else S <$> position f l'
  end.

Lemma position_Some {A} (f : A -> bool) l i :
  position f l = Some i <->
  exists x, l !! i = Some x /\ f x = true /\
    forall j y, (j < i)%nat -> l !! j = Some y -> f y = false.
Proof.
  revert i. induction l as [|x l IH]; intros i; simpl.
  { split; [done|]. by intros (y & ? & _). }
  destruct (f x) eqn:E.
  - split.
    + intros [= <-]. exists x. split_and!; [done|done|]. intros. lia.
    + intros (y & Hy & Hf & Hlt). destruct i as [|i]; [done|].
      rewrite (Hlt 0%nat x) in E by (done || lia). done.
  - rewrite fmap_Some. split.
    + intros (j & Hj & ->). apply IH in Hj as (y & Hy & Hf & Hlt).
      exists y. split_and!; [done|done|]. intros [|k] z Hk Hz; simpl in *; [congruence|].
      apply (Hlt k); [lia|done].
    + intros (y & Hy & Hf & Hlt). destruct i as [|i]; simpl in *; [congruence|].
      exists i. split; [|done]. apply IH. exists y. split_and!; [done|done|].
      intros j z Hj Hz. apply (Hlt (S j)); [lia|done].
Qed.

Lemma position_None {A} (f : A -> bool) l :
  position f l = None <-> Forall (fun x => f x = false) l.
Proof.
  induction l as [|x l IH]; simpl; [done|]. rewrite Forall_cons.
  destruct (f x); simpl; [split; [done|by intros [? _]]|].
  rewrite fmap_None. tauto.
Qed.

(** A [for] loop over a list of values, threading a state. *)
Fixpoint for_each {A S} (body : A -> S -> res S) (l : list A) (s : S) : res S :=
  match l with
  | [] => Ok s
  | x :: l' => s' ← body x s; for_each body l' s'
  end.

Lemma for_each_app {A S} (body : A -> S -> res S) l1 l2 s :
  for_each body (l1 ++ l2) s = for_each body l1 s ≫= for_each body l2.
Proof.
  revert s; induction l1 as [|x l1 IH]; intros s; simpl; [done|].
  destruct (body x s); simpl; auto.
Qed.

(** The loop rule: an invariant over the elements already visited. *)
Lemma for_each_inv {A S} (I : list A -> S -> Prop) (body : A -> S -> res S) l s :
  I [] s ->
  (forall done x rest s1, l = done ++ x :: rest -> I done s1 ->
    exists s2, body x s1 = Ok s2 /\ I (done ++ [x]) s2) ->
  exists s', for_each body l s = Ok s' /\ I l s'.
Proof.
  intros H0 Hstep.
  cut (forall rest done s1, l = done ++ rest -> I done s1 ->
         exists s', for_each body rest s1 = Ok s' /\ I l s').
  { intros H. by apply (H l [] s). }
  induction rest as [|x rest IH]; intros done s1 Hl HI; simpl.
  - exists s1. split; [done|]. by rewrite Hl, app_nil_r.
  - destruct (Hstep done x rest s1 Hl HI) as (s2 & Hb & HI2).
    rewrite Hb; simpl. apply (IH (done ++ [x])); [|done].
    by rewrite Hl, <- app_assoc.
Qed.

(** The same for a range of indices. *)
Lemma for_each_seq {S} (I : nat -> S -> Prop) (body : nat -> S -> res S) a n s :
  I a s ->
  (forall i s1, (a <= i < a + n)%nat -> I i s1 ->
    exists s2, body i s1 = Ok s2 /\ I (Datatypes.S i) s2) ->
  exists s', for_each body (seq a n) s = Ok s' /\ I (a + n)%nat s'.
Proof.
  revert a s. induction n as [|n IH]; intros a s H0 Hstep; simpl.
  - exists s. by rewrite Nat.add_0_r.
  - destruct (Hstep a s) as (s2 & -> & H2); [lia|done|]. simpl.
    rewrite Nat.add_succ_r. apply (IH (Datatypes.S a)); [done|].
    intros i s1 Hi. apply Hstep. lia.
Qed.

(** [overlay c src dst]: the first [c] elements of [dst] replaced by those of
    [src], which is what a copying loop has done after [c] turns. *)
Definition overlay {A} (c : nat) (src dst : list A) : list A := take c src ++ drop c dst.

Lemma overlay_insert {A} c (src dst : list A) x :
  src !! c = Some x -> (c < length dst)%nat ->
  <[c := x]> (overlay c src dst) = overlay (S c) src dst.
Proof.
  intros Hs Hc. unfold overlay. apply lookup_lt_Some in Hs as Hlt.
  destruct (lookup_lt_is_Some_2 dst c Hc) as [y Hy].
  rewrite (drop_S dst y c Hy), (take_S_r src c x Hs), <- app_assoc.
  rewrite insert_app_r_alt by (rewrite length_take; lia).
  rewrite length_take, Nat.min_l, Nat.sub_diag by lia. done.
Qed.

Lemma overlay_lookup {A} c (src dst : list A) i :
  (c <= i)%nat -> (c <= length src)%nat -> overlay c src dst !! i = dst !! i.
Proof.
  intros Hi Hc. unfold overlay. rewrite lookup_app_r by (rewrite length_take; lia).
  rewrite length_take, lookup_drop. f_equal. lia.
Qed.

Lemma length_overlay {A} c (src dst : list A) :
  (c <= length src)%nat -> (c <= length dst)%nat -> length (overlay c src dst) = length dst.
Proof. intros. unfold overlay. rewrite length_app, length_take, length_drop. lia. Qed.

Lemma overlay_all {A} (src dst : list A) :
  length src = length dst -> overlay (length dst) src dst = src.
Proof. intros E. unfold overlay. rewrite <- E, firstn_all, drop_ge by lia. apply app_nil_r. Qed.

(** ** Machine integers: [usize] and [u64] on x86_64 *)

Definition WORD : Z := 2 ^ 64.

(** [z] is a value of a 64-bit unsigned type. *)
Definition is_word (z : Z) : Prop := 0 <= z < WORD.

(** Whether arithmetic overflow panics (the dev profile) or wraps around (the
    release profile).  The manifest sets no profile, so both are of interest. *)
Class BuildProfile := overflow_checks : bool.

Definition dev_profile : BuildProfile := true.
Definition release_profile : BuildProfile := false.

Section words.
Context {profile : BuildProfile}.

(** [a + b], [a - b] on [usize]. *)
Definition uadd (a b : Z) : res Z :=
  if a + b <? WORD then Ok (a + b)
  else if overflow_checks then Panic ArithOverflow else Ok ((a + b) mod WORD).

Definition usub (a b : Z) : res Z :=
  if b <=? a then Ok (a - b)
  else if overflow_checks then Panic ArithOverflow else Ok ((a - b) mod WORD).

(** [a.checked_add(b)] *)
Definition checked_add (a b : Z) : option Z :=
  if a + b <? WORD then Some (a + b) else None.

(** [!a] *)
Definition unot (a : Z) : Z := Z.land (Z.lnot a) (Z.ones 64).

Lemma uadd_ok a b : a + b < WORD -> uadd a b = Ok (a + b).
Proof. intros H. unfold uadd. by rewrite (proj2 (Z.ltb_lt _ _) H). Qed.

Lemma usub_ok a b : b <= a -> usub a b = Ok (a - b).
Proof. intros H. unfold usub. by rewrite (proj2 (Z.leb_le _ _) H). Qed.

Lemma uadd_overflow a b :
  WORD <= a + b ->
  uadd a b = if overflow_checks then Panic ArithOverflow else Ok ((a + b) mod WORD).
Proof. intros H. unfold uadd. by rewrite (proj2 (Z.ltb_ge _ _) H). Qed.

Lemma usub_underflow a b :
  a < b ->
  usub a b = if overflow_checks then Panic ArithOverflow else Ok ((a - b) mod WORD).
Proof. intros H. unfold usub. by rewrite (proj2 (Z.leb_gt _ _) H). Qed.

Lemma checked_add_Some a b c :
  checked_add a b = Some c <-> c = a + b /\ a + b < WORD.
Proof. unfold checked_add. destruct (Z.ltb_spec (a + b) WORD); split; intros; simplify_eq; intuition (subst; try done; try lia). Qed.

Lemma checked_add_fits a b : a + b < WORD -> checked_add a b = Some (a + b).
Proof. intros. by apply checked_add_Some. Qed.

Lemma checked_add_None a b : checked_add a b = None <-> WORD <= a + b.
Proof. unfold checked_add. destruct (Z.ltb_spec (a + b) WORD); split; intros; simplify_eq; lia || done. Qed.
End words.

(** The arithmetic of the sources, in a scope of its own. *)
Declare Scope rust_scope.
Delimit Scope rust_scope with rust.
Notation "a +! b" := (uadd a b) (at level 50, left associativity) : rust_scope.
Notation "a -! b" := (usub a b) (at level 50, left associativity) : rust_scope.
Notation "'!' a" := (unot a) (at level 35, right associativity) : rust_scope.

(** Bounds of 64-bit values. *)
Ltac word_lia := unfold is_word, WORD in *; lia.

(** The operations that succeed: arithmetic that does not overflow, and indices in
    range.  [rust_simpl] runs a computation as far as these side conditions are
    provable. *)
Create Rewrite HintDb rust.
#[export] Hint Rewrite @uadd_ok @usub_ok @checked_add_fits using word_lia : rust.
#[export] Hint Rewrite @set_index_ok using lia : rust.
Ltac rust_simpl := repeat progress (autorewrite with rust; cbn [mbind res_bind]).

(** Powers of two: the legal alignments of a 64-bit target. *)
Definition is_power_of_two (a : Z) : bool := (0 <? a) && (a =? 2 ^ Z.log2 a).

Lemma pow2_word k : 0 <= k < 64 -> 0 < 2 ^ k <= 2 ^ 63.
Proof.
  intros Hk. split; [by apply Z.pow_pos_nonneg; lia|].
  apply Z.pow_le_mono_r; lia.
Qed.

Lemma is_power_of_two_iff a :
  0 <= a < WORD ->
  is_power_of_two a = true <-> exists k, 0 <= k < 64 /\ a = 2 ^ k.
Proof.
  intros Ha. unfold is_power_of_two. rewrite andb_true_iff, Z.ltb_lt, Z.eqb_eq.
  split.
  - intros [Hpos E]. exists (Z.log2 a). split; [|done].
    split; [apply Z.log2_nonneg|]. apply Z.log2_lt_pow2; unfold WORD in *; lia.
  - intros (k & Hk & ->). rewrite Z.log2_pow2 by lia. split; [|done].
    apply Z.pow_pos_nonneg; lia.
Qed.

(** Clearing the low [k] bits rounds down to a multiple of [2 ^ k]. *)
Lemma land_unot_ones x k :
  0 <= x < WORD -> 0 <= k <= 64 ->
  Z.land x (unot (2 ^ k - 1)) = x - x mod 2 ^ k.
Proof.
  intros Hx Hk. unfold unot.
  replace (2 ^ k - 1) with (Z.ones k) by (rewrite Z.ones_equiv; lia).
  rewrite Z.land_assoc, (Z.land_comm _ (Z.ones 64)), Z.land_assoc.
  rewrite (Z.land_comm (Z.ones 64)), Z.land_ones by lia.
  rewrite Z.mod_small by (exact Hx).
  rewrite <- Z.ldiff_land, Z.ldiff_ones_r, Z.shiftl_mul_pow2, Z.shiftr_div_pow2 by lia.
  pose proof (Z.div_mod x (2 ^ k) ltac:(apply Z.pow_nonzero; lia)). lia.
Qed.
