(* ===== verification/Fmt.v ===== *)
(** * Formatting

    What the kernel uses of [core::fmt]: the decimal digits of a [usize] and the
    hexadecimal digits of a pointer ([{}] and [{:p}]), as the bytes that are
    printed. *)

From S2P Require Import Prelude.
From stdpp Require Import base option strings list.
From Stdlib Require Import ZArith Lia.
Local Open Scope Z_scope.

Definition digit (d : Z) : Z := if d <? 10 then 48 + d else 87 + d.

(** The digits of [n] in base [b], most significant first, in front of [acc]. *)
Fixpoint digits (fuel : nat) (b n : Z) (acc : list Z) : list Z :=
  match fuel with
  | O => acc
  | S fuel' =>
      let acc := digit (n mod b) :: acc in
      if n <? b then acc else digits fuel' b (n / b) acc
  end.

(** 20 decimal and 16 hexadecimal digits are enough for 64 bits. *)
Definition decimal (n : Z) : list Z := digits 20 10 n [].
Definition pointer (p : Z) : list Z := bytes_of "0x" ++ digits 16 16 p [].

(** The number that digits stand for. *)
Definition digit_value (c : Z) : Z := if c <? 58 then c - 48 else c - 87.
Definition value (b : Z) (s : list Z) : Z := foldl (fun n c => n * b + digit_value c) 0 s.

Lemma digit_value_digit d : 0 <= d < 16 -> digit_value (digit d) = d.
Proof.
  intros. unfold digit, digit_value. destruct (Z.ltb_spec d 10).
  - rewrite (proj2 (Z.ltb_lt _ _)); lia.
  - rewrite (proj2 (Z.ltb_ge _ _)); lia.
Qed.

Lemma foldl_value_digits fuel b : forall n acc,
  2 <= b <= 16 -> 0 <= n < b ^ Z.of_nat fuel ->
  exists s, digits fuel b n acc = s ++ acc /\ value b s = n /\
    Forall (fun c => 48 <= c <= 57 \/ 97 <= c <= 102) s.
Proof.
  induction fuel as [|fuel IH]; intros n acc Hb Hn.
  { exists []. split_and!; [done| |constructor]. simpl in *. unfold value. simpl. lia. }
  assert (Hd : 0 <= n mod b < 16) by (pose proof (Z.mod_pos_bound n b); lia).
  assert (Hc : 48 <= digit (n mod b) <= 57 \/ 97 <= digit (n mod b) <= 102)
    by (unfold digit; destruct (Z.ltb_spec (n mod b) 10); lia).
  simpl. destruct (Z.ltb_spec n b) as [Hlt|Hge].
  - exists [digit (n mod b)]. split_and!; [done| |by constructor].
    unfold value. simpl. rewrite digit_value_digit, Z.mod_small by lia. done.
  - destruct (IH (n / b) (digit (n mod b) :: acc)) as (s & -> & Hv & Hs).
    + done.
    + split; [apply Z.div_pos; lia|]. apply Z.div_lt_upper_bound; [lia|].
      rewrite Nat2Z.inj_succ, Z.pow_succ_r in Hn by lia. lia.
    + exists (s ++ [digit (n mod b)]). rewrite <- app_assoc. split_and!; [done| |].
      * unfold value in *. rewrite foldl_app, Hv. simpl. rewrite digit_value_digit by done.
        pose proof (Z.div_mod n b). lia.
      * apply Forall_app. split; [done|by constructor].
Qed.

(** A 64-bit number can be read back from its decimal digits. *)
Lemma decimal_value n : is_word n ->
  value 10 (decimal n) = n /\ Forall (fun c => 48 <= c <= 57 \/ 97 <= c <= 102) (decimal n).
Proof.
  intros Hn. destruct (foldl_value_digits 20 10 n []) as (s & E & Hv & Hs).
  - lia.
  - split; [apply Hn|]. destruct Hn as [_ Hn]. eapply Z.lt_trans; [exact Hn|reflexivity].
  - unfold decimal. rewrite E, app_nil_r. done.
Qed.
