(* ===== verification/Regions.v ===== *)
(** * Memory regions and linked nodes stored in raw memory

    The allocators of [src/min-rust-os/src/allocator] hand out byte ranges and
    keep their bookkeeping inside the ranges they have not handed out, as list
    nodes written through raw pointers.  This file holds what they share: byte
    ranges and their disjointness, a memory of typed nodes in which an
    overlapping write destroys a node, and chains of nodes in that memory. *)

From S2P Require Import Prelude.
From stdpp Require Import base list gmap sorting.
From Stdlib Require Import ZArith Lia Permutation.
Local Open Scope Z_scope.

(** ** Byte ranges *)

Record region := Region { r_addr : Z; r_size : Z }.

#[global] Instance region_eq_dec : EqDecision region.
Proof. solve_decision. Defined.

Definition r_end (r : region) : Z := r_addr r + r_size r.

Definition disj (r1 r2 : region) : Prop :=
  r_end r1 <= r_addr r2 \/ r_end r2 <= r_addr r1.

Definition within (lo hi : Z) (r : region) : Prop :=
  lo <= r_addr r /\ r_end r <= hi.

Definition subregion (r' r : region) : Prop :=
  r_addr r <= r_addr r' /\ r_end r' <= r_end r.

(** No two ranges of the list overlap. *)
Fixpoint pairwise_disj (l : list region) : Prop :=
  match l with
  | [] => True
  | r :: l' => Forall (disj r) l' /\ pairwise_disj l'
  end.

(** The total number of bytes of a list of ranges. *)
Definition total_size (l : list region) : Z := foldr (fun r n => r_size r + n) 0 l.

(** Arithmetic on the bounds of ranges. *)
Ltac region_lia :=
  unfold disj, within, subregion, r_end in *; simpl in *; lia.

(** A [Forall] over a list given by its elements. *)
Ltac forall_elems tac :=
  repeat (apply Forall_cons; split; [tac|]); try apply Forall_nil; try done.

#[global] Instance disj_sym : Symmetric disj.
Proof. intros r1 r2 [H|H]; [by right|by left]. Qed.

#[global] Instance subregion_refl : Reflexive subregion.
Proof. intros r. unfold subregion. lia. Qed.

Lemma disj_sub r r1 r2 : subregion r1 r -> disj r r2 -> disj r1 r2.
Proof. unfold subregion, disj, r_end. lia. Qed.

Lemma pairwise_disj_app l1 l2 :
  pairwise_disj (l1 ++ l2) <->
  pairwise_disj l1 /\ pairwise_disj l2 /\ Forall (fun r => Forall (disj r) l2) l1.
Proof.
  induction l1 as [|r l1 IH]; simpl.
  - rewrite Forall_nil. tauto.
  - rewrite Forall_app, IH, Forall_cons. tauto.
Qed.

(** Disjointness does not depend on the order of the list. *)
#[global] Instance pairwise_disj_perm : Proper (Permutation ==> iff) pairwise_disj.
Proof.
  intros l1 l2 Hp. induction Hp as [|r l1 l2 Hp IH|r1 r2 l|]; simpl.
  - done.
  - rewrite IH. split; intros [Hf Hd]; (split; [|done]).
    + by rewrite <- Hp.
    + by rewrite Hp.
  - rewrite !Forall_cons. split; intros ([??]&?&?); split_and!; auto;
      by apply disj_sym.
  - by etrans.
Qed.

Lemma total_size_cons r l : total_size (r :: l) = r_size r + total_size l.
Proof. done. Qed.

Lemma total_size_app l1 l2 : total_size (l1 ++ l2) = total_size l1 + total_size l2.
Proof. induction l1 as [|r l1 IH]; simpl; [done|]. rewrite IH. lia. Qed.

#[global] Instance total_size_perm : Proper (Permutation ==> eq) total_size.
Proof. intros l1 l2 Hp. induction Hp; simpl; lia. Qed.

(** A range may be replaced by disjoint parts of it. *)
Lemma pairwise_disj_split r rs l :
  pairwise_disj (r :: l) -> pairwise_disj rs -> Forall (fun r' => subregion r' r) rs ->
  pairwise_disj (rs ++ l).
Proof.
  simpl. intros [Hr Hl] Hrs Hsub. rewrite pairwise_disj_app. split_and!; [done..|].
  eapply Forall_impl; [exact Hsub|]. intros r' Hr'. simpl in *.
  eapply Forall_impl; [exact Hr|]. intros r2 H2. by eapply disj_sub.
Qed.

Lemma pairwise_disj_cons_elem r r' l :
  pairwise_disj (r :: l) -> r' ∈ l -> disj r r'.
Proof. simpl. rewrite Forall_forall. naive_solver. Qed.

Lemma pairwise_disj_nodup l :
  pairwise_disj l -> Forall (fun r => 0 < r_size r) l -> NoDup (r_addr <$> l).
Proof.
  induction l as [|r l IH]; intros Hd Hs; csimpl; [constructor|].
  destruct Hd as [Hr Hd]. apply Forall_cons in Hs as [Hsr Hs].
  constructor; [|by apply IH]. intros (r' & E & Hin)%list_elem_of_fmap.
  rewrite Forall_forall in Hr, Hs. specialize (Hr r' Hin). specialize (Hs r' Hin).
  unfold disj, r_end in Hr. lia.
Qed.

(** Shrinking the ranges keeps them disjoint. *)
Lemma pairwise_disj_shrink (f : region -> region) l :
  (forall r, r ∈ l -> subregion (f r) r) -> pairwise_disj l -> pairwise_disj (f <$> l).
Proof.
  induction l as [|r l IH]; intros Hf Hd; csimpl; [done|].
  destruct Hd as [Hr Hd]. split; [|apply IH; [set_solver|done]].
  apply Forall_fmap, Forall_forall. intros r' Hin. rewrite Forall_forall in Hr. simpl.
  apply (disj_sub r); [set_solver|]. symmetry. apply (disj_sub r'); [set_solver|].
  symmetry. auto.
Qed.

(** Disjoint ranges inside an interval do not exceed its length in total. *)
Lemma pairwise_disj_total lo hi l :
  lo <= hi -> pairwise_disj l ->
  Forall (within lo hi) l -> Forall (fun r => 0 <= r_size r) l ->
  total_size l <= hi - lo.
Proof.
  remember (length l) as n eqn:Hn. revert lo hi l Hn.
  induction (lt_wf n) as [n _ IH]; intros lo hi [|r l] -> Hlh Hpd Hw Hs; [simpl; lia|].
  apply Forall_cons in Hw as [Hwr Hw]. apply Forall_cons in Hs as [Hsr Hs].
  destruct Hpd as [Hdr Hpd].
  set (P := fun r' => r_end r' <= r_addr r).
  rewrite <- (filter_app_complement P l) in Hpd, Hw, Hs, Hdr.
  simpl. rewrite <- (filter_app_complement P l), total_size_app.
  apply pairwise_disj_app in Hpd as (Hd1 & Hd2 & _).
  apply Forall_app in Hw as [Hw1 Hw2], Hs as [Hs1 Hs2], Hdr as [_ Hr2].
  unfold within, r_end in Hwr.
  assert (total_size (filter P l) <= r_addr r - lo) as H1.
  { apply (IH (length (filter P l))); auto.
    - simpl. pose proof (length_filter P l). lia.
    - lia.
    - rewrite Forall_forall in Hw1 |- *. intros x Hx. pose proof (Hw1 x Hx) as [? ?].
      apply list_elem_of_filter in Hx as [HP _]. split; [done|exact HP]. }
  assert (total_size (filter (fun r' => ~ P r') l) <= hi - r_end r) as H2.
  { apply (IH (length (filter (fun r' => ~ P r') l))); auto.
    - simpl. pose proof (length_filter (fun r' => ~ P r') l). lia.
    - unfold r_end. lia.
    - rewrite Forall_forall in Hw2, Hr2 |- *. intros x Hx.
      pose proof (Hw2 x Hx) as [? ?]. pose proof (Hr2 x Hx) as Hdx.
      apply list_elem_of_filter in Hx as [HP _]. unfold P, disj, within in *. lia. }
  unfold r_end in *. lia.
Qed.

(** ** Nodes in raw memory *)

(** [m !! a = Some n] when the bytes starting at [a] hold the node [n].  A write
    of [len] bytes at [a] destroys every node it overlaps, so a node that is
    read later has not been touched since it was written. *)
Section node_memory.
Context {N : Type} (node_size : Z).
Implicit Types (m : gmap Z N) (a k : Z) (n : N).

(** Arbitrary bytes are written to [[a, a + len)]. *)
Definition clobber a (len : Z) m : gmap Z N :=
  filter (fun kn : Z * N => kn.1 + node_size <= a \/ a + len <= kn.1) m.

(** [ptr.write(n)] *)
Definition write_node a n m : gmap Z N := <[a := n]> (clobber a node_size m).

(** [*ptr], undefined when no node is stored there. *)
Definition read_node m a : res N :=
  match m !! a with Some n => Ok n | None => Undef end.

Lemma lookup_clobber_ne a len m k :
  k + node_size <= a \/ a + len <= k -> clobber a len m !! k = m !! k.
Proof.
  intros Hk. unfold clobber. destruct (m !! k) as [n|] eqn:E.
  - by apply map_lookup_filter_Some.
  - apply map_lookup_filter_None. by left.
Qed.

Lemma lookup_write_eq a n m : write_node a n m !! a = Some n.
Proof. apply lookup_insert_eq. Qed.

Lemma lookup_write_ne a n m k :
  0 < node_size -> k + node_size <= a \/ a + node_size <= k ->
  write_node a n m !! k = m !! k.
Proof.
  intros Hs Hk. unfold write_node.
  rewrite lookup_insert_ne by lia. by apply lookup_clobber_ne.
Qed.

End node_memory.

(** ** Chains of nodes *)

(** [chain val next m p l]: following [next] from the pointer [p] visits exactly
    the addresses of [l], each holding a node with the given value. *)
Section chains.
Context {N V : Type} (node_size : Z) (val : N -> V) (next : N -> option Z).
Implicit Types (m : gmap Z N) (p : option Z) (l : list (Z * V)).

Fixpoint chain m p l : Prop :=
  match l with
  | [] => p = None
  | (a, v) :: l' =>
      p = Some a /\ exists n, m !! a = Some n /\ val n = v /\ chain m (next n) l'
  end.

Lemma chain_frame m m' p l :
  (forall a v, (a, v) ∈ l -> m' !! a = m !! a) -> chain m p l -> chain m' p l.
Proof.
  revert p. induction l as [|[a v] l IH]; intros p Hm Hc; simpl in *; [done|].
  destruct Hc as (-> & n & Ha & Hv & Hc). split; [done|]. exists n. split_and!.
  - rewrite (Hm a v); [done|set_solver].
  - done.
  - apply IH; [|done]. intros b v' Hin. apply (Hm b v'). set_solver.
Qed.

(** A chain is determined by its start. *)
Lemma chain_inj m p l1 l2 : chain m p l1 -> chain m p l2 -> l1 = l2.
Proof.
  revert p l2. induction l1 as [|[a v] l1 IH]; intros p [|[b v'] l2]; simpl.
  - done.
  - intros -> (H & _). done.
  - intros (-> & _) H. done.
  - intros (-> & n & Ha & <- & H1) ([= <-] & n' & Hb & <- & H2). simplify_eq.
    f_equal. by eapply IH.
Qed.

Lemma chain_dom m p l a : chain m p l -> a ∈ l.*1 -> a ∈ dom m.
Proof.
  revert p. induction l as [|[b v] l IH]; intros p Hc Hin; [set_solver|].
  destruct Hc as (_ & n & Hb & _ & Hc). csimpl in Hin.
  apply elem_of_cons in Hin as [->|Hin]; [by apply elem_of_dom_2 in Hb|by eapply IH].
Qed.

(** A chain without repetitions is no longer than the memory is large. *)
Lemma chain_length m p l : chain m p l -> NoDup l.*1 -> (length l <= size m)%nat.
Proof.
  intros Hc Hd. rewrite <- size_dom, <- (length_fmap fst).
  rewrite <- (size_list_to_set (C := gset Z)) by done.
  apply subseteq_size. intros a Ha. apply elem_of_list_to_set in Ha.
  by eapply chain_dom.
Qed.

(** The bytes a node of the chain occupies. *)
Definition node_region (av : Z * V) : region := Region av.1 node_size.

(** Writes outside the nodes of a chain leave it in place. *)
Lemma chain_clobber m p l a len :
  chain m p l -> Forall (fun av => disj (node_region av) (Region a len)) l ->
  chain (clobber node_size a len m) p l.
Proof.
  intros Hc Hd. eapply chain_frame; [|done]. intros k v Hin.
  rewrite Forall_forall in Hd. specialize (Hd _ Hin).
  apply lookup_clobber_ne. exact Hd.
Qed.

Lemma chain_write m p l a n :
  0 < node_size -> chain m p l ->
  Forall (fun av => disj (node_region av) (Region a node_size)) l ->
  chain (write_node node_size a n m) p l.
Proof.
  intros Hs Hc Hd. eapply chain_frame; [|done]. intros k v Hin.
  rewrite Forall_forall in Hd. specialize (Hd _ Hin).
  apply lookup_write_ne; [done|]. exact Hd.
Qed.

(** Pushing a node in front of a chain. *)
Lemma chain_push m p l a n :
  0 < node_size -> chain m p l -> next n = p ->
  Forall (fun av => disj (node_region av) (Region a node_size)) l ->
  chain (write_node node_size a n m) (Some a) ((a, val n) :: l).
Proof.
  intros Hs Hc Hn Hd. simpl. split; [done|]. exists n.
  rewrite lookup_write_eq. split_and!; [done|done|].
  rewrite Hn. by apply chain_write.
Qed.
End chains.
