(* ===== verification/Layout.v ===== *)
(** * Alignment and layouts

    [align_up] of [src/min-rust-os/src/allocator.rs] and the part of
    [core::alloc::Layout] that the allocators use.

    [Layout] follows the standard library of the toolchain the lock file dates
    from: the size rounded up to the alignment must fit in a [usize]. *)

From S2P Require Import Prelude.
From stdpp Require Import base list.
From Stdlib Require Import ZArith Lia.
Local Open Scope Z_scope.
Local Open Scope rust_scope.

(** ** align_up *)

(** The alignments a [Layout] can have. *)
Definition valid_align (align : Z) : Prop := exists k, 0 <= k < 64 /\ align = 2 ^ k.

Section align_up.
Context {profile : BuildProfile}.

(** [(addr + align - 1) & !(align - 1)] *)
Definition align_up (addr align : Z) : res Z :=
  t ← addr +! align;
  t ← t -! 1;
  m ← align -! 1;
  Ok (Z.land t (! m)).
End align_up.

(** The least multiple of [align] that is at least [addr]. *)
Definition round_up (addr align : Z) : Z := addr + (- addr) mod align.

Lemma valid_align_pos a : valid_align a -> 0 < a <= 2 ^ 63.
Proof. intros (k & Hk & ->). by apply pow2_word. Qed.

Lemma round_up_aligned addr align : 0 < align -> round_up addr align mod align = 0.
Proof.
  intros H. unfold round_up.
  pose proof (Z.div_mod (- addr) align ltac:(lia)).
  replace (addr + (- addr) mod align) with ((- (- addr / align)) * align) by lia.
  apply Z.mod_mul. lia.
Qed.

Lemma round_up_bounds addr align :
  0 < align -> addr <= round_up addr align < addr + align.
Proof. intros H. unfold round_up. pose proof (Z.mod_pos_bound (- addr) align H). lia. Qed.

Lemma round_up_least addr align x :
  0 < align -> addr <= x -> x mod align = 0 -> round_up addr align <= x.
Proof.
  intros H Hx Hm.
  pose proof (round_up_bounds addr align H). pose proof (round_up_aligned addr align H) as Hr.
  apply Z.mod_divide in Hm as [q ->]; [|lia]. apply Z.mod_divide in Hr as [p Hp]; [|lia].
  rewrite Hp in *. assert (p < q + 1) by (apply (Z.mul_lt_mono_pos_r align); lia).
  apply Z.mul_le_mono_nonneg_r; lia.
Qed.

Lemma round_up_id addr align : 0 < align -> addr mod align = 0 -> round_up addr align = addr.
Proof.
  intros H Hm. unfold round_up. rewrite Z.mod_opp_l_z by lia. lia.
Qed.

(** Rounding up is adding [align - 1] and rounding down. *)
Lemma round_up_mask addr align :
  0 < align ->
  round_up addr align = addr + align - 1 - (addr + align - 1) mod align.
Proof.
  intros H. pose proof (round_up_bounds addr align H). pose proof (round_up_aligned addr align H) as Hr.
  pose proof (Z.div_mod (addr + align - 1) align ltac:(lia)).
  pose proof (Z.mod_pos_bound (addr + align - 1) align H).
  apply Z.mod_divide in Hr as [p Hp]; [|lia].
  set (q := (addr + align - 1) / align) in *.
  assert (p = q) by nia. nia.
Qed.

(** A multiple of a power of two is a multiple of every smaller one. *)
Lemma aligned_weaken x a b :
  valid_align a -> valid_align b -> a <= b -> x mod b = 0 -> x mod a = 0.
Proof.
  intros (i & Hi & ->) (j & Hj & ->) Hle Hx.
  assert (i <= j) by (apply (Z.pow_le_mono_r_iff 2); lia).
  replace j with (i + (j - i)) in Hx by lia. rewrite Z.pow_add_r in Hx by lia.
  assert (0 < 2 ^ i) by (apply Z.pow_pos_nonneg; lia).
  assert (0 < 2 ^ (j - i)) by (apply Z.pow_pos_nonneg; lia).
  apply Z.mod_divide in Hx as [q ->]; [|lia].
  apply Z.mod_divide; [lia|]. exists (q * 2 ^ (j - i)). ring.
Qed.

Section align_up_facts.
Context {profile : BuildProfile}.

Lemma align_up_ok addr align :
  0 <= addr -> valid_align align -> addr + align < WORD ->
  align_up addr align = Ok (round_up addr align).
Proof.
  intros Ha Hal Hb. pose proof (valid_align_pos _ Hal) as Hp.
  destruct Hal as (k & Hk & ->). unfold align_up.
  rust_simpl.
  rewrite land_unot_ones, round_up_mask by lia. done.
Qed.

(** In the release profile, an address so high that rounding it up leaves the
    address space is rounded to 0. *)
Lemma align_up_wraps addr align :
  overflow_checks = false ->
  is_word addr -> valid_align align -> WORD < addr + align ->
  align_up addr align = Ok 0.
Proof.
  intros Hp Ha Hal Hb. pose proof (valid_align_pos _ Hal) as Hpos.
  destruct Hal as (k & Hk & ->). unfold is_word, WORD in *. unfold align_up.
  rewrite uadd_overflow by (unfold WORD; lia). rewrite Hp. simpl.
  replace ((addr + 2 ^ k) mod WORD) with (addr + 2 ^ k - WORD).
  2: { apply (Z.mod_unique _ _ 1); unfold WORD; lia. }
  rust_simpl.
  rewrite land_unot_ones by (unfold WORD; lia).
  rewrite Z.mod_small by (unfold WORD; lia). f_equal. lia.
Qed.
End align_up_facts.

(** ** core::alloc::Layout *)

Record Layout := mkLayout { layout_size : Z; layout_align : Z }.

#[global] Instance Layout_eq_dec : EqDecision Layout.
Proof. solve_decision. Defined.

(** What the type guarantees of its values. *)
Definition layout_valid (l : Layout) : Prop :=
  valid_align (layout_align l) /\ 0 <= layout_size l /\ layout_size l <= WORD - 1 - (layout_align l - 1).

(** [Layout::from_size_align] *)
Definition from_size_align (size align : Z) : option Layout :=
  if negb (is_power_of_two align) then None
  else if WORD - 1 - (align - 1) <? size then None
  else Some (mkLayout size align).

(** [Layout::align_to] *)
Definition align_to (l : Layout) (a : Z) : option Layout :=
  from_size_align (layout_size l) (Z.max (layout_align l) a).

(** [Layout::pad_to_align] *)
Definition pad_to_align (l : Layout) : Layout :=
  mkLayout (round_up (layout_size l) (layout_align l)) (layout_align l).

Lemma from_size_align_valid s a l :
  is_word s -> is_word a -> from_size_align s a = Some l ->
  l = mkLayout s a /\ layout_valid l.
Proof.
  intros Hs Ha. unfold from_size_align.
  destruct (is_power_of_two a) eqn:E; simpl; [|done].
  destruct (Z.ltb_spec (WORD - 1 - (a - 1)) s); [done|]. intros [= <-].
  split; [done|]. unfold layout_valid; simpl.
  apply is_power_of_two_iff in E; [|done]. unfold is_word in Hs. split_and!; [done|lia|lia].
Qed.

Lemma from_size_align_Some s a :
  layout_valid (mkLayout s a) -> from_size_align s a = Some (mkLayout s a).
Proof.
  intros (Ha & Hs & Hm); simpl in *. unfold from_size_align.
  pose proof (valid_align_pos _ Ha).
  assert (is_power_of_two a = true) as ->.
  { apply is_power_of_two_iff; [unfold WORD; lia|done]. }
  simpl. destruct (Z.ltb_spec (WORD - 1 - (a - 1)) s); [lia|done].
Qed.

Lemma valid_align_max a b : valid_align a -> valid_align b -> valid_align (Z.max a b).
Proof. intros. destruct (Z.max_spec a b) as [[_ ->]|[_ ->]]; done. Qed.

Lemma pad_to_align_valid l :
  layout_valid l -> layout_valid (pad_to_align l) /\ layout_size l <= layout_size (pad_to_align l).
Proof.
  intros (Ha & Hs & Hm). pose proof (valid_align_pos _ Ha).
  unfold layout_valid, pad_to_align; simpl.
  pose proof (round_up_bounds (layout_size l) (layout_align l) ltac:(lia)) as Hb.
  split; [|lia]. split_and!; [done|lia|].
  enough (round_up (layout_size l) (layout_align l) <= WORD - layout_align l) by lia.
  apply round_up_least; [lia|lia|].
  destruct Ha as (k & Hk & Ea). rewrite Ea. unfold WORD.
  replace 64 with (k + (64 - k)) by lia. rewrite Z.pow_add_r by lia.
  assert (0 < 2 ^ k) by lia.
  replace (2 ^ k * 2 ^ (64 - k) - 2 ^ k) with ((2 ^ (64 - k) - 1) * 2 ^ k) by ring.
  apply Z.mod_mul. lia.
Qed.

(** ** Properties of align_up *)

(** Close to the top of the address space the two build profiles part. *)
Lemma align_up_overflow (profile : BuildProfile) (addr align : Z) :
  is_word addr -> valid_align align -> WORD <= addr + align ->
  align_up addr align =
    if overflow_checks then Panic ArithOverflow
    else if addr + align =? WORD then Ok addr else Ok 0.
Proof.
  intros Ha Hal Hb. destruct overflow_checks eqn:Hp.
  - unfold align_up. rewrite uadd_overflow by done. by rewrite Hp.
  - destruct (Z.eqb_spec (addr + align) WORD) as [E|E].
    2: { apply align_up_wraps; [done..|lia]. }
    pose proof (valid_align_pos _ Hal). destruct Hal as (k & Hk & ->).
    unfold align_up. rewrite uadd_overflow, Hp by done. simpl.
    rewrite E, Z.mod_same by (unfold WORD; lia). rewrite (usub_underflow 0 1), Hp by lia. simpl.
    rewrite usub_ok by lia. simpl.
    change ((0 - 1) mod WORD) with (WORD - 1).
    rewrite land_unot_ones by (unfold WORD; lia). f_equal.
    replace addr with (WORD - 2 ^ k) by lia.
    replace ((WORD - 1) mod 2 ^ k) with (2 ^ k - 1); [lia|].
    apply (Z.mod_unique _ _ (2 ^ (64 - k) - 1)); [lia|].
    unfold WORD. replace 64 with (k + (64 - k)) at 1 by lia.
    rewrite Z.pow_add_r by lia. ring.
Qed.

(** [r] is the least multiple of [align] that is not below [addr]. *)
Definition least_aligned (addr align r : Z) : Prop :=
  addr <= r /\ r mod align = 0 /\ forall x, addr <= x -> x mod align = 0 -> r <= x.

Lemma round_up_least_aligned addr align : 0 < align -> least_aligned addr align (round_up addr align).
Proof.
  intros H. split_and!; [apply round_up_bounds; lia|by apply round_up_aligned|].
  intros x Hx Hm. by apply round_up_least.
Qed.

(** The size of the address space is a multiple of every alignment. *)
Lemma WORD_aligned align : valid_align align -> WORD mod align = 0.
Proof.
  intros (k & Hk & ->). unfold WORD. replace 64 with ((64 - k) + k) by lia.
  rewrite Z.pow_add_r by lia. apply Z.mod_mul. lia.
Qed.

(** The release profile computes the rounded address whenever there is one. *)
Lemma align_up_release (profile : BuildProfile) (addr align : Z) :
  overflow_checks = false -> is_word addr -> valid_align align -> round_up addr align < WORD ->
  align_up addr align = Ok (round_up addr align).
Proof.
  intros Hc Ha Hal Hr. pose proof (valid_align_pos _ Hal) as Hp. pose proof (WORD_aligned _ Hal) as HW.
  destruct (decide (addr + align < WORD)) as [Hlt|Hge]; [apply align_up_ok; unfold is_word in Ha; (done || lia)|].
  rewrite align_up_overflow, Hc by (done || lia). destruct (Z.eqb_spec (addr + align) WORD) as [E|E].
  - rewrite round_up_id; [done|lia|]. replace addr with (WORD - align) by lia.
    by rewrite Zminus_mod, HW, Z.mod_same, Z.mod_0_l by lia.
  - pose proof (round_up_bounds addr align ltac:(lia)) as Hb.
    pose proof (round_up_aligned addr align ltac:(lia)) as Hm.
    apply Z.mod_divide in Hm as [q Hq]; [|lia]. apply Z.mod_divide in HW as [p HW]; [|lia].
    rewrite HW, Hq in *. assert (q < p) by nia. nia.
Qed.

(** C26: what [align_up] computes, for every address and every alignment that a
    [Layout] can have.  As long as the address plus the alignment fits in a [usize], it is
    the least multiple of the alignment that is not below the address, in both build
    profiles.  Otherwise the dev profile panics, also for the address [WORD - align], which is
    aligned.  The release profile returns that address, and 0 for a higher
    one, for which there is no aligned address that fits. *)
Theorem align_up_correct (profile : BuildProfile) (addr align : Z) :
  is_word addr -> valid_align align ->
  (addr + align < WORD -> exists r, align_up addr align = Ok r /\ least_aligned addr align r) /\
  (WORD <= addr + align -> overflow_checks = true -> align_up addr align = Panic ArithOverflow) /\
  (addr + align = WORD -> least_aligned addr align addr /\
     (overflow_checks = false -> align_up addr align = Ok addr)) /\
  (WORD < addr + align -> (forall x, least_aligned addr align x -> x = WORD) /\
     (overflow_checks = false -> align_up addr align = Ok 0)).
Proof.
  intros Ha Hal. pose proof (valid_align_pos _ Hal) as Hp. pose proof (WORD_aligned _ Hal) as HW.
  unfold is_word in Ha. split_and!.
  - intros Hb. exists (round_up addr align). rewrite align_up_ok by (done || lia).
    split; [done|]. apply round_up_least_aligned. lia.
  - intros Hb Hc. rewrite align_up_overflow by done. by rewrite Hc.
  - intros Hb. split.
    + split_and!; [lia| |done]. replace addr with (WORD - align) by lia.
      by rewrite Zminus_mod, HW, Z.mod_same, Z.mod_0_l by lia.
    + intros Hc. rewrite align_up_overflow, Hc by (done || lia). by rewrite (proj2 (Z.eqb_eq _ _)).
  - intros Hb. split.
    + intros x (H1 & H2 & H3). specialize (H3 WORD ltac:(lia) HW). destruct (decide (x = WORD)) as [|Hne]; [done|].
      apply Z.mod_divide in H2 as [q ->]; [|lia]. apply Z.mod_divide in HW as [p HW]; [|lia].
      rewrite HW in *. assert (q < p) by nia. nia.
    + intros Hc. rewrite align_up_overflow, Hc by (done || lia). by rewrite (proj2 (Z.eqb_neq _ _)) by lia.
Qed.

Lemma align_up_correct_witness :
  (exists r, @align_up dev_profile 0x444444440005 16 = Ok r /\ least_aligned 0x444444440005 16 r) /\
  @align_up dev_profile (WORD - 3) 8 = Panic ArithOverflow /\ @align_up release_profile (WORD - 3) 8 = Ok 0.
Proof.
  assert (H16 : valid_align 16) by (exists 4; split; [lia|reflexivity]).
  assert (H8 : valid_align 8) by (exists 3; split; [lia|reflexivity]).
  split_and!.
  - apply (align_up_correct dev_profile 0x444444440005 16); [unfold is_word, WORD; lia|exact H16|unfold WORD; lia].
  - apply (align_up_correct dev_profile (WORD - 3) 8); [unfold is_word, WORD; lia|exact H8|lia|reflexivity].
  - apply (align_up_correct release_profile (WORD - 3) 8); [unfold is_word, WORD; lia|exact H8|lia|reflexivity].
Defined.
