(* ===== verification/GlobalAlloc.v ===== *)
(** * The allocator interface

    [core::alloc::GlobalAlloc] as the kernel's allocators implement it, what its
    contract promises to a client that frees and writes only what it owns, and
    the [Dummy] allocator of [src/min-rust-os/src/allocator.rs].  The client
    theorems are proved against the contract; [Bump], [LinkedList] and
    [FixedSizeBlock] discharge it.

    Every method of [GlobalAlloc] takes the allocator's spin lock for its whole
    body, so a call is one function on the state behind the lock. *)

From S2P Require Import Prelude Regions Layout.
From stdpp Require Import base list sorting strings.
From Stdlib Require Import ZArith Lia Permutation.
Local Open Scope Z_scope.

(** A block owned by a client: the pointer and the layout it was asked with. *)
Record allocation := Alloc { al_ptr : Z; al_layout : Layout }.

#[global] Instance allocation_eq_dec : EqDecision allocation.
Proof. solve_decision. Defined.

Definition al_region (x : allocation) : region := Region (al_ptr x) (layout_size (al_layout x)).

(** The trait.  [ga_write] is not a method: it is the effect on the allocator's
    memory of a client that stores bytes in [[addr, addr + len)]. *)
Class GlobalAlloc (A : Type) := {
  ga_alloc : A -> Layout -> res (Z * A);
  ga_dealloc : A -> Z -> Layout -> res A;
  ga_write : A -> Z -> Z -> A;
}.

(** The layouts a client may ask for (a zero size is undefined behaviour). *)
Definition layout_ok (l : Layout) : Prop := layout_valid l /\ 0 < layout_size l.

(** The same as a test, for concrete layouts. *)
Definition layout_okb (l : Layout) : bool :=
  is_power_of_two (layout_align l) && (layout_align l <? WORD) && (0 <? layout_size l) &&
  (layout_size l <=? WORD - 1 - (layout_align l - 1)).

Lemma layout_okb_spec l : layout_okb l = true <-> layout_ok l.
Proof.
  unfold layout_okb, layout_ok, layout_valid.
  rewrite !andb_true_iff, !Z.ltb_lt, !Z.leb_le. split.
  - intros (((Hp & ?) & ?) & ?). split_and!; try lia.
    apply is_power_of_two_iff; [|done]. unfold is_power_of_two in Hp.
    rewrite andb_true_iff, Z.ltb_lt in Hp. lia.
  - intros ((Ha & ? & ?) & ?). pose proof (valid_align_pos _ Ha).
    split_and!; try (unfold WORD in *; lia).
    apply is_power_of_two_iff; [unfold WORD; lia|done].
Qed.

(** What a client may rely on: its blocks do not overlap, lie in the heap
    [[lo, hi)], are aligned as requested and are not null. *)
Record client_ok (lo hi : Z) (live : list allocation) : Prop := {
  co_disjoint : pairwise_disj (al_region <$> live);
  co_within : Forall (fun x => within lo hi (al_region x)) live;
  co_aligned : Forall (fun x => al_ptr x mod layout_align (al_layout x) = 0) live;
  co_nonnull : Forall (fun x => al_ptr x <> 0) live;
}.

(** The block [x] can join the blocks [live]. *)
Definition fresh_block (lo hi : Z) (live : list allocation) (x : allocation) : Prop :=
  al_ptr x <> 0 /\ al_ptr x mod layout_align (al_layout x) = 0 /\
  within lo hi (al_region x) /\ Forall (disj (al_region x)) (al_region <$> live).

Lemma client_ok_nil lo hi : client_ok lo hi [].
Proof. split; simpl; auto. Qed.

Lemma client_ok_cons lo hi live x :
  client_ok lo hi live -> fresh_block lo hi live x -> client_ok lo hi (x :: live).
Proof. intros [] (?&?&?&?). split; simpl; auto. Qed.

Lemma client_ok_perm lo hi live live' :
  live ≡ₚ live' -> client_ok lo hi live -> client_ok lo hi live'.
Proof.
  intros Hp [Hd Hw Ha Hn]. split.
  - by rewrite <- Hp.
  - by rewrite <- Hp.
  - by rewrite <- Hp.
  - by rewrite <- Hp.
Qed.

Lemma client_ok_tail lo hi live x : client_ok lo hi (x :: live) -> client_ok lo hi live.
Proof.
  intros [[? ?] Hw Ha Hn].
  apply Forall_cons in Hw as [_ ?], Ha as [_ ?], Hn as [_ ?]. by split.
Qed.

(** Returned, or panicked: neither undefined behaviour nor an endless loop. *)
Definition returns_or_panics {A} (P : A -> Prop) (r : res A) : Prop :=
  match r with Ok a => P a | Panic _ => True | Undef => False | Diverge => False end.

Lemma returns_or_panics_bind {A B} (P : A -> Prop) (Q : B -> Prop) (r : res A) (f : A -> res B) :
  returns_or_panics P r -> (forall a, P a -> returns_or_panics Q (f a)) ->
  returns_or_panics Q (r ≫= f).
Proof. destruct r; simpl; auto. Qed.

(** ** The contract *)

(** [ac_inv lo hi a live]: the state [a] of an allocator over the heap [[lo, hi)]
    is consistent with the clients owning the blocks [live]. *)
Class AllocContract (A : Type) `{!GlobalAlloc A} := {
  ac_inv : Z -> Z -> A -> list allocation -> Prop;
  ac_alloc lo hi a live l :
    ac_inv lo hi a live -> layout_ok l ->
    returns_or_panics (fun '(p, a') =>
      p = 0 /\ ac_inv lo hi a' live \/
      fresh_block lo hi live (Alloc p l) /\ ac_inv lo hi a' (Alloc p l :: live))
      (ga_alloc a l);
  ac_dealloc lo hi a live p l :
    ac_inv lo hi a (Alloc p l :: live) ->
    exists a', ga_dealloc a p l = Ok a' /\ ac_inv lo hi a' live;
  ac_write lo hi a live x addr len :
    ac_inv lo hi a live -> x ∈ live -> subregion (Region addr len) (al_region x) ->
    ac_inv lo hi (ga_write a addr len) live;
  ac_perm lo hi a live live' :
    live ≡ₚ live' -> ac_inv lo hi a live -> ac_inv lo hi a live';
}.

(** An allocator whose [alloc] never panics. *)
Class AllocTotal (A : Type) `{AllocContract A} :=
  ac_total lo hi a live l :
    ac_inv lo hi a live -> layout_ok l -> exists p a', ga_alloc a l = Ok (p, a').

#[global] Instance ac_inv_perm {A} `{AllocContract A} lo hi (a : A) :
  Proper (Permutation ==> iff) (ac_inv lo hi a).
Proof. intros l1 l2 Hp. split; apply ac_perm; [done|by symmetry]. Qed.

(** ** Clients *)

(** What a client does: ask for a block, free its [i]-th block, or store [len]
    bytes at offset [off] of its [i]-th block. *)
Inductive command :=
| CAlloc (l : Layout)
| CFree (i : nat)
| CStore (i : nat) (off len : Z).

Definition command_ok (c : command) : Prop :=
  match c with CAlloc l => layout_ok l | _ => True end.

Definition commands_okb (cs : list command) : bool :=
  forallb (fun c => match c with CAlloc l => layout_okb l | _ => true end) cs.

Lemma commands_okb_sound cs : commands_okb cs = true -> Forall command_ok cs.
Proof.
  unfold commands_okb. rewrite forallb_forall, Forall_forall.
  intros H c Hc. apply list_elem_of_In in Hc. specialize (H c Hc).
  destruct c; simpl; [by apply layout_okb_spec|done..].
Qed.

Section client.
Context {A : Type} `{!GlobalAlloc A}.

Definition exec_command (c : command) (s : A * list allocation) : res (A * list allocation) :=
  let '(a, live) := s in
  match c with
  | CAlloc l =>
      pa ← ga_alloc a l;
      if (pa.1 =? 0) then Ok (pa.2, live) else Ok (pa.2, Alloc pa.1 l :: live)
  | CFree i =>
      match live !! i with
      | None => Ok s
      | Some x => a' ← ga_dealloc a (al_ptr x) (al_layout x); Ok (a', delete i live)
      end
  | CStore i off len =>
      match live !! i with
      | None => Ok s
      | Some x =>
          if (0 <=? off) && (0 <=? len) && (off + len <=? layout_size (al_layout x))
          then Ok (ga_write a (al_ptr x + off) len, live) else Ok s
      end
  end.

Definition run_client : list command -> A * list allocation -> res (A * list allocation) :=
  for_each exec_command.

Context `{!AllocContract A}.

(** The state of the allocator and of its client agree. *)
Definition heap_ok (lo hi : Z) (s : A * list allocation) : Prop :=
  ac_inv lo hi s.1 s.2 /\ client_ok lo hi s.2.

Lemma alloc_heap_ok lo hi (a : A) live l :
  heap_ok lo hi (a, live) -> layout_ok l ->
  returns_or_panics (heap_ok lo hi) (exec_command (CAlloc l) (a, live)).
Proof.
  intros [Hi Hc] Hl; simpl in *.
  eapply returns_or_panics_bind; [by apply ac_alloc|].
  intros [p a'] [[-> Hi']|[Hf Hi']]; simpl; [by split|].
  rewrite (proj2 (Z.eqb_neq p 0)) by apply Hf. simpl.
  split; [done|]. by apply client_ok_cons.
Qed.

Lemma dealloc_heap_ok lo hi (a : A) live i :
  heap_ok lo hi (a, live) ->
  exists s', exec_command (CFree i) (a, live) = Ok s' /\ heap_ok lo hi s'.
Proof.
  intros [Hi Hc]; simpl in *.
  destruct (live !! i) as [[p l]|] eqn:E; [|by eexists].
  pose proof (delete_Permutation _ _ _ E) as Hp. rewrite Hp in Hi.
  destruct (ac_dealloc _ _ _ _ _ _ Hi) as (a' & Ha & Hi'). simpl. rewrite Ha. simpl.
  eexists; split; [done|]. split; [done|].
  eapply client_ok_tail, client_ok_perm; [apply Hp|done].
Qed.

Lemma store_heap_ok lo hi (a : A) live i off len :
  heap_ok lo hi (a, live) ->
  exists s', exec_command (CStore i off len) (a, live) = Ok s' /\ heap_ok lo hi s'.
Proof.
  intros [Hi Hc]; simpl in *.
  destruct (live !! i) as [x|] eqn:E; [|by eexists].
  destruct (_ && _) eqn:Hb; [|by eexists].
  rewrite !andb_true_iff, !Z.leb_le in Hb.
  eexists; split; [done|]. split; [|done]. simpl.
  eapply ac_write; [done|by eapply list_elem_of_lookup_2|].
  unfold subregion, al_region, r_end; simpl. lia.
Qed.

Lemma exec_heap_ok lo hi s c :
  heap_ok lo hi s -> command_ok c -> returns_or_panics (heap_ok lo hi) (exec_command c s).
Proof.
  destruct s as [a live], c as [l|i|i off len]; intros Hs Hc.
  - by apply alloc_heap_ok.
  - by destruct (dealloc_heap_ok lo hi a live i Hs) as (s' & -> & ?).
  - by destruct (store_heap_ok lo hi a live i off len Hs) as (s' & -> & ?).
Qed.

Lemma run_client_ok lo hi s cs :
  heap_ok lo hi s -> Forall command_ok cs ->
  returns_or_panics (heap_ok lo hi) (run_client cs s).
Proof.
  unfold run_client. intros Hs Hc. revert s Hs.
  induction Hc as [|c cs Hc Hcs IH]; intros s Hs; simpl; [done|].
  eapply returns_or_panics_bind; [by apply exec_heap_ok|]. auto.
Qed.

Lemma run_client_total `{!AllocTotal A} lo hi s cs :
  heap_ok lo hi s -> Forall command_ok cs ->
  exists s', run_client cs s = Ok s' /\ heap_ok lo hi s'.
Proof.
  unfold run_client. intros Hs Hc. revert s Hs.
  induction Hc as [|c cs Hc Hcs IH]; intros s Hs; cbn [for_each]; [by eexists|].
  assert (exists s', exec_command c s = Ok s' /\ heap_ok lo hi s') as (s' & -> & Hs').
  { pose proof (exec_heap_ok lo hi s c Hs Hc) as Hr. destruct s as [a live].
    destruct c as [l|i|i off len].
    - destruct Hs as [Hi _]. destruct (ac_total _ _ _ _ _ Hi Hc) as (p & a' & Ha).
      simpl in *. rewrite Ha in *. simpl in *. destruct (p =? 0); eauto.
    - by apply dealloc_heap_ok.
    - by apply store_heap_ok. }
  simpl. auto.
Qed.
End client.

(** ** The allocator that never allocates *)

Module Dummy.
Record t := Dummy {}.

Definition alloc (_ : t) (_ : Layout) : res (Z * t) := Ok (0, Dummy).

Definition dealloc (_ : t) (_ : Z) (_ : Layout) : res t :=
  Panic (ExplicitPanic "dealloc should never be called").
End Dummy.

#[global] Instance Dummy_GlobalAlloc : GlobalAlloc Dummy.t := {
  ga_alloc := Dummy.alloc;
  ga_dealloc := Dummy.dealloc;
  ga_write a _ _ := a;
}.

(** Clients of [Dummy] never own a block, so its [dealloc] is never reached. *)
#[global, program] Instance Dummy_contract : AllocContract Dummy.t := {
  ac_inv _ _ _ live := live = [];
}.
Next Obligation. intros lo hi [] live l -> Hl. left. done. Qed.
Next Obligation. intros lo hi a live p l Hl. discriminate Hl. Qed.
Next Obligation. intros lo hi a live x addr len Hl _ _. exact Hl. Qed.
Next Obligation. intros lo hi a live live' Hp ->. by apply Permutation_nil. Qed.

#[global] Instance Dummy_total : AllocTotal Dummy.t.
Proof. intros lo hi a live l _ _. by eexists _, _. Qed.

(** Whatever a client of the [Dummy] allocator does, it never obtains a block
    and the panic in [dealloc] is never reached. *)
Theorem dummy_client_owns_nothing (cs : list command) :
  Forall command_ok cs ->
  exists a, run_client cs (Dummy.Dummy, []) = Ok (a, []).
Proof.
  intros Hcs.
  destruct (run_client_total 0 0 (Dummy.Dummy, []) cs) as ([a live] & Hr & Hi & _).
  - split; [done|apply client_ok_nil].
  - done.
  - simpl in Hi. subst live. by exists a.
Qed.

Lemma dummy_client_owns_nothing_witness :
  exists a, run_client [CAlloc (mkLayout 8 8); CFree 0; CStore 0 0 8] (Dummy.Dummy, []) = Ok (a, []).
Proof.
  apply (dummy_client_owns_nothing [CAlloc (mkLayout 8 8); CFree 0; CStore 0 0 8]).
  apply commands_okb_sound. reflexivity.
Defined.
