(* ===== verification/Bump.v ===== *)
(** * The bump allocator

    [src/min-rust-os/src/allocator/bump.rs]: [BumpAllocator] keeps the first
    unused address and a count of live blocks, and starts over when the count
    returns to 0. *)

From S2P Require Import Prelude Regions Layout GlobalAlloc.
From stdpp Require Import base list.
From Stdlib Require Import ZArith Lia Permutation.
Local Open Scope Z_scope.
Local Open Scope rust_scope.

Module BumpAllocator.
Record t := mk {
  heap_start : Z;
  heap_end : Z;
  next : Z;
  allocations : Z;
}.

Definition new : t := mk 0 0 0 0.

Section ops.
Context {profile : BuildProfile}.

Definition init (self : t) (heap_start heap_size : Z) : res t :=
  heap_end ← heap_start +! heap_size;
  Ok (mk heap_start heap_end heap_start (allocations self)).

Definition alloc (bump : t) (layout : Layout) : res (Z * t) :=
  alloc_start ← align_up (next bump) (layout_align layout);
  match checked_add alloc_start (layout_size layout) with
  | None => Ok (0, bump)
  | Some alloc_end =>
      if heap_end bump <? alloc_end then Ok (0, bump)
      else
        n ← allocations bump +! 1;
        Ok (alloc_start, mk (heap_start bump) (heap_end bump) alloc_end n)
  end.

Definition dealloc (bump : t) (ptr : Z) (layout : Layout) : res t :=
  n ← allocations bump -! 1;
  if n =? 0 then Ok (mk (heap_start bump) (heap_end bump) (heap_start bump) n)
  else Ok (mk (heap_start bump) (heap_end bump) (next bump) n).
End ops.

(** The invariant: [next] separates the blocks handed out from the unused rest,
    [allocations] counts the live blocks, and with none the heap is unused. *)
Record inv (lo hi : Z) (b : t) (live : list allocation) : Prop := {
  inv_start : heap_start b = lo;
  inv_end : heap_end b = hi;
  inv_bounds : 0 < lo <= next b /\ next b <= hi /\ hi < 2 ^ 63;
  inv_count : allocations b = Z.of_nat (length live);
  inv_live : Forall (fun x => within lo (next b) (al_region x)) live;
  inv_disj : pairwise_disj (al_region <$> live);
  inv_size : Forall (fun x => 0 < layout_size (al_layout x)) live;
  inv_reset : live = [] -> next b = lo;
}.

(** Each live block takes at least a byte, so the counter cannot overflow. *)
Lemma inv_count_bound lo hi b live :
  inv lo hi b live -> Z.of_nat (length live) <= next b - lo.
Proof.
  intros [_ _ Hb _ Hl Hd Hs _].
  transitivity (total_size (al_region <$> live)).
  - clear -Hs. induction Hs as [|x live Hx Hs IH]; [simpl; lia|].
    cbn [length fmap list_fmap total_size foldr]. unfold total_size in IH. simpl in *. lia.
  - apply pairwise_disj_total; [lia|done|by apply Forall_fmap|].
    apply Forall_fmap. eapply Forall_impl; [exact Hs|]. simpl. lia.
Qed.

Lemma inv_perm lo hi b live live' : live ≡ₚ live' -> inv lo hi b live -> inv lo hi b live'.
Proof.
  intros Hp [Es Ee Hb Hc Hl Hd Hsz Hr]. split; auto; try by rewrite <- Hp.
  intros ->. by apply Hr, Permutation_nil.
Qed.

Section facts.
Context {profile : BuildProfile}.

(** A fresh allocator over [[start, start + size)]. *)
Definition fresh (start size : Z) : t := mk start (start + size) start 0.

Lemma init_ok start size :
  start + size < WORD -> init new start size = Ok (fresh start size).
Proof. intros H. unfold init. by rewrite uadd_ok. Qed.

Lemma fresh_inv start size :
  0 < start -> 0 <= size -> start + size < 2 ^ 63 -> inv start (start + size) (fresh start size) [].
Proof. intros. split; simpl; auto; lia. Qed.

(** The block [alloc] would return, when it fits. *)
Definition fits (b : t) (l : Layout) : bool :=
  round_up (next b) (layout_align l) + layout_size l <=? heap_end b.

Definition bumped (b : t) (l : Layout) : t :=
  mk (heap_start b) (heap_end b)
     (round_up (next b) (layout_align l) + layout_size l) (allocations b + 1).

Lemma alloc_eq lo hi b live l :
  inv lo hi b live -> layout_ok l ->
  alloc b l = Ok (if fits b l then (round_up (next b) (layout_align l), bumped b l) else (0, b)).
Proof.
  intros Hi [(Ha & _ & Hs) Hpos]. pose proof (inv_count_bound _ _ _ _ Hi).
  destruct Hi as [Es Ee Hb Hc _ _ _ _]. pose proof (valid_align_pos _ Ha).
  pose proof (round_up_bounds (next b) (layout_align l) ltac:(lia)).
  unfold alloc, fits. rewrite align_up_ok by (try done; unfold WORD; lia). simpl.
  destruct (Z.leb_spec (round_up (next b) (layout_align l) + layout_size l) (heap_end b)).
  - rewrite checked_add_fits by (unfold WORD; lia).
    rewrite (proj2 (Z.ltb_ge _ _)) by lia. rewrite uadd_ok by (unfold WORD; lia). done.
  - destruct (checked_add _ _) as [e|] eqn:E; [|done].
    apply checked_add_Some in E as [-> _]. rewrite (proj2 (Z.ltb_lt _ _)) by lia. done.
Qed.

Lemma bumped_inv lo hi b live l :
  inv lo hi b live -> layout_ok l -> fits b l = true ->
  let x := Alloc (round_up (next b) (layout_align l)) l in
  fresh_block lo hi live x /\ inv lo hi (bumped b l) (x :: live).
Proof.
  intros [Es Ee Hb Hc Hl Hd Hsz Hr] [(Ha & _ & Hs) Hpos] Hf x.
  pose proof (valid_align_pos _ Ha). unfold fits in Hf. rewrite Z.leb_le in Hf.
  pose proof (round_up_bounds (next b) (layout_align l) ltac:(lia)) as Hru.
  assert (Forall (disj (al_region x)) (al_region <$> live)) as Hdx.
  { apply Forall_fmap. eapply Forall_impl; [exact Hl|].
    intros y [_ Hy]. right. unfold r_end in *; simpl in *. lia. }
  split.
  - split_and!; simpl; [lia|by apply round_up_aligned; lia|..|done].
    split; unfold r_end; simpl; lia.
  - split; simpl; [done|done|lia|rewrite Hc; simpl; lia| |done|by constructor|done].
    constructor; [split; unfold r_end; simpl; lia|].
    eapply Forall_impl; [exact Hl|]. intros y [? ?]. split; [done|]. etrans; [done|]. lia.
Qed.

Lemma bump_dealloc_inv lo hi b live p l :
  inv lo hi b (Alloc p l :: live) ->
  exists b', dealloc b p l = Ok b' /\ inv lo hi b' live.
Proof.
  intros [Es Ee Hb Hc Hl Hd Hsz Hr]. simpl in Hc, Hd. destruct Hd as [_ Hd].
  apply Forall_cons in Hl as [_ Hl], Hsz as [_ Hsz].
  unfold dealloc. rust_simpl.
  destruct (Z.eqb_spec (allocations b - 1) 0) as [E|E]; eexists; (split; [done|]).
  - destruct live as [|y live]; [|simpl in Hc; lia].
    split; simpl; auto; lia.
  - split; simpl; [done|done|lia|lia|done|done|done|]. intros ->. simpl in Hc. lia.
Qed.

#[export] Instance BumpAllocator_GlobalAlloc : GlobalAlloc t := {
  ga_alloc := alloc;
  ga_dealloc := dealloc;
  ga_write b _ _ := b;
}.

#[export, program] Instance BumpAllocator_contract : AllocContract t := { ac_inv := inv }.
Next Obligation.
  intros lo hi b live l Hi Hl. simpl. rewrite (alloc_eq lo hi b live l Hi Hl). simpl.
  destruct (fits b l) eqn:Hf; [right|by left]. by apply bumped_inv.
Qed.
Next Obligation. intros. by apply bump_dealloc_inv. Qed.
Next Obligation. intros. done. Qed.
Next Obligation. intros. by eapply inv_perm. Qed.

#[export] Instance BumpAllocator_total : AllocTotal t.
Proof. intros lo hi b live l Hi Hl. simpl. rewrite (alloc_eq lo hi b live l Hi Hl). by destruct (fits b l); eexists _, _. Qed.
End facts.
End BumpAllocator.

Import BumpAllocator.

(** [alloc] of the bump allocator either returns the least suitably aligned
    address at or above [next], leaving the rest of the heap for later, or, when
    no such block ends inside the heap, returns null and changes nothing. *)
Theorem bump_alloc_spec (profile : BuildProfile) (lo hi : Z) (b : t) (live : list allocation) (l : Layout) :
  inv lo hi b live -> layout_ok l ->
  (exists p, alloc b l = Ok (p, mk lo hi (p + layout_size l) (allocations b + 1)) /\
     fresh_block lo hi live (Alloc p l) /\
     forall q, next b <= q -> q mod layout_align l = 0 -> p <= q) \/
  (alloc b l = Ok (0, b) /\
     forall q, next b <= q -> q mod layout_align l = 0 -> hi < q + layout_size l).
Proof.
  intros Hi Hl. rewrite (alloc_eq lo hi b live l Hi Hl).
  pose proof (valid_align_pos _ (proj1 (proj1 Hl))).
  assert (forall q, next b <= q -> q mod layout_align l = 0 ->
            round_up (next b) (layout_align l) <= q) as Hleast.
  { intros q Hq Hm. apply round_up_least; [lia|done|done]. }
  destruct (fits b l) eqn:Hf; [left|right].
  - destruct (bumped_inv lo hi b live l Hi Hl Hf) as [Hfb _].
    eexists. split_and!; [|exact Hfb|exact Hleast].
    unfold bumped. by rewrite (inv_start _ _ _ _ Hi), (inv_end _ _ _ _ Hi).
  - split; [done|]. intros q Hq Hm. specialize (Hleast q Hq Hm).
    unfold fits in Hf. rewrite Z.leb_gt, (inv_end _ _ _ _ Hi) in Hf. lia.
Qed.

Lemma bump_alloc_spec_witness :
  (exists p, @alloc dev_profile (fresh 0x1001 64) (mkLayout 8 8)
               = Ok (p, mk 0x1001 0x1041 (p + 8) (0 + 1)) /\
     fresh_block 0x1001 0x1041 [] (Alloc p (mkLayout 8 8)) /\
     forall q, 0x1001 <= q -> q mod 8 = 0 -> p <= q) \/
  (@alloc dev_profile (fresh 0x1001 64) (mkLayout 8 8) = Ok (0, fresh 0x1001 64) /\
     forall q, 0x1001 <= q -> q mod 8 = 0 -> 0x1041 < q + 8).
Proof.
  apply (bump_alloc_spec dev_profile 0x1001 0x1041 (fresh 0x1001 64) [] (mkLayout 8 8)).
  - apply (fresh_inv 0x1001 64); lia.
  - apply layout_okb_spec. reflexivity.
Defined.

(** C17: a client of a bump allocator whose heap ends below 2^63, so that no alignment
    carries an address past the end of the address space, never sees a panic, an
    overflow of the counter or undefined behaviour, in either build profile: whatever it
    allocates, frees and stores, its blocks stay disjoint, aligned and inside
    the heap. *)
Theorem bump_client_safe (profile : BuildProfile) (start len : Z) (cs : list command) :
  0 < start -> 0 <= len -> start + len < 2 ^ 63 -> Forall command_ok cs ->
  exists b s, init new start len = Ok b /\ run_client cs (b, []) = Ok s /\
    client_ok start (start + len) s.2.
Proof.
  intros H1 H2 H3 Hcs. exists (fresh start len).
  destruct (run_client_total start (start + len) (fresh start len, []) cs) as (s & Hr & _ & Hc).
  - split; [by apply fresh_inv|apply client_ok_nil].
  - done.
  - exists s. split_and!; [apply init_ok; unfold WORD; lia|done|done].
Qed.

Lemma bump_client_safe_witness :
  exists b s, @init dev_profile new 0x444444440000 102400 = Ok b /\
    @run_client _ (@BumpAllocator_GlobalAlloc dev_profile)
      [CAlloc (mkLayout 24 8); CAlloc (mkLayout 1 64); CStore 0 0 1; CFree 1] (b, []) = Ok s /\
    client_ok 0x444444440000 (0x444444440000 + 102400) s.2.
Proof.
  apply (bump_client_safe dev_profile 0x444444440000 102400); [lia..|].
  apply commands_okb_sound. reflexivity.
Defined.

(** C40: once a client has freed all its blocks, whatever it did before and in whatever order
    it freed them, the bump allocator is exactly as it was after [init]: the complete heap is
    available again.  This is for a heap that ends below [2 ^ 63], in both profiles. *)
Theorem bump_reset_when_all_freed (profile : BuildProfile) (start len : Z) (cs : list command) (b0 b : t) :
  0 < start -> 0 <= len -> start + len < 2 ^ 63 -> Forall command_ok cs ->
  init new start len = Ok b0 -> run_client cs (b0, []) = Ok (b, []) -> b = b0.
Proof.
  intros H1 H2 H3 Hcs Hb Hr. rewrite init_ok in Hb by (unfold WORD; lia). injection Hb as <-.
  destruct (run_client_total start (start + len) (fresh start len, []) cs) as (s & Hr' & Hi & _).
  - split; [by apply fresh_inv|apply client_ok_nil].
  - done.
  - rewrite Hr in Hr'. injection Hr' as <-. destruct Hi as [Es Ee _ Hc _ _ _ Hn].
    specialize (Hn eq_refl). destruct b; simpl in *. by subst.
Qed.

Lemma bump_reset_when_all_freed_witness :
  exists b,
  @run_client _ (@BumpAllocator_GlobalAlloc dev_profile)
    [CAlloc (mkLayout 24 8); CAlloc (mkLayout 1 64); CFree 0; CFree 0]
    (fresh 0x444444440000 102400, []) = Ok (b, []) /\ b = fresh 0x444444440000 102400.
Proof.
  exists (fresh 0x444444440000 102400). split; [reflexivity|].
  apply (bump_reset_when_all_freed dev_profile 0x444444440000 102400
    [CAlloc (mkLayout 24 8); CAlloc (mkLayout 1 64); CFree 0; CFree 0]); [lia..| |reflexivity|reflexivity].
  apply commands_okb_sound. reflexivity.
Defined.

(** The allocator after its first block, of [n] bytes. *)
Lemma alloc_first (profile : BuildProfile) (start len n : Z) :
  0 < start -> 0 < n <= len -> start + len < WORD ->
  alloc (fresh start len) (mkLayout n 1) = Ok (start, mk start (start + len) (start + n) 1).
Proof.
  intros Hs Hn Hl. unfold alloc, fresh. cbn [next layout_align layout_size heap_end heap_start allocations].
  rewrite align_up_ok by (try lia; by exists 0). rewrite round_up_id by (try lia; apply Z.mod_1_r). cbn [mbind res_bind].
  rewrite checked_add_fits by lia. rewrite (proj2 (Z.ltb_ge _ _)) by lia. by rewrite uadd_ok.
Qed.

(** C38: [alloc] checks the addition of the size for overflow but not the one in
    [align_up].  Take any heap with a first block of [n] bytes in it, so high that rounding
    the next address up to an alignment leaves the address space.  An allocation with
    that alignment panics in the dev profile.  In the release profile it returns null but counts
    as a live block and moves [next] down to the bottom of memory: the next block that
    would end below the heap is handed out there, outside of the heap. *)
Theorem bump_high_heap_wraps (profile : BuildProfile) (start len n : Z) (l l' : Layout) :
  0 < start -> 0 < n <= len -> start + len < WORD -> layout_ok l -> layout_ok l' ->
  WORD < start + n + layout_align l ->
  let p := round_up (layout_size l) (layout_align l') in
  p + layout_size l' <= start ->
  exists b b1, init new start len = Ok b /\ alloc b (mkLayout n 1) = Ok (start, b1) /\
    if overflow_checks then alloc b1 l = Panic ArithOverflow
    else exists b2 b3, alloc b1 l = Ok (0, b2) /\ allocations b2 = 2 /\
      alloc b2 l' = Ok (p, b3) /\ r_end (Region p (layout_size l')) <= start.
Proof.
  intros Hs Hn Hl [(Ha & _ & Hsz) Hpos] [(Ha' & _ & _) Hpos'] Hb p Hp.
  pose proof (valid_align_pos _ Ha). pose proof (valid_align_pos _ Ha').
  pose proof (round_up_bounds (layout_size l) (layout_align l') ltac:(lia)) as Hr. fold p in Hr.
  exists (fresh start len), (mk start (start + len) (start + n) 1).
  split_and!; [by apply init_ok|by apply alloc_first|].
  pose proof (align_up_overflow profile (start + n) (layout_align l)) as Eup.
  specialize (Eup ltac:(unfold is_word; lia) Ha ltac:(lia)).
  destruct overflow_checks eqn:Hc; [unfold alloc; cbn [next]; by rewrite Eup|].
  rewrite (proj2 (Z.eqb_neq _ _)) in Eup by lia. exists (mk start (start + len) (layout_size l) 2). eexists.
  split_and!; [|reflexivity| |exact Hp].
  { unfold alloc. cbn [next]. rewrite Eup. cbn [mbind res_bind heap_end heap_start allocations].
    rewrite checked_add_fits by lia. rewrite (proj2 (Z.ltb_ge _ _)), uadd_ok by (lia || done). reflexivity. }
  unfold alloc. cbn [next].
  rewrite align_up_release by (done || fold p; unfold is_word; lia). fold p. cbn [mbind res_bind heap_end heap_start allocations].
  rewrite checked_add_fits by lia. rewrite (proj2 (Z.ltb_ge _ _)), uadd_ok by (lia || done). reflexivity.
Qed.

(** A heap of 56 bytes at the very top, and blocks of 16 and 8 bytes. *)
Lemma bump_high_heap_wraps_witness :
  exists b b1, @init release_profile new (WORD - 64) 56 = Ok b /\ @alloc release_profile b (mkLayout 24 1) = Ok (WORD - 64, b1) /\
    exists b2 b3, @alloc release_profile b1 (mkLayout 16 128) = Ok (0, b2) /\ allocations b2 = 2 /\
      @alloc release_profile b2 (mkLayout 8 8) = Ok (16, b3) /\ r_end (Region 16 8) <= WORD - 64.
Proof.
  apply (bump_high_heap_wraps release_profile (WORD - 64) 56 24 (mkLayout 16 128) (mkLayout 8 8));
    try (unfold WORD; simpl; lia); try (by apply layout_okb_spec). done.
Defined.
