(* ===== verification/LinkedList.v ===== *)
(** * The linked list allocator

    [src/min-rust-os/src/allocator/linked_list.rs]: free regions form a singly
    linked list whose nodes are written into the free regions themselves.  The
    model keeps the memory the nodes live in, so that following a pointer to
    memory that holds no node is undefined behaviour, and a client's stores can
    destroy nodes.

    The specification is a plain list of free regions; the refinement lemmas
    relate the two. *)

From S2P Require Import Prelude Regions Layout GlobalAlloc.
From stdpp Require Import base list gmap strings.
From Stdlib Require Import ZArith Lia Permutation.
Local Open Scope Z_scope.
Local Open Scope rust_scope.

Module LinkedListAllocator.
(** [next] is the address of the next node. *)
Record ListNode := mkNode { node_size : Z; node_next : option Z }.

(** [mem::size_of::<ListNode>()] and [mem::align_of::<ListNode>()] on x86_64. *)
Definition size_of_ListNode : Z := 16.
Definition align_of_ListNode : Z := 8.

(** The allocator and the memory that holds the nodes of its list. *)
Record t := mk { head : ListNode; mem : gmap Z ListNode }.

Definition ListNode_new (size : Z) : ListNode := mkNode size None.

(** A node is known by its address. *)
Definition start_addr (addr : Z) : Z := addr.

Definition new (m : gmap Z ListNode) : t := mk (ListNode_new 0) m.

Section ops.
Context {profile : BuildProfile}.

Definition end_addr (addr : Z) (node : ListNode) : res Z :=
  start_addr addr +! node_size node.

Definition add_free_region (self : t) (addr size : Z) : res t :=
  aligned ← align_up addr align_of_ListNode;
  _ ← assert_ (aligned =? addr);
  _ ← assert_ (size_of_ListNode <=? size);
  let node := mkNode (node_size (ListNode_new size)) (node_next (head self)) in
  Ok (mk (mkNode (node_size (head self)) (Some addr))
         (write_node size_of_ListNode addr node (mem self))).

Definition init (self : t) (heap_start heap_size : Z) : res t :=
  add_free_region self heap_start heap_size.

(** [Ok None] is the [Err(())] of the code. *)
Definition alloc_from_region (addr : Z) (region : ListNode) (size align : Z) : res (option Z) :=
  alloc_start ← align_up (start_addr addr) align;
  match checked_add alloc_start size with
  | None => Ok None
  | Some alloc_end =>
      e ← end_addr addr region;
      if e <? alloc_end then Ok None else Ok (Some alloc_start)
  end.

(** [current]: the dummy head, or the node at an address. *)
Definition get_node (self : t) (current : option Z) : res ListNode :=
  match current with
  | None => Ok (head self)
  | Some addr => read_node (mem self) addr
  end.

(** [current.next = next] *)
Definition set_next (self : t) (current : option Z) (next : option Z) : res t :=
  match current with
  | None => Ok (mk (mkNode (node_size (head self)) next) (mem self))
  | Some addr =>
      node ← read_node (mem self) addr;
      Ok (mk (head self)
             (write_node size_of_ListNode addr (mkNode (node_size node) next) (mem self)))
  end.

(** The [while let] loop; the fuel bounds the number of nodes visited. *)
Fixpoint find_region_loop (fuel : nat) (self : t) (current : option Z) (size align : Z)
    : res (option (Z * ListNode * Z) * t) :=
  match fuel with
  | O => Diverge
  | S fuel =>
      cur ← get_node self current;
      match node_next cur with
      | None => Ok (None, self)
      | Some addr =>
          region ← read_node (mem self) addr;
          found ← alloc_from_region addr region size align;
          match found with
          | Some alloc_start =>
              (* let next = region.next.take() *)
              self ← set_next self (Some addr) None;
              self ← set_next self current (node_next region);
              Ok (Some (addr, mkNode (node_size region) None, alloc_start), self)
          | None => find_region_loop fuel self (Some addr) size align
          end
      end
  end.

(** As much fuel as there are nodes in memory. *)
Definition find_region (self : t) (size align : Z) : res (option (Z * ListNode * Z) * t) :=
  find_region_loop (S (base.size (mem self))) self None size align.

Definition size_align (layout : Layout) : res (Z * Z) :=
  layout ← expect "adjusting alignment failed" (align_to layout align_of_ListNode);
  let layout := pad_to_align layout in
  Ok (Z.max (layout_size layout) size_of_ListNode, layout_align layout).

Definition alloc (self : t) (layout : Layout) : res (Z * t) :=
  sa ← size_align layout;
  let '(size, align) := sa in
  found ← find_region self size align;
  match found with
  | (Some (addr, region, alloc_start), self) =>
      alloc_end ← expect "overflow" (checked_add alloc_start size);
      e ← end_addr addr region;
      excess_size ← e -! alloc_end;
      self ← (if 0 <? excess_size then add_free_region self alloc_end excess_size else Ok self);
      Ok (alloc_start, self)
  | (None, self) => Ok (0, self)
  end.

Definition dealloc (self : t) (ptr : Z) (layout : Layout) : res t :=
  sa ← size_align layout;
  add_free_region self ptr sa.1.
End ops.

#[local] Arguments alloc_from_region : simpl never.
#[local] Arguments add_free_region : simpl never.
#[local] Arguments size_align : simpl never.
#[local] Arguments find_region : simpl never.
#[local] Arguments end_addr : simpl never.

(** ** The specification: a list of free regions *)

(** The first region that has room, the start of the block in it, and the other
    regions. *)
Fixpoint take_fit (free : list region) (size align : Z) : option (region * Z * list region) :=
  match free with
  | [] => None
  | r :: free' =>
      let start := round_up (r_addr r) align in
      if start + size <=? r_end r then Some (r, start, free')
      else match take_fit free' size align with
           | Some (r', start', rest) => Some (r', start', r :: rest)
           | None => None
           end
  end.

(** The size and alignment a layout is served with. *)
Definition served_align (l : Layout) : Z := Z.max (layout_align l) align_of_ListNode.
Definition served_size (l : Layout) : Z :=
  Z.max (round_up (layout_size l) (served_align l)) size_of_ListNode.

(** First fit, the rest of the region going to the front of the list. *)
Definition spec_alloc (free : list region) (l : Layout) : res (Z * list region) :=
  match take_fit free (served_size l) (served_align l) with
  | None => Ok (0, free)
  | Some (r, start, rest) =>
      let stop := start + served_size l in
      let excess := r_end r - stop in
      if excess =? 0 then Ok (start, rest)
      else if excess <? size_of_ListNode then Panic AssertFailed
      else Ok (start, Region stop excess :: rest)
  end.

(** The list in memory is [free]. *)
Definition represents (self : t) (free : list region) : Prop :=
  chain node_size node_next (mem self) (node_next (head self))
    ((fun r => (r_addr r, r_size r)) <$> free).

(** A region that can hold a node and lies in the heap. *)
Definition region_ok (lo hi : Z) (r : region) : Prop :=
  within lo hi r /\ r_addr r mod align_of_ListNode = 0 /\ size_of_ListNode <= r_size r.

(** The bytes a block takes from the heap. *)
Definition served (x : allocation) : region :=
  Region (al_ptr x) (served_size (al_layout x)).

(** ** Layout adjustment *)

Lemma align_of_ListNode_valid : valid_align align_of_ListNode.
Proof. exists 3. split; [lia|done]. Qed.

Lemma served_align_valid l : layout_valid l -> valid_align (served_align l).
Proof. intros [Ha _]. by apply valid_align_max, align_of_ListNode_valid. Qed.

Lemma mod8_weaken l x : layout_valid l -> x mod served_align l = 0 -> x mod align_of_ListNode = 0.
Proof.
  intros Hl. apply aligned_weaken; [apply align_of_ListNode_valid|by apply served_align_valid|].
  unfold served_align. lia.
Qed.

Lemma served_size_bounds l :
  layout_valid l ->
  size_of_ListNode <= served_size l /\ layout_size l <= served_size l /\
  served_size l mod align_of_ListNode = 0.
Proof.
  intros Hl. pose proof (valid_align_pos _ (served_align_valid _ Hl)).
  pose proof (round_up_bounds (layout_size l) (served_align l) ltac:(lia)).
  unfold served_size. split_and!; [lia|lia|].
  destruct (Z.max_spec (round_up (layout_size l) (served_align l)) size_of_ListNode)
    as [[_ ->]|[_ ->]]; [done|].
  apply (mod8_weaken l); [done|]. apply round_up_aligned. lia.
Qed.

(** The layouts [size_align] accepts. *)
Definition adjustable (l : Layout) : bool := layout_size l <=? WORD - served_align l.

Section facts.
Context {profile : BuildProfile}.

Lemma size_align_eq l :
  layout_valid l ->
  size_align l =
    if adjustable l then Ok (served_size l, served_align l)
    else Panic (UnwrapFailed "adjusting alignment failed").
Proof.
  intros Hl. pose proof (served_align_valid l Hl) as Ha. pose proof (valid_align_pos _ Ha).
  destruct Hl as (_ & Hs & _). unfold size_align, align_to, adjustable.
  fold (served_align l).
  destruct (Z.leb_spec (layout_size l) (WORD - served_align l)).
  - rewrite from_size_align_Some; [done|]. split_and!; simpl; [done|lia|lia].
  - unfold from_size_align.
    rewrite (proj2 (is_power_of_two_iff (served_align l) ltac:(unfold WORD; lia)) Ha). simpl. rewrite (proj2 (Z.ltb_lt _ _)) by lia. done.
Qed.

(** ** Operations on the list in memory *)

Lemma alloc_from_region_eq lo hi r n size align :
  0 <= lo -> hi < 2 ^ 63 -> region_ok lo hi r -> node_size n = r_size r ->
  valid_align align -> 0 <= size ->
  alloc_from_region (r_addr r) n size align =
    Ok (if round_up (r_addr r) align + size <=? r_end r
        then Some (round_up (r_addr r) align) else None).
Proof.
  intros Hlo Hhi ([? Hend] & _ & Hsz) Hn Ha Hs. pose proof (valid_align_pos _ Ha).
  unfold size_of_ListNode, r_end in *.
  pose proof (round_up_bounds (r_addr r) align ltac:(lia)).
  unfold alloc_from_region, start_addr. rewrite align_up_ok by (try done; unfold WORD; lia). simpl.
  destruct (checked_add _ _) as [e|] eqn:E.
  - apply checked_add_Some in E as [-> _]. unfold end_addr, start_addr.
    rewrite Hn, uadd_ok by (unfold WORD; lia). simpl.
    destruct (Z.ltb_spec (r_addr r + r_size r) (round_up (r_addr r) align + size)).
    + by rewrite (proj2 (Z.leb_gt _ _)) by lia.
    + by rewrite (proj2 (Z.leb_le _ _)) by lia.
  - apply checked_add_None in E. rewrite (proj2 (Z.leb_gt _ _)); [done|].
    unfold WORD in E. lia.
Qed.

Lemma add_free_region_eq (self : t) addr size :
  0 <= addr < 2 ^ 63 -> addr mod align_of_ListNode = 0 -> size_of_ListNode <= size ->
  add_free_region self addr size =
    Ok (mk (mkNode (node_size (head self)) (Some addr))
           (write_node size_of_ListNode addr (mkNode size (node_next (head self))) (mem self))).
Proof.
  intros Ha Hm Hs. unfold add_free_region.
  rewrite align_up_ok by (try apply align_of_ListNode_valid; unfold WORD, align_of_ListNode; lia).
  simpl. rewrite round_up_id by done. rewrite Z.eqb_refl. simpl.
  rewrite (proj2 (Z.leb_le _ _)) by done. done.
Qed.

(** Regions that can hold a node, seen as the nodes they hold. *)
Definition node_of (r : region) : region := Region (r_addr r) size_of_ListNode.

Lemma node_of_sub r : size_of_ListNode <= r_size r -> subregion (node_of r) r.
Proof. unfold subregion, r_end; simpl. lia. Qed.

Lemma represents_push (self : t) free r :
  represents self free ->
  Forall (fun r' => disj r r') free -> Forall (fun r' => size_of_ListNode <= r_size r') free ->
  size_of_ListNode <= r_size r ->
  represents (mk (mkNode (node_size (head self)) (Some (r_addr r)))
               (write_node size_of_ListNode (r_addr r) (mkNode (r_size r) (node_next (head self)))
                  (mem self))) (r :: free).
Proof.
  intros Hrep Hd Hs Hr. unfold represents. csimpl.
  eapply (chain_push size_of_ListNode node_size node_next); [done|exact Hrep|done|].
  apply Forall_fmap, Forall_forall. intros r' Hin. simpl.
  rewrite Forall_forall in Hd, Hs. symmetry.
  apply (disj_sub r); [by apply node_of_sub|]. symmetry.
  apply (disj_sub r'); [by apply node_of_sub, Hs|]. symmetry. by apply Hd.
Qed.

(** ** The search *)

(** The list that starts behind [current]. *)
Definition behind (self : t) (current : option Z) (c : ListNode) (free : list region) : Prop :=
  get_node self current = Ok c /\
  chain node_size node_next (mem self) (node_next c) ((fun r => (r_addr r, r_size r)) <$> free).

(** The node of [current] does not overlap that of [r]. *)
Definition apart (current : option Z) (r : region) : Prop :=
  match current with None => True | Some a => disj (Region a size_of_ListNode) r end.

Lemma nodes_apart (r : region) free :
  Forall (disj (node_of r)) (node_of <$> free) ->
  Forall (fun av => disj (node_region size_of_ListNode av) (Region (r_addr r) size_of_ListNode))
    ((fun r => (r_addr r, r_size r)) <$> free).
Proof.
  rewrite !Forall_fmap. intros H. eapply Forall_impl; [exact H|].
  intros r' Hr'. apply disj_sym. exact Hr'.
Qed.

(** Taking the first node out of the list. *)
Lemma unlink_spec (self : t) current c r n free :
  get_node self current = Ok c -> mem self !! r_addr r = Some n ->
  chain node_size node_next (mem self) (node_next n) ((fun r => (r_addr r, r_size r)) <$> free) ->
  apart current (node_of r) -> Forall (apart current) (node_of <$> free) ->
  Forall (disj (node_of r)) (node_of <$> free) ->
  exists self' c',
    (s ← set_next self (Some (r_addr r)) None; set_next s current (node_next n)) = Ok self' /\
    behind self' current c' free /\ node_size c' = node_size c /\
    (forall k, disj (Region k size_of_ListNode) (node_of r) ->
       apart current (Region k size_of_ListNode) -> mem self' !! k = mem self !! k) /\
    (is_Some current -> head self' = head self).
Proof.
  intros Hc Hr Hch Hcr Hcf Hrf. simpl. unfold read_node at 1. rewrite Hr. simpl.
  assert (0 < size_of_ListNode) as Hpos by done.
  destruct current as [a|]; simpl in *.
  - unfold read_node in *. rewrite lookup_write_ne by (try done; exact Hcr).
    destruct (mem self !! a) as [n'|] eqn:Ha; [injection Hc as ->|done]. simpl.
    eexists _, _. split; [done|]. split; [split|].
    + simpl. unfold read_node. by rewrite lookup_write_eq.
    + simpl. apply chain_write; [done| |].
      * apply chain_write; [done|done|by apply nodes_apart].
      * apply (nodes_apart (Region a size_of_ListNode)). exact Hcf.
    + simpl. split; [done|]. split; [|done]. intros k Hk Hka.
      rewrite lookup_write_ne by (try done; apply or_comm; exact Hka).
      by rewrite lookup_write_ne by (try done; exact Hk).
  - eexists _, _. split; [done|]. split; [split|].
    + done.
    + simpl. apply chain_write; [done|done|by apply nodes_apart].
    + simpl. injection Hc as ->. split; [done|]. split; [|by intros [? [=]]].
      intros k Hk _. by rewrite lookup_write_ne by (try done; exact Hk).
Qed.

(** One turn of the loop. *)
Lemma find_region_loop_S lo hi fuel (self : t) current c r n size align :
  0 <= lo -> hi < 2 ^ 63 -> valid_align align -> 0 <= size -> region_ok lo hi r ->
  get_node self current = Ok c -> node_next c = Some (r_addr r) ->
  mem self !! r_addr r = Some n -> node_size n = r_size r ->
  find_region_loop (S fuel) self current size align =
    if round_up (r_addr r) align + size <=? r_end r then
      self' ← (s ← set_next self (Some (r_addr r)) None; set_next s current (node_next n));
      Ok (Some (r_addr r, mkNode (r_size r) None, round_up (r_addr r) align), self')
    else find_region_loop fuel self (Some (r_addr r)) size align.
Proof.
  intros Hlo Hhi Ha Hs Hr Hc Hn Hm Hsz. cbn [find_region_loop].
  assert (read_node (mem self) (r_addr r) = Ok n) as E by (unfold read_node; by rewrite Hm).
  rewrite Hc. simpl. rewrite Hn, !E. simpl.
  rewrite (alloc_from_region_eq lo hi r n size align) by done. simpl.
  destruct (_ <=? r_end r); [|done]. simpl. by rewrite Hsz.
Qed.

Lemma find_region_loop_spec lo hi size align free fuel (self : t) current c :
  0 <= lo -> hi < 2 ^ 63 -> valid_align align -> 0 <= size ->
  Forall (region_ok lo hi) free -> pairwise_disj (node_of <$> free) ->
  Forall (apart current) (node_of <$> free) ->
  behind self current c free -> (length free < fuel)%nat ->
  match take_fit free size align with
  | None => find_region_loop fuel self current size align = Ok (None, self)
  | Some (r, start, rest) =>
      exists self' c',
        find_region_loop fuel self current size align
          = Ok (Some (r_addr r, mkNode (r_size r) None, start), self') /\
        behind self' current c' rest /\ node_size c' = node_size c /\
        (forall k, Forall (disj (Region k size_of_ListNode)) (node_of <$> free) ->
           apart current (Region k size_of_ListNode) -> mem self' !! k = mem self !! k) /\
        (is_Some current -> head self' = head self)
  end.
Proof.
  intros Hlo Hhi Ha Hs. revert fuel current c self.
  induction free as [|r free IH]; intros [|fuel] current c self Hok Hd Hap [Hc Hch] Hf;
    try (simpl in Hf; lia).
  - simpl in *. rewrite Hc. simpl. by rewrite Hch.
  - apply Forall_cons in Hok as [Hr Hok]. apply Forall_cons in Hap as [Hapr Hap].
    destruct Hd as [Hdr Hd]. destruct Hch as (Hn & n & Hm & Hsz & Hch).
    rewrite (find_region_loop_S lo hi fuel self current c r n size align) by done.
    cbn [take_fit]. destruct (round_up (r_addr r) align + size <=? r_end r).
    + destruct (unlink_spec self current c r n free) as (self' & c' & E & Hb & Hcs & Hfr & Hh);
        [done..|].
      exists self', c'. split_and!; [|done|done| |done].
      * by rewrite E.
      * intros k Hk Hka. apply Forall_cons in Hk as [Hk _]. by apply Hfr.
    + specialize (IH fuel (Some (r_addr r)) n self Hok Hd Hdr).
      destruct (take_fit free size align) as [[[r' start] rest]|].
      2: { apply IH; [split; [simpl; unfold read_node; by rewrite Hm|done]|simpl in Hf; lia]. }
      destruct IH as (self' & n' & E & [Hb Hb'] & Hns & Hfr & Hh);
        [split; [simpl; unfold read_node; by rewrite Hm|done]|simpl in Hf; lia|].
      exists self', c. rewrite E. split_and!; [done| |done| |].
      * split.
        { destruct current as [a|]; simpl in *.
          - unfold read_node in *. rewrite Hfr; [done|done|]. apply disj_sym, Hapr.
          - rewrite Hh; [done|by eexists]. }
        rewrite Hn. csimpl. split; [done|]. exists n'. simpl in Hb. unfold read_node in Hb.
        destruct (mem self' !! r_addr r); simplify_eq. by rewrite Hns.
      * intros k Hk Hka. apply Forall_cons in Hk as [Hkr Hk]. apply Hfr; [done|].
        apply disj_sym, Hkr.
      * intros Hcur. apply Hh. by eexists.
Qed.

(** ** The invariant *)

(** The list in memory is [free]; its regions and the blocks of the clients are
    disjoint parts of the heap. *)
Record inv_free (lo hi : Z) (self : t) (free : list region) (live : list allocation) : Prop := {
  inv_heap : 0 < lo /\ hi < 2 ^ 63;
  inv_repr : represents self free;
  inv_regions : Forall (region_ok lo hi) free;
  inv_disj : pairwise_disj (free ++ (served <$> live));
  inv_live : Forall (fun x => layout_ok (al_layout x) /\ adjustable (al_layout x) = true /\
    within lo hi (served x) /\ al_ptr x mod served_align (al_layout x) = 0) live;
}.

Definition inv (lo hi : Z) (self : t) (live : list allocation) : Prop :=
  exists free, inv_free lo hi self free live.

Lemma take_fit_Some free size align r start rest :
  take_fit free size align = Some (r, start, rest) ->
  free ≡ₚ r :: rest /\ start = round_up (r_addr r) align /\ start + size <= r_end r.
Proof.
  revert r start rest. induction free as [|r0 free IH]; intros r start rest; simpl; [done|].
  destruct (Z.leb_spec (round_up (r_addr r0) align + size) (r_end r0)).
  - by intros [= <- <- <-].
  - destruct (take_fit free size align) as [[[r' s'] rest']|]; [|done].
    intros [= <- <- <-]. destruct (IH r' s' rest') as (Hp & -> & Hf); [done|].
    split; [|done]. rewrite Hp. apply Permutation_swap.
Qed.

Lemma take_fit_None free size align :
  take_fit free size align = None ->
  Forall (fun r => r_end r < round_up (r_addr r) align + size) free.
Proof.
  induction free as [|r0 free IH]; simpl; [done|].
  destruct (Z.leb_spec (round_up (r_addr r0) align + size) (r_end r0)); [done|].
  destruct (take_fit free size align) as [[[r' s'] rest']|]; [done|].
  intros _. constructor; [done|by apply IH].
Qed.

Lemma inv_nodes_disj lo hi self free live :
  inv_free lo hi self free live -> pairwise_disj (node_of <$> free).
Proof.
  intros [_ _ Hok Hd _]. apply pairwise_disj_app in Hd as (Hd & _ & _).
  apply pairwise_disj_shrink; [|done]. intros r Hr. apply node_of_sub.
  rewrite Forall_forall in Hok. by apply Hok.
Qed.

Lemma inv_length lo hi self free live :
  inv_free lo hi self free live -> (length free <= base.size (mem self))%nat.
Proof.
  intros Hi. pose proof (inv_nodes_disj _ _ _ _ _ Hi) as Hd.
  apply pairwise_disj_nodup in Hd.
  2: { apply Forall_fmap, Forall_true. done. }
  rewrite <- (length_fmap (fun r => (r_addr r, r_size r))).
  eapply chain_length; [apply (inv_repr _ _ _ _ _ Hi)|].
  replace ((fun r => (r_addr r, r_size r)) <$> free).*1 with (r_addr <$> (node_of <$> free)); [done|].
  clear. induction free as [|r free IH]; csimpl; congruence.
Qed.

Lemma find_region_eq lo hi (self : t) free live size align :
  inv_free lo hi self free live -> valid_align align -> 0 <= size ->
  match take_fit free size align with
  | None => find_region self size align = Ok (None, self)
  | Some (r, start, rest) =>
      exists self', find_region self size align
          = Ok (Some (r_addr r, mkNode (r_size r) None, start), self') /\
        represents self' rest
  end.
Proof.
  intros Hi Ha Hs. pose proof (inv_length _ _ _ _ _ Hi). pose proof (inv_nodes_disj _ _ _ _ _ Hi).
  destruct Hi as [[Hlo Hhi] Hrep Hok _ _].
  pose proof (find_region_loop_spec lo hi size align free (S (base.size (mem self))) self None
    (head self)) as Hl.
  unfold find_region. destruct (take_fit free size align) as [[[r start] rest]|].
  - destruct Hl as (self' & c' & E & [Hg Hb] & _);
      [lia|done|done|done|done|done|by apply Forall_true|by split|lia|].
    exists self'. split; [done|]. unfold represents. simpl in Hg. by injection Hg as ->.
  - apply Hl; [lia|done|done|done|done|done|by apply Forall_true|by split|lia].
Qed.

(** ** alloc refines first fit *)

Lemma alloc_refines lo hi (self : t) free live l :
  inv_free lo hi self free live -> layout_ok l -> adjustable l = true ->
  match spec_alloc free l with
  | Ok (p, free') => exists self', alloc self l = Ok (p, self') /\ represents self' free'
  | Panic q => alloc self l = Panic q
  | _ => False
  end.
Proof.
  intros Hi [Hl Hpos] Hadj. pose proof (served_align_valid l Hl) as Ha.
  pose proof (valid_align_pos _ Ha).
  destruct (served_size_bounds l Hl) as (Hs16 & Hsz & Hs8). unfold size_of_ListNode in Hs16.
  pose proof (find_region_eq lo hi self free live (served_size l) (served_align l) Hi Ha ltac:(lia)) as Hf.
  unfold alloc. rewrite size_align_eq, Hadj by done. simpl. unfold spec_alloc.
  destruct (take_fit free (served_size l) (served_align l)) as [[[r start] rest]|] eqn:E.
  2: { rewrite Hf. simpl. exists self. split; [done|]. apply (inv_repr _ _ _ _ _ Hi). }
  apply take_fit_Some in E as (Hp & -> & Hfit). destruct Hf as (self' & -> & Hrep). simpl.
  destruct Hi as [[Hlo Hhi] _ Hok Hd _]. rewrite Hp in Hok, Hd.
  apply Forall_cons in Hok as [([Hr1 Hr2] & Hr8 & Hr16) Hok].
  pose proof (round_up_bounds (r_addr r) (served_align l) ltac:(lia)).
  pose proof (round_up_aligned (r_addr r) (served_align l) ltac:(lia)) as Hst.
  apply (mod8_weaken l) in Hst; [|done].
  set (start := round_up (r_addr r) (served_align l)) in *.
  rewrite checked_add_fits by (unfold WORD; lia). simpl.
  unfold end_addr, start_addr; simpl. unfold r_end in *.
  rewrite uadd_ok by (unfold WORD; lia). simpl. rewrite usub_ok by lia. simpl.
  set (stop := start + served_size l) in *.
  destruct (Z.eqb_spec (r_addr r + r_size r - stop) 0) as [E|E].
  { rewrite (proj2 (Z.ltb_ge _ _)) by lia. simpl. by exists self'. }
  rewrite (proj2 (Z.ltb_lt 0 _)) by lia.
  assert (stop mod align_of_ListNode = 0) as Hstop8.
  { unfold stop, align_of_ListNode in *. rewrite Z.add_mod, Hst, Hs8 by lia. done. }
  destruct (Z.ltb_spec (r_addr r + r_size r - stop) size_of_ListNode) as [Hsm|Hbig].
  - unfold add_free_region.
    rewrite align_up_ok by (try apply align_of_ListNode_valid; unfold WORD, align_of_ListNode; lia).
    simpl. rewrite round_up_id, Z.eqb_refl by done. simpl.
    by rewrite (proj2 (Z.leb_gt _ _)) by lia.
  - rewrite add_free_region_eq by lia. simpl. eexists. split; [done|].
    apply (represents_push self' rest (Region stop (r_addr r + r_size r - stop))); [done| | |done].
    + apply pairwise_disj_app in Hd as ([Hd _] & _ & _).
      eapply Forall_impl; [exact Hd|]. intros r' Hr'. apply (disj_sub r); [|done].
      unfold subregion, r_end; simpl. lia.
    + eapply Forall_impl; [exact Hok|]. by intros r' (_ & _ & ?).
Qed.

Ltac served_lia := unfold served, size_of_ListNode in *; simpl in *; region_lia.

(** First fit keeps free regions and blocks apart. *)
(** A block that is disjoint from what serves the others is fresh. *)
Lemma fresh_served lo hi start l live :
  0 < lo -> layout_ok l -> start mod served_align l = 0 -> within lo hi (served (Alloc start l)) ->
  Forall (fun y => layout_ok (al_layout y)) live ->
  Forall (disj (served (Alloc start l))) (served <$> live) -> fresh_block lo hi live (Alloc start l).
Proof.
  intros Hlo [Hl Hpos] Hst [Hw1 Hw2] Hlive Hxl. destruct (served_size_bounds l Hl) as (Hs16 & Hsz & Hs8).
  split_and!; simpl; [unfold r_end in *; simpl in *; lia| | |].
  - eapply aligned_weaken; [apply Hl|by apply served_align_valid| |done]. unfold served_align. lia.
  - split; unfold r_end in *; simpl in *; lia.
  - rewrite Forall_fmap in Hxl |- *. apply Forall_forall. intros y Hy. simpl.
    rewrite Forall_forall in Hxl, Hlive. specialize (Hxl y Hy). specialize (Hlive y Hy).
    destruct (served_size_bounds (al_layout y)) as (_ & ? & _); [apply Hlive|].
    apply (disj_sub (served (Alloc start l))); [unfold subregion, r_end; simpl; lia|]. symmetry.
    apply (disj_sub (served y)); [unfold subregion, r_end; simpl; lia|]. symmetry. exact Hxl.
Qed.

Lemma spec_alloc_inv lo hi (self self' : t) free live l p free' :
  inv_free lo hi self free live -> layout_ok l -> adjustable l = true ->
  spec_alloc free l = Ok (p, free') -> represents self' free' ->
  (p = 0 /\ free' = free) \/
  (fresh_block lo hi live (Alloc p l) /\ inv_free lo hi self' free' (Alloc p l :: live)).
Proof.
  intros [[Hlo Hhi] _ Hok Hd Hlive] Hl0 Hadj Hsp Hrep. destruct Hl0 as [Hl Hpos] eqn:E0. clear E0.
  pose proof (valid_align_pos _ (served_align_valid l Hl)).
  destruct (served_size_bounds l Hl) as (Hs16 & Hsz & Hs8).
  unfold spec_alloc in Hsp.
  destruct (take_fit free (served_size l) (served_align l)) as [[[r start] rest]|] eqn:E.
  2: { left. by injection Hsp as <- <-. }
  right. apply take_fit_Some in E as (Hp & Estart & Hfit). rewrite Hp in Hok, Hd.
  apply Forall_cons in Hok as [([Hr1 Hr2] & Hr8 & Hr16) Hok].
  pose proof (round_up_bounds (r_addr r) (served_align l) ltac:(lia)).
  pose proof (round_up_aligned (r_addr r) (served_align l) ltac:(lia)) as Hst.
  rewrite <- Estart in *. pose proof (mod8_weaken l _ Hl Hst) as Hst8.
  set (x := Alloc start l). set (stop := start + served_size l) in *.
  assert (p = start /\ Forall (region_ok lo hi) free' /\
          pairwise_disj (served x :: free' ++ (served <$> live))) as (-> & Hok' & Hd').
  { destruct (Z.eqb_spec (r_end r - stop) 0) as [E|E].
    - injection Hsp as <- <-. split_and!; [done|done|].
      apply (pairwise_disj_split r [served x] (rest ++ (served <$> live))); [done|done|].
      forall_elems served_lia.
    - destruct (Z.ltb_spec (r_end r - stop) size_of_ListNode); [done|].
      injection Hsp as <- <-. split_and!; [done| |].
      + constructor; [|done]. split_and!; [|simpl|simpl; lia].
        * split; unfold r_end in *; simpl in *; unfold size_of_ListNode in *; lia.
        * unfold stop. rewrite Z.add_mod, Hst8, Hs8 by done. done.
      + apply (pairwise_disj_split r [served x; Region stop (r_end r - stop)]); [done| |].
        * simpl. split_and!; [forall_elems served_lia|done|done].
        * forall_elems served_lia. }
  destruct Hd' as [Hx Hd']. apply Forall_app in Hx as [Hxf Hxl].
  assert (within lo hi (served x)) as Hwx by (split; unfold r_end in *; simpl in *; lia).
  split.
  - apply fresh_served; [done|done|done|done| |done]. eapply Forall_impl; [exact Hlive|]. by intros y [].
  - split; [done|done|done| |].
    + csimpl. rewrite <- Permutation_middle. simpl. split; [|done]. by apply Forall_app.
    + constructor; [|done]. done.
Qed.

(** ** The other operations *)

Lemma ll_init_inv (m : gmap Z ListNode) start len :
  0 < start -> start mod align_of_ListNode = 0 -> size_of_ListNode <= len -> start + len < 2 ^ 63 ->
  exists self, init (new m) start len = Ok self /\
    inv_free start (start + len) self [Region start len] [].
Proof.
  intros H1 H2 H3 H4. unfold size_of_ListNode in H3.
  unfold init. rewrite add_free_region_eq by (done || lia).
  eexists. split; [done|]. split; [lia| | |simpl; auto|done].
  - apply (represents_push (new m) [] (Region start len)); done.
  - forall_elems ltac:(split_and!; [region_lia|done|done]).
Qed.

Lemma ll_dealloc_inv lo hi (self : t) free live x :
  inv_free lo hi self free (x :: live) ->
  exists self', dealloc self (al_ptr x) (al_layout x) = Ok self' /\
    inv_free lo hi self' (served x :: free) live.
Proof.
  intros [[Hlo Hhi] Hrep Hok Hd Hlive]. apply Forall_cons in Hlive as [(Hl & Ha & Hw & Hal) Hlive].
  destruct (served_size_bounds (al_layout x)) as (Hs16 & _ & _); [apply Hl|].
  csimpl in Hd. rewrite <- Permutation_middle in Hd. simpl in Hd. destruct Hd as [Hx Hd].
  unfold dealloc. rewrite size_align_eq, Ha by apply Hl. simpl.
  rewrite add_free_region_eq; [|served_lia| |done].
  2: { apply (mod8_weaken (al_layout x)); [apply Hl|done]. }
  eexists. split; [done|]. split; [done| | |by split|done].
  - apply (represents_push self free (served x)); [done|by apply Forall_app in Hx as [? _]| |done].
    eapply Forall_impl; [exact Hok|]. by intros r' (_ & _ & ?).
  - constructor; [|done]. split_and!; [done| |done].
    apply (mod8_weaken (al_layout x)); [apply Hl|done].
Qed.

Definition client_store (self : t) (addr len : Z) : t :=
  mk (head self) (clobber size_of_ListNode addr len (mem self)).

Lemma ll_store_inv lo hi (self : t) free live x addr len :
  inv_free lo hi self free live -> x ∈ live -> subregion (Region addr len) (al_region x) ->
  inv_free lo hi (client_store self addr len) free live.
Proof.
  intros [Hb Hrep Hok Hd Hlive] Hx Hsub. split; try done.
  apply pairwise_disj_app in Hd as (_ & _ & Hd).
  unfold represents. simpl. apply chain_clobber; [exact Hrep|].
  apply Forall_fmap, Forall_forall. intros r Hr. simpl.
  apply (proj1 (Forall_forall _ _)) with (x := r) in Hd, Hok; [|done..].
  destruct Hok as (_ & _ & Hr16). rewrite Forall_fmap in Hd.
  apply (proj1 (Forall_forall _ _)) with (x := x) in Hd, Hlive; [|done..]. simpl in Hd.
  destruct (served_size_bounds (al_layout x)) as (_ & ? & _); [apply Hlive|].
  unfold node_region, al_region in *; simpl in *. served_lia.
Qed.

Lemma inv_free_perm lo hi (self : t) free live live' :
  live ≡ₚ live' -> inv_free lo hi self free live -> inv_free lo hi self free live'.
Proof. intros Hp [Hb Hrep Hok Hd Hlive]. split; try done; by rewrite <- Hp. Qed.

#[export] Instance LinkedListAllocator_GlobalAlloc : GlobalAlloc t := {
  ga_alloc := alloc;
  ga_dealloc := dealloc;
  ga_write := client_store;
}.

#[export, program] Instance LinkedListAllocator_contract : AllocContract t := { ac_inv := inv }.
Next Obligation.
  intros lo hi self live l [free Hi] Hl. simpl.
  destruct (adjustable l) eqn:Hadj.
  2: { unfold alloc. rewrite size_align_eq, Hadj by apply Hl. exact I. }
  pose proof (alloc_refines lo hi self free live l Hi Hl Hadj) as Hr.
  destruct (spec_alloc free l) as [[p free']|q| |] eqn:E; try done; [|by rewrite Hr].
  destruct Hr as (self' & -> & Hrep). simpl.
  destruct (spec_alloc_inv lo hi self self' free live l p free' Hi Hl Hadj E Hrep)
    as [[-> ->]|[Hf Hi']]; [left|right].
  - split; [done|]. exists free. by destruct Hi; split.
  - split; [done|]. by exists free'.
Qed.
Next Obligation.
  intros lo hi self live p l [free Hi].
  destruct (ll_dealloc_inv lo hi self free live (Alloc p l) Hi) as (self' & E & Hi').
  exists self'. split; [done|]. by eexists.
Qed.
Next Obligation.
  intros lo hi self live x addr len [free Hi] Hx Hs. exists free. by eapply ll_store_inv.
Qed.
Next Obligation.
  intros lo hi self live live' Hp [free Hi]. exists free. by eapply inv_free_perm.
Qed.

(** A region just freed is the first to be tried, and fits exactly. *)
Lemma spec_alloc_freed free x :
  layout_valid (al_layout x) -> al_ptr x mod served_align (al_layout x) = 0 ->
  spec_alloc (served x :: free) (al_layout x) = Ok (al_ptr x, free).
Proof.
  intros Hl Hm. pose proof (valid_align_pos _ (served_align_valid _ Hl)).
  unfold spec_alloc. simpl. rewrite round_up_id by (lia || done).
  unfold r_end; simpl. rewrite Z.leb_refl, Z.sub_diag. done.
Qed.

(** Free bytes before and after: the gap before an aligned start is lost. *)
Lemma spec_alloc_total free l p free' :
  layout_valid l -> Forall (fun r => 0 < r_addr r) free ->
  spec_alloc free l = Ok (p, free') -> p <> 0 ->
  exists r, r ∈ free /\ r_addr r <= p < r_addr r + served_align l /\
    total_size free' + served_size l + (p - r_addr r) = total_size free.
Proof.
  intros Hl Hpos Hsp Hp. pose proof (valid_align_pos _ (served_align_valid _ Hl)).
  unfold spec_alloc in Hsp.
  destruct (take_fit free (served_size l) (served_align l)) as [[[r start] rest]|] eqn:E; [|congruence].
  apply take_fit_Some in E as (HP & -> & Hfit).
  pose proof (round_up_bounds (r_addr r) (served_align l) ltac:(lia)).
  exists r. rewrite HP. simpl. split; [set_solver|].
  destruct (Z.eqb_spec (r_end r - (round_up (r_addr r) (served_align l) + served_size l)) 0).
  - injection Hsp as <- <-. unfold r_end in *. lia.
  - destruct (Z.ltb _ size_of_ListNode); [done|]. injection Hsp as <- <-.
    simpl. unfold r_end in *. lia.
Qed.
End facts.
End LinkedListAllocator.

Import LinkedListAllocator.

(** C2: [alloc] on the list of nodes in memory is first fit on the list of free
    regions: it follows the pointers without undefined behaviour and in bounded
    time, returns the same block, leaves the corresponding list in memory, and
    keeps free regions and client blocks disjoint. *)
Theorem linked_list_alloc_refines_first_fit (profile : BuildProfile) (lo hi : Z) (self : t)
    (free : list region) (live : list allocation) (l : Layout) :
  inv_free lo hi self free live -> layout_ok l -> adjustable l = true ->
  match spec_alloc free l with
  | Ok (p, free') =>
      exists self', alloc self l = Ok (p, self') /\ represents self' free' /\
        (p = 0 /\ free' = free \/
         fresh_block lo hi live (Alloc p l) /\ inv_free lo hi self' free' (Alloc p l :: live))
  | Panic q => alloc self l = Panic q
  | Undef | Diverge => False
  end.
Proof.
  intros Hi Hl Ha. pose proof (alloc_refines lo hi self free live l Hi Hl Ha) as Hr.
  destruct (spec_alloc free l) as [[p free']|q| |] eqn:E; try done.
  destruct Hr as (self' & Hal & Hrep). exists self'. split_and!; [done|done|].
  by eapply spec_alloc_inv.
Qed.

(** A heap of 128 bytes from which 32 have been allocated. *)
Lemma ll_sample_state :
  exists self, inv_free 0x1000 (0x1000 + 128) self [Region 0x1020 96] [Alloc 0x1000 (mkLayout 32 8)].
Proof.
  destruct (@ll_init_inv dev_profile ∅ 0x1000 128) as (self & _ & Hi);
    [lia|reflexivity|unfold size_of_ListNode; lia|lia|].
  assert (layout_ok (mkLayout 32 8)) as Hl by by apply layout_okb_spec.
  destruct (@alloc_refines dev_profile _ _ _ _ _ (mkLayout 32 8) Hi Hl eq_refl) as (self' & _ & Hrep).
  exists self'. by destruct (spec_alloc_inv _ _ _ self' _ _ (mkLayout 32 8) 0x1000 [Region 0x1020 96]
    Hi Hl eq_refl eq_refl Hrep) as [[? _]|[_ ?]].
Qed.

Lemma linked_list_alloc_refines_first_fit_witness :
  let l := mkLayout 20 4 in
  exists self, @init dev_profile (new ∅) 0x1000 128 = Ok self /\
  match spec_alloc [Region 0x1000 128] l with
  | Ok (p, free') =>
      exists self', @alloc dev_profile self l = Ok (p, self') /\ represents self' free' /\
        (p = 0 /\ free' = [Region 0x1000 128] \/
         fresh_block 0x1000 (0x1000 + 128) [] (Alloc p l) /\
         inv_free 0x1000 (0x1000 + 128) self' free' [Alloc p l])
  | Panic q => @alloc dev_profile self l = Panic q
  | Undef | Diverge => False
  end.
Proof.
  intros l. destruct (@ll_init_inv dev_profile ∅ 0x1000 128) as (self & E & Hi);
    [lia|reflexivity|unfold size_of_ListNode; lia|lia|].
  exists self. split; [exact E|].
  apply (linked_list_alloc_refines_first_fit dev_profile 0x1000 (0x1000 + 128) self
    [Region 0x1000 128] [] l Hi); [apply layout_okb_spec; reflexivity|reflexivity].
Defined.

(** C1: whatever the client of an initialised linked list allocator, whose heap ends below
    2^63, does with its own blocks, storing into them included, no node of the free list is ever
    destroyed: every run ends without undefined behaviour and without an endless
    loop, and if it does not panic the blocks are disjoint, aligned and inside
    the heap. *)
Theorem linked_list_client_safe (profile : BuildProfile) (m : gmap Z ListNode) (start len : Z)
    (cs : list command) :
  0 < start -> start mod align_of_ListNode = 0 -> size_of_ListNode <= len ->
  start + len < 2 ^ 63 -> Forall command_ok cs ->
  exists self, init (new m) start len = Ok self /\
    returns_or_panics (fun s => client_ok start (start + len) s.2) (run_client cs (self, [])).
Proof.
  intros H1 H2 H3 H4 Hcs. destruct (ll_init_inv m start len H1 H2 H3 H4) as (self & E & Hi).
  exists self. split; [done|].
  pose proof (run_client_ok start (start + len) (self, []) cs) as Hr.
  destruct (run_client cs (self, [])) as [s|q| |]; try done; apply Hr; try done;
    (split; [by eexists|apply client_ok_nil]).
Qed.

Lemma linked_list_client_safe_witness :
  exists self, @init dev_profile (new ∅) 0x444444440000 102400 = Ok self /\
    returns_or_panics (fun s => client_ok 0x444444440000 (0x444444440000 + 102400) s.2)
      (@run_client _ (@LinkedListAllocator_GlobalAlloc dev_profile)
         [CAlloc (mkLayout 32 8); CAlloc (mkLayout 1 64); CStore 1 0 32; CFree 1; CAlloc (mkLayout 16 1)]
         (self, [])).
Proof.
  apply (linked_list_client_safe dev_profile ∅ 0x444444440000 102400);
    [lia|reflexivity|unfold size_of_ListNode; lia|lia|].
  apply commands_okb_sound. reflexivity.
Defined.

(** C27: [alloc] panics on the assertion of [add_free_region] exactly when the
    first region with room would be left with fewer bytes than a node needs;
    the check that [alloc_from_region] describes is not made. *)
Theorem linked_list_alloc_panics_iff (profile : BuildProfile) (lo hi : Z) (self : t)
    (free : list region) (live : list allocation) (l : Layout) :
  inv_free lo hi self free live -> layout_ok l -> adjustable l = true ->
  alloc self l = Panic AssertFailed <->
  exists r start rest, take_fit free (served_size l) (served_align l) = Some (r, start, rest) /\
    0 < r_end r - (start + served_size l) < size_of_ListNode.
Proof.
  intros Hi Hl Ha. pose proof (alloc_refines lo hi self free live l Hi Hl Ha) as Hr.
  unfold spec_alloc in Hr.
  destruct (take_fit free (served_size l) (served_align l)) as [[[r start] rest]|] eqn:E.
  2: { destruct Hr as (self' & -> & _). split; [done|]. by intros (r & start & rest & ? & _). }
  apply take_fit_Some in E as (_ & _ & Hfit).
  destruct (Z.eqb_spec (r_end r - (start + served_size l)) 0) as [E|E].
  - destruct Hr as (self' & -> & _). split; [done|].
    intros (r' & s' & rest' & [= -> -> ->] & ?). lia.
  - destruct (Z.ltb_spec (r_end r - (start + served_size l)) size_of_ListNode).
    + split; [|done]. intros _. exists r, start, rest. split; [done|lia].
    + destruct Hr as (self' & -> & _). split; [done|].
      intros (r' & s' & rest' & [= -> -> ->] & ?). lia.
Qed.

Lemma linked_list_alloc_panics_iff_witness :
  exists self, @init dev_profile (new ∅) 0x1000 24 = Ok self /\
  (@alloc dev_profile self (mkLayout 16 8) = Panic AssertFailed <->
   exists r start rest, take_fit [Region 0x1000 24] 16 8 = Some (r, start, rest) /\
    0 < r_end r - (start + 16) < size_of_ListNode).
Proof.
  destruct (@ll_init_inv dev_profile ∅ 0x1000 24) as (self & E & Hi);
    [lia|reflexivity|unfold size_of_ListNode; lia|lia|].
  exists self. split; [exact E|].
  apply (linked_list_alloc_panics_iff dev_profile 0x1000 (0x1000 + 24) self
    [Region 0x1000 24] [] (mkLayout 16 8) Hi); [apply layout_okb_spec; reflexivity|reflexivity].
Defined.

(** The panic is reached from the kernel's own heap by three ordinary calls:
    allocate 24 bytes, free them, allocate 16 bytes. *)
Theorem linked_list_small_excess_panics (profile : BuildProfile) :
  (self ← init (new ∅) 0x444444440000 102400;
   run_client [CAlloc (mkLayout 24 8); CFree 0; CAlloc (mkLayout 16 8)] (self, []))
  = Panic AssertFailed.
Proof. destruct profile; vm_compute; reflexivity. Qed.

(** C28: freeing a block and asking for the same layout again returns the same
    block and restores the free list, so a loop that allocates and frees, such
    as the kernel's heap test with many boxes, does not use up the heap. *)
Theorem linked_list_free_then_alloc (profile : BuildProfile) (lo hi : Z) (self : t)
    (free : list region) (live : list allocation) (x : allocation) :
  inv_free lo hi self free (x :: live) ->
  exists self1 self2,
    dealloc self (al_ptr x) (al_layout x) = Ok self1 /\
    inv_free lo hi self1 (served x :: free) live /\
    alloc self1 (al_layout x) = Ok (al_ptr x, self2) /\
    represents self2 free.
Proof.
  intros Hi. pose proof (inv_live _ _ _ _ _ Hi) as Hlv.
  apply Forall_cons in Hlv as [(Hl & Ha & _ & Hm) _].
  destruct (ll_dealloc_inv lo hi self free live x Hi) as (self1 & Hd & Hi1).
  pose proof (alloc_refines lo hi self1 _ live (al_layout x) Hi1 Hl Ha) as Hr.
  rewrite spec_alloc_freed in Hr by (apply Hl || done).
  destruct Hr as (self2 & Hal & Hrep). by exists self1, self2.
Qed.

Lemma linked_list_free_then_alloc_witness :
  exists self self1 self2,
    @dealloc dev_profile self 0x1000 (mkLayout 32 8) = Ok self1 /\
    inv_free 0x1000 (0x1000 + 128) self1 [Region 0x1000 32; Region 0x1020 96] [] /\
    @alloc dev_profile self1 (mkLayout 32 8) = Ok (0x1000, self2) /\
    represents self2 [Region 0x1020 96].
Proof.
  destruct ll_sample_state as (self & Hi). exists self.
  apply (linked_list_free_then_alloc dev_profile 0x1000 (0x1000 + 128) self [Region 0x1020 96] []
    (Alloc 0x1000 (mkLayout 32 8)) Hi).
Defined.

(** C29: an allocation takes from the free list the bytes it is served with and,
    for good, the gap between the start of the region and the aligned start of
    the block; freeing the block gives back only the former. *)
Theorem linked_list_free_bytes (profile : BuildProfile) (lo hi : Z) (self self1 : t)
    (free : list region) (live : list allocation) (l : Layout) (p : Z) :
  inv_free lo hi self free live -> layout_ok l -> adjustable l = true ->
  alloc self l = Ok (p, self1) -> p <> 0 ->
  exists r free1 self2 free2,
    r ∈ free /\ r_addr r <= p < r_addr r + served_align l /\
    represents self1 free1 /\ total_size free1 + served_size l + (p - r_addr r) = total_size free /\
    dealloc self1 p l = Ok self2 /\ represents self2 free2 /\
    total_size free2 = total_size free - (p - r_addr r).
Proof.
  intros Hi Hl Ha Hal Hp. pose proof (alloc_refines lo hi self free live l Hi Hl Ha) as Hr.
  destruct (spec_alloc free l) as [[q free1]|q| |] eqn:E; try done; [|congruence].
  destruct Hr as (s & Hal' & Hrep). rewrite Hal in Hal'. injection Hal' as <- <-.
  destruct (spec_alloc_total free l p free1) as (r & Hr & Hb & Ht); [apply Hl| |done|done|].
  { destruct Hi as [[Hlo _] _ Hok _ _]. eapply Forall_impl; [exact Hok|]. intros r [[? _] _]. lia. }
  destruct (spec_alloc_inv lo hi self self1 free live l p free1 Hi Hl Ha E Hrep) as [[? _]|[_ Hi1]]; [done|].
  destruct (ll_dealloc_inv lo hi self1 free1 live (Alloc p l) Hi1) as (self2 & Hd & Hi2).
  exists r, free1, self2, (served (Alloc p l) :: free1).
  split_and!; try done; try lia; [apply (inv_repr _ _ _ _ _ Hi2)|]. simpl. lia.
Qed.

Lemma linked_list_free_bytes_witness :
  exists self self1 r free1 self2 free2,
    @alloc dev_profile self (mkLayout 16 64) = Ok (0x1040, self1) /\
    r ∈ [Region 0x1020 96] /\ r_addr r <= 0x1040 < r_addr r + 64 /\
    represents self1 free1 /\ total_size free1 + 64 + (0x1040 - r_addr r) = 96 /\
    @dealloc dev_profile self1 0x1040 (mkLayout 16 64) = Ok self2 /\ represents self2 free2 /\
    total_size free2 = 96 - (0x1040 - r_addr r).
Proof.
  destruct ll_sample_state as (self & Hi).
  assert (layout_ok (mkLayout 16 64)) as Hl by by apply layout_okb_spec.
  destruct (@alloc_refines dev_profile _ _ _ _ _ (mkLayout 16 64) Hi Hl eq_refl) as (self1 & Ha & _).
  exists self, self1.
  destruct (linked_list_free_bytes dev_profile 0x1000 (0x1000 + 128) self self1 [Region 0x1020 96]
    [Alloc 0x1000 (mkLayout 32 8)] (mkLayout 16 64) 0x1040 Hi Hl eq_refl Ha) as (r & f1 & s2 & f2 & H);
    [lia|].
  exists r, f1, s2, f2. split; [exact Ha|exact H].
Defined.
