(* ===== verification/FixedSizeBlock.v ===== *)
(** * The fixed size block allocator

    [src/min-rust-os/src/allocator/fixed_size_block.rs]: one list of free blocks
    per block size, in front of a fallback heap that serves large requests and
    fills empty lists.  This is the kernel's global allocator.

    The fallback heap is [linked_list_allocator::Heap], a library: it is a
    parameter, and what the code relies on is the class [HeapLaws]. *)

From S2P Require Import Prelude Regions Layout GlobalAlloc Bump.
From stdpp Require Import base list gmap strings.
From Stdlib Require Import ZArith Lia Permutation.
Local Open Scope Z_scope.

(** [linked_list_allocator::Heap]: [Heap::empty], [Heap::init],
    [Heap::allocate_first_fit] and [Heap::deallocate].  Its own bookkeeping stays
    in memory it has not handed out. *)
Class Heap (H : Type) := {
  heap_empty : H;
  heap_init : H -> Z -> Z -> H;
  heap_allocate_first_fit : H -> Layout -> option Z * H;
  heap_deallocate : H -> Z -> Layout -> H;
}.

(** [heap_inv lo hi h live]: the heap [h] over [[lo, hi)] has handed out [live].
    [allocate_first_fit] returns a pointer to a chunk of the given size and
    alignment, or an error; [deallocate] frees a pointer that was returned for
    the same layout. *)
Class HeapLaws (H : Type) `{!Heap H} := {
  heap_inv : Z -> Z -> H -> list allocation -> Prop;
  heap_init_inv lo len :
    0 < lo -> 0 <= len -> lo + len < 2 ^ 63 -> heap_inv lo (lo + len) (heap_init heap_empty lo len) [];
  heap_allocate_inv lo hi h live l :
    heap_inv lo hi h live -> layout_ok l ->
    match heap_allocate_first_fit h l with
    | (Some p, h') => fresh_block lo hi live (Alloc p l) /\ heap_inv lo hi h' (Alloc p l :: live)
    | (None, h') => heap_inv lo hi h' live
    end;
  heap_deallocate_inv lo hi h live p l :
    heap_inv lo hi h (Alloc p l :: live) -> heap_inv lo hi (heap_deallocate h p l) live;
  heap_inv_perm lo hi h live live' :
    live ≡ₚ live' -> heap_inv lo hi h live -> heap_inv lo hi h live';
}.

Module FixedSizeBlockAllocator.
Record ListNode := mkNode { next : option Z }.

(** [mem::size_of::<ListNode>()] and [mem::align_of::<ListNode>()] on x86_64. *)
Definition size_of_ListNode : Z := 8.
Definition align_of_ListNode : Z := 8.

Definition BLOCK_SIZES : list Z := [8; 16; 32; 64; 128; 256; 512; 1024; 2048].

Definition list_index (layout : Layout) : option nat :=
  let required_block_size := Z.max (layout_size layout) (layout_align layout) in
  position (fun s => required_block_size <=? s) BLOCK_SIZES.

Section ops.
Context {H : Type} `{!Heap H}.

(** The allocator and the memory that holds the nodes of its lists. *)
Record t := mk {
  list_heads : list (option Z);
  fallback_allocator : H;
  mem : gmap Z ListNode;
}.

Definition new (m : gmap Z ListNode) : t :=
  mk (replicate (length BLOCK_SIZES) None) heap_empty m.

Definition init (self : t) (heap_start heap_size : Z) : t :=
  mk (list_heads self) (heap_init (fallback_allocator self) heap_start heap_size) (mem self).

Definition fallback_alloc (self : t) (layout : Layout) : Z * t :=
  match heap_allocate_first_fit (fallback_allocator self) layout with
  | (Some ptr, h) => (ptr, mk (list_heads self) h (mem self))
  | (None, h) => (0, mk (list_heads self) h (mem self))
  end.

Definition alloc (self : t) (layout : Layout) : res (Z * t) :=
  match list_index layout with
  | Some i =>
      (* allocator.list_heads[index].take() *)
      head ← index (list_heads self) i;
      heads ← set_index (list_heads self) i None;
      match head with
      | Some addr =>
          (* allocator.list_heads[index] = node.next.take() *)
          node ← read_node (mem self) addr;
          heads ← set_index heads i (next node);
          Ok (addr, mk heads (fallback_allocator self)
                       (write_node size_of_ListNode addr (mkNode None) (mem self)))
      | None =>
          block_size ← index BLOCK_SIZES i;
          let block_align := block_size in
          layout ← unwrap (from_size_align block_size block_align);
          Ok (fallback_alloc (mk heads (fallback_allocator self) (mem self)) layout)
      end
  | None => Ok (fallback_alloc self layout)
  end.

Definition dealloc (self : t) (ptr : Z) (layout : Layout) : res t :=
  match list_index layout with
  | Some i =>
      (* allocator.list_heads[index].take() *)
      head ← index (list_heads self) i;
      heads ← set_index (list_heads self) i None;
      let new_node := mkNode head in
      block_size ← index BLOCK_SIZES i;
      _ ← assert_ (size_of_ListNode <=? block_size);
      _ ← assert_ (align_of_ListNode <=? block_size);
      heads ← set_index heads i (Some ptr);
      Ok (mk heads (fallback_allocator self) (write_node size_of_ListNode ptr new_node (mem self)))
  | None =>
      (* NonNull::new(ptr).unwrap() *)
      ptr ← unwrap (if ptr =? 0 then None else Some ptr);
      Ok (mk (list_heads self) (heap_deallocate (fallback_allocator self) ptr layout) (mem self))
  end.
End ops.
Arguments t : clear implicits.

(** ** Block sizes *)

Lemma BLOCK_SIZES_valid i bs :
  BLOCK_SIZES !! i = Some bs ->
  layout_ok (mkLayout bs bs) /\ size_of_ListNode <= bs /\ align_of_ListNode <= bs.
Proof.
  intros Hi. do 9 (destruct i as [|i]; [injection Hi as <-;
    split_and!; [by apply layout_okb_spec|done..]|]). done.
Qed.

Lemma list_index_Some l i :
  list_index l = Some i ->
  exists bs, BLOCK_SIZES !! i = Some bs /\ layout_size l <= bs /\ layout_align l <= bs.
Proof.
  intros Hi. apply position_Some in Hi as (bs & Hbs & Hle & _).
  exists bs. rewrite Z.leb_le in Hle. split_and!; [done|lia|lia].
Qed.

(** ** The blocks the fallback heap has handed out *)

(** The blocks of size [bs] at the addresses [ls]. *)
Definition blocks (bs : Z) (ls : list Z) : list allocation :=
  (fun a => Alloc a (mkLayout bs bs)) <$> ls.

(** The blocks of all lists. *)
Fixpoint free_blocks (sizes : list Z) (lists : list (list Z)) : list allocation :=
  match sizes, lists with
  | bs :: sizes', ls :: lists' => blocks bs ls ++ free_blocks sizes' lists'
  | _, _ => []
  end.

(** What a client's block is to the fallback heap. *)
Definition served (x : allocation) : allocation :=
  match list_index (al_layout x) with
  | Some i =>
      match BLOCK_SIZES !! i with
      | Some bs => Alloc (al_ptr x) (mkLayout bs bs)
      | None => x
      end
  | None => x
  end.

Lemma free_blocks_insert sizes lists i bs ls ls' :
  sizes !! i = Some bs -> lists !! i = Some ls ->
  free_blocks sizes (<[i := ls']> lists) ++ blocks bs ls ≡ₚ
  blocks bs ls' ++ free_blocks sizes lists.
Proof.
  revert lists i. induction sizes as [|s sizes IH]; intros [|l lists] [|i] Hs Hl; try done.
  - simpl in *. simplify_eq. rewrite <- !app_assoc. apply Permutation_app_head, Permutation_app_comm.
  - simpl in *. rewrite <- app_assoc, (IH lists i) by done.
    rewrite !app_assoc. apply Permutation_app_tail, Permutation_app_comm.
Qed.

Lemma free_blocks_push sizes lists i bs ls a :
  sizes !! i = Some bs -> lists !! i = Some ls ->
  free_blocks sizes (<[i := a :: ls]> lists) ≡ₚ Alloc a (mkLayout bs bs) :: free_blocks sizes lists.
Proof.
  intros Hs Hl. apply (Permutation_app_inv_r (blocks bs ls)).
  rewrite (free_blocks_insert sizes lists i bs ls (a :: ls)) by done. csimpl.
  by rewrite Permutation_app_comm.
Qed.

Lemma free_blocks_elem sizes lists i bs ls a :
  sizes !! i = Some bs -> lists !! i = Some ls -> a ∈ ls ->
  Alloc a (mkLayout bs bs) ∈ free_blocks sizes lists.
Proof.
  revert lists i. induction sizes as [|s sizes IH]; intros [|l lists] [|i] Hs Hl Ha; try done; simpl in *.
  - simplify_eq. apply elem_of_app. left. apply list_elem_of_fmap. by exists a.
  - apply elem_of_app. right. by eapply IH.
Qed.

Lemma served_ptr x : al_ptr (served x) = al_ptr x.
Proof. unfold served. destruct (list_index _) as [i|]; [|done]. by destruct (BLOCK_SIZES !! i). Qed.

Lemma served_covers x : layout_ok (al_layout x) ->
  subregion (al_region x) (al_region (served x)) /\
  (al_ptr x mod layout_align (al_layout (served x)) = 0 -> al_ptr x mod layout_align (al_layout x) = 0).
Proof.
  intros [(Ha & _) _]. unfold served. destruct (list_index (al_layout x)) as [i|] eqn:E; [|done].
  destruct (list_index_Some _ _ E) as (bs & Hbs & Hs & Hal). rewrite Hbs.
  destruct (BLOCK_SIZES_valid i bs Hbs) as ([(Hb & _) _] & _). split.
  - unfold al_region; region_lia.
  - by apply aligned_weaken.
Qed.

(** ** The invariant *)

Section facts.
Context {H : Type} `{HeapLaws H}.

(** The lists in memory are [lists]; free blocks and client blocks are exactly
    what the fallback heap has handed out. *)
Record inv_lists (lo hi : Z) (self : t H) (lists : list (list Z)) (live : list allocation) : Prop := {
  inv_chains : Forall2 (fun head ls =>
    chain (fun _ => tt) next (mem self) head ((fun a => (a, tt)) <$> ls)) (list_heads self) lists;
  inv_length : length lists = length BLOCK_SIZES;
  inv_heap : heap_inv lo hi (fallback_allocator self)
    (free_blocks BLOCK_SIZES lists ++ (served <$> live));
  inv_blocks : client_ok lo hi (free_blocks BLOCK_SIZES lists ++ (served <$> live));
  inv_layouts : Forall (fun x => layout_ok (al_layout x)) live;
}.

Definition inv (lo hi : Z) (self : t H) (live : list allocation) : Prop :=
  exists lists, inv_lists lo hi self lists live.

(** A block that is fresh for the fallback heap is fresh for the clients. *)
Lemma served_fresh lo hi rest live x :
  layout_ok (al_layout x) -> Forall (fun y => layout_ok (al_layout y)) live ->
  fresh_block lo hi (rest ++ (served <$> live)) (served x) -> fresh_block lo hi live x.
Proof.
  intros Hx Hlive (Hn & Ha & Hw & Hd). destruct (served_covers x Hx) as [Hsub Hal].
  rewrite served_ptr in Hn, Ha. split_and!; [done|by apply Hal|region_lia|].
  rewrite fmap_app, Forall_app in Hd. destruct Hd as [_ Hd].
  rewrite !Forall_fmap in Hd. rewrite Forall_fmap.
  apply Forall_forall. intros y Hy. simpl.
  apply (proj1 (Forall_forall _ _)) with (x := y) in Hd, Hlive; [|done..]. simpl in Hd.
  destruct (served_covers y Hlive) as [Hsuby _]. region_lia.
Qed.

(** The first of a list of blocks is fresh for the others. *)
Lemma client_ok_head lo hi x live : client_ok lo hi (x :: live) -> fresh_block lo hi live x.
Proof.
  intros [[Hd _] Hw Ha Hn]. apply Forall_cons in Hw as [? _], Ha as [? _], Hn as [? _].
  by split_and!.
Qed.

(** Memory may change outside the nodes of the free blocks. *)
Lemma chains_frame (m m' : gmap Z ListNode) heads lists :
  length lists = length BLOCK_SIZES ->
  (forall a bs, Alloc a (mkLayout bs bs) ∈ free_blocks BLOCK_SIZES lists ->
     size_of_ListNode <= bs -> m' !! a = m !! a) ->
  Forall2 (fun head ls => chain (fun _ => tt) next m head ((fun a => (a, tt)) <$> ls)) heads lists ->
  Forall2 (fun head ls => chain (fun _ => tt) next m' head ((fun a => (a, tt)) <$> ls)) heads lists.
Proof.
  intros Hlen Hm HF. apply Forall2_same_length_lookup_2; [by eapply Forall2_length|].
  intros i head ls Hh Hl. pose proof (Forall2_lookup_lr _ _ _ _ _ _ HF Hh Hl) as Hc. simpl in Hc.
  eapply chain_frame; [|exact Hc]. intros a [] Ha.
  apply list_elem_of_fmap in Ha as (a' & [= <-] & Ha).
  assert (is_Some (BLOCK_SIZES !! i)) as [bs Hbs].
  { apply lookup_lt_is_Some. rewrite <- Hlen. by eapply lookup_lt_Some. }
  apply (Hm a bs); [by eapply free_blocks_elem|]. by apply (BLOCK_SIZES_valid i bs).
Qed.

(** The blocks of [l] do not overlap the range [r]. *)
Definition clear_of (r : region) (l : list allocation) : Prop :=
  Forall (fun y => disj r (al_region y)) l.

Lemma chains_write (m : gmap Z ListNode) heads lists a n :
  length lists = length BLOCK_SIZES ->
  clear_of (Region a size_of_ListNode) (free_blocks BLOCK_SIZES lists) ->
  Forall2 (fun head ls => chain (fun _ => tt) next m head ((fun a => (a, tt)) <$> ls)) heads lists ->
  Forall2 (fun head ls => chain (fun _ => tt) next (write_node size_of_ListNode a n m) head
    ((fun a => (a, tt)) <$> ls)) heads lists.
Proof.
  intros Hlen Hcl. apply chains_frame; [done|]. intros b bs Hb Hbs.
  unfold clear_of in Hcl. apply (proj1 (Forall_forall _ _)) with (x := Alloc b (mkLayout bs bs)) in Hcl; [|done].
  apply lookup_write_ne; [done|]. unfold al_region in Hcl. region_lia.
Qed.

(** A fresh block is clear of the blocks handed out before. *)
Lemma fresh_clear lo hi l1 l2 x r :
  fresh_block lo hi (l1 ++ l2) x -> subregion r (al_region x) -> clear_of r l1.
Proof.
  intros (_ & _ & _ & Hd) Hs. rewrite fmap_app in Hd. apply Forall_app in Hd as [Hd _].
  rewrite Forall_fmap in Hd. eapply Forall_impl; [exact Hd|].
  intros y Hy. simpl in Hy. by eapply disj_sub.
Qed.

(** ** alloc *)

(** Taking the first block off a list. *)
Lemma alloc_pop lo hi (self : t H) lists live l i a ls :
  inv_lists lo hi self lists live -> layout_ok l ->
  list_index l = Some i -> lists !! i = Some (a :: ls) ->
  exists self', alloc self l = Ok (a, self') /\
    fallback_allocator self' = fallback_allocator self /\
    fresh_block lo hi live (Alloc a l) /\
    inv_lists lo hi self' (<[i := ls]> lists) (Alloc a l :: live).
Proof.
  intros [Hch Hlen Hheap Hbl Hlay] Hl Hi Hls.
  destruct (list_index_Some _ _ Hi) as (bs & Hbs & _ & _).
  destruct (BLOCK_SIZES_valid i bs Hbs) as (_ & Hbs8 & _).
  destruct (Forall2_lookup_r _ _ _ _ _ Hch Hls) as (head & Hh & Hc).
  csimpl in Hc. destruct Hc as (-> & n & Hn & _ & Hc).
  assert (served (Alloc a l) = Alloc a (mkLayout bs bs)) as Hsv.
  { unfold served; simpl. by rewrite Hi, Hbs. }
  set (lists' := <[i := ls]> lists).
  assert (free_blocks BLOCK_SIZES lists ≡ₚ Alloc a (mkLayout bs bs) :: free_blocks BLOCK_SIZES lists') as HP.
  { rewrite <- (free_blocks_push BLOCK_SIZES lists' i bs ls) by
      (done || by apply list_lookup_insert_eq; eapply lookup_lt_Some).
    unfold lists'. by rewrite list_insert_insert_eq, list_insert_id. }
  assert (free_blocks BLOCK_SIZES lists ++ (served <$> live) ≡ₚ
          served (Alloc a l) :: free_blocks BLOCK_SIZES lists' ++ (served <$> live)) as HP'.
  { by rewrite HP, Hsv. }
  pose proof (client_ok_head _ _ _ _ (client_ok_perm _ _ _ _ HP' Hbl)) as Hf.
  assert (i < length (list_heads self))%nat as Hlt by (by eapply lookup_lt_Some).
  exists (mk (<[i := next n]> (<[i := None]> (list_heads self))) (fallback_allocator self)
            (write_node size_of_ListNode a (mkNode None) (mem self))).
  split_and!.
  - unfold alloc. rewrite Hi, (index_ok _ _ _ Hh). simpl.
    rewrite set_index_ok by done. simpl. unfold read_node. rewrite Hn. simpl.
    by rewrite set_index_ok by by rewrite length_insert.
  - done.
  - eapply served_fresh; [done|done|exact Hf].
  - assert (free_blocks BLOCK_SIZES lists' ++ (served <$> Alloc a l :: live) ≡ₚ
            free_blocks BLOCK_SIZES lists ++ (served <$> live)) as HPall.
    { rewrite HP'. csimpl. by rewrite <- Permutation_middle. }
    split; simpl.
    + apply chains_write; [by unfold lists'; rewrite length_insert| |].
      * eapply fresh_clear; [exact Hf|]. rewrite Hsv. unfold al_region. region_lia.
      * rewrite list_insert_insert_eq. by apply Forall2_insert.
    + unfold lists'. by rewrite length_insert.
    + eapply heap_inv_perm; [symmetry; exact HPall|done].
    + eapply client_ok_perm; [symmetry; exact HPall|done].
    + by constructor.
Qed.

(** Asking the fallback heap. *)
Lemma fallback_alloc_inv lo hi (self : t H) lists live l l' :
  inv_lists lo hi self lists live -> layout_ok l -> layout_ok l' ->
  (forall p, served (Alloc p l) = Alloc p l') ->
  let '(p, self') := fallback_alloc self l' in
  p = 0 /\ inv_lists lo hi self' lists live \/
  fresh_block lo hi live (Alloc p l) /\ inv_lists lo hi self' lists (Alloc p l :: live).
Proof.
  intros [Hch Hlen Hheap Hbl Hlay] Hl Hl' Hsv. unfold fallback_alloc.
  pose proof (heap_allocate_inv _ _ _ _ l' Hheap Hl') as Ha.
  destruct (heap_allocate_first_fit (fallback_allocator self) l') as [[p|] h]; [right|left].
  - destruct Ha as [Hf Hh].
    assert (free_blocks BLOCK_SIZES lists ++ (served <$> Alloc p l :: live) ≡ₚ
            Alloc p l' :: free_blocks BLOCK_SIZES lists ++ (served <$> live)) as HP.
    { csimpl. rewrite Hsv. by rewrite <- Permutation_middle. }
    split.
    + eapply served_fresh; [done|done|]. rewrite Hsv. exact Hf.
    + split; simpl; [done|done| | |by constructor].
      * eapply heap_inv_perm; [symmetry; exact HP|done].
      * eapply client_ok_perm; [symmetry; exact HP|]. by apply client_ok_cons.
  - split; [done|]. by split.
Qed.

(** The layout a request is passed on with. *)
Definition fallback_layout (l : Layout) : Layout := al_layout (served (Alloc 0 l)).

Lemma fallback_layout_served p l : served (Alloc p l) = Alloc p (fallback_layout l).
Proof.
  unfold fallback_layout, served; simpl. destruct (list_index l) as [i|]; [|done].
  by destruct (BLOCK_SIZES !! i).
Qed.

Lemma fallback_layout_ok l : layout_ok l -> layout_ok (fallback_layout l).
Proof.
  intros Hl. unfold fallback_layout, served; simpl. destruct (list_index l) as [i|]; [|done].
  destruct (BLOCK_SIZES !! i) as [bs|] eqn:E; [|done]. by apply (BLOCK_SIZES_valid i).
Qed.

(** With no free block of the right size, the fallback heap is asked. *)
Lemma alloc_fallback lo hi (self : t H) lists live l :
  inv_lists lo hi self lists live ->
  (forall i, list_index l = Some i -> lists !! i = Some []) ->
  alloc self l = Ok (fallback_alloc self (fallback_layout l)).
Proof.
  intros [Hch Hlen _ _ _] Hnil. unfold alloc.
  unfold fallback_layout, served; simpl. destruct (list_index l) as [i|] eqn:Hi; [|done].
  specialize (Hnil i eq_refl). destruct (list_index_Some _ _ Hi) as (bs & Hbs & _ & _).
  destruct (BLOCK_SIZES_valid i bs Hbs) as ([Hv _] & _ & _).
  destruct (Forall2_lookup_r _ _ _ _ _ Hch Hnil) as (head & Hh & Hc). simpl in Hc. subst head.
  rewrite (index_ok _ _ _ Hh). simpl.
  rewrite set_index_ok by (by eapply lookup_lt_Some). simpl.
  rewrite (index_ok _ _ _ Hbs), Hbs. simpl. unfold unwrap.
  rewrite from_size_align_Some by done. simpl.
  rewrite list_insert_id by done. by destruct self.
Qed.

(** ** dealloc *)

Lemma fsb_dealloc_inv lo hi (self : t H) lists live x :
  inv_lists lo hi self lists (x :: live) ->
  exists self' lists', dealloc self (al_ptr x) (al_layout x) = Ok self' /\
    inv_lists lo hi self' lists' live /\
    match list_index (al_layout x) with
    | Some i => fallback_allocator self' = fallback_allocator self /\
        exists ls, lists !! i = Some ls /\ lists' = <[i := al_ptr x :: ls]> lists
    | None => lists' = lists
    end.
Proof.
  intros [Hch Hlen Hheap Hbl Hlay]. csimpl in Hheap. csimpl in Hbl.
  apply Forall_cons in Hlay as [Hx Hlay].
  pose proof (Permutation_middle (free_blocks BLOCK_SIZES lists) (served <$> live) (served x)) as HP.
  apply heap_inv_perm with (1 := symmetry HP) in Hheap.
  apply client_ok_perm with (1 := symmetry HP) in Hbl.
  pose proof (client_ok_head _ _ _ _ Hbl) as Hf. pose proof (client_ok_tail _ _ _ _ Hbl) as Hbl'.
  unfold dealloc. unfold served in Hheap, Hf, Hbl.
  destruct (list_index (al_layout x)) as [i|] eqn:Hi.
  - destruct (list_index_Some _ _ Hi) as (bs & Hbs & _ & _). rewrite Hbs in Hheap, Hf, Hbl.
    destruct (BLOCK_SIZES_valid i bs Hbs) as ([Hv _] & Hs8 & Ha8).
    assert (is_Some (lists !! i)) as [ls Hls].
    { apply lookup_lt_is_Some. rewrite Hlen. by eapply lookup_lt_Some. }
    destruct (Forall2_lookup_r _ _ _ _ _ Hch Hls) as (head & Hh & Hc).
    assert (i < length (list_heads self))%nat as Hlt by (by eapply lookup_lt_Some).
    pose proof (free_blocks_push BLOCK_SIZES lists i bs ls (al_ptr x) Hbs Hls) as HPp.
    exists (mk (<[i := Some (al_ptr x)]> (<[i := None]> (list_heads self))) (fallback_allocator self)
              (write_node size_of_ListNode (al_ptr x) (mkNode head) (mem self))).
    exists (<[i := al_ptr x :: ls]> lists). split; [|split; [|by split; [|eexists]]].
    + rewrite (index_ok _ _ _ Hh). simpl. rewrite set_index_ok by done. simpl.
      rewrite (index_ok _ _ _ Hbs). simpl. rewrite !(proj2 (Z.leb_le _ _)) by done. simpl.
      rewrite set_index_ok by (by rewrite length_insert). simpl. done.
    + assert (clear_of (Region (al_ptr x) size_of_ListNode) (free_blocks BLOCK_SIZES lists)) as Hcl.
      { eapply fresh_clear; [exact Hf|]. unfold al_region. region_lia. }
      split; simpl; [|by rewrite length_insert| | |done].
      * rewrite list_insert_insert_eq. apply Forall2_insert; [by apply chains_write|].
        eapply (chain_push size_of_ListNode (fun _ : ListNode => tt) next); [done|exact Hc|done|].
        apply Forall_fmap, Forall_forall. intros a Ha. simpl.
        pose proof (free_blocks_elem _ _ _ _ _ _ Hbs Hls Ha) as Hin.
        apply (proj1 (Forall_forall _ _)) with (1 := Hcl) in Hin. unfold al_region in Hin. region_lia.
      * eapply heap_inv_perm; [|exact Hheap]. by rewrite HPp.
      * eapply client_ok_perm; [|exact Hbl]. by rewrite HPp.
  - eexists _, lists. split; [|split; [|done]].
    + rewrite (proj2 (Z.eqb_neq (al_ptr x) 0)) by apply Hf. done.
    + split; simpl; [done|done| |done|done].
      apply heap_deallocate_inv. by destruct x.
Qed.

(** ** Stores by clients, and the contract *)

Definition client_store (self : t H) (addr len : Z) : t H :=
  mk (list_heads self) (fallback_allocator self) (clobber size_of_ListNode addr len (mem self)).

Lemma fsb_store_inv lo hi (self : t H) lists live x addr len :
  inv_lists lo hi self lists live -> x ∈ live -> subregion (Region addr len) (al_region x) ->
  inv_lists lo hi (client_store self addr len) lists live.
Proof.
  intros [Hch Hlen Hheap Hbl Hlay] Hx Hsub. split; simpl; try done.
  eapply chains_frame; [done| |exact Hch]. intros a bs Ha Hbs. apply lookup_clobber_ne.
  destruct Hbl as [Hd _ _ _]. rewrite fmap_app in Hd. apply pairwise_disj_app in Hd as (_ & _ & Hd).
  rewrite !Forall_fmap in Hd. apply (proj1 (Forall_forall _ _)) with (1 := Hd) in Ha. simpl in Ha.
  rewrite !Forall_fmap in Ha. pose proof (proj1 (Forall_forall _ _) Ha x Hx) as Hdx. simpl in Hdx.
  apply (proj1 (Forall_forall _ _)) with (1 := Hlay) in Hx.
  destruct (served_covers x Hx) as [Hsv _]. unfold al_region in *. region_lia.
Qed.

Lemma inv_lists_perm lo hi (self : t H) lists live live' :
  live ≡ₚ live' -> inv_lists lo hi self lists live -> inv_lists lo hi self lists live'.
Proof.
  intros Hp [Hch Hlen Hheap Hbl Hlay].
  assert (free_blocks BLOCK_SIZES lists ++ (served <$> live) ≡ₚ
          free_blocks BLOCK_SIZES lists ++ (served <$> live')) as HP by (by rewrite Hp).
  split; [done|done| | |by rewrite <- Hp].
  - by apply heap_inv_perm with (1 := HP).
  - by apply client_ok_perm with (1 := HP).
Qed.

Lemma fsb_init_inv (m : gmap Z ListNode) start len :
  0 < start -> 0 <= len -> start + len < 2 ^ 63 ->
  inv_lists start (start + len) (init (new m) start len) (replicate (length BLOCK_SIZES) []) [].
Proof.
  intros H1 H2 H3. split; simpl.
  - repeat constructor.
  - done.
  - by apply heap_init_inv.
  - apply client_ok_nil.
  - constructor.
Qed.

(** The two ways of [alloc]: the first free block, or the fallback heap. *)
Lemma alloc_cases lo hi (self : t H) lists live l :
  inv_lists lo hi self lists live -> layout_ok l ->
  (exists i a ls, list_index l = Some i /\ lists !! i = Some (a :: ls)) \/
  (forall i, list_index l = Some i -> lists !! i = Some []) /\
  alloc self l = Ok (fallback_alloc self (fallback_layout l)).
Proof.
  intros Hi Hl. assert (Hfb := alloc_fallback lo hi self lists live l Hi).
  destruct (list_index l) as [i|] eqn:E.
  - assert (is_Some (lists !! i)) as [[|a ls] Hls].
    { apply lookup_lt_is_Some. rewrite (inv_length _ _ _ _ _ Hi).
      destruct (list_index_Some _ _ E) as (bs & Hbs & _). by eapply lookup_lt_Some. }
    + right. assert (forall j, Some i = Some j -> lists !! j = Some []) as Hj by (intros j Hj; by simplify_eq).
      split; [done|by apply Hfb].
    + left. by exists i, a, ls.
  - right. split; [done|by apply Hfb].
Qed.

Lemma alloc_inv lo hi (self : t H) live l :
  inv lo hi self live -> layout_ok l ->
  exists p self', alloc self l = Ok (p, self') /\
    (p = 0 /\ inv lo hi self' live \/
     fresh_block lo hi live (Alloc p l) /\ inv lo hi self' (Alloc p l :: live)).
Proof.
  intros [lists Hi] Hl.
  destruct (alloc_cases lo hi self lists live l Hi Hl) as [(i & a & ls & E & Hls)|[_ Ea]].
  - destruct (alloc_pop lo hi self lists live l i a ls Hi Hl E Hls) as (self' & -> & _ & Hf & Hi').
    exists a, self'. split; [done|]. right. split; [done|]. by eexists.
  - pose proof (fallback_alloc_inv lo hi self lists live l (fallback_layout l) Hi Hl
      (fallback_layout_ok _ Hl) (fun p => fallback_layout_served p l)) as Hf.
    rewrite Ea. destruct (fallback_alloc self (fallback_layout l)) as [p self'].
    exists p, self'. split; [done|].
    destruct Hf as [[-> Hi']|[Hf Hi']]; [left|right]; (split; [done|]); by eexists.
Qed.

#[export] Instance FixedSizeBlockAllocator_GlobalAlloc : GlobalAlloc (t H) := {
  ga_alloc := alloc;
  ga_dealloc := dealloc;
  ga_write := client_store;
}.

#[export, program] Instance FixedSizeBlockAllocator_contract : AllocContract (t H) := { ac_inv := inv }.
Next Obligation.
  intros lo hi self live l Hi Hl. simpl.
  destruct (alloc_inv lo hi self live l Hi Hl) as (p & self' & -> & Hp). exact Hp.
Qed.
Next Obligation.
  intros lo hi self live p l [lists Hi].
  destruct (fsb_dealloc_inv lo hi self lists live (Alloc p l) Hi) as (self' & lists' & E & Hi' & _).
  exists self'. split; [done|]. by eexists.
Qed.
Next Obligation.
  intros lo hi self live x addr len [lists Hi] Hx Hs. exists lists. by eapply fsb_store_inv.
Qed.
Next Obligation.
  intros lo hi self live live' Hp [lists Hi]. exists lists. by eapply inv_lists_perm.
Qed.

#[export] Instance FixedSizeBlockAllocator_total : AllocTotal (t H).
Proof.
  intros lo hi self live l Hi Hl.
  destruct (alloc_inv lo hi self live l Hi Hl) as (p & self' & E & _). by exists p, self'.
Qed.

(** ** Blocks of a size class are never lost *)

(** How many blocks of the [i]-th size class a client holds. *)
Definition holding (i : nat) (live : list allocation) : nat :=
  length (filter (fun x => list_index (al_layout x) = Some i) live).

Lemma holding_cons i x live :
  holding i (x :: live) =
  ((if decide (list_index (al_layout x) = Some i) then 1 else 0) + holding i live)%nat.
Proof. unfold holding. rewrite filter_cons. by destruct (decide _). Qed.

Lemma holding_perm i live live' : live ≡ₚ live' -> holding i live = holding i live'.
Proof. intros Hp. unfold holding. by rewrite Hp. Qed.

(** The invariant, and at least [n] blocks of the [i]-th size class are either free on
    their list or with the client. *)
Definition reserve (i n : nat) (lo hi : Z) (self : t H) (live : list allocation) : Prop :=
  exists lists ls, inv_lists lo hi self lists live /\ lists !! i = Some ls /\ (n <= length ls + holding i live)%nat.

Lemma reserve_inv i n lo hi self live : reserve i n lo hi self live -> inv lo hi self live.
Proof. intros (lists & ls & Hi & _). by exists lists. Qed.

(** The blocks that a client holds are its reserve. *)
Lemma inv_reserve i lo hi self live :
  (i < length BLOCK_SIZES)%nat -> inv lo hi self live -> reserve i (holding i live) lo hi self live.
Proof.
  intros Hlt [lists Hi]. rewrite <- (inv_length _ _ _ _ _ Hi) in Hlt.
  destruct (lookup_lt_is_Some_2 _ _ Hlt) as [ls Hls]. exists lists, ls. split_and!; [done|done|lia].
Qed.

Lemma reserve_perm i n lo hi self live live' :
  live ≡ₚ live' -> reserve i n lo hi self live -> reserve i n lo hi self live'.
Proof.
  intros Hp (lists & ls & Hi & Hls & Hn). exists lists, ls. rewrite <- (holding_perm i _ _ Hp).
  split_and!; [by eapply inv_lists_perm|done..].
Qed.

(** [alloc] fails on a size class only when the reserve is with the client. *)
Lemma reserve_alloc i n lo hi self live l :
  reserve i n lo hi self live -> layout_ok l ->
  exists p self', alloc self l = Ok (p, self') /\
    (p = 0 /\ reserve i n lo hi self' live /\ (list_index l = Some i -> (n <= holding i live)%nat) \/
     fresh_block lo hi live (Alloc p l) /\ reserve i n lo hi self' (Alloc p l :: live)).
Proof.
  intros (lists & ls & Hi & Hls & Hn) Hl.
  destruct (alloc_cases lo hi self lists live l Hi Hl) as [(j & a & js & E & Hjs)|[Hnil Ea]].
  - destruct (alloc_pop lo hi self lists live l j a js Hi Hl E Hjs) as (self' & -> & _ & Hf & Hi').
    exists a, self'. split; [done|]. right. split; [done|]. exists (<[j := js]> lists).
    destruct (decide (i = j)) as [<-|Hne].
    + exists js. simplify_eq. rewrite holding_cons. simpl. rewrite decide_True by done. simpl in Hn.
      split_and!; [done|by apply list_lookup_insert_eq; eapply lookup_lt_Some|lia].
    + exists ls. rewrite list_lookup_insert_ne by done. rewrite holding_cons. split_and!; [done|done|lia].
  - pose proof (fallback_alloc_inv lo hi self lists live l (fallback_layout l) Hi Hl
      (fallback_layout_ok _ Hl) (fun p => fallback_layout_served p l)) as Hf.
    rewrite Ea. destruct (fallback_alloc self (fallback_layout l)) as [p self'].
    exists p, self'. split; [done|].
    destruct Hf as [[-> Hi']|[Hf Hi']]; [left|right].
    + split_and!; [done|by exists lists, ls|]. intros E. specialize (Hnil i E). simplify_eq. simpl in Hn. lia.
    + split; [done|]. exists lists, ls. rewrite holding_cons. split_and!; [done|done|lia].
Qed.

Lemma reserve_dealloc i n lo hi self live p l :
  reserve i n lo hi self (Alloc p l :: live) ->
  exists self', dealloc self p l = Ok self' /\ reserve i n lo hi self' live.
Proof.
  intros (lists & ls & Hi & Hls & Hn). rewrite holding_cons in Hn. simpl in Hn.
  destruct (fsb_dealloc_inv lo hi self lists live (Alloc p l) Hi) as (self' & lists' & Hd & Hi' & Hl').
  exists self'. split; [exact Hd|]. exists lists'. simpl in Hl'.
  destruct (list_index l) as [j|]; [|subst lists'; exists ls; by split_and!].
  destruct Hl' as (_ & js & Hjs & ->). destruct (decide (i = j)) as [<-|Hne].
  - simplify_eq. exists (p :: ls). rewrite decide_True in Hn by done.
    split_and!; [done|by apply list_lookup_insert_eq; eapply lookup_lt_Some|simpl; lia].
  - exists ls. rewrite list_lookup_insert_ne by done. rewrite decide_False in Hn by congruence. by split_and!.
Qed.

(** The reserve is an invariant of every client. *)
#[program] Definition reserve_contract (i n : nat) : AllocContract (t H) := {| ac_inv := reserve i n |}.
Next Obligation.
  intros i n lo hi self live l Hr Hl. simpl.
  destruct (reserve_alloc i n lo hi self live l Hr Hl) as (p & self' & -> & [(-> & Hr' & _)|Hp]); [by left|by right].
Qed.
Next Obligation. intros i n lo hi self live p l. apply reserve_dealloc. Qed.
Next Obligation.
  intros i n lo hi self live x addr len (lists & ls & Hi & Hls & Hn) Hx Hs.
  exists lists, ls. split_and!; [by eapply fsb_store_inv|done..].
Qed.
Next Obligation. intros i n lo hi self live live'. apply reserve_perm. Qed.

Lemma reserve_total i n : @AllocTotal (t H) _ (reserve_contract i n).
Proof.
  intros lo hi self live l Hr Hl.
  destruct (reserve_alloc i n lo hi self live l Hr Hl) as (p & self' & E & _). by exists p, self'.
Qed.
End facts.
End FixedSizeBlockAllocator.

(** ** A fallback heap *)

(** The laws of the fallback heap can be met: the bump allocator meets them. *)
#[export] Instance bump_Heap : Heap BumpAllocator.t := {
  heap_empty := BumpAllocator.new;
  heap_init _ start len := BumpAllocator.fresh start len;
  heap_allocate_first_fit b l :=
    match BumpAllocator.alloc (profile := dev_profile) b l with
    | Ok (p, b') => (if p =? 0 then None else Some p, b')
    | _ => (None, b)
    end;
  heap_deallocate b p l :=
    match BumpAllocator.dealloc (profile := dev_profile) b p l with Ok b' => b' | _ => b end;
}.

#[export, program] Instance bump_HeapLaws : HeapLaws BumpAllocator.t := {
  heap_inv := BumpAllocator.inv;
}.
Next Obligation. intros. by apply BumpAllocator.fresh_inv. Qed.
Next Obligation.
  intros lo hi b live l Hi Hl. simpl. rewrite (BumpAllocator.alloc_eq lo hi b live l Hi Hl).
  destruct (BumpAllocator.fits b l) eqn:Hf; [|done].
  destruct (BumpAllocator.bumped_inv lo hi b live l Hi Hl Hf) as [Hfr Hi'].
  rewrite (proj2 (Z.eqb_neq _ 0)) by apply Hfr. done.
Qed.
Next Obligation.
  intros lo hi b live p l Hi. simpl.
  by destruct (BumpAllocator.bump_dealloc_inv (profile := dev_profile) lo hi b live p l Hi) as (b' & -> & ?).
Qed.
Next Obligation. intros. by eapply BumpAllocator.inv_perm. Qed.

Import FixedSizeBlockAllocator.

(** [list_index] picks the smallest block size that is at least the size and
    the alignment of the layout, and fails exactly for layouts that exceed the
    largest block size. *)
Theorem list_index_correct (l : Layout) :
  match list_index l with
  | Some i => exists bs, BLOCK_SIZES !! i = Some bs /\ layout_size l <= bs /\ layout_align l <= bs /\
      forall j bs', BLOCK_SIZES !! j = Some bs' ->
        layout_size l <= bs' -> layout_align l <= bs' -> bs <= bs'
  | None => 2048 < Z.max (layout_size l) (layout_align l)
  end.
Proof.
  unfold list_index. destruct (position _ BLOCK_SIZES) as [i|] eqn:E.
  - apply position_Some in E as (bs & Hbs & Hle & Hmin). rewrite Z.leb_le in Hle.
    exists bs. split_and!; [done|lia|lia|]. intros j bs' Hj Hs Ha.
    destruct (decide (j < i)%nat) as [Hji|Hji].
    + specialize (Hmin j bs' Hji Hj). rewrite Z.leb_gt in Hmin. lia.
    + assert (i <= j)%nat as Hij by lia. clear -Hbs Hj Hij.
      do 9 (destruct i as [|i]; [do 9 (destruct j as [|j]; [simpl in *; simplify_eq; lia|]); done|
            destruct j as [|j]; [lia|]]). done.
  - apply position_None in E. apply Forall_forall with (x := 2048) in E; [|set_solver].
    rewrite Z.leb_gt in E. lia.
Qed.

(** C10: whatever a client does with the kernel's global allocator, over any heap that
    ends below 2^63 and any fallback allocator that keeps its contract, no call panics, no node of a block
    list is ever destroyed or dangling, and the blocks the client owns are
    disjoint, aligned and inside the heap. *)
Theorem fixed_size_block_client_safe (H : Type) (heap : Heap H) (laws : HeapLaws H)
    (m : gmap Z ListNode) (start len : Z) (cs : list command) :
  0 < start -> 0 <= len -> start + len < 2 ^ 63 -> Forall command_ok cs ->
  exists s, run_client cs (init (new m) start len, []) = Ok s /\ client_ok start (start + len) s.2.
Proof.
  intros H1 H2 H3 Hcs.
  destruct (run_client_total start (start + len) (init (new m) start len, []) cs) as (s & Hr & _ & Hc).
  - split; [|apply client_ok_nil]. eexists. by apply fsb_init_inv.
  - done.
  - by exists s.
Qed.

Lemma fixed_size_block_client_safe_witness :
  exists s, run_client [CAlloc (mkLayout 8 8); CAlloc (mkLayout 4096 4096); CStore 1 0 8; CFree 1;
                        CAlloc (mkLayout 3 1); CStore 0 0 3; CFree 1]
      (init (new (H := BumpAllocator.t) ∅) 0x444444440000 102400, []) = Ok s /\
    client_ok 0x444444440000 (0x444444440000 + 102400) s.2.
Proof.
  apply (fixed_size_block_client_safe BumpAllocator.t bump_Heap bump_HeapLaws ∅ 0x444444440000 102400);
    [lia..|]. apply commands_okb_sound. reflexivity.
Defined.

(** C31: a freed block of a size class is the next block handed out for that class,
    whatever layout of the class is asked for, and the fallback heap is not
    involved in either call. *)
Theorem fixed_size_block_reuse (H : Type) (heap : Heap H) (laws : HeapLaws H) (lo hi : Z) (self : t H)
    (live : list allocation) (x : allocation) (l : Layout) (i : nat) :
  inv lo hi self (x :: live) -> list_index (al_layout x) = Some i ->
  layout_ok l -> list_index l = Some i ->
  exists self1 self2,
    dealloc self (al_ptr x) (al_layout x) = Ok self1 /\
    alloc self1 l = Ok (al_ptr x, self2) /\
    fallback_allocator self2 = fallback_allocator self /\
    inv lo hi self2 (Alloc (al_ptr x) l :: live).
Proof.
  intros [lists Hi] Ex Hl El.
  destruct (fsb_dealloc_inv lo hi self lists live x Hi) as (self1 & lists1 & Hd & Hi1 & Hls).
  rewrite Ex in Hls. destruct Hls as (Hfb1 & ls & Hls & ->).
  destruct (alloc_pop lo hi self1 (<[i := al_ptr x :: ls]> lists) live l i (al_ptr x) ls)
    as (self2 & Ha & Hfb2 & Hf & Hi2); [done|done|done| |].
  { apply list_lookup_insert_eq. by eapply lookup_lt_Some. }
  exists self1, self2. split_and!; [done|done|congruence|by eexists].
Qed.

(** C30: the blocks of a size class are never lost.  A client that holds [n] blocks of a
    size class may go on to do anything, with blocks of any size; whenever it then
    holds fewer than [n] blocks of that class, the next allocation of the class
    succeeds, however exhausted the fallback heap is. *)
Theorem fixed_size_block_reserve (H : Type) (heap : Heap H) (laws : HeapLaws H) (lo hi : Z)
    (self : t H) (live : list allocation) (cs : list command) (l : Layout) (i : nat) :
  inv lo hi self live -> client_ok lo hi live -> Forall command_ok cs ->
  layout_ok l -> list_index l = Some i ->
  exists self1 live1, run_client cs (self, live) = Ok (self1, live1) /\
    ((holding i live1 < holding i live)%nat ->
     exists p self2, alloc self1 l = Ok (p, self2) /\ p <> 0 /\ inv lo hi self2 (Alloc p l :: live1)).
Proof.
  intros Hi Hc Hcs Hl E. destruct (list_index_Some _ _ E) as (bs & Hbs & _).
  pose proof (inv_reserve i lo hi self live (lookup_lt_Some _ _ _ Hbs) Hi) as Hr.
  destruct (@run_client_total (t H) _ (reserve_contract i (holding i live)) (reserve_total i _) lo hi (self, live) cs)
    as ([self1 live1] & Er & Hr1 & _); [by split|done|].
  exists self1, live1. split; [done|]. intros Hlt.
  destruct (reserve_alloc i _ lo hi self1 live1 l Hr1 Hl) as (p & self2 & Ea & [(-> & _ & Hp)|[[Hnz _] Hr2]]).
  - specialize (Hp E). lia.
  - exists p, self2. split_and!; [done|done|by eapply reserve_inv].
Qed.

(** A state in which the client owns one block of 8 bytes. *)
Definition fsb_sample : t BumpAllocator.t :=
  mk (replicate 9 None) (BumpAllocator.mk 0x1000 0x2000 0x1008 1) ∅.

Lemma fsb_sample_ok : heap_ok 0x1000 (0x1000 + 4096) (fsb_sample, [Alloc 0x1000 (mkLayout 8 8)]).
Proof.
  destruct (run_client_total 0x1000 (0x1000 + 4096) (init (new (H := BumpAllocator.t) ∅) 0x1000 4096, [])
    [CAlloc (mkLayout 8 8)]) as (s & Hr & Hs).
  - split; [by eexists; apply fsb_init_inv|apply client_ok_nil].
  - by apply commands_okb_sound.
  - vm_compute in Hr. injection Hr as <-. exact Hs.
Qed.

Lemma fixed_size_block_reuse_witness :
  exists self1 self2 : t BumpAllocator.t,
    dealloc fsb_sample 0x1000 (mkLayout 8 8) = Ok self1 /\
    alloc self1 (mkLayout 3 1) = Ok (0x1000, self2) /\
    fallback_allocator self2 = fallback_allocator fsb_sample /\
    inv 0x1000 (0x1000 + 4096) self2 [Alloc 0x1000 (mkLayout 3 1)].
Proof.
  apply (fixed_size_block_reuse BumpAllocator.t bump_Heap bump_HeapLaws 0x1000 (0x1000 + 4096) fsb_sample []
    (Alloc 0x1000 (mkLayout 8 8)) (mkLayout 3 1) 0 (proj1 fsb_sample_ok));
    [reflexivity|apply layout_okb_spec; reflexivity|reflexivity].
Defined.

Lemma fixed_size_block_reserve_witness :
  exists self1 p self2,
    run_client [CFree 0; CAlloc (mkLayout 1024 8); CAlloc (mkLayout 4096 8)] (fsb_sample, [Alloc 0x1000 (mkLayout 8 8)])
      = Ok (self1, [Alloc 0x1400 (mkLayout 1024 8)]) /\
    alloc self1 (mkLayout 4 4) = Ok (p, self2) /\ p <> 0.
Proof.
  destruct fsb_sample_ok as [Hi Hc].
  destruct (fixed_size_block_reserve BumpAllocator.t bump_Heap bump_HeapLaws 0x1000 (0x1000 + 4096) fsb_sample
    [Alloc 0x1000 (mkLayout 8 8)] [CFree 0; CAlloc (mkLayout 1024 8); CAlloc (mkLayout 4096 8)] (mkLayout 4 4) 0)
    as (self1 & live1 & Er & Ha); [exact Hi|exact Hc|by apply commands_okb_sound|by apply layout_okb_spec|reflexivity|].
  vm_compute in Er. injection Er as <- <-.
  destruct Ha as (p & self2 & Ea & Hp & _); [vm_compute; lia|].
  eexists _, p, self2. split_and!; [reflexivity|exact Ea|exact Hp].
Defined.
