(* ===== verification/Frames.v ===== *)
(** * Physical frame allocators

    [EmptyFrameAllocator] and [BootInfoFrameAllocator] of
    [src/min-rust-os/src/memory.rs], and the [FrameAllocator] trait with what its
    implementers must guarantee: only unused frames are yielded.

    Physical addresses and frames are those of the [x86_64] crate, a library:
    its operations are parameters ([PhysOps]) with the documented behaviour the
    code relies on ([PhysLaws]).  The memory map comes from the [bootloader]
    crate; a region is what its accessors return. *)

From S2P Require Import Prelude Regions.
From stdpp Require Import base sets list list_numbers strings.
From Stdlib Require Import ZArith Lia.
Local Open Scope Z_scope.
Local Open Scope rust_scope.

(** ** The trait *)

(** [allocate_frame(&mut self) -> Option<PhysFrame>]; a frame is known by its
    start address. *)
Class FrameAllocator (A : Type) := allocate_frame : A -> res (option Z * A).

(** The guarantee of the unsafe trait: with the frames [used] handed out, the
    next one is aligned and not among them.  [fuel] bounds the calls that remain
    before a counter of the implementation could overflow. *)
Class FrameAllocatorSafe (A : Type) `{!FrameAllocator A} := {
  fa_inv : A -> list Z -> nat -> Prop;
  fa_allocate a used fuel :
    fa_inv a used (S fuel) ->
    exists o a', allocate_frame a = Ok (o, a') /\
      match o with
      | Some f => (f ∉ used) /\ f mod 4096 = 0 /\ fa_inv a' (f :: used) fuel
      | None => fa_inv a' used fuel
      end;
  fa_mono a used fuel : fa_inv a used (S fuel) -> fa_inv a used fuel;
}.

Lemma fa_mono_add {A} `{FrameAllocatorSafe A} (a : A) used n fuel :
  fa_inv a used (n + fuel) -> fa_inv a used fuel.
Proof. induction n as [|n IH]; simpl; [done|]. intros Hi. by apply IH, fa_mono. Qed.

(** ** The allocator without frames *)

Module EmptyFrameAllocator.
Record t := EmptyFrameAllocator {}.

Definition allocate_frame (self : t) : option Z := None.
End EmptyFrameAllocator.

#[global] Instance Empty_FrameAllocator : FrameAllocator EmptyFrameAllocator.t :=
  fun self => Ok (EmptyFrameAllocator.allocate_frame self, self).

#[global, program] Instance Empty_FrameAllocatorSafe : FrameAllocatorSafe EmptyFrameAllocator.t := {
  fa_inv _ _ _ := True;
}.
Next Obligation. intros [] used fuel _. eexists None, _. by split. Qed.
Next Obligation. done. Qed.

(** ** Library types *)

(** [PhysAddr::new] and [PhysFrame::containing_address]. *)
Class PhysOps := {
  phys_addr_new : Z -> res Z;
  phys_frame_containing : Z -> Z;
}.

(** [PhysAddr::new] accepts the addresses of 52 bits; the frame that contains a
    page-aligned address starts there. *)
Class PhysLaws `{!PhysOps} := {
  phys_addr_new_ok a : 0 <= a < 2 ^ 52 -> phys_addr_new a = Ok a;
  phys_frame_aligned a : 0 <= a -> a mod 4096 = 0 -> phys_frame_containing a = a;
}.

(** [MemoryRegionType] has more variants; the code compares with [Usable] only. *)
Inductive MemoryRegionType := Usable | Unusable (tag : Z).

(** [r.range.start_addr()], [r.range.end_addr()] and [r.region_type]. *)
Record MemoryRegion := mkRegion {
  range_start_addr : Z;
  range_end_addr : Z;
  region_type : MemoryRegionType;
}.

Definition is_usable (r : MemoryRegion) : bool :=
  match region_type r with Usable => true | Unusable _ => false end.

(** ** Iterators *)

(** [(lo..hi).step_by(step)] *)
Definition step_by (lo hi step : Z) : list Z :=
  (fun i => lo + step * i) <$> seqZ 0 ((hi - lo + step - 1) / step).

(** [l.map(f).nth(n)]: the skipped elements are mapped too. *)
Fixpoint map_nth {A B} (f : A -> res B) (l : list A) (n : nat) : res (option B) :=
  match l with
  | [] => Ok None
  | x :: l' =>
      y ← f x;
      match n with O => Ok (Some y) | S n' => map_nth f l' n' end
  end.

(** ** The allocator over the boot memory map *)

Module BootInfoFrameAllocator.
Record t := mk { memory_map : list MemoryRegion; next : Z }.

Definition init (memory_map : list MemoryRegion) : t := mk memory_map 0.

(** The addresses behind [usable_frames]. *)
Definition frame_addresses (self : t) : list Z :=
  let usable_regions := filter (fun r => is_usable r = true) (memory_map self) in
  let addr_ranges := (fun r => (range_start_addr r, range_end_addr r)) <$> usable_regions in
  concat ((fun r => step_by r.1 r.2 4096) <$> addr_ranges).

Section ops.
Context {profile : BuildProfile} `{!PhysOps}.

Definition frame_at (addr : Z) : res Z :=
  a ← phys_addr_new addr; Ok (phys_frame_containing a).

(** [self.usable_frames().nth(n)] *)
Definition usable_frames_nth (self : t) (n : Z) : res (option Z) :=
  map_nth frame_at (frame_addresses self) (Z.to_nat n).

Definition allocate_frame (self : t) : res (option Z * t) :=
  frame ← usable_frames_nth self (next self);
  n ← next self +! 1;
  Ok (frame, mk (memory_map self) n).

(** [k] calls in a row. *)
Fixpoint allocate_frames (k : nat) (self : t) : res (list (option Z) * t) :=
  match k with
  | O => Ok ([], self)
  | S k' =>
      fa ← allocate_frame self;
      fs ← allocate_frames k' fa.2;
      Ok (fa.1 :: fs.1, fs.2)
  end.
End ops.

(** ** Memory maps of the bootloader *)

Definition usable_range (r : MemoryRegion) : region :=
  Region (range_start_addr r) (range_end_addr r - range_start_addr r).

Definition usable (m : list MemoryRegion) : list MemoryRegion :=
  filter (fun r => is_usable r = true) m.

(** Usable regions are ranges of whole frames of physical memory that do not
    overlap. *)
Record map_ok (m : list MemoryRegion) : Prop := {
  map_bounds : Forall (fun r => 0 <= range_start_addr r <= range_end_addr r /\
    range_end_addr r <= 2 ^ 52) (usable m);
  map_aligned : Forall (fun r => range_start_addr r mod 4096 = 0 /\
    range_end_addr r mod 4096 = 0) (usable m);
  map_disjoint : pairwise_disj (usable_range <$> usable m);
}.

Lemma elem_of_step_by lo hi a :
  a ∈ step_by lo hi 4096 <-> lo <= a < hi /\ (a - lo) mod 4096 = 0.
Proof.
  unfold step_by. rewrite list_elem_of_fmap. setoid_rewrite elem_of_seqZ. split.
  - intros (i & -> & Hi).
    pose proof (Z.mul_div_le (hi - lo + 4096 - 1) 4096 ltac:(lia)).
    split; [lia|]. replace (lo + 4096 * i - lo) with (i * 4096) by lia. by apply Z.mod_mul.
  - intros [Ha Hm]. apply Z.mod_divide in Hm as [q Hq]; [|lia]. exists q. split; [lia|].
    split; [lia|]. assert (q + 1 <= (hi - lo + 4096 - 1) / 4096) by (apply Z.div_le_lower_bound; lia). lia.
Qed.

Lemma NoDup_step_by lo hi : NoDup (step_by lo hi 4096).
Proof.
  unfold step_by. apply NoDup_fmap_2; [|apply NoDup_seqZ]. intros i j Hij. lia.
Qed.

Lemma elem_of_frame_addresses self a :
  a ∈ frame_addresses self <->
  exists r, r ∈ usable (memory_map self) /\ range_start_addr r <= a < range_end_addr r /\
    (a - range_start_addr r) mod 4096 = 0.
Proof.
  unfold frame_addresses. rewrite list_elem_of_In, in_concat. split.
  - intros (l & Hl & Ha). apply list_elem_of_In, list_elem_of_fmap in Hl as ([s e] & -> & Hr).
    apply list_elem_of_fmap in Hr as (r & [= -> ->] & Hr).
    apply list_elem_of_In, elem_of_step_by in Ha. by exists r.
  - intros (r & Hr & Ha). exists (step_by (range_start_addr r) (range_end_addr r) 4096).
    split; [|by apply list_elem_of_In, elem_of_step_by].
    apply list_elem_of_In, list_elem_of_fmap. exists (range_start_addr r, range_end_addr r).
    split; [done|]. apply list_elem_of_fmap. by exists r.
Qed.

Lemma NoDup_frame_addresses self : map_ok (memory_map self) -> NoDup (frame_addresses self).
Proof.
  intros [Hb _ Hd]. unfold frame_addresses. fold (usable (memory_map self)).
  induction (usable (memory_map self)) as [|r rs IH]; csimpl; [constructor|].
  destruct Hd as [Hr Hd]. apply Forall_cons in Hb as [Hbr Hb].
  apply NoDup_app. split_and!; [apply NoDup_step_by| |by apply IH].
  intros a Ha Hin. apply elem_of_step_by in Ha.
  apply list_elem_of_In, in_concat in Hin as (l & Hl & Hin).
  apply list_elem_of_In, list_elem_of_fmap in Hl as ([s e] & -> & Hr').
  apply list_elem_of_fmap in Hr' as (r' & [= -> ->] & Hr').
  apply list_elem_of_In, elem_of_step_by in Hin.
  rewrite Forall_fmap in Hr. apply (proj1 (Forall_forall _ _)) with (1 := Hr) in Hr'.
  unfold usable_range in Hr'. simpl in *. region_lia.
Qed.

(** Frame addresses are aligned addresses of 52 bits. *)
Lemma frame_addresses_ok self a :
  map_ok (memory_map self) -> a ∈ frame_addresses self -> 0 <= a < 2 ^ 52 /\ a mod 4096 = 0.
Proof.
  intros [Hb Ha _] Hin. apply elem_of_frame_addresses in Hin as (r & Hr & Hlt & Hm).
  pose proof (proj1 (Forall_forall _ _) Hb r Hr) as Hbr. simpl in Hbr.
  pose proof (proj1 (Forall_forall _ _) Ha r Hr) as [Har _]. simpl in Har.
  split; [lia|]. replace a with (a - range_start_addr r + range_start_addr r) by lia.
  by rewrite Z.add_mod, Hm, Har.
Qed.

Lemma map_nth_id {A} (f : A -> res A) l n :
  Forall (fun x => f x = Ok x) l -> map_nth f l n = Ok (l !! n).
Proof.
  intros Hf. revert n. induction Hf as [|x l Hx Hl IH]; intros n; [done|].
  simpl. rewrite Hx. simpl. destruct n; [done|]. by rewrite IH.
Qed.

(** Each usable byte belongs to exactly one frame. *)
Lemma length_frame_addresses self :
  map_ok (memory_map self) ->
  4096 * Z.of_nat (length (frame_addresses self)) =
    total_size (usable_range <$> usable (memory_map self)).
Proof.
  intros [Hb Ha _]. unfold frame_addresses. fold (usable (memory_map self)).
  induction (usable (memory_map self)) as [|r rs IH]; [done|].
  rewrite !fmap_cons. cbn [concat].
  apply Forall_cons in Hb as [Hbr Hb], Ha as [[Hs He] Ha]. specialize (IH Hb Ha).
  rewrite length_app, total_size_cons, <- IH. unfold usable_range, step_by. simpl. rewrite length_fmap, length_seqZ.
  apply Z.mod_divide in Hs as [p Hp], He as [q Hq]; [|lia..]. rewrite Hp, Hq in *.
  replace (q * 4096 - p * 4096 + 4096 - 1) with (4095 + (q - p) * 4096) by lia.
  rewrite Z.div_add, Z.div_small by lia. lia.
Qed.

Lemma frame_addresses_bound self :
  map_ok (memory_map self) -> Z.of_nat (length (frame_addresses self)) <= 2 ^ 40.
Proof.
  intros Hm. pose proof (length_frame_addresses self Hm) as Hl.
  assert (total_size (usable_range <$> usable (memory_map self)) <= 2 ^ 52 - 0); [|lia].
  destruct Hm as [Hb _ Hd]. apply pairwise_disj_total; [lia|done|..];
    apply Forall_fmap; (eapply Forall_impl; [exact Hb|]); intros r Hr; unfold usable_range;
    simpl in *; region_lia.
Qed.

(** [k] calls of [next] on an iterator over [l]. *)
Fixpoint iter_next {A} (k : nat) (l : list A) : list (option A) :=
  match k with
  | O => []
  | S k' => match l with [] => None :: iter_next k' [] | x :: l' => Some x :: iter_next k' l' end
  end.

Lemma iter_next_lookup {A} k (l : list A) n :
  (fun j => l !! j) <$> seq n k = iter_next k (drop n l).
Proof.
  revert n. induction k as [|k IH]; intros n; [done|]. csimpl. rewrite IH.
  destruct (l !! n) as [x|] eqn:E.
  - by rewrite (drop_S l x n E).
  - apply lookup_ge_None in E. rewrite !drop_ge by lia. done.
Qed.

Lemma elem_of_iter_next {A} k (l : list A) x : Some x ∈ iter_next k l <-> x ∈ take k l.
Proof.
  revert l. induction k as [|k IH]; intros [|y l]; simpl.
  - split; inversion 1.
  - split; inversion 1.
  - rewrite elem_of_cons, IH, take_nil. split; [intros [?|?]; [done|done]|set_solver].
  - rewrite !elem_of_cons, IH. split; (intros [?|?]; [left; congruence|by right]).
Qed.

Section facts.
Context {profile : BuildProfile} `{PhysLaws}.

Lemma usable_frames_nth_eq self n :
  map_ok (memory_map self) -> usable_frames_nth self n = Ok (frame_addresses self !! Z.to_nat n).
Proof.
  intros Hm. apply map_nth_id, Forall_forall. intros a Ha.
  apply frame_addresses_ok in Ha as [Hb Hal]; [|done].
  unfold frame_at. rewrite phys_addr_new_ok by done. simpl. by rewrite phys_frame_aligned by lia.
Qed.

Lemma allocate_frame_eq self :
  map_ok (memory_map self) -> next self + 1 < WORD ->
  allocate_frame self =
    Ok (frame_addresses self !! Z.to_nat (next self), mk (memory_map self) (next self + 1)).
Proof.
  intros Hm Hn. unfold allocate_frame. rewrite usable_frames_nth_eq by done. simpl.
  by rewrite uadd_ok.
Qed.

#[export] Instance BootInfo_FrameAllocator : FrameAllocator t := allocate_frame.

#[export, program] Instance BootInfo_FrameAllocatorSafe : FrameAllocatorSafe t := {
  fa_inv self used fuel :=
    map_ok (memory_map self) /\ 0 <= next self /\ next self + Z.of_nat fuel < WORD /\
    Forall (fun f => exists j, Z.of_nat j < next self /\ frame_addresses self !! j = Some f) used;
}.
Next Obligation.
  intros self used fuel (Hm & Hn & Hf & Hu).
  eexists _, _. split; [apply allocate_frame_eq; [done|lia]|].
  assert (Forall (fun f => exists j, Z.of_nat j < next self + 1 /\
    frame_addresses (mk (memory_map self) (next self + 1)) !! j = Some f) used) as Hu'.
  { eapply Forall_impl; [exact Hu|]. intros f (j & Hj & Hl). exists j. split; [lia|done]. }
  destruct (frame_addresses self !! Z.to_nat (next self)) as [f|] eqn:E.
  - split_and!; simpl; [|by eapply frame_addresses_ok; [done|eapply list_elem_of_lookup_2]|done|lia|lia|].
    + intros Hin. apply (proj1 (Forall_forall _ _)) with (1 := Hu) in Hin as (j & Hj & Hl).
      pose proof (NoDup_lookup _ _ _ _ (NoDup_frame_addresses self Hm) Hl E). lia.
    + constructor; [|done]. exists (Z.to_nat (next self)). split; [lia|done].
  - split_and!; simpl; [done|lia|lia|done].
Qed.
Next Obligation. intros self used fuel (?&?&?&?). split_and!; try done. lia. Qed.

(** What remains of the iterator. *)
Lemma allocate_frames_eq k self :
  map_ok (memory_map self) -> 0 <= next self -> next self + Z.of_nat k < WORD ->
  allocate_frames k self =
    Ok (iter_next k (drop (Z.to_nat (next self)) (frame_addresses self)),
        mk (memory_map self) (next self + Z.of_nat k)).
Proof.
  intros Hm Hn Hk. rewrite <- iter_next_lookup. revert self Hm Hn Hk.
  induction k as [|k IH]; intros self Hm Hn Hk.
  - simpl. rewrite Z.add_0_r. by destruct self.
  - cbn [allocate_frames]. rewrite allocate_frame_eq by (done || lia).
    cbn [mbind res_bind fst snd]. rewrite IH by (simpl; done || lia). simpl.
    replace (Z.to_nat (next self + 1)) with (S (Z.to_nat (next self))) by lia.
    by replace (next self + 1 + Z.of_nat k) with (next self + Z.pos (Pos.of_succ_nat k)) by lia.
Qed.
End facts.
End BootInfoFrameAllocator.

(** ** A memory map *)

(** The operations of the [x86_64] crate on addresses of 52 bits. *)
#[export] Instance phys_ref : PhysOps := {
  phys_addr_new a :=
    if (0 <=? a) && (a <? 2 ^ 52) then Ok a
    else Panic (ExplicitPanic "physical address must not have any bits in the range 52 to 64 set");
  phys_frame_containing a := a - a mod 4096;
}.

#[export, program] Instance phys_ref_laws : PhysLaws.
Next Obligation. intros a Ha. simpl. by rewrite (proj2 (Z.leb_le _ _)), (proj2 (Z.ltb_lt _ _)) by lia. Qed.
Next Obligation. intros a Ha Hm. simpl. lia. Qed.

Import BootInfoFrameAllocator.

Definition sample_map : list MemoryRegion :=
  [mkRegion 0 0x1000 (Unusable 2); mkRegion 0x1000 0x4000 Usable;
   mkRegion 0x4000 0x8000 (Unusable 3); mkRegion 0x8000 0xa000 Usable].

Lemma sample_map_ok : map_ok sample_map.
Proof.
  split.
  - forall_elems ltac:(simpl; lia).
  - forall_elems ltac:(by split).
  - simpl. split_and!; try done. forall_elems ltac:(left; simpl; region_lia).
Qed.

(** C22: although each call walks the memory map again, the allocator yields the
    usable frames one after the other in the order of the map, as an iterator
    kept between the calls would, and [None] once they are used up. *)
Theorem boot_frames_refine_iterator (profile : BuildProfile) (ops : PhysOps) (laws : PhysLaws)
    (m : list MemoryRegion) (k : nat) :
  map_ok m -> Z.of_nat k < WORD ->
  allocate_frames k (init m) = Ok (iter_next k (frame_addresses (init m)), mk m (Z.of_nat k)).
Proof. intros Hm Hk. by rewrite allocate_frames_eq. Qed.

Lemma boot_frames_refine_iterator_witness :
  @allocate_frames dev_profile _ 6 (init sample_map) =
    Ok (iter_next 6 (frame_addresses (init sample_map)), mk sample_map 6).
Proof.
  apply (boot_frames_refine_iterator dev_profile phys_ref phys_ref_laws sample_map 6);
    [exact sample_map_ok|unfold WORD; lia].
Defined.

(** C16: no frame is yielded twice, and every frame yielded is aligned and lies
    completely in a region the bootloader marked usable. *)
Theorem boot_frames_safe (profile : BuildProfile) (ops : PhysOps) (laws : PhysLaws)
    (m : list MemoryRegion) (k : nat) :
  map_ok m -> Z.of_nat k < WORD ->
  exists fs self', allocate_frames k (init m) = Ok (fs, self') /\
    NoDup (omap id fs) /\
    Forall (fun f => f mod 4096 = 0 /\ exists r, r ∈ m /\ region_type r = Usable /\
      range_start_addr r <= f /\ f + 4096 <= range_end_addr r) (omap id fs).
Proof.
  intros Hm Hk. rewrite allocate_frames_eq by done. eexists _, _. split; [done|]. simpl.
  replace (omap id (iter_next k (frame_addresses (init m)))) with (take k (frame_addresses (init m))).
  2: { clear. generalize (frame_addresses (init m)). induction k as [|k IH]; intros [|f l]; csimpl; try done.
       - by rewrite <- IH, take_nil.
       - by rewrite <- IH. }
  split.
  - eapply (sublist_NoDup _ (frame_addresses (init m))); [by apply NoDup_frame_addresses|apply sublist_take].
  - apply Forall_forall. intros f Hf. assert (f ∈ frame_addresses (init m)) as Hin.
    { eapply elem_of_take in Hf as (j & Hj & _). by eapply list_elem_of_lookup_2. }
    destruct (frame_addresses_ok (init m) f Hm Hin) as [_ Hal]. split; [done|].
    apply elem_of_frame_addresses in Hin as (r & Hr & Hlt & Hmod). exists r.
    pose proof (proj1 (Forall_forall _ _) (map_aligned m Hm) r Hr) as [Hs He].
    apply list_elem_of_filter in Hr as [Hu Hr]. split_and!; [done| |lia|].
    + unfold is_usable in Hu. by destruct (region_type r).
    + apply Z.mod_divide in Hal as [p Hp], He as [q Hq]; [|lia..]. lia.
Qed.

Lemma boot_frames_safe_witness :
  exists fs self', @allocate_frames dev_profile _ 6 (init sample_map) = Ok (fs, self') /\
    NoDup (omap id fs) /\
    Forall (fun f => f mod 4096 = 0 /\ exists r, r ∈ sample_map /\ region_type r = Usable /\
      range_start_addr r <= f /\ f + 4096 <= range_end_addr r) (omap id fs).
Proof.
  apply (boot_frames_safe dev_profile phys_ref phys_ref_laws sample_map 6);
    [exact sample_map_ok|unfold WORD; lia].
Defined.

(** Every frame of a usable region is yielded, after at most as many calls as
    there are usable frames; there are at most 2^40 of them, so the counter does
    not overflow before. *)
Theorem boot_frames_complete (profile : BuildProfile) (ops : PhysOps) (laws : PhysLaws)
    (m : list MemoryRegion) (r : MemoryRegion) (f : Z) :
  map_ok m -> r ∈ m -> region_type r = Usable ->
  range_start_addr r <= f < range_end_addr r -> f mod 4096 = 0 ->
  let k := length (frame_addresses (init m)) in
  Z.of_nat k <= 2 ^ 40 /\
  exists fs self', allocate_frames k (init m) = Ok (fs, self') /\ Some f ∈ fs.
Proof.
  intros Hm Hr Hu Hf Hal k.
  pose proof (frame_addresses_bound (init m) Hm) as Hb. split; [done|].
  rewrite allocate_frames_eq by (done || (simpl; unfold WORD, k; lia)).
  eexists _, _. split; [done|]. simpl. apply elem_of_iter_next. unfold k. rewrite take_ge by done.
  apply elem_of_frame_addresses. exists r.
  assert (r ∈ usable m) as Hin.
  { apply list_elem_of_filter. split; [|done]. unfold is_usable. by rewrite Hu. }
  split_and!; [done|lia|lia|].
  pose proof (proj1 (Forall_forall _ _) (map_aligned m Hm) r Hin) as [Hs _]. simpl in Hs.
  by rewrite Zminus_mod, Hal, Hs.
Qed.

Lemma boot_frames_complete_witness :
  Z.of_nat (length (frame_addresses (init sample_map))) <= 2 ^ 40 /\
  exists fs self', @allocate_frames dev_profile _ (length (frame_addresses (init sample_map)))
    (init sample_map) = Ok (fs, self') /\ Some 0x9000 ∈ fs.
Proof.
  apply (boot_frames_complete dev_profile phys_ref phys_ref_laws sample_map
    (mkRegion 0x8000 0xa000 Usable) 0x9000);
    [exact sample_map_ok|set_solver|reflexivity|simpl; lia|reflexivity].
Defined.
