(* ===== verification/Paging.v ===== *)
(** * Address translation

    [active_level_4_table], [translate_addr], [translate_addr_inner], [init] and
    [create_example_mapping] of [src/min-rust-os/src/memory.rs].

    Addresses, page table entries and mappers are those of the [x86_64] crate, a
    library: its operations are parameters, with the documented behaviour the
    code relies on as laws.  A page table is found by dereferencing a virtual
    address; where no table is mapped that is undefined behaviour. *)

From S2P Require Import Prelude Frames.
From stdpp Require Import base sets list gmap strings.
From Stdlib Require Import ZArith Lia.
Local Open Scope Z_scope.

(** ** Library types *)

(** [PageTableEntry::frame]: [Result<PhysFrame, FrameError>]. *)
Inductive FrameResult :=
| FrameOk (frame : Z)
| FrameNotPresent
| HugeFrame.

Class PagingOps := {
  Entry : Type;
  entry_frame : Entry -> FrameResult;
  virt_addr_new : Z -> res Z;
  virt_addr_add : Z -> Z -> res Z;
  phys_addr_add : Z -> Z -> res Z;
  p4_index : Z -> Z;
  p3_index : Z -> Z;
  p2_index : Z -> Z;
  p1_index : Z -> Z;
  page_offset : Z -> Z;
}.

(** The virtual addresses of a 48-bit address space: bit 47 is repeated in the
    bits above it. *)
Definition canonical (a : Z) : Prop := 0 <= a < 2 ^ 47 \/ 2 ^ 64 - 2 ^ 47 <= a < 2 ^ 64.

Class PagingLaws `{!PagingOps} := {
  virt_addr_new_ok a : canonical a -> virt_addr_new a = Ok a;
  virt_addr_add_ok a b : canonical (a + b) -> virt_addr_add a b = Ok (a + b);
  phys_addr_add_ok a b : 0 <= a + b < 2 ^ 52 -> phys_addr_add a b = Ok (a + b);
  p4_index_spec a : p4_index a = Z.shiftr a 39 mod 512;
  p3_index_spec a : p3_index a = Z.shiftr a 30 mod 512;
  p2_index_spec a : p2_index a = Z.shiftr a 21 mod 512;
  p1_index_spec a : p1_index a = Z.shiftr a 12 mod 512;
  page_offset_spec a : page_offset a = a mod 4096;
}.

Section paging.
Context `{!PagingOps}.

(** A page table: 512 entries, indexed by values below 512. *)
Definition PageTable : Type := Z -> Entry.

(** What the code reads: the frame in the CR3 register, and the page tables that
    can be dereferenced at virtual addresses. *)
Record machine := mkMachine { cr3 : Z; table_at : Z -> option PageTable }.

(** [&*ptr] for a pointer to a page table. *)
Definition deref_table (m : machine) (virt : Z) : res PageTable :=
  match table_at m virt with Some t => Ok t | None => Undef end.

Definition active_level_4_table (m : machine) (physical_memory_offset : Z) : res (Z * PageTable) :=
  let phys := cr3 m in
  virt ← virt_addr_add physical_memory_offset phys;
  table ← deref_table m virt;
  Ok (virt, table).

(** The loop over [table_indexes]. *)
Fixpoint translate_loop (m : machine) (physical_memory_offset : Z) (table_indexes : list Z) (frame : Z)
    : res (option Z) :=
  match table_indexes with
  | [] => Ok (Some frame)
  | index :: table_indexes =>
      virt ← virt_addr_add physical_memory_offset frame;
      table ← deref_table m virt;
      match entry_frame (table index) with
      | FrameOk frame => translate_loop m physical_memory_offset table_indexes frame
      | FrameNotPresent => Ok None
      | HugeFrame => Panic (ExplicitPanic "huge pages are not supported")
      end
  end.

Definition translate_addr_inner (m : machine) (addr physical_memory_offset : Z) : res (option Z) :=
  let table_indexes := [p4_index addr; p3_index addr; p2_index addr; p1_index addr] in
  found ← translate_loop m physical_memory_offset table_indexes (cr3 m);
  match found with
  | None => Ok None
  | Some frame => p ← phys_addr_add frame (page_offset addr); Ok (Some p)
  end.

Definition translate_addr (m : machine) (addr physical_memory_offset : Z) : res (option Z) :=
  translate_addr_inner m addr physical_memory_offset.

(** ** The tables in physical memory *)

(** The tables of the machine, by physical frame, are [tables], and the complete
    physical memory is mapped at [offset]. *)
Record phys_mapped (m : machine) (offset : Z) (tables : Z -> option PageTable) : Prop := {
  pm_offset frame : is_Some (tables frame) -> canonical (offset + frame) /\ 0 <= frame < 2 ^ 52;
  pm_tables frame t : tables frame = Some t -> table_at m (offset + frame) = Some t;
  pm_cr3 : is_Some (tables (cr3 m));
}.

(** Following [indexes] from a frame, one table per index, ends in a frame. *)
Inductive walk (tables : Z -> option PageTable) : Z -> list Z -> Z -> Prop :=
| walk_nil frame : walk tables frame [] frame
| walk_cons frame t i indexes frame' frame'' :
    tables frame = Some t -> entry_frame (t i) = FrameOk frame' ->
    walk tables frame' indexes frame'' ->
    walk tables frame (i :: indexes) frame''.

(** A walk that stops early at an entry without a frame. *)
Inductive walk_stops (tables : Z -> option PageTable) (why : FrameResult) : Z -> list Z -> Prop :=
| stops_here frame t i indexes :
    tables frame = Some t -> entry_frame (t i) = why -> walk_stops tables why frame (i :: indexes)
| stops_later frame t i indexes frame' :
    tables frame = Some t -> entry_frame (t i) = FrameOk frame' ->
    walk_stops tables why frame' indexes -> walk_stops tables why frame (i :: indexes).

(** The tables form a tree of four levels: an entry of a table above the last
    level leads to a table. *)
Fixpoint tree (tables : Z -> option PageTable) (levels : nat) (frame : Z) : Prop :=
  match levels with
  | O => 0 <= frame < 2 ^ 52 - 4096
  | S levels' => exists t, tables frame = Some t /\
      forall i frame', entry_frame (t i) = FrameOk frame' -> tree tables levels' frame'
  end.

(** The indexes of an address, from level 4 to level 1. *)
Definition indexes (addr : Z) : list Z :=
  [p4_index addr; p3_index addr; p2_index addr; p1_index addr].

Context `{!PagingLaws}.

Lemma walk_det tables frame ix f1 f2 :
  walk tables frame ix f1 -> walk tables frame ix f2 -> f1 = f2.
Proof.
  intros Hw. revert f2. induction Hw as [|frame t i ix frame' f E Ei Hw IH];
    intros f2 Hw2; inversion Hw2 as [|? t2 ? ? frame2 ? E2 Ei2 Hw2']; subst; [done|].
  assert (t2 = t) as -> by congruence. assert (frame2 = frame') as -> by congruence. auto.
Qed.

Lemma walk_not_stops tables why frame ix f :
  (forall g, why <> FrameOk g) -> walk tables frame ix f -> walk_stops tables why frame ix -> False.
Proof.
  intros Hwhy Hw. induction Hw as [|frame t i ix frame' f E Ei Hw IH]; intros Hst;
    inversion Hst as [? t2 ? ? E2 Ei2|? t2 ? ? frame2 E2 Ei2 Hst']; subst.
  - assert (t2 = t) as -> by congruence. by eapply Hwhy.
  - assert (t2 = t) as -> by congruence. assert (frame2 = frame') as -> by congruence. auto.
Qed.

Lemma deref_frame m offset tables frame t :
  phys_mapped m offset tables -> tables frame = Some t ->
  (v ← virt_addr_add offset frame; deref_table m v) = Ok t.
Proof.
  intros [Ho Ht _] E. rewrite virt_addr_add_ok by (apply Ho; by eexists). simpl.
  unfold deref_table. by rewrite (Ht _ _ E).
Qed.

(** One level of the loop. *)
Lemma translate_loop_cons m offset tables i ix frame t :
  phys_mapped m offset tables -> tables frame = Some t ->
  translate_loop m offset (i :: ix) frame =
    match entry_frame (t i) with
    | FrameOk frame => translate_loop m offset ix frame
    | FrameNotPresent => Ok None
    | HugeFrame => Panic (ExplicitPanic "huge pages are not supported")
    end.
Proof.
  intros Hm E. pose proof (deref_frame m offset tables frame t Hm E) as Hd. simpl.
  destruct (virt_addr_add offset frame); simpl in *; try done. by rewrite Hd.
Qed.

Lemma translate_loop_spec m offset tables ix frame :
  phys_mapped m offset tables -> tree tables (length ix) frame ->
  match translate_loop m offset ix frame with
  | Ok (Some f) => walk tables frame ix f /\ 0 <= f < 2 ^ 52 - 4096
  | Ok None => walk_stops tables FrameNotPresent frame ix
  | Panic p => p = ExplicitPanic "huge pages are not supported" /\ walk_stops tables HugeFrame frame ix
  | _ => False
  end.
Proof.
  intros Hm. revert frame. induction ix as [|i ix IH]; intros frame Ht; [split; [constructor|done]|].
  destruct Ht as (t & E & Ht). rewrite (translate_loop_cons m offset tables i ix frame t) by done.
  destruct (entry_frame (t i)) as [frame'| |] eqn:Ei.
  - specialize (IH frame' (Ht _ _ Ei)).
    destruct (translate_loop m offset ix frame') as [[f|]|p| |]; try done.
    + destruct IH. split; [|done]. by econstructor.
    + by econstructor.
    + destruct IH. split; [done|]. by econstructor.
  - by econstructor.
  - split; [done|]. by econstructor.
Qed.

Lemma translate_loop_walk m offset tables ix frame f :
  phys_mapped m offset tables -> walk tables frame ix f -> translate_loop m offset ix frame = Ok (Some f).
Proof.
  intros Hm Hw. induction Hw as [|frame t i ix frame' f E Ei Hw IH]; [done|].
  rewrite (translate_loop_cons m offset tables i ix frame t) by done. by rewrite Ei.
Qed.

(** The whole translation, from what the loop finds. *)
Lemma translate_addr_spec m offset tables addr :
  phys_mapped m offset tables -> tree tables 4 (cr3 m) ->
  match translate_addr m addr offset with
  | Ok (Some pa) => exists f, walk tables (cr3 m) (indexes addr) f /\ pa = f + addr mod 4096
  | Ok None => walk_stops tables FrameNotPresent (cr3 m) (indexes addr)
  | Panic p => p = ExplicitPanic "huge pages are not supported" /\
      walk_stops tables HugeFrame (cr3 m) (indexes addr)
  | _ => False
  end.
Proof.
  intros Hm Ht. pose proof (translate_loop_spec m offset tables (indexes addr) (cr3 m) Hm Ht) as Hl.
  unfold translate_addr, translate_addr_inner. fold (indexes addr).
  destruct (translate_loop m offset (indexes addr) (cr3 m)) as [[f|]|p| |]; simpl; try done.
  destruct Hl as [Hw Hf]. pose proof (Z.mod_pos_bound addr 4096 ltac:(lia)).
  rewrite page_offset_spec, phys_addr_add_ok by lia. simpl. by exists f.
Qed.

Lemma translate_addr_walk m offset tables addr f :
  phys_mapped m offset tables -> tree tables 4 (cr3 m) ->
  walk tables (cr3 m) (indexes addr) f ->
  translate_addr m addr offset = Ok (Some (f + addr mod 4096)).
Proof.
  intros Hm Ht Hw. pose proof (translate_addr_spec m offset tables addr Hm Ht) as Hs.
  unfold translate_addr, translate_addr_inner in *. fold (indexes addr) in *.
  rewrite (translate_loop_walk m offset tables _ _ f Hm Hw) in *. simpl in *.
  destruct (phys_addr_add f (page_offset addr)) as [pa|p| |]; simpl in *; try done.
  - destruct Hs as (f' & Hw' & ->). by rewrite (walk_det _ _ _ _ _ Hw Hw').
  - destruct Hs as (_ & Hst). exfalso.
    by apply (walk_not_stops tables HugeFrame (cr3 m) (indexes addr) f).
Qed.

Lemma indexes_page a b : a / 4096 = b / 4096 -> indexes a = indexes b.
Proof.
  intros E. unfold indexes.
  rewrite !p4_index_spec, !p3_index_spec, !p2_index_spec, !p1_index_spec.
  assert (forall n, 12 <= n -> Z.shiftr a n = Z.shiftr b n) as Hs.
  { intros n Hn. replace n with (12 + (n - 12)) by lia.
    rewrite <- !Z.shiftr_shiftr, !(Z.shiftr_div_pow2 _ 12) by lia. change (2 ^ 12) with 4096. by rewrite E. }
  by rewrite !(Hs _) by lia.
Qed.
End paging.

(** ** Mappers *)

Inductive MapToError :=
| FrameAllocationFailed
| ParentEntryHugePage
| PageAlreadyMapped (frame : Z).

(** The flags the code sets; [flags] is their union. *)
Inductive PageTableFlag := PRESENT | WRITABLE.

#[global] Instance PageTableFlag_eq_dec : EqDecision PageTableFlag.
Proof. solve_decision. Defined.

(** The trait [Mapper<Size4KiB>]: [map_to(page, frame, flags, frame_allocator)],
    followed by [flush] on success; [None] is [Ok].  A mapping may need frames for
    page tables, which it takes from the frame allocator. *)
Class Mapper (M : Type) :=
  map_to : forall (A : Type), FrameAllocator A ->
    M -> A -> Z -> Z -> list PageTableFlag -> res (option MapToError * M * A).
Arguments map_to {M _ A _}.

(** [translate_page m page]: the frame and the flags a page is mapped with.  At
    most three frames are needed for page tables. *)
Class MapperLaws (M : Type) `{!Mapper M} := {
  translate_page : M -> Z -> option (Z * list PageTableFlag);
  map_to_spec (A : Type) (FA : FrameAllocator A) (FS : FrameAllocatorSafe A)
      (m : M) (a : A) page frame flags used fuel :
    fa_inv a used (3 + fuel) ->
    exists r m' a' used', map_to m a page frame flags = Ok (r, m', a') /\
      fa_inv a' used' fuel /\ used ⊆ used' /\
      match r with
      | None => translate_page m page = None /\ translate_page m' page = Some (frame, flags) /\
          forall page', page' <> page -> translate_page m' page' = translate_page m page'
      | Some _ => forall page', translate_page m' page' = translate_page m page'
      end;
}.

Section mapping.
Context {M A : Type} `{!Mapper M, !FrameAllocator A, !PhysOps}.

(** The frame of the VGA text buffer. *)
Definition create_example_mapping (page : Z) (mapper : M) (frame_allocator : A) : res (M * A) :=
  pa ← phys_addr_new 0xb8000;
  let frame := phys_frame_containing pa in
  let flags := [PRESENT; WRITABLE] in
  r ← map_to mapper frame_allocator page frame flags;
  match r with
  | (None, mapper, frame_allocator) => Ok (mapper, frame_allocator)
  | (Some _, _, _) => Panic (UnwrapFailed "map_to failed")
  end.
End mapping.

Section offset_page_table.
Context `{!PagingOps}.

(** [OffsetPageTable::new] of the library. *)
Context {OffsetPageTable : Type} (OffsetPageTable_new : Z * PageTable -> Z -> OffsetPageTable).

Definition init (m : machine) (physical_memory_offset : Z) : res OffsetPageTable :=
  level_4_table ← active_level_4_table m physical_memory_offset;
  Ok (OffsetPageTable_new level_4_table physical_memory_offset).
End offset_page_table.

(** ** Instances of the library's types *)

(** Addresses of 48 bits and entries that are their own content. *)
#[export] Instance paging_ref : PagingOps := {
  Entry := FrameResult;
  entry_frame e := e;
  virt_addr_new a :=
    if (0 <=? a) && (a <? 2 ^ 47) || (2 ^ 64 - 2 ^ 47 <=? a) && (a <? 2 ^ 64) then Ok a
    else Panic (ExplicitPanic "non-canonical address");
  virt_addr_add a b :=
    if (0 <=? a + b) && (a + b <? 2 ^ 47) || (2 ^ 64 - 2 ^ 47 <=? a + b) && (a + b <? 2 ^ 64)
    then Ok (a + b) else Panic (ExplicitPanic "non-canonical address");
  phys_addr_add a b :=
    if (0 <=? a + b) && (a + b <? 2 ^ 52) then Ok (a + b)
    else Panic (ExplicitPanic "not a physical address");
  p4_index a := Z.shiftr a 39 mod 512;
  p3_index a := Z.shiftr a 30 mod 512;
  p2_index a := Z.shiftr a 21 mod 512;
  p1_index a := Z.shiftr a 12 mod 512;
  page_offset a := a mod 4096;
}.

Lemma canonicalb a :
  canonical a ->
  (0 <=? a) && (a <? 2 ^ 47) || (2 ^ 64 - 2 ^ 47 <=? a) && (a <? 2 ^ 64) = true.
Proof.
  unfold canonical. rewrite orb_true_iff, !andb_true_iff, !Z.leb_le, !Z.ltb_lt. tauto.
Qed.

#[export, program] Instance paging_ref_laws : PagingLaws.
Next Obligation. intros a Ha. simpl. by rewrite (canonicalb a Ha). Qed.
Next Obligation. intros a b Ha. simpl. by rewrite (canonicalb _ Ha). Qed.
Next Obligation.
  intros a b Ha. simpl. by rewrite (proj2 (Z.leb_le _ _)), (proj2 (Z.ltb_lt _ _)) by lia.
Qed.
Next Obligation. done. Qed.
Next Obligation. done. Qed.
Next Obligation. done. Qed.
Next Obligation. done. Qed.
Next Obligation. done. Qed.

(** Four tables, one per level, that map the page at 0x5000 to the frame 0x9000. *)
Definition sample_table (i0 f : Z) : PageTable :=
  fun i => if i =? i0 then FrameOk f else FrameNotPresent.

Definition sample_tables (frame : Z) : option PageTable :=
  if frame =? 0x1000 then Some (sample_table 0 0x2000)
  else if frame =? 0x2000 then Some (sample_table 0 0x3000)
  else if frame =? 0x3000 then Some (sample_table 0 0x4000)
  else if frame =? 0x4000 then Some (sample_table 5 0x9000)
  else None.

Definition sample_machine : machine := mkMachine 0x1000 (fun virt => sample_tables (virt - 0x100000000)).

Lemma sample_mapped : phys_mapped sample_machine 0x100000000 sample_tables.
Proof.
  split.
  - intros frame [t Ht]. unfold sample_tables in Ht.
    destruct (Z.eqb_spec frame 0x1000); [subst; unfold canonical; lia|].
    destruct (Z.eqb_spec frame 0x2000); [subst; unfold canonical; lia|].
    destruct (Z.eqb_spec frame 0x3000); [subst; unfold canonical; lia|].
    destruct (Z.eqb_spec frame 0x4000); [subst; unfold canonical; lia|done].
  - intros frame t Ht. simpl. by replace (0x100000000 + frame - 0x100000000) with frame by lia.
  - by eexists.
Qed.

Lemma sample_table_FrameOk i0 f i f' : sample_table i0 f i = FrameOk f' -> f' = f.
Proof. unfold sample_table. destruct (i =? i0); congruence. Qed.

Lemma sample_tree : tree sample_tables 4 (cr3 sample_machine).
Proof.
  do 4 (simpl; eexists; split; [reflexivity|]; intros ? ? ->%sample_table_FrameOk). simpl. lia.
Qed.

(** A mapper that needs no frames: a finite map. *)
#[export] Instance map_Mapper : Mapper (gmap Z (Z * list PageTableFlag)) :=
  fun A FA m a page frame flags =>
    match m !! page with
    | Some (f, _) => Ok (Some (PageAlreadyMapped f), m, a)
    | None => Ok (None, <[page := (frame, flags)]> m, a)
    end.

#[export, program] Instance map_MapperLaws : MapperLaws (gmap Z (Z * list PageTableFlag)) := {
  translate_page m page := m !! page;
  map_to_spec A FA FS m a page frame flags used fuel Hi := _;
}.
Next Obligation.
  intros A FA FS m a page frame flags used fuel Hi.
  assert (fa_inv a used fuel) as Hi' by (do 3 apply fa_mono; exact Hi).
  unfold map_to, map_Mapper. destruct (m !! page) as [[f fl]|] eqn:E.
  - eexists _, _, _, used. by split_and!.
  - eexists _, _, _, used. split_and!; [done|done|done|].
    split_and!; [done|apply lookup_insert_eq|].
    intros page' Hne. by apply lookup_insert_ne.
Qed.

(** ** Properties *)

(** C14: translating an address walks the four levels of page tables that its
    indexes select: it returns the frame the walk ends in plus the offset in the
    page, [None] exactly when the walk meets an entry that is not present, and
    panics exactly when it meets a huge page; it never dereferences memory that
    holds no table. *)
Theorem translate_addr_correct (ops : PagingOps) (laws : PagingLaws) (m : machine) (offset : Z)
    (tables : Z -> option PageTable) (addr : Z) :
  phys_mapped m offset tables -> tree tables 4 (cr3 m) ->
  (forall f, walk tables (cr3 m) (indexes addr) f ->
     translate_addr m addr offset = Ok (Some (f + addr mod 4096))) /\
  match translate_addr m addr offset with
  | Ok (Some pa) => exists f, walk tables (cr3 m) (indexes addr) f /\ pa = f + addr mod 4096
  | Ok None => walk_stops tables FrameNotPresent (cr3 m) (indexes addr)
  | Panic p => p = ExplicitPanic "huge pages are not supported" /\
      walk_stops tables HugeFrame (cr3 m) (indexes addr)
  | Undef | Diverge => False
  end.
Proof.
  intros Hm Ht. split.
  - intros f. by apply translate_addr_walk.
  - by apply translate_addr_spec.
Qed.

(** Addresses of the same page are translated alike: they are mapped or not
    together, and keep their distance. *)
Theorem translate_addr_same_page (ops : PagingOps) (laws : PagingLaws) (m : machine) (offset : Z)
    (tables : Z -> option PageTable) (a b pa : Z) :
  phys_mapped m offset tables -> tree tables 4 (cr3 m) -> a / 4096 = b / 4096 ->
  translate_addr m a offset = Ok (Some pa) ->
  translate_addr m b offset = Ok (Some (pa + (b - a))).
Proof.
  intros Hm Ht E Ha. pose proof (translate_addr_spec m offset tables a Hm Ht) as Hs.
  rewrite Ha in Hs. destruct Hs as (f & Hw & ->). rewrite (indexes_page a b E) in Hw.
  rewrite (translate_addr_walk m offset tables b f Hm Ht Hw). do 2 f_equal.
  pose proof (Z.div_mod a 4096 ltac:(lia)). pose proof (Z.div_mod b 4096 ltac:(lia)). lia.
Qed.

Lemma translate_addr_correct_witness :
  (forall f, walk sample_tables 0x1000 (indexes 0x5123) f ->
     translate_addr sample_machine 0x5123 0x100000000 = Ok (Some (f + 0x5123 mod 4096))) /\
  match translate_addr sample_machine 0x5123 0x100000000 with
  | Ok (Some pa) => exists f, walk sample_tables 0x1000 (indexes 0x5123) f /\ pa = f + 0x5123 mod 4096
  | Ok None => walk_stops sample_tables FrameNotPresent 0x1000 (indexes 0x5123)
  | Panic p => p = ExplicitPanic "huge pages are not supported" /\
      walk_stops sample_tables HugeFrame 0x1000 (indexes 0x5123)
  | Undef | Diverge => False
  end.
Proof.
  apply (translate_addr_correct paging_ref paging_ref_laws sample_machine 0x100000000 sample_tables 0x5123
    sample_mapped sample_tree).
Defined.

Lemma translate_addr_same_page_witness :
  translate_addr sample_machine 0x5123 0x100000000 = Ok (Some 0x9123) /\
  translate_addr sample_machine 0x5fff 0x100000000 = Ok (Some (0x9123 + (0x5fff - 0x5123))).
Proof.
  split; [reflexivity|].
  apply (translate_addr_same_page paging_ref paging_ref_laws sample_machine 0x100000000 sample_tables
    0x5123 0x5fff 0x9123 sample_mapped sample_tree); reflexivity.
Defined.

(** [create_example_mapping] either maps the page to the frame of the VGA text
    buffer, present and writable, changing no other mapping, or panics; it panics
    when the page is mapped already. *)
Theorem create_example_mapping_spec (M A : Type) (mapper : Mapper M) (ml : MapperLaws M)
    (fa : FrameAllocator A) (fs : FrameAllocatorSafe A) (pops : PhysOps) (plaws : PhysLaws)
    (page : Z) (m : M) (a : A) (used : list Z) (fuel : nat) :
  fa_inv a used (3 + fuel) ->
  match create_example_mapping page m a with
  | Ok (m', a') =>
      translate_page m page = None /\
      translate_page m' page = Some (0xb8000, [PRESENT; WRITABLE]) /\
      forall page', page' <> page -> translate_page m' page' = translate_page m page'
  | Panic p => p = UnwrapFailed "map_to failed"
  | Undef | Diverge => False
  end.
Proof.
  intros Hi. unfold create_example_mapping. rewrite phys_addr_new_ok by lia. simpl.
  rewrite phys_frame_aligned by (lia || done).
  destruct (map_to_spec A fa fs m a page 0xb8000 [PRESENT; WRITABLE] used fuel Hi)
    as (r & m' & a' & used' & -> & _ & _ & Hr). simpl. by destruct r.
Qed.

Lemma create_example_mapping_spec_witness :
  match create_example_mapping 0 (∅ : gmap Z (Z * list PageTableFlag)) (EmptyFrameAllocator.EmptyFrameAllocator) with
  | Ok (m', a') =>
      (∅ : gmap Z (Z * list PageTableFlag)) !! 0 = None /\
      m' !! 0 = Some (0xb8000, [PRESENT; WRITABLE]) /\
      forall page', page' <> 0 -> m' !! page' = (∅ : gmap Z (Z * list PageTableFlag)) !! page'
  | Panic p => p = UnwrapFailed "map_to failed"
  | Undef | Diverge => False
  end.
Proof.
  apply (create_example_mapping_spec _ _ map_Mapper map_MapperLaws Empty_FrameAllocator
    Empty_FrameAllocatorSafe phys_ref phys_ref_laws 0 ∅ EmptyFrameAllocator.EmptyFrameAllocator [] 0 I).
Defined.
