(* ===== verification/HeapInit.v ===== *)
(** * Setting up the heap

    [HEAP_START], [HEAP_SIZE] and [init_heap] of
    [src/min-rust-os/src/allocator.rs]: every page of the heap is mapped to a
    frame of its own, then the global allocator is given the heap.

    The mapper, the frame allocator and the fallback heap enter through their
    interfaces; pages are those of the [x86_64] crate. *)

From S2P Require Import Prelude Regions Layout GlobalAlloc Bump FixedSizeBlock Frames Paging.
From stdpp Require Import base sets list gmap strings.
From Stdlib Require Import ZArith Lia.
Local Open Scope Z_scope.

Definition HEAP_START : Z := 0x444444440000.
Definition HEAP_SIZE : Z := 100 * 1024.

(** [VirtAddr - u64], [Page::containing_address] and the pages of
    [Page::range_inclusive]; a page is known by its start address. *)
Class PageOps := {
  virt_addr_sub : Z -> Z -> res Z;
  page_containing : Z -> Z;
  page_range_inclusive : Z -> Z -> list Z;
}.

Class PageLaws `{!PageOps} := {
  virt_addr_sub_ok a b : canonical (a - b) -> virt_addr_sub a b = Ok (a - b);
  page_containing_spec a : canonical a -> page_containing a = a - a mod 4096;
  page_range_spec s e : s mod 4096 = 0 -> e mod 4096 = 0 -> canonical s -> canonical e -> s <= e ->
    NoDup (page_range_inclusive s e) /\
    (forall p, p ∈ page_range_inclusive s e <-> s <= p <= e /\ p mod 4096 = 0) /\
    Z.of_nat (length (page_range_inclusive s e)) = (e - s) / 4096 + 1;
}.

Section init_heap.
Context {M A H : Type} `{!Mapper M, !FrameAllocator A, !Heap H, !PagingOps, !PageOps}.

(** The loop over the pages, with its early returns. *)
Fixpoint map_pages (pages : list Z) (mapper : M) (frame_allocator : A)
    : res (option MapToError * M * A) :=
  match pages with
  | [] => Ok (None, mapper, frame_allocator)
  | page :: pages =>
      fa ← allocate_frame frame_allocator;
      match fa with
      | (None, frame_allocator) => Ok (Some FrameAllocationFailed, mapper, frame_allocator)
      | (Some frame, frame_allocator) =>
          let flags := [PRESENT; WRITABLE] in
          r ← map_to mapper frame_allocator page frame flags;
          match r with
          | (Some e, mapper, frame_allocator) => Ok (Some e, mapper, frame_allocator)
          | (None, mapper, frame_allocator) => map_pages pages mapper frame_allocator
          end
      end
  end.

(** [None] is [Ok(())]. *)
Definition init_heap (mapper : M) (frame_allocator : A) (ALLOCATOR : FixedSizeBlockAllocator.t H)
    : res (option MapToError * M * A * FixedSizeBlockAllocator.t H) :=
  heap_start ← virt_addr_new HEAP_START;
  t ← virt_addr_add heap_start HEAP_SIZE;
  heap_end ← virt_addr_sub t 1;
  let heap_start_page := page_containing heap_start in
  let heap_end_page := page_containing heap_end in
  let page_range := page_range_inclusive heap_start_page heap_end_page in
  r ← map_pages page_range mapper frame_allocator;
  match r with
  | (Some e, mapper, frame_allocator) => Ok (Some e, mapper, frame_allocator, ALLOCATOR)
  | (None, mapper, frame_allocator) =>
      Ok (None, mapper, frame_allocator, FixedSizeBlockAllocator.init ALLOCATOR HEAP_START HEAP_SIZE)
  end.

(** The pages of the heap. *)
Definition heap_pages : list Z :=
  page_range_inclusive HEAP_START (HEAP_START + HEAP_SIZE - 4096).

Context `{!PagingLaws, !PageLaws}.

Lemma init_heap_eq mapper fa ALLOCATOR :
  init_heap mapper fa ALLOCATOR =
    (map_pages heap_pages mapper fa ≫= fun r : option MapToError * M * A =>
     Ok (r, match r.1.1 with
            | Some _ => ALLOCATOR
            | None => FixedSizeBlockAllocator.init ALLOCATOR HEAP_START HEAP_SIZE
            end)).
Proof.
  unfold init_heap.
  rewrite virt_addr_new_ok by (unfold canonical, HEAP_START; lia). simpl.
  rewrite virt_addr_add_ok by (unfold canonical, HEAP_START, HEAP_SIZE; lia). simpl.
  rewrite virt_addr_sub_ok by (unfold canonical, HEAP_START, HEAP_SIZE; lia). simpl.
  rewrite !page_containing_spec by (unfold canonical, HEAP_START, HEAP_SIZE; lia).
  change (page_range_inclusive _ _) with heap_pages.
  destruct (map_pages heap_pages mapper fa) as [[[[e|] m] a]| | |]; done.
Qed.

Lemma heap_pages_spec :
  NoDup heap_pages /\ length heap_pages = 25%nat /\
  forall a, HEAP_START <= a < HEAP_START + HEAP_SIZE <-> a - a mod 4096 ∈ heap_pages.
Proof.
  destruct (page_range_spec HEAP_START (HEAP_START + HEAP_SIZE - 4096)) as (Hn & He & Hl);
    try (unfold canonical, HEAP_START, HEAP_SIZE; lia); try done.
  split_and!; [done|change ((_ - _) / 4096 + 1) with 25 in Hl; unfold heap_pages; lia|].
  intros a. unfold heap_pages. rewrite He. pose proof (Z.mod_pos_bound a 4096 ltac:(lia)).
  pose proof (Z.div_mod a 4096 ltac:(lia)) as Hd.
  replace (a - a mod 4096) with (a / 4096 * 4096) by lia. rewrite Z.mod_mul by lia.
  unfold HEAP_START, HEAP_SIZE. lia.
Qed.

Context `{!MapperLaws M, !FrameAllocatorSafe A}.

Lemma map_pages_spec pages (m : M) (a : A) used fuel :
  NoDup pages -> fa_inv a used (4 * length pages + fuel) ->
  exists r m' a' used', map_pages pages m a = Ok (r, m', a') /\
    fa_inv a' used' fuel /\ used ⊆ used' /\
    (forall p, p ∉ pages -> translate_page m' p = translate_page m p) /\
    (r = None -> exists frames, NoDup frames /\ Forall (fun f => (f ∈ used') /\ f ∉ used) frames /\
       Forall2 (fun p f => translate_page m' p = Some (f, [PRESENT; WRITABLE])) pages frames).
Proof.
  revert m a used. induction pages as [|p pages IH]; intros m a used Hnd Hi.
  { eexists _, _, _, used. split_and!; [done|done|done|done|]. intros _. exists [].
    split_and!; constructor. }
  apply NoDup_cons in Hnd as [Hp Hnd]. cbn [map_pages].
  replace (4 * length (p :: pages) + fuel)%nat with (S (3 + (4 * length pages + fuel))) in Hi
    by (simpl; lia).
  destruct (fa_allocate a used _ Hi) as ([f|] & a1 & -> & Ha1); cbn [mbind res_bind].
  2: { eexists _, m, a1, used. split_and!; [done| |done|done|done].
       rewrite Nat.add_assoc in Ha1. by eapply fa_mono_add. }
  destruct Ha1 as (Hf & _ & Hi1).
  destruct (map_to_spec A _ _ m a1 p f [PRESENT; WRITABLE] (f :: used) _ Hi1)
    as (r & m2 & a2 & used2 & -> & Hi2 & Hsub & Hr). cbn [mbind res_bind].
  destruct r as [e|].
  { eexists _, m2, a2, used2. split_and!; [done|by eapply fa_mono_add|set_solver|by intros; apply Hr|done]. }
  destruct Hr as (_ & Hpm & Hother).
  destruct (IH m2 a2 used2 Hnd Hi2) as (r & m3 & a3 & used3 & -> & Hi3 & Hsub3 & Hkeep & Hok).
  eexists _, m3, a3, used3. split_and!; [done|done|set_solver| |].
  - intros q Hq. rewrite Hkeep by set_solver. apply Hother. set_solver.
  - intros Hnone. destruct (Hok Hnone) as (frames & Hnf & Hfr & Hall).
    exists (f :: frames). split_and!.
    + constructor; [|done]. intros Hin.
      apply (proj1 (Forall_forall _ _)) with (1 := Hfr) in Hin as [_ Hin]. set_solver.
    + constructor; [set_solver|]. eapply Forall_impl; [exact Hfr|]. simpl. set_solver.
    + constructor; [|done]. by rewrite Hkeep.
Qed.

(** [init_heap] returns, and a heap that was initialised satisfies its invariant. *)
Lemma init_heap_returns `{!HeapLaws H} (m : M) (a : A) mem used :
  fa_inv a used 100 ->
  exists r m' a' al, init_heap m a (FixedSizeBlockAllocator.new mem) = Ok (r, m', a', al) /\
    (r = None -> FixedSizeBlockAllocator.inv HEAP_START (HEAP_START + HEAP_SIZE) al []).
Proof.
  intros Hi. destruct heap_pages_spec as (Hnd & Hlen & _).
  destruct (map_pages_spec heap_pages m a used 0 Hnd) as (r & m' & a' & used' & E & _); [by rewrite Hlen|].
  rewrite init_heap_eq, E. simpl. eexists _, _, _, _. split; [done|]. intros ->.
  eexists. by apply FixedSizeBlockAllocator.fsb_init_inv.
Qed.
End init_heap.

(** ** Instances of the library's types *)

#[export] Instance page_ref : PageOps := {
  virt_addr_sub a b :=
    if (0 <=? a - b) && (a - b <? 2 ^ 47) || (2 ^ 64 - 2 ^ 47 <=? a - b) && (a - b <? 2 ^ 64)
    then Ok (a - b) else Panic (ExplicitPanic "non-canonical address");
  page_containing a := a - a mod 4096;
  page_range_inclusive s e := step_by s (e + 1) 4096;
}.

#[export, program] Instance page_ref_laws : PageLaws.
Next Obligation. intros a b Ha. simpl. by rewrite (canonicalb _ Ha). Qed.
Next Obligation. done. Qed.
Next Obligation.
  intros s e Hs He _ _ Hle. simpl. split_and!.
  - apply BootInfoFrameAllocator.NoDup_step_by.
  - intros p. rewrite BootInfoFrameAllocator.elem_of_step_by. rewrite Zminus_mod, Hs, Z.sub_0_r, Z.mod_mod by lia.
    lia.
  - unfold step_by. rewrite length_fmap, length_seqZ.
    apply Z.mod_divide in Hs as [p ->], He as [q ->]; [|lia..].
    replace (q * 4096 + 1 - p * 4096 + 4096 - 1) with ((q - p + 1) * 4096) by lia.
    replace (q * 4096 - p * 4096) with ((q - p) * 4096) by lia.
    rewrite !Z.div_mul by lia. lia.
Qed.

(** ** Properties *)

(** C15: after [init_heap] has succeeded, every address of the heap lies in a page
    that is mapped present and writable, different pages to different frames that
    no one used before, and the allocator satisfies its invariant over exactly
    that heap; after an error the allocator is untouched.  Mappings outside the
    heap are kept in both cases. *)
Theorem init_heap_correct (M A H : Type) (mapper : Mapper M) (ml : MapperLaws M)
    (fa : FrameAllocator A) (fs : FrameAllocatorSafe A) (heap : Heap H) (hl : HeapLaws H)
    (pops : PagingOps) (pl : PagingLaws) (gops : PageOps) (gl : PageLaws)
    (m : M) (a : A) (mem : gmap Z FixedSizeBlockAllocator.ListNode) (used : list Z) :
  fa_inv a used 100 ->
  exists r m' a' al used', init_heap m a (FixedSizeBlockAllocator.new mem) = Ok (r, m', a', al) /\
    fa_inv a' used' 0 /\
    (forall p, p ∉ heap_pages -> translate_page m' p = translate_page m p) /\
    match r with
    | None =>
        (forall addr, HEAP_START <= addr < HEAP_START + HEAP_SIZE ->
           exists f, translate_page m' (addr - addr mod 4096) = Some (f, [PRESENT; WRITABLE]) /\ f ∉ used) /\
        (forall p q f fl fl', p ∈ heap_pages -> q ∈ heap_pages ->
           translate_page m' p = Some (f, fl) -> translate_page m' q = Some (f, fl') -> p = q) /\
        FixedSizeBlockAllocator.inv HEAP_START (HEAP_START + HEAP_SIZE) al []
    | Some _ => al = FixedSizeBlockAllocator.new mem
    end.
Proof.
  intros Hi. destruct heap_pages_spec as (Hnd & Hlen & Hcov).
  destruct (map_pages_spec heap_pages m a used 0 Hnd) as (r & m' & a' & used' & E & Hi' & _ & Hkeep & Hok).
  { by rewrite Hlen. }
  rewrite init_heap_eq, E. simpl. eexists _, _, _, _, used'. split; [done|]. split_and!; [done|done|].
  destruct r as [e|]; [done|]. destruct (Hok eq_refl) as (frames & Hnf & Hfr & Hall). split_and!.
  - intros addr Haddr. apply Hcov in Haddr.
    apply list_elem_of_lookup in Haddr as [i Hp].
    destruct (Forall2_lookup_l _ _ _ _ _ Hall Hp) as (f & Hf & Ht). exists f. split; [done|].
    apply list_elem_of_lookup_2 in Hf. by apply (proj1 (Forall_forall _ _)) with (1 := Hfr) in Hf as [_ ?].
  - intros p q f fl fl' Hp Hq Hpf Hqf.
    apply list_elem_of_lookup in Hp as [i Hp], Hq as [j Hq].
    destruct (Forall2_lookup_l _ _ _ _ _ Hall Hp) as (f1 & Hf1 & Ht1).
    destruct (Forall2_lookup_l _ _ _ _ _ Hall Hq) as (f2 & Hf2 & Ht2). simplify_eq.
    pose proof (NoDup_lookup _ _ _ _ Hnf Hf1 Hf2) as ->. congruence.
  - eexists. by apply FixedSizeBlockAllocator.fsb_init_inv.
Qed.

(** 128 KiB of usable memory are enough for the 25 pages of the heap. *)
Definition heap_map : list MemoryRegion := [mkRegion 0x2000 0x22000 Usable].
Lemma heap_map_ok : BootInfoFrameAllocator.map_ok heap_map.
Proof. split; [forall_elems ltac:(simpl; lia)|forall_elems ltac:(by split)|done]. Qed.

Lemma init_heap_correct_witness :
  exists m' a' al,
    @init_heap _ _ _ _ (@BootInfoFrameAllocator.BootInfo_FrameAllocator dev_profile _) bump_Heap _ _
      (∅ : gmap Z (Z * list PageTableFlag)) (BootInfoFrameAllocator.init heap_map)
      (FixedSizeBlockAllocator.new ∅) = Ok (None, m', a', al) /\
    (forall addr, HEAP_START <= addr < HEAP_START + HEAP_SIZE ->
       exists f, m' !! (addr - addr mod 4096) = Some (f, [PRESENT; WRITABLE])) /\
    FixedSizeBlockAllocator.inv HEAP_START (HEAP_START + HEAP_SIZE) al [].
Proof.
  destruct (init_heap_correct _ _ _ map_Mapper map_MapperLaws
    (@BootInfoFrameAllocator.BootInfo_FrameAllocator dev_profile _)
    (@BootInfoFrameAllocator.BootInfo_FrameAllocatorSafe dev_profile _ _)
    bump_Heap bump_HeapLaws paging_ref paging_ref_laws page_ref page_ref_laws
    ∅ (BootInfoFrameAllocator.init heap_map) ∅ []) as (r & m' & a' & al & used' & E & _ & _ & Hr).
  { split_and!; [exact heap_map_ok|simpl; lia|simpl; unfold WORD; lia|constructor]. }
  assert (Hok : match @init_heap _ _ _ _ (@BootInfoFrameAllocator.BootInfo_FrameAllocator dev_profile _) bump_Heap _ _
      (∅ : gmap Z (Z * list PageTableFlag)) (BootInfoFrameAllocator.init heap_map) (FixedSizeBlockAllocator.new ∅)
    with Ok (None, _, _, _) => true | _ => false end = true) by (vm_compute; reflexivity).
  rewrite E in Hok. destruct r as [e|]; [discriminate Hok|]. destruct Hr as (H1 & _ & H2).
  exists m', a', al. split_and!; [exact E| |exact H2].
  intros addr Ha. destruct (H1 addr Ha) as (f & Hf & _). by exists f.
Defined.

(** When the frame allocator has no frame to give, [init_heap] returns
    [FrameAllocationFailed], with no page mapped and the allocator untouched. *)
Theorem init_heap_without_frames (M H : Type) (mapper : Mapper M) (heap : Heap H)
    (pops : PagingOps) (pl : PagingLaws) (gops : PageOps) (gl : PageLaws)
    (m : M) (al : FixedSizeBlockAllocator.t H) :
  init_heap m EmptyFrameAllocator.EmptyFrameAllocator al =
    Ok (Some FrameAllocationFailed, m, EmptyFrameAllocator.EmptyFrameAllocator, al).
Proof.
  rewrite init_heap_eq. destruct heap_pages_spec as (_ & Hlen & _).
  by destruct heap_pages.
Qed.

Lemma init_heap_without_frames_witness :
  @init_heap _ _ _ _ Empty_FrameAllocator bump_Heap _ _ (∅ : gmap Z (Z * list PageTableFlag))
    EmptyFrameAllocator.EmptyFrameAllocator (FixedSizeBlockAllocator.new ∅) =
  Ok (Some FrameAllocationFailed, ∅, EmptyFrameAllocator.EmptyFrameAllocator,
      FixedSizeBlockAllocator.new ∅).
Proof.
  apply (init_heap_without_frames _ _ map_Mapper bump_Heap paging_ref paging_ref_laws page_ref
    page_ref_laws ∅ (FixedSizeBlockAllocator.new ∅)).
Defined.
