(* ===== verification/Vga.v ===== *)
(** * The VGA text buffer

    [src/min-rust-os/src/vga_buffer.rs]: a writer that always writes to the last
    of 25 rows and scrolls the others up.  The specification is a terminal that
    never forgets a row; the screen is a window on its last rows. *)

From S2P Require Import Prelude.
From stdpp Require Import base list strings.
From Stdlib Require Import ZArith Lia.
Local Open Scope Z_scope.

(** ** Colours *)

Inductive Colour :=
| Black | Blue | Green | Cyan | Red | Magenta | Brown | LightGray
| DarkGray | LightBlue | LightGreen | LightCyan | LightRed | Pink | Yellow | White.

(** [colour as u8] *)
Definition colour_as_u8 (c : Colour) : Z :=
  match c with
  | Black => 0 | Blue => 1 | Green => 2 | Cyan => 3
  | Red => 4 | Magenta => 5 | Brown => 6 | LightGray => 7
  | DarkGray => 8 | LightBlue => 9 | LightGreen => 10 | LightCyan => 11
  | LightRed => 12 | Pink => 13 | Yellow => 14 | White => 15
  end.

Record ColourCode := mkColourCode { code : Z }.

(** [(background as u8) << 4 | (foreground as u8)] *)
Definition ColourCode_new (foreground background : Colour) : ColourCode :=
  mkColourCode (Z.lor (Z.land (Z.shiftl (colour_as_u8 background) 4) 255) (colour_as_u8 foreground)).

Record ScreenChar := mkChar { ascii_character : Z; char_colour : ColourCode }.

#[global] Instance ColourCode_eq_dec : EqDecision ColourCode.
Proof. solve_decision. Defined.
#[global] Instance ScreenChar_eq_dec : EqDecision ScreenChar.
Proof. solve_decision. Defined.

Definition BUFFER_HEIGHT : nat := 25.
Definition BUFFER_WIDTH : nat := 80.

(** ** The writer *)

Module Writer.
(** [chars: [[Volatile<ScreenChar>; BUFFER_WIDTH]; BUFFER_HEIGHT]]; the two
    lengths are part of the well-formedness below. *)
Abbreviation Row := (list ScreenChar).
Abbreviation Buffer := (list Row).

Record t := mk {
  column_position : nat;
  colour_code : ColourCode;
  buffer : Buffer;
}.

(** [self.buffer.chars[row][col].read()] *)
Definition read_char (self : t) (row col : nat) : res ScreenChar :=
  r ← index (buffer self) row; index r col.

(** [self.buffer.chars[row][col].write(c)] *)
Definition write_char (row col : nat) (c : ScreenChar) (self : t) : res t :=
  r ← index (buffer self) row;
  r ← set_index r col c;
  b ← set_index (buffer self) row r;
  Ok (mk (column_position self) (colour_code self) b).

Definition set_column (col : nat) (self : t) : t := mk col (colour_code self) (buffer self).

Definition clear_row (row : nat) (self : t) : res t :=
  let blank := mkChar 32 (colour_code self) in
  for_each (fun col => write_char row col blank) (seq 0 BUFFER_WIDTH) self.

Definition new_line (self : t) : res t :=
  self ← for_each (fun row =>
      for_each (fun col s =>
        character ← read_char s row col;
        write_char (row - 1) col character s) (seq 0 BUFFER_WIDTH))
    (seq 1 (BUFFER_HEIGHT - 1)) self;
  self ← clear_row (BUFFER_HEIGHT - 1) self;
  Ok (set_column 0 self).

Definition write_byte (byte : Z) (self : t) : res t :=
  if byte =? 10 then new_line self
  else
    self ← (if decide (BUFFER_WIDTH <= column_position self)%nat then new_line self else Ok self);
    let row := (BUFFER_HEIGHT - 1)%nat in
    let col := column_position self in
    let colour_code := colour_code self in
    self ← write_char row col (mkChar byte colour_code) self;
    Ok (set_column (column_position self + 1) self).

(** The byte that is written for a byte of a string. *)
Definition printable (byte : Z) : bool := (0x20 <=? byte) && (byte <=? 0x7e).

Definition write_string (s : list Z) (self : t) : res t :=
  for_each (fun byte =>
    if printable byte || (byte =? 10) then write_byte byte else write_byte 0xfe) s self.

(** [fmt::Write]: [write_str], and [write_fmt] on the pieces the formatting
    machinery produces. *)
Definition write_str (s : list Z) (self : t) : res t := write_string s self.
Definition write_fmt (pieces : list (list Z)) (self : t) : res t := for_each write_str pieces self.

(** [_print] with interrupts disabled and the lock taken is [write_fmt]. *)
Definition _print (pieces : list (list Z)) (self : t) : res t := write_fmt pieces self.

(** [println!("{}", ...)]: the pieces, then a line feed. *)
Definition println (pieces : list (list Z)) (self : t) : res t := _print (pieces ++ [[10]]) self.

(** The writer behind [WRITER]. *)
Definition WRITER (b : Buffer) : t := mk 0 (ColourCode_new Pink Black) b.

(** The loop of [test_println_output]: every character of [s] is read back from
    the row above the last one. *)
Definition check_output (s : list Z) (self : t) : res unit :=
  for_each (fun '(i, c) (_ : unit) =>
    screen_char ← read_char self (BUFFER_HEIGHT - 2) i;
    assert_ (ascii_character screen_char =? c)) (zip (seq 0 (length s)) s) tt.
Definition test_println_output (s : list Z) (self : t) : res t :=
  self ← write_fmt [[10]; s; [10]] self;
  _ ← check_output s self;
  Ok self.

(** ** Well-formedness *)

(** The array type of the buffer, and the bound on the cursor. *)
Definition wf_row (r : Row) : Prop := length r = BUFFER_WIDTH.
Definition wf_buffer (b : Buffer) : Prop := length b = BUFFER_HEIGHT /\ Forall wf_row b.
Definition wf (self : t) : Prop :=
  wf_buffer (buffer self) /\ (column_position self <= BUFFER_WIDTH)%nat.

Definition with_buffer (b : Buffer) (self : t) : t := mk (column_position self) (colour_code self) b.

Definition blank (cc : ColourCode) : ScreenChar := mkChar 32 cc.
Definition blank_row (cc : ColourCode) : Row := replicate BUFFER_WIDTH (blank cc).

Lemma wf_buffer_insert b r src :
  wf_buffer b -> wf_row src -> wf_buffer (<[r := src]> b).
Proof. intros [Hl Hf] Hs. split; [by rewrite length_insert|]. by apply Forall_insert. Qed.

Lemma wf_buffer_lookup b r :
  wf_buffer b -> (r < BUFFER_HEIGHT)%nat -> exists x, b !! r = Some x /\ wf_row x.
Proof.
  intros [Hl Hf] Hr. destruct (lookup_lt_is_Some_2 b r) as [x Hx]; [lia|].
  exists x. split; [done|]. by eapply Forall_lookup_1.
Qed.

Lemma write_char_ok r c x old self :
  buffer self !! r = Some old -> (c < length old)%nat ->
  write_char r c x self = Ok (with_buffer (<[r := <[c := x]> old]> (buffer self)) self).
Proof.
  intros Hr Hc. unfold write_char. rewrite (index_ok _ _ _ Hr). simpl.
  rewrite (set_index_ok old) by done. simpl.
  rewrite set_index_ok by (by eapply lookup_lt_Some). done.
Qed.

(** A loop over the columns that stores [src] into row [r] replaces the row. *)
Lemma write_row_loop body r src dst self :
  buffer self !! r = Some dst -> wf_row src -> wf_row dst ->
  (forall c x b, src !! c = Some x -> b = <[r := overlay c src dst]> (buffer self) ->
     body c (with_buffer b self) = write_char r c x (with_buffer b self)) ->
  for_each body (seq 0 BUFFER_WIDTH) self = Ok (with_buffer (<[r := src]> (buffer self)) self).
Proof.
  intros Hr Hs Hd Hbody.
  destruct (for_each_seq
    (fun c s => s = with_buffer (<[r := overlay c src dst]> (buffer self)) self)
    body 0 BUFFER_WIDTH self) as (s' & -> & ->).
  - unfold overlay, with_buffer; simpl. rewrite list_insert_id by done. by destruct self.
  - intros c s1 Hc ->. destruct (lookup_lt_is_Some_2 src c) as [x Hx]; [unfold wf_row in *; lia|].
    eexists. split; [|reflexivity]. rewrite (Hbody c x) by done.
    rewrite (write_char_ok _ _ _ (overlay c src dst)).
    + unfold with_buffer; simpl. rewrite list_insert_insert_eq.
      rewrite (overlay_insert _ _ _ _ Hx); [done|unfold wf_row in *; lia].
    + simpl. apply list_lookup_insert_eq. by eapply lookup_lt_Some.
    + unfold wf_row in *. rewrite length_overlay; lia.
  - replace (0 + BUFFER_WIDTH)%nat with (length dst) by done.
    rewrite overlay_all; [done|congruence].
Qed.

Lemma clear_row_ok r self :
  wf_buffer (buffer self) -> (r < BUFFER_HEIGHT)%nat ->
  clear_row r self = Ok (with_buffer (<[r := blank_row (colour_code self)]> (buffer self)) self).
Proof.
  intros Hwf Hr. destruct (wf_buffer_lookup _ _ Hwf Hr) as (old & Hold & Hw).
  unfold clear_row. apply (write_row_loop _ _ _ old); [done| |done|].
  - apply length_replicate.
  - intros c x b Hx _. by apply lookup_replicate in Hx as [-> _].
Qed.

Lemma copy_row_ok r src self :
  wf_buffer (buffer self) -> buffer self !! S r = Some src ->
  for_each (fun col s => character ← read_char s (S r) col;
              write_char r col character s) (seq 0 BUFFER_WIDTH) self
  = Ok (with_buffer (<[r := src]> (buffer self)) self).
Proof.
  intros Hwf Hsrc. pose proof (lookup_lt_Some _ _ _ Hsrc) as Hlt.
  destruct (wf_buffer_lookup _ r Hwf) as (dst & Hdst & Hwd); [destruct Hwf; lia|].
  apply (write_row_loop _ _ _ dst); [done| |done|].
  - destruct Hwf as [_ Hf]. by eapply (Forall_lookup_1 wf_row).
  - intros c x b Hx ->. unfold read_char. simpl buffer.
    erewrite index_ok by (rewrite list_lookup_insert_ne by lia; exact Hsrc). simpl.
    by rewrite (index_ok _ _ _ Hx).
Qed.

(** Scrolling: every row moves up by one, the last one becomes blank. *)
Lemma new_line_ok self :
  wf_buffer (buffer self) ->
  new_line self
  = Ok (mk 0 (colour_code self) (tail (buffer self) ++ [blank_row (colour_code self)])).
Proof.
  intros Hwf. destruct self as [col cc B]; simpl in *. pose proof Hwf as [Hl Hf].
  assert (Hlt : length (tail B) = (BUFFER_HEIGHT - 1)%nat) by (destruct B; simpl in *; unfold BUFFER_HEIGHT in *; lia).
  unfold new_line.
  destruct (for_each_seq
    (fun i s => s = mk col cc (overlay (i - 1) (tail B) B))
    (fun row => for_each (fun col s => character ← read_char s row col;
                            write_char (row - 1) col character s) (seq 0 BUFFER_WIDTH))
    1 (BUFFER_HEIGHT - 1) (mk col cc B)) as (s' & -> & ->); [done| |].
  - intros [|r] s1 Hr ->; [lia|]. eexists. split; [|reflexivity].
    replace (S r - 1)%nat with r by lia.
    destruct (lookup_lt_is_Some_2 (tail B) r) as [src Hsrc]; [lia|].
    assert (HB : B !! S r = Some src) by (destruct B; done).
    rewrite (copy_row_ok r src).
    + unfold with_buffer; simpl. rewrite (overlay_insert _ _ _ _ Hsrc) by (unfold BUFFER_HEIGHT in *; lia). done.
    + simpl. split; [rewrite length_overlay; lia|].
      apply Forall_app; split; [apply Forall_take|by apply Forall_drop]. destruct B; [done|]. by inversion Hf.
    + simpl. by rewrite overlay_lookup by lia.
  - simpl. assert (E : overlay 24 (tail B) B = tail B ++ drop 24 B).
    { unfold overlay. f_equal. apply take_ge. unfold BUFFER_HEIGHT in *. lia. }
    change (1 + (BUFFER_HEIGHT - 1) - 1)%nat with 24%nat. rewrite E.
    destruct (drop 24 B) as [|lst [|]] eqn:Ed;
      apply (f_equal length) in Ed as Ed'; rewrite length_drop, Hl in Ed'; try done.
    rewrite clear_row_ok.
    + simpl. unfold with_buffer, set_column; simpl.
      rewrite insert_app_r_alt by (rewrite Hlt; done). rewrite Hlt. done.
    + simpl. split; [rewrite length_app, Hlt; done|].
      apply Forall_app; split; [destruct B; [done|]; by inversion Hf|].
      rewrite <- Ed. by apply Forall_drop.
    + unfold BUFFER_HEIGHT; lia.
Qed.
(** ** Specification: text on an unbounded scroll *)

(** What a byte of a string is shown as. *)
Definition sanitise (byte : Z) : Z := if printable byte || (byte =? 10) then byte else 0xfe.

Fixpoint split_lines (s : list Z) : list (list Z) :=
  match s with
  | [] => [[]]
  | b :: s' =>
      if b =? 10 then [] :: split_lines s'
      else match split_lines s' with
           | [] => [[b]]
           | l :: ls => (b :: l) :: ls
           end
  end.

(** A line cut into pieces of the width of the screen. *)
Fixpoint chunks_fuel (fuel : nat) (l : list Z) : list (list Z) :=
  match fuel with
  | O => [l]
  | S fuel' =>
      if decide (length l <= BUFFER_WIDTH)%nat then [l]
      else take BUFFER_WIDTH l :: chunks_fuel fuel' (drop BUFFER_WIDTH l)
  end.
Definition chunks (l : list Z) : list (list Z) := chunks_fuel (length l) l.

(** The screen lines of a text: its lines, each cut into pieces. *)
Definition wrap (s : list Z) : list (list Z) := mjoin (chunks <$> split_lines s).

(** Lines painted over what was in their rows: the first one over the row the
    cursor stands in, the others over blank rows. *)
Definition paint (cc : ColourCode) (under : Row) (l : list Z) : Row :=
  ((fun b => mkChar b cc) <$> l) ++ drop (length l) under.
Fixpoint paint_all (cc : ColourCode) (under : Row) (ls : list (list Z)) : list Row :=
  match ls with
  | [] => []
  | l :: ls' => paint cc under l :: paint_all cc (blank_row cc) ls'
  end.

(** The window on the last [n] rows of a scroll. *)
Definition last_rows {A} (n : nat) (l : list A) : list A := drop (length l - n) l.

Lemma last_rows_snoc {A} n (l : list A) x :
  (n <= length l)%nat -> last_rows (S n) (l ++ [x]) = last_rows n l ++ [x].
Proof.
  intros Hn. unfold last_rows. rewrite length_app; simpl.
  replace (length l + 1 - S n)%nat with (length l - n)%nat by lia.
  apply drop_app_le. lia.
Qed.

Lemma length_last_rows {A} n (l : list A) : (n <= length l)%nat -> length (last_rows n l) = n.
Proof. intros. unfold last_rows. rewrite length_drop. lia. Qed.

Lemma tail_last_rows {A} n (l : list A) :
  (S n <= length l)%nat -> tail (last_rows (S n) l) = last_rows n l.
Proof.
  intros Hn. unfold last_rows.
  replace (length l - n)%nat with (length l - S n + 1)%nat by lia.
  rewrite <- drop_drop. by destruct (drop (length l - S n) l).
Qed.

Lemma length_paint cc under l :
  wf_row under -> (length l <= BUFFER_WIDTH)%nat -> wf_row (paint cc under l).
Proof. intros Hu Hl. unfold wf_row, paint in *. rewrite length_app, length_fmap, length_drop. lia. Qed.

Lemma paint_snoc cc under l b :
  wf_row under -> (length l < BUFFER_WIDTH)%nat ->
  <[length l := mkChar b cc]> (paint cc under l) = paint cc under (l ++ [b]).
Proof.
  intros Hu Hl. unfold paint.
  destruct (lookup_lt_is_Some_2 under (length l)) as [y Hy]; [unfold wf_row in Hu; lia|].
  rewrite (drop_S _ _ _ Hy), insert_app_r_alt by (rewrite length_fmap; lia).
  rewrite length_fmap, Nat.sub_diag, fmap_app, <- app_assoc, length_app. simpl.
  by rewrite Nat.add_1_r.
Qed.

Lemma split_lines_cons s : exists l ls, split_lines s = l :: ls.
Proof.
  destruct s as [|b s]; simpl; [eauto|]. destruct (b =? 10); [eauto|].
  destruct (split_lines s); eauto.
Qed.

Lemma chunks_fuel_cons n l : exists c cs, chunks_fuel n l = c :: cs.
Proof. destruct n; simpl; [eauto|]. case_decide; eauto. Qed.

Lemma wrap_cons s : exists l ls, wrap s = l :: ls.
Proof.
  unfold wrap. destruct (split_lines_cons s) as (l & ls & ->). simpl.
  destruct (chunks_fuel_cons (length l) l) as (c & cs & E). unfold chunks. rewrite E. simpl. eauto.
Qed.

Definition no_newline (l : list Z) : Prop := Forall (fun b => b <> 10) l.

Lemma split_lines_app cur s l ls :
  no_newline cur -> split_lines s = l :: ls -> split_lines (cur ++ s) = (cur ++ l) :: ls.
Proof.
  intros Hc Hs. induction Hc as [|b cur Hb Hc IH]; simpl; [done|].
  rewrite (proj2 (Z.eqb_neq _ _) Hb), IH. done.
Qed.

Lemma chunks_fuel_enough n m l :
  (length l <= n)%nat -> (length l <= m)%nat -> chunks_fuel n l = chunks_fuel m l.
Proof.
  revert m l. induction n as [|n IH]; intros [|m] l Hn Hm; simpl; [done| | |].
  - by rewrite decide_True by (unfold BUFFER_WIDTH; lia).
  - by rewrite decide_True by (unfold BUFFER_WIDTH; lia).
  - case_decide; [done|]. f_equal.
    apply IH; rewrite length_drop; unfold BUFFER_WIDTH; lia.
Qed.

Lemma chunks_long cur l :
  length cur = BUFFER_WIDTH -> (0 < length l)%nat -> chunks (cur ++ l) = cur :: chunks l.
Proof.
  intros Hc Hl. unfold chunks.
  rewrite (chunks_fuel_enough _ (S (length (cur ++ l)))) by lia. cbn [chunks_fuel].
  rewrite decide_False by (rewrite length_app; lia).
  rewrite take_app_length', drop_app_length' by done. f_equal.
  apply chunks_fuel_enough; rewrite ?length_app; lia.
Qed.

Lemma chunks_short l : (length l <= BUFFER_WIDTH)%nat -> chunks l = [l].
Proof. intros Hl. unfold chunks. destruct (length l) eqn:E; [done|]. simpl. by rewrite decide_True by lia. Qed.

Lemma chunks_cut l : (BUFFER_WIDTH < length l)%nat -> chunks l = take BUFFER_WIDTH l :: chunks (drop BUFFER_WIDTH l).
Proof.
  intros Hl. rewrite <- (take_drop BUFFER_WIDTH l) at 1.
  apply chunks_long; [rewrite length_take|rewrite length_drop]; lia.
Qed.

(** The number of rows a line takes. *)
Lemma length_chunks j : forall l,
  ((0 < j)%nat -> (length l <= j * BUFFER_WIDTH)%nat -> (length (chunks l) <= j)%nat) /\
  ((j * BUFFER_WIDTH < length l)%nat -> (j < length (chunks l))%nat).
Proof.
  induction j as [|j IH]; intros l.
  { split; [lia|]. intros _. unfold chunks. destruct (chunks_fuel_cons (length l) l) as (c & cs & ->). simpl. lia. }
  specialize (IH (drop BUFFER_WIDTH l)). rewrite length_drop in IH.
  destruct (decide (length l <= BUFFER_WIDTH)%nat) as [Hs|Hl].
  - rewrite chunks_short by done. simpl. unfold BUFFER_WIDTH in *. lia.
  - rewrite chunks_cut by lia. cbn [length]. unfold BUFFER_WIDTH in *. destruct IH as [IH1 IH2].
    split; intros; [|apply -> Nat.succ_lt_mono; apply IH2; lia].
    destruct j; [lia|]. apply le_n_S, IH1; lia.
Qed.

Lemma Forall_chunks (Q : Z -> Prop) l : Forall Q l -> Forall (Forall Q) (chunks l).
Proof.
  unfold chunks. generalize (length l) as n. intros n. revert l.
  induction n as [|n IH]; intros l Hl; simpl; [by constructor|]. case_decide; [by constructor|].
  constructor; [by apply Forall_take|]. by apply IH, Forall_drop.
Qed.

Lemma wrap_chunks l : no_newline l -> wrap l = chunks l.
Proof.
  intros Hl. unfold wrap. rewrite <- (app_nil_r l) at 1. rewrite (split_lines_app _ _ [] []), app_nil_r by done.
  simpl. by rewrite app_nil_r.
Qed.

Lemma wrap_short cur : no_newline cur -> (length cur <= BUFFER_WIDTH)%nat -> wrap cur = [cur].
Proof.
  intros Hc Hl. unfold wrap. rewrite <- (app_nil_r cur) at 1.
  rewrite (split_lines_app _ _ [] []), app_nil_r by done. simpl. rewrite app_nil_r.
  unfold chunks. destruct cur as [|b cur']; [done|]. simpl length. simpl chunks_fuel.
  by rewrite decide_True.
Qed.

Lemma wrap_newline cur s :
  no_newline cur -> (length cur <= BUFFER_WIDTH)%nat -> wrap (cur ++ 10 :: s) = cur :: wrap s.
Proof.
  intros Hc Hl. pose proof (wrap_short cur Hc Hl) as Hw. unfold wrap in *.
  rewrite (split_lines_app _ _ [] (split_lines s)), app_nil_r by done.
  rewrite <- (app_nil_r cur), (split_lines_app _ _ [] []), app_nil_r in Hw by done.
  simpl in *. rewrite app_nil_r in Hw. by rewrite Hw.
Qed.

Lemma wrap_full cur b s :
  no_newline cur -> length cur = BUFFER_WIDTH -> b <> 10 ->
  wrap (cur ++ b :: s) = cur :: wrap (b :: s).
Proof.
  intros Hc Hl Hb. unfold wrap.
  destruct (split_lines_cons s) as (l & ls & Hs).
  assert (E : split_lines (b :: s) = (b :: l) :: ls).
  { simpl. by rewrite (proj2 (Z.eqb_neq _ _) Hb), Hs. }
  rewrite (split_lines_app _ _ _ _ Hc E), E, !fmap_cons, chunks_long by (cbn [length]; lia || done).
  done.
Qed.
(** ** The writer refines the scroll *)

(** The screen is the window on [hist] followed by the row of the cursor, in
    which [cur] was painted over [under]. *)
Record at_line (hist : list Row) (under : Row) (cur : list Z) (self : t) : Prop := {
  al_buffer : buffer self
    = last_rows BUFFER_HEIGHT (hist ++ [paint (colour_code self) under cur]);
  al_column : column_position self = length cur;
  al_cur : (length cur <= BUFFER_WIDTH)%nat;
  al_under : wf_row under;
  al_hist : Forall wf_row hist;
  al_rows : (BUFFER_HEIGHT - 1 <= length hist)%nat;
}.

Lemma wf_last_rows n b :
  (n <= length b)%nat -> Forall wf_row b ->
  length (last_rows n b) = n /\ Forall wf_row (last_rows n b).
Proof. intros. split; [by apply length_last_rows|]. by apply Forall_drop. Qed.

Lemma at_line_wf hist under cur self : at_line hist under cur self -> wf self.
Proof.
  intros []. split; [|congruence || lia]. rewrite al_buffer0. apply wf_last_rows.
  - rewrite length_app. simpl. unfold BUFFER_HEIGHT in *. lia.
  - apply Forall_app. split; [done|]. constructor; [|done]. by apply length_paint.
Qed.

(** A writer at column 0 stands at the start of its last row. *)
Lemma at_line_start self :
  wf_buffer (buffer self) -> column_position self = 0%nat ->
  exists lst, buffer self !! (BUFFER_HEIGHT - 1)%nat = Some lst /\
    at_line (take (BUFFER_HEIGHT - 1) (buffer self)) lst [] self.
Proof.
  intros Hwf Hcol. pose proof Hwf as [Hl Hf].
  destruct (wf_buffer_lookup _ (BUFFER_HEIGHT - 1) Hwf) as (lst & Hlst & Hw); [unfold BUFFER_HEIGHT; lia|].
  exists lst. split; [done|].
  assert (E : buffer self = take (BUFFER_HEIGHT - 1) (buffer self) ++ [lst]).
  { rewrite <- (take_S_r _ _ _ Hlst). symmetry. apply take_ge. rewrite Hl. done. }
  assert (Ht : length (take (BUFFER_HEIGHT - 1) (buffer self)) = (BUFFER_HEIGHT - 1)%nat)
    by (rewrite length_take, Hl; done).
  constructor; [|done|unfold BUFFER_WIDTH; simpl; lia|done|by apply Forall_take|lia].
  unfold last_rows, paint. rewrite length_app, Ht. exact E.
Qed.

(** A writer whose last row is blank stands behind as many blanks as its column says. *)
Lemma at_line_blank self :
  wf self -> buffer self !! (BUFFER_HEIGHT - 1)%nat = Some (blank_row (colour_code self)) ->
  at_line (take (BUFFER_HEIGHT - 1) (buffer self)) (blank_row (colour_code self))
    (replicate (column_position self) 32) self.
Proof.
  intros [Hwf Hcol] Hlast.
  destruct (at_line_start (set_column 0 self) Hwf eq_refl) as (lst & Hlst & [Hb _ _ Hu Hh Hr]).
  cbn [buffer set_column colour_code] in Hlst, Hb, Hh, Hr. rewrite Hlast in Hlst. injection Hlst as <-.
  constructor; rewrite ?length_replicate; try done.
  rewrite Hb at 1. f_equal. f_equal. f_equal. unfold paint, blank_row.
  rewrite fmap_replicate, length_replicate, !drop_replicate.
  change (mkChar 32 (colour_code self)) with (blank (colour_code self)). rewrite <- replicate_add.
  change (replicate (BUFFER_WIDTH - 0) (blank (colour_code self))
    = replicate (column_position self + (BUFFER_WIDTH - column_position self)) (blank (colour_code self))).
  f_equal. lia.
Qed.

Lemma new_line_at hist under cur self :
  at_line hist under cur self ->
  exists self', new_line self = Ok self' /\ colour_code self' = colour_code self /\
    at_line (hist ++ [paint (colour_code self) under cur]) (blank_row (colour_code self)) [] self'.
Proof.
  intros H. pose proof (at_line_wf _ _ _ _ H) as [Hwf _]. destruct H.
  eexists. split; [by apply new_line_ok|]. split; [done|].
  assert (Hlen : (BUFFER_HEIGHT <= length (hist ++ [paint (colour_code self) under cur]))%nat)
    by (rewrite length_app; simpl; unfold BUFFER_HEIGHT in *; lia).
  constructor; simpl.
  - rewrite al_buffer0. change BUFFER_HEIGHT with (S (BUFFER_HEIGHT - 1)).
    rewrite tail_last_rows by done. rewrite last_rows_snoc by (unfold BUFFER_HEIGHT in *; lia). done.
  - done.
  - lia.
  - apply length_replicate.
  - apply Forall_app. split; [done|]. constructor; [|done]. by apply length_paint.
  - unfold BUFFER_HEIGHT in *. lia.
Qed.

Lemma put_at hist under cur b self :
  at_line hist under cur self -> (length cur < BUFFER_WIDTH)%nat ->
  exists self',
    (s' ← write_char (BUFFER_HEIGHT - 1) (column_position self) (mkChar b (colour_code self)) self;
     Ok (set_column (column_position s' + 1) s')) = Ok self' /\
    colour_code self' = colour_code self /\ at_line hist under (cur ++ [b]) self'.
Proof.
  intros [] Hlt. set (cc := colour_code self) in *.
  assert (Hb : buffer self = last_rows (BUFFER_HEIGHT - 1) hist ++ [paint cc under cur]).
  { rewrite al_buffer0. by apply (last_rows_snoc (BUFFER_HEIGHT - 1)). }
  pose proof (length_last_rows _ _ al_rows0) as Hll.
  rewrite (write_char_ok _ _ _ (paint cc under cur)).
  2: { rewrite Hb, lookup_app_r by lia. rewrite Hll. done. }
  2: { pose proof (length_paint cc under cur al_under0 al_cur0). unfold wf_row in *. lia. }
  simpl. eexists. split; [reflexivity|]. split; [done|]. constructor; simpl; try done.
  - change (colour_code self) with cc. rewrite al_column0, paint_snoc by done.
    rewrite Hb, insert_app_r_alt by (rewrite Hll; done). rewrite Hll. simpl.
    symmetry. by apply (last_rows_snoc (BUFFER_HEIGHT - 1)).
  - rewrite al_column0, length_app. done.
  - rewrite length_app. simpl. lia.
Qed.

Lemma write_byte_at hist under cur b self :
  at_line hist under cur self -> b <> 10 ->
  exists self', write_byte b self = Ok self' /\ colour_code self' = colour_code self /\
    if decide (length cur < BUFFER_WIDTH)%nat then at_line hist under (cur ++ [b]) self'
    else at_line (hist ++ [paint (colour_code self) under cur])
           (blank_row (colour_code self)) [b] self'.
Proof.
  intros H Hb. unfold write_byte. rewrite (proj2 (Z.eqb_neq _ _) Hb).
  destruct (decide (length cur < BUFFER_WIDTH)%nat) as [Hlt|Hge].
  - rewrite decide_False by (rewrite (al_column _ _ _ _ H); lia). simpl mbind.
    by apply put_at.
  - rewrite decide_True by (rewrite (al_column _ _ _ _ H); lia).
    destruct (new_line_at _ _ _ _ H) as (s1 & -> & Hcc & H1). simpl mbind.
    destruct (put_at _ _ _ b _ H1) as (s2 & E2 & Hcc2 & H2); [unfold BUFFER_WIDTH; simpl; lia|].
    exists s2. split; [exact E2|]. split; [congruence|done].
Qed.

Lemma last_cons_wrap (l : list Z) s : last (l :: wrap s) = last (wrap s).
Proof. destruct (wrap_cons s) as (x & xs & ->). done. Qed.

(** What the screen shows after a text: the window on the scroll, and the cursor
    behind the last line. *)
Definition shows (hist : list Row) (under : Row) (ls : list (list Z)) (cc : ColourCode) (self : t) : Prop :=
  buffer self = last_rows BUFFER_HEIGHT (hist ++ paint_all cc under ls) /\
  column_position self = length (default [] (last ls)) /\
  colour_code self = cc /\ wf self.

Lemma shows_cons hist under cur s cc self :
  shows (hist ++ [paint cc under cur]) (blank_row cc) (wrap s) cc self ->
  shows hist under (cur :: wrap s) cc self.
Proof.
  intros (Hb & Hc & ? & ?). repeat split; try (done || by apply H0).
  - by rewrite Hb, <- app_assoc.
  - by rewrite last_cons_wrap.
Qed.

Lemma write_string_at s : forall hist under cur self,
  at_line hist under cur self -> no_newline cur ->
  exists self', write_string s self = Ok self' /\
    shows hist under (wrap (cur ++ (sanitise <$> s))) (colour_code self) self'.
Proof.
  induction s as [|b s IH]; intros hist under cur self H Hnl.
  { exists self. split; [done|]. rewrite app_nil_r, wrap_short by (done || apply H).
    pose proof (at_line_wf _ _ _ _ H). destruct H. repeat split; (done || by apply H0). }
  rewrite fmap_cons. unfold write_string; cbn [for_each].
  assert (Eb : (if printable b || (b =? 10) then write_byte b else write_byte 0xfe) = write_byte (sanitise b))
    by (unfold sanitise; by destruct (printable b || (b =? 10))).
  rewrite Eb. clear Eb. destruct (decide (sanitise b = 10)) as [E|E].
  - rewrite E. change (write_byte 10 self) with (new_line self).
    destruct (new_line_at _ _ _ _ H) as (s1 & -> & Hcc & H1). simpl mbind.
    destruct (IH _ _ _ _ H1) as (s2 & E2 & Hs); [constructor|].
    exists s2. split; [exact E2|]. rewrite wrap_newline by (done || apply H).
    rewrite Hcc in Hs. by apply shows_cons.
  - destruct (write_byte_at _ _ _ (sanitise b) _ H E) as (s1 & -> & Hcc & H1). simpl mbind.
    case_decide as Hlt; destruct (IH _ _ _ _ H1) as (s2 & E2 & Hs).
    + apply Forall_app. split; [done|]. by constructor.
    + exists s2. split; [exact E2|]. rewrite <- app_assoc, Hcc in Hs. exact Hs.
    + by constructor.
    + exists s2. split; [exact E2|]. rewrite Hcc in Hs.
      rewrite wrap_full by (done || (pose proof (al_cur _ _ _ _ H); lia)). by apply shows_cons.
Qed.

Lemma write_string_app s1 s2 self :
  write_string (s1 ++ s2) self = write_string s1 self ≫= write_string s2.
Proof. apply for_each_app. Qed.

Lemma write_fmt_app p1 p2 self : write_fmt (p1 ++ p2) self = write_fmt p1 self ≫= write_fmt p2.
Proof. apply for_each_app. Qed.

Lemma write_fmt_concat pieces self : write_fmt pieces self = write_string (mjoin pieces) self.
Proof.
  unfold write_fmt. revert self.
  induction pieces as [|p ps IH]; intros self; [done|]. cbn [for_each].
  change (mjoin (p :: ps)) with (p ++ mjoin ps). rewrite write_string_app.
  change (write_str p self) with (write_string p self).
  destruct (write_string p self); simpl; [apply IH|done..].
Qed.
(** ** Any cursor position *)

Lemma write_char_wf r c x self :
  wf self -> (r < BUFFER_HEIGHT)%nat -> (c < BUFFER_WIDTH)%nat ->
  exists b, write_char r c x self = Ok (with_buffer b self) /\ wf (with_buffer b self).
Proof.
  intros [Hwf Hc] Hr Hc'. destruct (wf_buffer_lookup _ _ Hwf Hr) as (old & Hold & Hw).
  eexists. split; [apply (write_char_ok _ _ _ old); [done|unfold wf_row in *; lia]|].
  split; [|done]. apply wf_buffer_insert; [done|]. unfold wf_row. by rewrite length_insert.
Qed.

Lemma new_line_wf self :
  wf self -> exists self', new_line self = Ok self' /\ wf self' /\ colour_code self' = colour_code self /\
    column_position self' = 0%nat /\
    buffer self' !! (BUFFER_HEIGHT - 1)%nat = Some (blank_row (colour_code self)).
Proof.
  intros [Hwf Hc]. eexists. split; [by apply new_line_ok|]. destruct Hwf as [Hl Hf].
  assert (Ht : length (tail (buffer self)) = (BUFFER_HEIGHT - 1)%nat)
    by (destruct (buffer self); simpl in *; unfold BUFFER_HEIGHT in *; lia).
  split_and!; [split; [split|]| | |]; simpl; try done; try lia.
  - rewrite length_app, Ht. done.
  - apply Forall_app. split; [destruct (buffer self); [done|]; by inversion Hf|].
    constructor; [|done]. apply length_replicate.
  - change 24%nat with (BUFFER_HEIGHT - 1)%nat. rewrite lookup_app_r, Ht by lia. done.
Qed.

Lemma write_byte_wf b self :
  wf self -> exists self', write_byte b self = Ok self' /\ wf self' /\ colour_code self' = colour_code self.
Proof.
  intros Hwf. unfold write_byte. destruct (b =? 10).
  { destruct (new_line_wf _ Hwf) as (s1 & ? & ? & ? & _). eauto. }
  assert (exists s1, (if decide (BUFFER_WIDTH <= column_position self)%nat then new_line self else Ok self) = Ok s1
    /\ wf s1 /\ colour_code s1 = colour_code self /\ (column_position s1 < BUFFER_WIDTH)%nat)
    as (s1 & -> & Hwf1 & Hcc & Hlt).
  { case_decide; [|exists self; split_and!; done || lia].
    destruct (new_line_wf _ Hwf) as (s1 & ? & ? & ? & E & _). exists s1.
    split_and!; try done. rewrite E. unfold BUFFER_WIDTH. lia. }
  simpl mbind. destruct (write_char_wf 24 (column_position s1)
    (mkChar b (colour_code s1)) s1 Hwf1) as (buf & -> & [Hb _]); [unfold BUFFER_HEIGHT; lia|done|].
  simpl. eexists. split; [reflexivity|]. split; [|done]. split; [done|simpl; lia].
Qed.

Lemma write_string_wf s self :
  wf self -> exists self', write_string s self = Ok self' /\ wf self' /\ colour_code self' = colour_code self.
Proof.
  intros Hwf. apply (for_each_inv (fun _ w => wf w /\ colour_code w = colour_code self)); [done|].
  intros _ b _ s1 _ [Hw Hcc]. rewrite <- Hcc.
  destruct (printable b || (b =? 10)); by apply write_byte_wf.
Qed.

(** ** Types *)

(** The fields of a [ScreenChar] are bytes. *)
Definition u8 (z : Z) : Prop := 0 <= z < 256.
Definition char_typed (c : ScreenChar) : Prop := u8 (ascii_character c) /\ u8 (code (char_colour c)).
Definition typed (self : t) : Prop :=
  Forall (Forall char_typed) (buffer self) /\ u8 (code (colour_code self)).

Lemma ColourCode_new_typed f b : u8 (code (ColourCode_new f b)).
Proof. by destruct f, b. Qed.

Lemma new_line_typed self self' : wf self -> typed self -> new_line self = Ok self' -> typed self'.
Proof.
  intros [Hwf _] [Hb Hc]. rewrite new_line_ok by done. intros [= <-]. split; [|done]. simpl.
  apply Forall_app. split; [destruct (buffer self); [done|]; by inversion Hb|].
  constructor; [|done]. by apply Forall_replicate.
Qed.

Lemma write_byte_typed b self self' :
  wf self -> typed self -> u8 b -> write_byte b self = Ok self' -> typed self'.
Proof.
  intros Hwf Ht Hb. unfold write_byte. destruct (b =? 10); [by apply new_line_typed|].
  assert (exists s1, (if decide (BUFFER_WIDTH <= column_position self)%nat then new_line self else Ok self) = Ok s1
    /\ wf s1 /\ typed s1 /\ (column_position s1 < BUFFER_WIDTH)%nat) as (s1 & -> & Hwf1 & [Ht1 Hc1] & Hlt).
  { case_decide; [|exists self; do 3 (split; [done|]); lia].
    destruct (new_line_wf _ Hwf) as (s1 & E1 & ? & ? & E & _). exists s1.
    pose proof (new_line_typed _ _ Hwf Ht E1) as Ht1.
    split; [done|]. split; [done|]. split; [done|]. rewrite E. unfold BUFFER_WIDTH. lia. }
  cbn [mbind res_bind]. destruct Hwf1 as [Hwf1 _].
  destruct (wf_buffer_lookup _ (BUFFER_HEIGHT - 1) Hwf1) as (old & Hold & Hw); [unfold BUFFER_HEIGHT; lia|].
  rewrite (write_char_ok _ _ _ old) by (done || (unfold wf_row in Hw; lia)). cbn [mbind res_bind]. intros [= <-].
  split; [|done]. simpl. apply Forall_insert; [done|]. apply Forall_insert; [|by split].
  by eapply (Forall_lookup_1 (Forall char_typed)).
Qed.

Lemma write_string_typed s : forall self self',
  wf self -> typed self -> Forall u8 s -> write_string s self = Ok self' -> typed self'.
Proof.
  induction s as [|b s IH]; intros self self' Hwf Ht Hs; [by intros [= <-]|].
  apply Forall_cons in Hs as [Hb Hs]. unfold write_string. cbn [for_each].
  assert (Eb : (if printable b || (b =? 10) then write_byte b else write_byte 0xfe) = write_byte (sanitise b))
    by (unfold sanitise; by destruct (printable b || (b =? 10))).
  rewrite Eb. assert (u8 (sanitise b)) as Hb' by (unfold sanitise; by destruct (printable b || (b =? 10))).
  destruct (write_byte_wf (sanitise b) self Hwf) as (s1 & E1 & Hwf1 & _). rewrite E1. cbn [mbind res_bind].
  apply IH; [done|exact (write_byte_typed _ _ _ Hwf Ht Hb' E1)|done].
Qed.

(** A line of printable text is shown as it is. *)
Definition printable_text (s : list Z) : Prop := Forall (fun b => printable b = true) s.

Lemma sanitise_printable s : printable_text s -> sanitise <$> s = s.
Proof.
  induction 1 as [|b s Hb _ IH]; [done|]. rewrite fmap_cons, IH. unfold sanitise. by rewrite Hb.
Qed.

Lemma printable_no_newline s : printable_text s -> no_newline s.
Proof. intros H. apply (Forall_impl _ _ _ H). intros b Hb ->. done. Qed.

Lemma lookup_paint_text cc under s i b :
  s !! i = Some b -> paint cc under s !! i = Some (mkChar b cc).
Proof.
  intros H. unfold paint. rewrite lookup_app_l by (rewrite length_fmap; by eapply lookup_lt_Some).
  by rewrite list_lookup_fmap, H.
Qed.

(** The row above the cursor after a line of text and a line feed. *)
Lemma shows_line_above hist under s cc self :
  (BUFFER_HEIGHT - 1 <= length hist)%nat -> (length s <= BUFFER_WIDTH)%nat ->
  shows hist under [s; []] cc self ->
  buffer self !! (BUFFER_HEIGHT - 2)%nat = Some (paint cc under s) /\
  buffer self !! (BUFFER_HEIGHT - 1)%nat = Some (blank_row cc) /\ column_position self = 0%nat.
Proof.
  intros Hh Hs (Hb & Hc & _). rewrite Hb. unfold last_rows, paint_all.
  rewrite !lookup_drop, !length_app. simpl length.
  rewrite !lookup_app_r by (unfold BUFFER_HEIGHT in *; lia).
  split_and!; [| |exact Hc].
  - by replace (_ - _)%nat with 0%nat by (unfold BUFFER_HEIGHT in *; lia).
  - by replace (_ - _)%nat with 1%nat by (unfold BUFFER_HEIGHT in *; lia).
Qed.

Lemma println_on_fresh_line s self :
  wf self -> column_position self = 0%nat ->
  buffer self !! (BUFFER_HEIGHT - 1)%nat = Some (blank_row (colour_code self)) ->
  printable_text s -> (length s <= BUFFER_WIDTH)%nat ->
  exists self', write_string (s ++ [10]) self = Ok self' /\ wf self' /\
    buffer self' !! (BUFFER_HEIGHT - 2)%nat
      = Some (paint (colour_code self) (blank_row (colour_code self)) s) /\
    buffer self' !! (BUFFER_HEIGHT - 1)%nat = Some (blank_row (colour_code self)) /\
    column_position self' = 0%nat.
Proof.
  intros [Hwf _] Hcol Hlast Hp Hl.
  destruct (at_line_start self Hwf Hcol) as (lst & Hlst & Hat).
  rewrite Hlast in Hlst. injection Hlst as <-.
  destruct (write_string_at (s ++ [10]) _ _ _ _ Hat) as (s1 & E1 & H1); [constructor|].
  exists s1. split; [exact E1|]. split; [apply H1|]. rewrite fmap_app, sanitise_printable in H1 by done.
  change ([] ++ s ++ (sanitise <$> [10])) with (s ++ 10 :: []) in H1.
  rewrite wrap_newline in H1 by (by try apply printable_no_newline).
  apply (shows_line_above _ _ _ _ _) in H1; [done| |done].
  rewrite length_take. destruct Hwf as [-> _]. done.
Qed.
(** [test_println_output] finds what it has printed. *)
Lemma test_println_output_ok s self :
  wf self -> printable_text s -> (length s <= BUFFER_WIDTH)%nat ->
  exists self', test_println_output s self = Ok self' /\ wf self' /\
    buffer self' !! (BUFFER_HEIGHT - 2)%nat
      = Some (paint (colour_code self) (blank_row (colour_code self)) s) /\
    buffer self' !! (BUFFER_HEIGHT - 1)%nat = Some (blank_row (colour_code self)) /\
    column_position self' = 0%nat.
Proof.
  intros Hwf Hp Hl. unfold test_println_output, check_output. rewrite write_fmt_concat.
  change (mjoin [[10]; s; [10]]) with ([10] ++ s ++ [10] ++ []). rewrite app_nil_r, write_string_app.
  change (write_string [10] self) with (s' ← new_line self; Ok s').
  destruct (new_line_wf self Hwf) as (s1 & -> & Hwf1 & Hcc & Hcol & Hlast). simpl mbind.
  rewrite <- Hcc in Hlast.
  destruct (println_on_fresh_line s s1) as (s2 & -> & Hwf2 & Hrow & Hlast2 & Hcol2); [done..|].
  simpl mbind. exists s2. rewrite <- Hcc. split; [|split; [exact Hwf2|by split_and!]].
  destruct (for_each_inv (fun _ (_ : unit) => True)
    (fun '(i, c) (_ : unit) =>
        screen_char ← read_char s2 (BUFFER_HEIGHT - 2) i;
        assert_ (ascii_character screen_char =? c)) (zip (seq 0 (length s)) s) tt) as ([] & E & _); [done| |].
  - intros done0 [i c] rest [] E _. exists tt. split; [|done].
    assert (Hin : zip (seq 0 (length s)) s !! length done0 = Some (i, c))
      by (rewrite E; by rewrite lookup_app_r, Nat.sub_diag).
    rewrite lookup_zip_with in Hin. apply bind_Some in Hin as (i' & Hi & Hin).
    apply bind_Some in Hin as (c' & Hc & [= -> ->]). apply lookup_seq in Hi as [-> _].
    unfold read_char. rewrite (index_ok _ _ _ Hrow). simpl mbind.
    rewrite (index_ok _ _ _ (lookup_paint_text _ _ _ _ _ Hc)). simpl.
    by rewrite Z.eqb_refl.
  - change (BUFFER_HEIGHT - 2)%nat with 23%nat in E. simpl in E |- *. by rewrite E.
Qed.

(** Printing one line of printable text at column 0 paints it over the last row. *)
Lemma print_line_at_start s self lst :
  wf self -> column_position self = 0%nat -> buffer self !! (BUFFER_HEIGHT - 1)%nat = Some lst ->
  printable_text s -> (length s <= BUFFER_WIDTH)%nat ->
  exists self', _print [s] self = Ok self' /\ wf self' /\ column_position self' = length s /\
    buffer self' = <[(BUFFER_HEIGHT - 1)%nat := paint (colour_code self) lst s]> (buffer self).
Proof.
  intros [Hwf _] Hcol Hlast Hp Hl.
  destruct (at_line_start self Hwf Hcol) as (lst' & Hlst & Hat).
  rewrite Hlast in Hlst. injection Hlst as <-.
  destruct (write_string_at s _ _ _ _ Hat) as (s1 & E1 & H1); [constructor|].
  rewrite app_nil_l, sanitise_printable, wrap_short in H1 by (done || by apply printable_no_newline).
  destruct H1 as (Hb & Hc & Hcc & Hw). exists s1. split_and!; [|done|done|].
  - unfold _print. rewrite write_fmt_concat. simpl. by rewrite app_nil_r.
  - rewrite Hb. simpl paint_all. pose proof Hwf as [Hlen _].
    rewrite (last_rows_snoc (BUFFER_HEIGHT - 1)) by (rewrite length_take, Hlen; done).
    unfold last_rows. rewrite length_take, Hlen, Nat.min_l, Nat.sub_diag, drop_0 by (unfold BUFFER_HEIGHT; lia).
    rewrite insert_take_drop by (rewrite Hlen; unfold BUFFER_HEIGHT; lia). f_equal. f_equal.
    symmetry. apply drop_ge. rewrite Hlen. unfold BUFFER_HEIGHT. lia.
Qed.
End Writer.

(** ** Two writers on one screen

    [main.rs] declares [mod vga_buffer;] although the library crate it links has
    the same module, so each crate has a [WRITER] of its own: two cursors over the
    one buffer at [0xb8000]. *)

Module Screen.
Record t := mk {
  chars : list (list ScreenChar);
  lib_column : nat;
  bin_column : nat;
}.

(** [print!] as the library (interrupt handlers, keyboard task) expands it, and as
    [main.rs] does: [$crate] is the crate the macro was declared in. *)
Definition print_lib (pieces : list (list Z)) (self : t) : res t :=
  w ← Writer._print pieces (Writer.mk (lib_column self) (ColourCode_new Pink Black) (chars self));
  Ok (mk (Writer.buffer w) (Writer.column_position w) (bin_column self)).

Definition print_bin (pieces : list (list Z)) (self : t) : res t :=
  w ← Writer._print pieces (Writer.mk (bin_column self) (ColourCode_new Pink Black) (chars self));
  Ok (mk (Writer.buffer w) (lib_column self) (Writer.column_position w)).

Definition boot (b : list (list ScreenChar)) : t := mk b 0 0.

Record wf (self : t) : Prop := {
  wf_chars : Writer.wf_buffer (chars self);
  wf_lib : (lib_column self <= BUFFER_WIDTH)%nat;
  wf_bin : (bin_column self <= BUFFER_WIDTH)%nat;
}.

Lemma print_lib_wf pieces self :
  wf self -> exists self', print_lib pieces self = Ok self' /\ wf self'.
Proof.
  intros []. unfold print_lib, Writer._print. rewrite Writer.write_fmt_concat.
  destruct (Writer.write_string_wf (mjoin pieces)
    (Writer.mk (lib_column self) (ColourCode_new Pink Black) (chars self))) as (w & -> & [] & _); [done|].
  eexists. split; [reflexivity|]. by constructor.
Qed.

Lemma print_bin_wf pieces self :
  wf self -> exists self', print_bin pieces self = Ok self' /\ wf self'.
Proof.
  intros []. unfold print_bin, Writer._print. rewrite Writer.write_fmt_concat.
  destruct (Writer.write_string_wf (mjoin pieces)
    (Writer.mk (bin_column self) (ColourCode_new Pink Black) (chars self))) as (w & -> & [] & _); [done|].
  eexists. split; [reflexivity|]. by constructor.
Qed.

(** Printing twice through one writer is printing once. *)
Lemma print_lib_app p1 p2 self :
  wf self -> print_lib (p1 ++ p2) self = print_lib p1 self ≫= print_lib p2.
Proof.
  intros []. unfold print_lib, Writer._print. rewrite Writer.write_fmt_app.
  destruct (Writer.write_string_wf (mjoin p1)
    (Writer.mk (lib_column self) (ColourCode_new Pink Black) (chars self))) as (w & E & _ & Hc); [done|].
  rewrite (Writer.write_fmt_concat p1), E. cbn [mbind res_bind chars lib_column bin_column].
  destruct w as [col cc b]. simpl in Hc. subst cc. done.
Qed.

Lemma print_bin_app p1 p2 self :
  wf self -> print_bin (p1 ++ p2) self = print_bin p1 self ≫= print_bin p2.
Proof.
  intros []. unfold print_bin, Writer._print. rewrite Writer.write_fmt_app.
  destruct (Writer.write_string_wf (mjoin p1)
    (Writer.mk (bin_column self) (ColourCode_new Pink Black) (chars self))) as (w & E & _ & Hc); [done|].
  rewrite (Writer.write_fmt_concat p1), E. cbn [mbind res_bind chars lib_column bin_column].
  destruct w as [col cc b]. simpl in Hc. subst cc. done.
Qed.

(** What the binary's writer shows, from column 0. *)
Lemma print_bin_shows pieces self :
  wf self -> bin_column self = 0%nat ->
  exists lst sc, chars self !! (BUFFER_HEIGHT - 1)%nat = Some lst /\ print_bin pieces self = Ok sc /\
    lib_column sc = lib_column self /\
    Writer.shows (take (BUFFER_HEIGHT - 1) (chars self)) lst (Writer.wrap (Writer.sanitise <$> mjoin pieces))
      (ColourCode_new Pink Black) (Writer.mk (bin_column sc) (ColourCode_new Pink Black) (chars sc)).
Proof.
  intros [] Hcol.
  destruct (Writer.at_line_start (Writer.mk (bin_column self) (ColourCode_new Pink Black) (chars self)))
    as (lst & Hl & Hat); [done|done|].
  destruct (Writer.write_string_at (mjoin pieces) _ _ _ _ Hat) as (w & E & Hs); [constructor|].
  exists lst, (mk (Writer.buffer w) (lib_column self) (Writer.column_position w)). split_and!; [done| |done|].
  - unfold print_bin, Writer._print. by rewrite Writer.write_fmt_concat, E.
  - destruct w as [col cc b]. assert (cc = ColourCode_new Pink Black) as -> by apply Hs. exact Hs.
Qed.

(** A print depends on the text only, not on its pieces. *)
Lemma print_lib_concat pieces self : print_lib pieces self = print_lib [mjoin pieces] self.
Proof.
  unfold print_lib, Writer._print. rewrite !Writer.write_fmt_concat. simpl. by rewrite app_nil_r.
Qed.
Lemma print_bin_concat pieces self : print_bin pieces self = print_bin [mjoin pieces] self.
Proof.
  unfold print_bin, Writer._print. rewrite !Writer.write_fmt_concat. simpl. by rewrite app_nil_r.
Qed.
End Screen.

(** A cleared screen, for the examples. *)
Definition cleared : list (list ScreenChar) := replicate BUFFER_HEIGHT (Writer.blank_row (ColourCode_new Pink Black)).

Lemma wf_cleared : Writer.wf_buffer cleared.
Proof. split; [reflexivity|]. apply Forall_replicate. reflexivity. Qed.

Lemma wf_WRITER_cleared : Writer.wf (Writer.WRITER cleared).
Proof. split; [apply wf_cleared|]. simpl. lia. Qed.

(** ** Properties *)

(** C11: the screen is a window on an unbounded scroll.  Whatever is printed from
    column 0, [_print] returns, and the 25 rows then show the last 25 of: the rows
    that were above the cursor, followed by the text cut into lines at line feeds
    and after every 80 bytes, unprintable bytes shown as 0xfe; the cursor stands
    behind the last of these lines. *)
Theorem vga_print_refines_scroll (pieces : list (list Z)) (self : Writer.t) :
  Writer.wf self -> Writer.column_position self = 0%nat ->
  exists lst self',
    Writer.buffer self !! (BUFFER_HEIGHT - 1)%nat = Some lst /\
    Writer._print pieces self = Ok self' /\
    Writer.shows (take (BUFFER_HEIGHT - 1) (Writer.buffer self)) lst
      (Writer.wrap (Writer.sanitise <$> mjoin pieces)) (Writer.colour_code self) self'.
Proof.
  intros [Hwf _] Hcol. destruct (Writer.at_line_start self Hwf Hcol) as (lst & Hlst & Hat).
  destruct (Writer.write_string_at (mjoin pieces) _ _ _ _ Hat) as (self' & E & H); [constructor|].
  exists lst, self'. split_and!; [done| |exact H].
  unfold Writer._print. by rewrite Writer.write_fmt_concat.
Qed.

(** "Hi", a line feed, and a byte that is not printable. *)
Lemma vga_print_refines_scroll_witness :
  exists lst self', Writer.buffer (Writer.WRITER cleared) !! 24%nat = Some lst /\
    Writer._print [[72; 105]; [10; 7]] (Writer.WRITER cleared) = Ok self' /\
    Writer.shows (take 24 cleared) lst [[72; 105]; [0xfe]] (ColourCode_new Pink Black) self'.
Proof. apply (vga_print_refines_scroll [[72; 105]; [10; 7]] (Writer.WRITER cleared)); [apply wf_WRITER_cleared|reflexivity]. Defined.

(** C32: printing is total and well typed: from any cursor position, no index is out
    of bounds, whatever the bytes are; the buffer keeps its 25 rows of 80 characters
    and the cursor its bound, the colour stays, and if what was on the screen and what
    is printed are bytes, then so is what is on the screen. *)
Theorem vga_print_total (pieces : list (list Z)) (self : Writer.t) :
  Writer.wf self ->
  exists self', Writer._print pieces self = Ok self' /\ Writer.wf self' /\
    Writer.colour_code self' = Writer.colour_code self /\
    (Writer.typed self -> Forall (Forall Writer.u8) pieces -> Writer.typed self').
Proof.
  intros Hwf. unfold Writer._print. rewrite Writer.write_fmt_concat.
  destruct (Writer.write_string_wf (mjoin pieces) self Hwf) as (self' & E & H1 & H2).
  exists self'. split_and!; [done..|]. intros Ht Hp. eapply Writer.write_string_typed; [exact Hwf|done| |exact E].
  clear -Hp. induction Hp; [constructor|]. by apply Forall_app.
Qed.

Lemma vga_print_total_witness :
  exists self', Writer._print [[72; 255]] (Writer.WRITER cleared) = Ok self' /\ Writer.wf self' /\
    Writer.colour_code self' = ColourCode_new Pink Black /\ Writer.typed self'.
Proof.
  destruct (vga_print_total [[72; 255]] (Writer.WRITER cleared) wf_WRITER_cleared) as (self' & H1 & H2 & H3 & H4).
  exists self'. split_and!; [exact H1|exact H2|exact H3|]. apply H4.
  - split; [|apply Writer.ColourCode_new_typed]. apply Forall_replicate, Forall_replicate. by split.
  - by repeat constructor.
Defined.

(** The test [test_println_output] passes for every printable line of at most
    80 bytes and every state of the writer; the line stands alone in the row above
    the last one, and the last one is blank. *)
Theorem vga_println_test_passes (s : list Z) (self : Writer.t) :
  Writer.wf self -> Writer.printable_text s -> (length s <= BUFFER_WIDTH)%nat ->
  exists self', Writer.test_println_output s self = Ok self' /\
    Writer.buffer self' !! (BUFFER_HEIGHT - 2)%nat
      = Some (Writer.paint (Writer.colour_code self) (Writer.blank_row (Writer.colour_code self)) s) /\
    Writer.buffer self' !! (BUFFER_HEIGHT - 1)%nat
      = Some (Writer.blank_row (Writer.colour_code self)) /\
    Writer.column_position self' = 0%nat.
Proof.
  intros Hwf Hp Hl.
  destruct (Writer.test_println_output_ok s self Hwf Hp Hl) as (self' & E & _ & H). by exists self'.
Qed.

Lemma vga_println_test_passes_witness :
  exists self', Writer.test_println_output [83; 111; 109; 101] (Writer.WRITER cleared) = Ok self' /\
    Writer.buffer self' !! 23%nat
      = Some (Writer.paint (ColourCode_new Pink Black) (Writer.blank_row (ColourCode_new Pink Black)) [83; 111; 109; 101]) /\
    Writer.buffer self' !! 24%nat = Some (Writer.blank_row (ColourCode_new Pink Black)) /\
    Writer.column_position self' = 0%nat.
Proof.
  apply (vga_println_test_passes [83; 111; 109; 101] (Writer.WRITER cleared));
    [apply wf_WRITER_cleared|repeat constructor|unfold BUFFER_WIDTH; simpl; lia].
Defined.

(** A colour code is a byte from which both colours can be read back: the
    foreground is its low half, the background its high half. *)
Theorem colour_code_roundtrip (fg bg : Colour) :
  0 <= code (ColourCode_new fg bg) < 256 /\
  Z.land (code (ColourCode_new fg bg)) 15 = colour_as_u8 fg /\
  Z.shiftr (code (ColourCode_new fg bg)) 4 = colour_as_u8 bg.
Proof. destruct fg, bg; vm_compute; (split_and!; done). Qed.

(** C39: the two writers overwrite each other.  When the library crate has printed
    [s1] at the start of a line and [main.rs] then prints [s2], the second text is
    painted over the first one: its first [length s2] bytes are gone. *)
Theorem vga_two_writers_overwrite (b : list (list ScreenChar)) (lst : list ScreenChar) (s1 s2 : list Z) :
  Writer.wf_buffer b -> b !! (BUFFER_HEIGHT - 1)%nat = Some lst ->
  Writer.printable_text s1 -> Writer.printable_text s2 ->
  (length s2 <= length s1 <= BUFFER_WIDTH)%nat ->
  let cc := ColourCode_new Pink Black in
  (Screen.print_lib [s1] (Screen.boot b) ≫= Screen.print_bin [s2])
  = Ok (Screen.mk (<[(BUFFER_HEIGHT - 1)%nat := Writer.paint cc lst (s2 ++ drop (length s2) s1)]> b)
          (length s1) (length s2)).
Proof.
  intros Hwf Hl H1 H2 Hlen cc. unfold Screen.print_lib, Screen.boot. cbn [Screen.lib_column Screen.chars].
  destruct (Writer.print_line_at_start s1 (Writer.mk 0 cc b) lst) as (w1 & E1 & [Hw1 _] & Hc1 & Hb1);
    [split; [done|simpl; lia]|done|done|done|lia|].
  change (ColourCode_new Pink Black) with cc. rewrite E1. simpl mbind. unfold Screen.print_bin. simpl.
  change (ColourCode_new Pink Black) with cc.
  destruct (Writer.print_line_at_start s2 (Writer.mk 0 cc (Writer.buffer w1)) (Writer.paint cc lst s1))
    as (w2 & E2 & _ & Hc2 & Hb2);
    [split; [done|simpl; lia]|done| |done|lia|].
  { simpl. rewrite Hb1. simpl. apply list_lookup_insert_eq. destruct Hwf as [-> _]. unfold BUFFER_HEIGHT; lia. }
  rewrite E2. simpl. rewrite Hc1, Hc2, Hb2. simpl. rewrite Hb1. simpl.
  rewrite list_insert_insert_eq. do 3 f_equal. unfold Writer.paint.
  rewrite fmap_app, fmap_drop, <- app_assoc, length_app, length_drop. f_equal.
  rewrite drop_app_le by (rewrite length_fmap; lia). do 2 f_equal. lia.
Qed.

(** An interrupt prints "...", then the kernel prints "Hi". *)
Lemma vga_two_writers_overwrite_witness :
  (Screen.print_lib [[46; 46; 46]] (Screen.boot cleared) ≫= Screen.print_bin [[72; 105]])
  = Ok (Screen.mk (<[24%nat := Writer.paint (ColourCode_new Pink Black)
                       (Writer.blank_row (ColourCode_new Pink Black)) [72; 105; 46]]> cleared) 3 2).
Proof.
  apply (vga_two_writers_overwrite cleared (Writer.blank_row (ColourCode_new Pink Black)) [46; 46; 46] [72; 105]);
    [apply wf_cleared|reflexivity|repeat constructor|repeat constructor|unfold BUFFER_WIDTH; simpl; lia].
Defined.
