(* ===== verification/Queue.v ===== *)
(** * The bounded queue

    [crossbeam_queue::ArrayQueue] is a dependency: here it is an interface, a
    class of operations with the laws of its documentation (a bounded FIFO queue
    whose operations take effect at one point in time, [push] failing when the
    queue is full and [pop] when it is empty).  The executor's task queue and the
    keyboard's scancode queue are instances of it. *)

From S2P Require Import Prelude.
From stdpp Require Import base list option.
From Stdlib Require Import Lia.

(** The operations, and the contents and the capacity that the laws speak of.
    [aq_push] and [aq_pop] are [None] where the crate returns [PushError] and
    [PopError]. *)
Class ArrayQueue (A Q : Type) := {
  aq_new : nat -> Q;
  aq_push : A -> Q -> option Q;
  aq_pop : Q -> option (A * Q);
  aq_is_empty : Q -> bool;
  aq_items : Q -> list A;
  aq_capacity : Q -> nat;
}.

Class ArrayQueueLaws (A Q : Type) `{ArrayQueue A Q} : Prop := {
  aq_new_spec n : (0 < n)%nat -> aq_items (aq_new n) = [] /\ aq_capacity (aq_new n) = n;
  aq_push_room x q :
    (length (aq_items q) < aq_capacity q)%nat ->
    exists q', aq_push x q = Some q' /\ aq_items q' = aq_items q ++ [x] /\
      aq_capacity q' = aq_capacity q;
  aq_push_full x q :
    (aq_capacity q <= length (aq_items q))%nat -> aq_push x q = None;
  aq_pop_nil q : aq_items q = [] -> aq_pop q = None;
  aq_pop_cons q x xs :
    aq_items q = x :: xs ->
    exists q', aq_pop q = Some (x, q') /\ aq_items q' = xs /\ aq_capacity q' = aq_capacity q;
  aq_is_empty_spec q : aq_is_empty q = bool_decide (length (aq_items q) = 0%nat);
}.

Section laws.
Context {A Q : Type} `{HL : ArrayQueueLaws A Q}.

Lemma aq_pop_inv (q : Q) :
  match aq_pop q with
  | None => aq_items q = []
  | Some (x, q') => aq_items q = x :: aq_items q' /\ aq_capacity q' = aq_capacity q
  end.
Proof.
  destruct (aq_items q) as [|x xs] eqn:E.
  - by rewrite (aq_pop_nil q E).
  - destruct (aq_pop_cons q x xs E) as (q' & -> & -> & ?). done.
Qed.

Lemma aq_push_inv (x : A) (q : Q) :
  match aq_push x q with
  | None => (aq_capacity q <= length (aq_items q))%nat
  | Some q' => (length (aq_items q) < aq_capacity q)%nat /\
      aq_items q' = aq_items q ++ [x] /\ aq_capacity q' = aq_capacity q
  end.
Proof.
  destruct (decide (length (aq_items q) < aq_capacity q)%nat) as [Hl|Hl].
  - destruct (aq_push_room x q Hl) as (q' & -> & ? & ?). done.
  - rewrite aq_push_full by lia. lia.
Qed.

Lemma aq_is_empty_true (q : Q) : aq_is_empty q = true <-> aq_items q = [].
Proof. rewrite aq_is_empty_spec, bool_decide_eq_true. by rewrite length_zero_iff_nil. Qed.

Lemma aq_is_empty_false (q : Q) : aq_is_empty q = false <-> aq_items q <> [].
Proof. rewrite <- aq_is_empty_true. by destruct (aq_is_empty q). Qed.
End laws.

(** ** A queue that satisfies the laws *)

Record list_queue (A : Type) := mkQueue { lq_items : list A; lq_capacity : nat }.
Arguments mkQueue {A} _ _.
Arguments lq_items {A} _.
Arguments lq_capacity {A} _.

#[export] Instance list_ArrayQueue A : ArrayQueue A (list_queue A) := {
  aq_new n := mkQueue [] n;
  aq_push x q :=
    if decide (length (lq_items q) < lq_capacity q)%nat
    then Some (mkQueue (lq_items q ++ [x]) (lq_capacity q)) else None;
  aq_pop q :=
    match lq_items q with
    | [] => None
    | x :: xs => Some (x, mkQueue xs (lq_capacity q))
    end;
  aq_is_empty q := match lq_items q with [] => true | _ => false end;
  aq_items := lq_items;
  aq_capacity := lq_capacity;
}.

#[export] Instance list_ArrayQueueLaws A : ArrayQueueLaws A (list_queue A).
Proof.
  split; simpl.
  - done.
  - intros x q Hq. rewrite decide_True by done. eauto.
  - intros x q Hq. by rewrite decide_False by lia.
  - by intros q ->.
  - intros q x xs ->. eauto.
  - intros q. by destruct (lq_items q).
Qed.
