(* ===== verification/Task.v ===== *)
(** * Tasks and the executor

    [src/min-rust-os/src/task/mod.rs] (task identifiers and tasks) and
    [src/min-rust-os/src/task/executor.rs] (the executor with its queue of woken
    tasks and its cache of wakers).

    The futures an executor runs are trait objects: here a class whose [poll] may
    change a world [S] and wake tasks.  The task queue lies behind an [Arc] that the
    executor and every waker share, so it is one value that [poll] is handed and
    gives back. *)

From S2P Require Import Prelude Queue.
From stdpp Require Import base list option gmap fin_maps strings.
From Stdlib Require Import ZArith Lia.
Local Open Scope Z_scope.

(** [core::task::Poll] *)
Inductive Poll (A : Type) := Ready (a : A) | Pending.
Arguments Ready {A} a.
Arguments Pending {A}.

(** ** Task identifiers: [NEXT_ID.fetch_add(1)], which wraps around *)

Definition TaskId_new (NEXT_ID : Z) : Z * Z := (NEXT_ID, (NEXT_ID + 1) mod WORD).

(** ** Wakers

    The wakers of the program: the one made from a [TaskWaker], and the dummy one
    of the simple executor, all of whose operations do nothing. *)

Inductive Waker := FromTaskWaker (task_id : Z) | DummyWaker.

#[global] Instance Waker_eq_dec : EqDecision Waker.
Proof. solve_decision. Defined.

Definition TaskWaker_new (task_id : Z) : Waker := FromTaskWaker task_id.

Section wake.
Context {Q : Type} `{ArrayQueue Z Q}.

Definition wake_task (task_id : Z) (task_queue : Q) : res Q :=
  expect "task queue full" (aq_push task_id task_queue).

Definition wake (w : Waker) (task_queue : Q) : res Q :=
  match w with
  | FromTaskWaker id => wake_task id task_queue
  | DummyWaker => Ok task_queue
  end.

Definition wake_by_ref (w : Waker) (task_queue : Q) : res Q := wake w task_queue.
End wake.

(** ** Futures and tasks *)

Class Future (F S Q : Type) :=
  future_poll : F -> Waker -> S -> Q -> res (Poll unit * F * S * Q).

Record Task (F : Type) := mkTask { id : Z; future : F }.
Arguments mkTask {F} _ _.
Arguments id {F} _.
Arguments future {F} _.

Definition Task_new {F} (f : F) (NEXT_ID : Z) : Task F * Z :=
  let '(i, n) := TaskId_new NEXT_ID in (mkTask i f, n).

Definition Task_poll {F S Q} `{Future F S Q} (self : Task F) (context : Waker) (s : S) (q : Q) :
    res (Poll unit * Task F * S * Q) :=
  '(r, f, s, q) ← future_poll (future self) context s q;
  Ok (r, mkTask (id self) f, s, q).

(** ** The executor *)

Module Executor.
Section executor.
Context {F S Q : Type} `{AQ : ArrayQueue Z Q} `{FU : Future F S Q}.

Record t := mk {
  tasks : gmap Z (Task F);
  task_queue : Q;
  waker_cache : gmap Z Waker;
}.

Definition new : t := mk ∅ (aq_new 100) ∅.

Definition spawn (task : Task F) (self : t) : res t :=
  let task_id := id task in
  let old := tasks self !! id task in
  let tasks := <[id task := task]> (tasks self) in
  match old with
  | Some _ => Panic (ExplicitPanic "task with the same ID already exists")
  | None =>
      q ← expect "queue full" (aq_push task_id (task_queue self));
      Ok (mk tasks q (waker_cache self))
  end.

(** [waker_cache.entry(task_id).or_insert_with(...)] *)
Definition entry_or_insert (task_id : Z) (cache : gmap Z Waker) : Waker * gmap Z Waker :=
  match cache !! task_id with
  | Some w => (w, cache)
  | None => let w := TaskWaker_new task_id in (w, <[task_id := w]> cache)
  end.

(** One turn of the [while let] for a popped [task_id]. *)
Definition run_task (task_id : Z) (self : t) (s : S) : res (t * S) :=
  match tasks self !! task_id with
  | None => Ok (self, s)
  | Some task =>
      let '(waker, cache) := entry_or_insert task_id (waker_cache self) in
      '(r, task, s, q) ← Task_poll task waker s (task_queue self);
      match r with
      | Ready _ => Ok (mk (delete task_id (tasks self)) q (delete task_id cache), s)
      | Pending => Ok (mk (<[task_id := task]> (tasks self)) q cache, s)
      end
  end.

Fixpoint run_ready_tasks (fuel : nat) (self : t) (s : S) : res (t * S) :=
  match fuel with
  | O => Diverge
  | Datatypes.S fuel' =>
      match aq_pop (task_queue self) with
      | None => Ok (self, s)
      | Some (task_id, q) =>
          '(self, s) ← run_task task_id (mk (tasks self) q (waker_cache self)) s;
          run_ready_tasks fuel' self s
      end
  end.

(** ** Invariant *)

(** Tasks are stored under their own identifier; a waker is cached only for a task
    that still exists, and wakes that task. *)
Record inv (self : t) : Prop := {
  inv_ids : forall i task, tasks self !! i = Some task -> id task = i;
  inv_cache : forall i w, waker_cache self !! i = Some w ->
    w = FromTaskWaker i /\ is_Some (tasks self !! i);
}.

Lemma entry_or_insert_spec i cache :
  (forall w, cache !! i = Some w -> w = FromTaskWaker i) ->
  entry_or_insert i cache = (FromTaskWaker i, <[i := FromTaskWaker i]> cache).
Proof.
  intros Hc. unfold entry_or_insert. destruct (cache !! i) as [w|] eqn:E; [|done].
  rewrite (Hc w eq_refl) in *. by rewrite insert_id.
Qed.

(** What is known of the task a turn ran: it was polled with its own waker. *)
Lemma run_task_inv i self s self' s' :
  inv self -> run_task i self s = Ok (self', s') -> inv self'.
Proof.
  intros [Hids Hc]. unfold run_task. destruct (tasks self !! i) as [task|] eqn:Et; [|by intros [= <- <-]].
  rewrite entry_or_insert_spec by (intros w Hw; by apply Hc in Hw as [-> _]).
  unfold Task_poll. destruct (future_poll _ _ _ _) as [[[[r f'] s1] q']| | |]; simpl; try done.
  destruct r as [[]|]; intros [= <- <-]; constructor; simpl.
  - intros j t' [_ Ht]%lookup_delete_Some. by apply Hids.
  - intros j w [Hij Hw]%lookup_delete_Some. rewrite lookup_insert_ne in Hw by done.
    rewrite lookup_delete_ne by done. by apply Hc.
  - intros j t' Ht. destruct (decide (i = j)) as [<-|Hij].
    + rewrite lookup_insert_eq in Ht. injection Ht as <-. simpl. by apply Hids.
    + rewrite lookup_insert_ne in Ht by done. by apply Hids.
  - intros j w Hw. destruct (decide (i = j)) as [<-|Hij].
    + rewrite lookup_insert_eq in Hw. injection Hw as <-. rewrite lookup_insert_eq. eauto.
    + rewrite lookup_insert_ne in Hw by done. rewrite lookup_insert_ne by done. by apply Hc.
Qed.

Lemma inv_new : inv new.
Proof. constructor; simpl; intros i ? H; by rewrite lookup_empty in H. Qed.

Lemma spawn_inv task self self' :
  inv self -> spawn task self = Ok self' -> inv self'.
Proof.
  intros [Hids Hc]. unfold spawn. destruct (tasks self !! id task) eqn:E; [done|].
  destruct (aq_push _ _); simpl; [|done]. intros [= <-]. constructor; simpl.
  - intros j t' [[<- <-]|[_ Ht]]%lookup_insert_Some; [done|by apply Hids].
  - intros j w Hw. apply Hc in Hw as [-> Hs]. split; [done|].
    destruct (decide (id task = j)) as [<-|Hn]; [by rewrite lookup_insert_eq|].
    by rewrite lookup_insert_ne.
Qed.
End executor.
Arguments t F Q : clear implicits.

(** ** Futures that wake finitely often

    The contract under which the executor's loop ends: a future has a bound on the
    wake-ups it still causes, and a poll that finds room for them in the queue
    returns, having appended only wake-ups that it pays for. *)
Class BoundedFutures (F S Q : Type) `{ArrayQueue Z Q, Future F S Q} := wakes : F -> nat.
Class BoundedFuturesLaws (F S Q : Type) `{BoundedFutures F S Q} : Prop :=
  poll_bounded : forall (f : F) (w : Waker) (s : S) (q : Q),
    (length (aq_items q) + wakes f <= aq_capacity q)%nat ->
    exists r f' s' q' woken,
      future_poll f w s q = Ok (r, f', s', q') /\
      aq_items q' = aq_items q ++ woken /\ aq_capacity q' = aq_capacity q /\
      (length woken + wakes f' <= wakes f)%nat.

Section bounded.
Context {F S Q : Type} `{ArrayQueueLaws Z Q}.
Context `{FU : Future F S Q} `{BF : !BoundedFutures F S Q} `{!BoundedFuturesLaws F S Q}.

(** The turns the loop can still take. *)
Definition pending_wakes (m : gmap Z (Task F)) : nat :=
  map_fold (fun _ t acc => wakes (future t) + acc)%nat 0%nat m.
Definition work (self : t F Q) : nat :=
  (length (aq_items (task_queue self)) + pending_wakes (tasks self))%nat.

Lemma pending_wakes_delete m i task :
  m !! i = Some task ->
  pending_wakes m = (wakes (future task) + pending_wakes (delete i m))%nat.
Proof. intros Hm. unfold pending_wakes. apply (map_fold_delete_L (fun _ t acc => wakes (future t) + acc)%nat); [intros; lia|done]. Qed.

Lemma pending_wakes_insert m i task task' :
  m !! i = Some task ->
  (pending_wakes (<[i := task']> m) + wakes (future task)
   = wakes (future task') + pending_wakes m)%nat.
Proof.
  intros Hm. rewrite (pending_wakes_delete m i task Hm).
  rewrite (pending_wakes_delete (<[i := task']> m) i task') by apply lookup_insert_eq.
  rewrite delete_insert_eq. lia.
Qed.

(** A turn never adds to the work that is left, and keeps the set of tasks or
    shrinks it. *)
Lemma run_task_work i self s :
  (work self <= aq_capacity (task_queue self))%nat ->
  exists self' s', run_task i self s = Ok (self', s') /\ (work self' <= work self)%nat /\
    aq_capacity (task_queue self') = aq_capacity (task_queue self) /\
    dom (tasks self') ⊆ dom (tasks self).
Proof.
  intros Hw. unfold run_task. destruct (tasks self !! i) as [task|] eqn:Et; [|by eauto 10].
  destruct (entry_or_insert i (waker_cache self)) as [w cache].
  pose proof (pending_wakes_delete _ _ _ Et) as Hd. unfold work in *.
  destruct (poll_bounded (future task) w s (task_queue self))
    as (r & f' & s' & q' & woken & Hp & Hi & Hc & Hb); [lia|].
  unfold Task_poll. rewrite Hp. simpl.
  pose proof (pending_wakes_insert (tasks self) i task (mkTask (id task) f') Et) as Hins.
  destruct r; (do 2 eexists; split; [reflexivity|]); simpl in *; rewrite Hi, Hc, length_app;
    (split_and!; [lia|done|]).
  - set_solver.
  - rewrite dom_insert_L. apply elem_of_dom_2 in Et. set_solver.
Qed.

Lemma run_ready_tasks_total fuel : forall self s,
  inv self -> (work self <= aq_capacity (task_queue self))%nat -> (work self < fuel)%nat ->
  exists self' s', run_ready_tasks fuel self s = Ok (self', s') /\ inv self' /\
    aq_items (task_queue self') = [] /\
    aq_capacity (task_queue self') = aq_capacity (task_queue self) /\
    dom (tasks self') ⊆ dom (tasks self).
Proof.
  induction fuel as [|fuel IH]; intros self s Hinv Hcap Hfuel; [lia|]. simpl.
  pose proof (aq_pop_inv (task_queue self)) as Hpop.
  destruct (aq_pop (task_queue self)) as [[i q]|]; [|by exists self, s].
  destruct Hpop as [Hi Hc].
  destruct (run_task_work i (mk (tasks self) q (waker_cache self)) s) as (s1 & w1 & E & Hw & Hc1 & Hd).
  { unfold work in *; simpl in *. rewrite Hi in *. simpl in *. lia. }
  rewrite E. simpl in *.
  assert (Hinv1 : inv (mk (tasks self) q (waker_cache self))) by (destruct Hinv; by constructor).
  apply run_task_inv in E; [|done]. unfold work in *; simpl in *. rewrite Hi in *. simpl in *.
  destruct (IH s1 w1) as (s2 & w2 & E2 & Hinv2 & He & Hc2 & Hd2); [done|lia|lia|].
  exists s2, w2. split_and!; [done|done|done|congruence|set_solver].
Qed.
End bounded.

(** ** Order

    Futures reach the task queue only through wakers, which append to it. *)
Class WakingFutures (F S Q : Type) `{ArrayQueue Z Q, Future F S Q} : Prop :=
  poll_appends : forall (f f' : F) (w : Waker) (s s' : S) (q q' : Q) r,
    future_poll f w s q = Ok (r, f', s', q') -> exists woken, aq_items q' = aq_items q ++ woken.

Section order.
Context {F S Q : Type} `{ArrayQueueLaws Z Q} `{FU : Future F S Q} `{!WakingFutures F S Q}.

(** The reference: the identifiers of a batch are run in the order they have in
    it, each after one entry has left the queue. *)
Definition run_batch (batch : list Z) (st : t F Q * S) : res (t F Q * S) :=
  for_each (fun i '(self, s) =>
    '(_, q) ← unwrap (aq_pop (task_queue self));
    run_task i (mk (tasks self) q (waker_cache self)) s) batch st.

Lemma run_task_appends i self s self' s' :
  run_task i self s = Ok (self', s') ->
  exists woken, aq_items (task_queue self') = aq_items (task_queue self) ++ woken.
Proof.
  unfold run_task. destruct (tasks self !! i) as [task|].
  2: { intros [= <- <-]. exists []. by rewrite app_nil_r. }
  destruct (entry_or_insert _ _) as [w cache]. unfold Task_poll.
  destruct (future_poll _ _ _ _) as [[[[r f'] s1] q']| | |] eqn:Ep; simpl; try done.
  apply poll_appends in Ep as [woken Hw]. exists woken. destruct r; naive_solver.
Qed.

Lemma run_ready_tasks_batch n batch : forall later self s,
  aq_items (task_queue self) = batch ++ later ->
  run_ready_tasks (length batch + n) self s
  = '(self, s) ← run_batch batch (self, s); run_ready_tasks n self s.
Proof.
  induction batch as [|i batch IH]; intros later self s Hq; [done|].
  simpl app in Hq. destruct (aq_pop_cons _ _ _ Hq) as (q & Hpop & Hq' & _).
  unfold run_batch. simpl. rewrite Hpop. simpl.
  destruct (run_task i _ s) as [[self1 s1]| | |] eqn:E; simpl; try done.
  apply run_task_appends in E as [woken Hw]. simpl in Hw.
  apply (IH (later ++ woken)). by rewrite Hw, Hq', <- app_assoc.
Qed.
End order.
End Executor.

(** ** Spawning *)

Module Spawn.
Section spawn.
Context {F Q : Type} `{AQ : ArrayQueue Z Q}.

(** [executor.spawn(Task::new(future))] for each of the futures. *)
Definition spawn_all (futures : list F) (self : Executor.t F Q) (NEXT_ID : Z) :
    res (Executor.t F Q * Z) :=
  for_each (fun f '(self, n) =>
    let '(task, n) := Task_new f n in
    self ← Executor.spawn task self; Ok (self, n)) futures (self, NEXT_ID).

(** Spawning caches no waker. *)
Lemma spawn_cache task (self self' : Executor.t F Q) :
  Executor.spawn task self = Ok self' -> Executor.waker_cache self' = Executor.waker_cache self.
Proof.
  unfold Executor.spawn. destruct (Executor.tasks self !! id task); [done|].
  destruct (expect _ _) as [q| | |]; simpl; [by intros [= <-]|done..].
Qed.

Lemma spawn_all_cache (fs : list F) : forall (self self' : Executor.t F Q) n n',
  spawn_all fs self n = Ok (self', n') -> Executor.waker_cache self' = Executor.waker_cache self.
Proof.
  induction fs as [|f fs IH]; intros self self' n n'; unfold spawn_all; cbn [for_each]; [by intros [= <- <-]|].
  destruct (Task_new f n) as [task n1]. destruct (Executor.spawn task self) as [self1| | |] eqn:E1; simpl; try done.
  intros Hs. apply IH in Hs. rewrite Hs. by eapply spawn_cache.
Qed.

Context `{!ArrayQueueLaws Z Q}.

(** The identifiers of the next [n] tasks. *)
Definition ids (NEXT_ID : Z) (n : nat) : list Z :=
  (fun k => (NEXT_ID + Z.of_nat k) mod WORD) <$> seq 0 n.

Lemma ids_S n k : ids n (S k) = ids n k ++ [(n + Z.of_nat k) mod WORD].
Proof. unfold ids. rewrite seq_S, fmap_app. done. Qed.

Lemma ids_fresh n k : 0 <= n -> Z.of_nat k < WORD -> (n + Z.of_nat k) mod WORD ∉ ids n k.
Proof.
  intros Hn Hk (j & E & Hj)%list_elem_of_fmap. apply elem_of_seq in Hj.
  assert (HW : WORD <> 0) by done.
  apply (f_equal (fun x => (x - n) mod WORD)) in E.
  rewrite !Zminus_mod_idemp_l in E.
  replace (n + Z.of_nat k - n) with (Z.of_nat k) in E by lia.
  replace (n + Z.of_nat j - n) with (Z.of_nat j) in E by lia.
  rewrite !Z.mod_small in E by lia. lia.
Qed.

(** The state after the futures [fs] have been spawned on a new executor. *)
Record spawned (NEXT_ID : Z) (fs : list F) (st : Executor.t F Q * Z) : Prop := {
  sp_queue : aq_items (Executor.task_queue st.1) = ids NEXT_ID (length fs);
  sp_capacity : aq_capacity (Executor.task_queue st.1) = 100%nat;
  sp_dom : forall i, i ∉ ids NEXT_ID (length fs) -> Executor.tasks st.1 !! i = None;
  sp_tasks : forall k f, fs !! k = Some f ->
    let i := (NEXT_ID + Z.of_nat k) mod WORD in Executor.tasks st.1 !! i = Some (mkTask i f);
  sp_next : st.2 = (NEXT_ID + Z.of_nat (length fs)) mod WORD;
  sp_inv : Executor.inv st.1;
}.

Lemma spawned_new n : is_word n -> spawned n [] (Executor.new, n).
Proof.
  intros Hn. destruct (aq_new_spec (A := Z) (Q := Q) 100 ltac:(lia)) as [Hi Hc].
  constructor; simpl; try done.
  rewrite Z.add_0_r. symmetry. by apply Z.mod_small.
Qed.

Lemma spawned_snoc n fs f st :
  is_word n -> spawned n fs st -> (length fs < 100)%nat ->
  exists st',
    (let '(task, n) := Task_new f st.2 in self ← Executor.spawn task st.1; Ok (self, n)) = Ok st' /\
    spawned n (fs ++ [f]) st'.
Proof.
  intros Hn [Hq Hc Hd Ht Hx Hi] Hl. destruct st as [self nx]. simpl in *. subst nx.
  set (i := (n + Z.of_nat (length fs)) mod WORD) in *.
  assert (Hfresh : i ∉ ids n (length fs)).
  { apply ids_fresh; [apply Hn|]. assert (100 < WORD) by done. lia. }
  assert (Hlen : length (ids n (length fs)) = length fs) by (unfold ids; by rewrite length_fmap, length_seq).
  destruct (aq_push_room i (Executor.task_queue self)) as (q' & Hp & Hi' & Hc'); [rewrite Hq, Hlen, Hc; lia|].
  assert (Hs : Executor.spawn (mkTask i f) self
    = Ok (Executor.mk (<[i := mkTask i f]> (Executor.tasks self)) q' (Executor.waker_cache self))).
  { unfold Executor.spawn. simpl. by rewrite (Hd i Hfresh), Hp. }
  rewrite Hs. simpl. eexists. split; [reflexivity|].
  assert (Hids : ids n (length (fs ++ [f])) = ids n (length fs) ++ [i])
    by (rewrite length_app, Nat.add_1_r; apply ids_S).
  constructor; simpl.
  - by rewrite Hi', Hq, Hids.
  - congruence.
  - intros j Hj. rewrite Hids in Hj. rewrite lookup_insert_ne by set_solver. apply Hd. set_solver.
  - intros k g Hk. apply lookup_app_Some in Hk as [Hk|[Hk Hg]].
    + rewrite lookup_insert_ne; [by apply Ht|]. intros E. apply Hfresh. rewrite E.
      apply list_elem_of_fmap. exists k. split; [done|]. apply elem_of_seq. apply lookup_lt_Some in Hk. lia.
    + apply list_lookup_singleton_Some in Hg as [Hk' ->].
      replace k with (length fs) by lia. by rewrite lookup_insert_eq.
  - unfold i. rewrite Zplus_mod_idemp_l, length_app. simpl. f_equal. lia.
  - by eapply Executor.spawn_inv, Hs.
Qed.

Lemma spawn_all_spawned n fs :
  is_word n -> (length fs <= 100)%nat ->
  exists st, spawn_all fs Executor.new n = Ok st /\ spawned n fs st.
Proof.
  intros Hn Hl. apply (for_each_inv (fun fs' st => spawned n fs' st)); [by apply spawned_new|].
  intros fs' f rest [self nx] E Hsp. apply (spawned_snoc n fs' f (self, nx)); [done|done|].
  rewrite E, length_app in Hl. simpl in Hl. lia.
Qed.
End spawn.
End Spawn.

(** ** Futures that satisfy the contracts

    A future that wakes its own task a number of times before it is ready; the
    world is the log of the wakers it was polled with. *)

Module CountDown.
Definition poll {Q} `{ArrayQueue Z Q} (n : nat) (w : Waker) (log : list Waker) (q : Q) :
    res (Poll unit * nat * list Waker * Q) :=
  match n with
  | O => Ok (Ready tt, O, log ++ [w], q)
  | S n' => q ← wake_by_ref w q; Ok (Pending, n', log ++ [w], q)
  end.

#[export] Instance CountDown_Future {Q} `{ArrayQueue Z Q} : Future nat (list Waker) Q := poll.
#[export] Instance CountDown_Bounded {Q} `{ArrayQueue Z Q} :
  Executor.BoundedFutures nat (list Waker) Q := fun n => n.

#[export] Instance CountDown_BoundedLaws {Q} `{ArrayQueueLaws Z Q} :
  Executor.BoundedFuturesLaws nat (list Waker) Q.
Proof.
  intros [|n] w log q Hq; unfold future_poll, CountDown_Future; simpl.
  - do 4 eexists. exists []. rewrite app_nil_r. split_and!; [done..|simpl; lia].
  - unfold Executor.wakes, CountDown_Bounded in *. destruct w as [i|]; simpl.
    + destruct (aq_push_room i q) as (q' & Hp & Hi & Hc); [lia|].
      unfold wake_by_ref, wake, wake_task. rewrite Hp. simpl.
      do 4 eexists. exists [i]. split_and!; [done..|simpl; lia].
    + do 4 eexists. exists []. rewrite app_nil_r. split_and!; [done..|simpl; lia].
Qed.

#[export] Instance CountDown_Waking {Q} `{ArrayQueueLaws Z Q} :
  Executor.WakingFutures nat (list Waker) Q.
Proof.
  intros [|n] f' w s s' q q' r; unfold future_poll, CountDown_Future; simpl.
  - intros [= <- <- <- <-]. exists []. by rewrite app_nil_r.
  - destruct w as [i|]; simpl; [|intros [= <- <- <- <-]; exists []; by rewrite app_nil_r].
    unfold wake_by_ref, wake, wake_task. pose proof (aq_push_inv i q) as Hp.
    destruct (aq_push i q) as [q1|]; simpl; [|done]. intros [= <- <- <- <-]. exists [i]. apply Hp.
Qed.
End CountDown.
Import CountDown.

(** ** Properties *)

(** C34: a new executor takes exactly 100 tasks.  [Task::new] gives them pairwise
    different identifiers (also across the wrap-around of the counter), so [spawn]
    never meets a task with the same identifier; up to 100 of them are stored under
    their identifiers and queued in the order they were spawned, and the next one
    panics because the queue is full. *)
Theorem executor_spawn_capacity {F Q} `{AQ : ArrayQueue Z Q} (AQL : ArrayQueueLaws Z Q)
    (futures : list F) (f : F) (NEXT_ID : Z) :
  is_word NEXT_ID -> (length futures <= 100)%nat ->
  exists self n,
    Spawn.spawn_all futures Executor.new NEXT_ID = Ok (self, n) /\
    Spawn.spawned NEXT_ID futures (self, n) /\
    Spawn.spawn_all (futures ++ [f]) Executor.new NEXT_ID
      = if decide (length futures < 100)%nat
        then (self' ← Executor.spawn (Task_new f n).1 self; Ok (self', (Task_new f n).2))
        else Panic (UnwrapFailed "queue full").
Proof.
  intros Hn Hl. destruct (Spawn.spawn_all_spawned NEXT_ID futures Hn Hl) as ([self n] & E & Hsp).
  exists self, n. split_and!; [done|done|]. unfold Spawn.spawn_all in *.
  rewrite for_each_app, E. simpl. case_decide as Hd.
  - destruct (Executor.spawn _ self); done.
  - destruct Hsp as [Hq Hc Hdom _ Hx _]. simpl in *.
    assert (Hlen : length (Spawn.ids NEXT_ID (length futures)) = length futures)
      by (unfold Spawn.ids; by rewrite length_fmap, length_seq).
    unfold Executor.spawn. simpl. rewrite (Hdom n).
    + rewrite aq_push_full by (rewrite Hq, Hlen, Hc; lia). done.
    + rewrite Hx. apply Spawn.ids_fresh; [apply Hn|]. assert (100 < WORD) by done. lia.
Qed.

Lemma executor_spawn_capacity_witness :
  exists self n,
    Spawn.spawn_all [3%nat; 0%nat] Executor.new (WORD - 1) = Ok (self, n) /\
    Spawn.spawned (Q := list_queue Z) (WORD - 1) [3%nat; 0%nat] (self, n) /\
    Spawn.spawn_all ([3%nat; 0%nat] ++ [5%nat]) Executor.new (WORD - 1)
      = (self' ← Executor.spawn (Task_new 5%nat n).1 self; Ok (self', (Task_new 5%nat n).2)).
Proof.
  apply (executor_spawn_capacity (list_ArrayQueueLaws Z) [3%nat; 0%nat] 5%nat (WORD - 1));
    [split; reflexivity || discriminate|simpl; lia].
Defined.

(** C25: [run_ready_tasks] returns.  When every future causes a bounded number of
    wake-ups and the queue has room for them, as many turns as there are queued and
    outstanding wake-ups are enough; then the queue is empty, no task was added,
    and a waker is cached only for a task that still exists and wakes that task. *)
Theorem executor_run_ready_tasks_drains {F S Q} `{AQ : ArrayQueue Z Q} (AQL : ArrayQueueLaws Z Q)
    `{FU : Future F S Q} `{BF : !Executor.BoundedFutures F S Q}
    (BFL : Executor.BoundedFuturesLaws F S Q) (self : Executor.t F Q) (s : S) :
  Executor.inv self ->
  (Executor.work self <= aq_capacity (Executor.task_queue self))%nat ->
  exists self' s',
    Executor.run_ready_tasks (Datatypes.S (Executor.work self)) self s = Ok (self', s') /\
    aq_items (Executor.task_queue self') = [] /\
    Executor.inv self' /\ dom (Executor.tasks self') ⊆@{gset Z} dom (Executor.tasks self).
Proof.
  intros Hinv Hcap.
  destruct (Executor.run_ready_tasks_total (Datatypes.S (Executor.work self)) self s)
    as (self' & s' & E & Hi & Hq & _ & Hd); [done|done|lia|]. by exists self', s'.
Qed.

(** Two tasks, of which the first wakes itself twice. *)
Definition sample_executor : Executor.t nat (list_queue Z) :=
  Executor.mk (<[0 := mkTask 0 2%nat]> (<[1 := mkTask 1 0%nat]> ∅)) (mkQueue [0; 1] 100) ∅.

Lemma sample_executor_inv : Executor.inv sample_executor.
Proof.
  constructor; simpl.
  - intros i task [[<- <-]|[_ H]]%lookup_insert_Some; [done|].
    apply lookup_insert_Some in H as [[<- <-]|[_ H]]; [done|]. by rewrite lookup_empty in H.
  - intros i w H. by rewrite lookup_empty in H.
Qed.

Lemma executor_run_ready_tasks_drains_witness :
  exists self' s', Executor.run_ready_tasks 5 sample_executor ([] : list Waker) = Ok (self', s') /\
    aq_items (Executor.task_queue self') = [] /\
    Executor.inv self' /\ dom (Executor.tasks self') ⊆@{gset Z} dom (Executor.tasks sample_executor).
Proof.
  apply (executor_run_ready_tasks_drains (list_ArrayQueueLaws Z) CountDown.CountDown_BoundedLaws
           sample_executor []); [apply sample_executor_inv|vm_compute; lia].
Defined.

(** C33: tasks are run first come, first served: the batch of identifiers that is
    queued when the loop starts is run to its end, in its order, before any task
    that was woken in the meantime. *)
Theorem executor_runs_batch_first {F S Q} `{AQ : ArrayQueue Z Q} (AQL : ArrayQueueLaws Z Q)
    `{FU : Future F S Q} (WF : Executor.WakingFutures F S Q)
    (n : nat) (self : Executor.t F Q) (s : S) :
  let batch := aq_items (Executor.task_queue self) in
  Executor.run_ready_tasks (length batch + n) self s
  = '(self, s) ← Executor.run_batch batch (self, s); Executor.run_ready_tasks n self s.
Proof. intros batch. apply (Executor.run_ready_tasks_batch n batch []). by rewrite app_nil_r. Qed.

Lemma executor_runs_batch_first_witness :
  Executor.run_ready_tasks (2 + 3) sample_executor ([] : list Waker)
  = '(self, s) ← Executor.run_batch [0; 1] (sample_executor, [] : list Waker); Executor.run_ready_tasks 3 self s.
Proof.
  apply (executor_runs_batch_first (list_ArrayQueueLaws Z) CountDown.CountDown_Waking 3 sample_executor []).
Defined.
