(* ===== verification/SimpleExecutor.v ===== *)
(** * The simple executor

    [src/min-rust-os/src/task/simple_executor.rs]: a FIFO queue of tasks that are
    polled with a waker that does nothing, until none is left.  The reference is
    round-robin scheduling. *)

From S2P Require Import Prelude Queue Task.
From stdpp Require Import base list option.
From Stdlib Require Import Lia.
Local Open Scope nat_scope.

(** [dummy_waker()]; its vtable has no-ops, and its [clone] is itself. *)
Definition dummy_waker : Waker := DummyWaker.

Module SimpleExecutor.
Section executor.
Context {F S Q : Type} `{FU : Future F S Q}.

Record t := mk { task_queue : list (Task F) }.

Definition new : t := mk [].

Definition spawn (task : Task F) (self : t) : t := mk (task_queue self ++ [task]).

Fixpoint run (fuel : nat) (self : t) (s : S) (q : Q) : res (t * S * Q) :=
  match fuel with
  | O => Diverge
  | Datatypes.S fuel' =>
      match task_queue self with
      | [] => Ok (self, s, q)
      | task :: rest =>
          '(r, task, s, q) ← Task_poll task dummy_waker s q;
          match r with
          | Ready _ => run fuel' (mk rest) s q
          | Pending => run fuel' (mk (rest ++ [task])) s q
          end
      end
  end.

(** ** Reference: rounds *)

(** Every task is polled once, in order; those that are pending are kept. *)
Fixpoint poll_round (l : list (Task F)) (s : S) (q : Q) : res (list (Task F) * S * Q) :=
  match l with
  | [] => Ok ([], s, q)
  | task :: l' =>
      '(r, task, s, q) ← Task_poll task dummy_waker s q;
      '(l'', s, q) ← poll_round l' s q;
      Ok (match r with Ready _ => l'' | Pending => task :: l'' end, s, q)
  end.

Lemma run_round n l : forall kept s q,
  run (length l + n) (mk (l ++ kept)) s q
  = '(l', s, q) ← poll_round l s q; run n (mk (kept ++ l')) s q.
Proof.
  induction l as [|task l IH]; intros kept s q; simpl; [by rewrite app_nil_r|].
  destruct (Task_poll task dummy_waker s q) as [[[[r task'] s1] q1]| | |]; simpl; try done.
  destruct r as [u|].
  - rewrite IH. by destruct (poll_round l s1 q1) as [[[l' s2] q2]| | |].
  - rewrite <- app_assoc, IH. destruct (poll_round l s1 q1) as [[[l' s2] q2]| | |]; simpl; try done.
    by rewrite <- app_assoc.
Qed.
End executor.
Arguments t F : clear implicits.

(** Futures that are ready after finitely many polls, whoever wakes them. *)
Class FiniteFutures (F S Q : Type) `{Future F S Q} := polls_left : F -> nat.
Class FiniteFuturesLaws (F S Q : Type) `{FiniteFutures F S Q} : Prop :=
  poll_finite : forall (f : F) (s : S) (q : Q),
    exists r f' s' q', future_poll f dummy_waker s q = Ok (r, f', s', q') /\
      (r = Pending -> polls_left f' < polls_left f).

Section finite.
Context {F S Q : Type} `{FU : Future F S Q} `{FF : !FiniteFutures F S Q} `{!FiniteFuturesLaws F S Q}.

(** The polls that finish all tasks. *)
Definition all_polls (l : list (Task F)) : nat :=
  sum_list_with (fun task => Datatypes.S (polls_left (future task))) l.

Lemma run_finishes fuel : forall l s q,
  all_polls l < fuel -> exists s' q', run fuel (mk l) s q = Ok (new, s', q').
Proof.
  unfold all_polls.
  induction fuel as [|fuel IH]; intros [|task l] s q Hf; simpl in *; [lia|lia|eauto|].
  destruct (poll_finite (future task) s q) as (r & f' & s' & q' & E & Hr).
  unfold Task_poll. rewrite E. simpl. destruct r as [u|]; [apply IH; lia|].
  specialize (Hr eq_refl). apply IH. rewrite sum_list_with_app. simpl. lia.
Qed.
End finite.
End SimpleExecutor.

Import CountDown.

#[export] Instance CountDown_Finite {Q} `{ArrayQueue Z Q} :
  SimpleExecutor.FiniteFutures nat (list Waker) Q := fun n => n.
#[export] Instance CountDown_FiniteLaws {Q} `{ArrayQueue Z Q} :
  SimpleExecutor.FiniteFuturesLaws nat (list Waker) Q.
Proof. intros [|n] s q; do 4 eexists; (split; [reflexivity|]); [done|]. intros _. apply Nat.lt_succ_diag_r. Qed.

(** ** Properties *)

(** C36: the simple executor is round-robin: from any queue, it first polls every
    task once, in the order they were spawned, and goes on with the pending ones in
    the same order. *)
Theorem simple_executor_round_robin {F S Q} `{FU : Future F S Q} (n : nat) (l : list (Task F)) (s : S) (q : Q) :
  SimpleExecutor.run (length l + n) (foldl (fun e t => SimpleExecutor.spawn t e) SimpleExecutor.new l) s q
  = '(l', s, q) ← SimpleExecutor.poll_round l s q; SimpleExecutor.run n (SimpleExecutor.mk l') s q.
Proof.
  replace (foldl _ _ l) with (SimpleExecutor.mk l).
  - pose proof (SimpleExecutor.run_round n l [] s q) as H. rewrite app_nil_r in H. exact H.
  - change l with ([] ++ l) at 1. unfold SimpleExecutor.new. generalize (@nil (Task F)).
    induction l as [|x l IH]; intros k; simpl; [by rewrite app_nil_r|].
    unfold SimpleExecutor.spawn at 2. simpl. rewrite <- IH, <- app_assoc. done.
Qed.

(** [run] returns once every task is ready: when each future is ready after
    finitely many polls, as many turns as there are polls left are enough, and no
    task remains in the queue. *)
Theorem simple_executor_run_finishes {F S Q} `{FU : Future F S Q} `{FF : !SimpleExecutor.FiniteFutures F S Q}
    (FFL : SimpleExecutor.FiniteFuturesLaws F S Q) (l : list (Task F)) (s : S) (q : Q) :
  exists s' q',
    SimpleExecutor.run (Datatypes.S (SimpleExecutor.all_polls l)) (SimpleExecutor.mk l) s q
    = Ok (SimpleExecutor.new, s', q').
Proof. apply SimpleExecutor.run_finishes. lia. Qed.

Lemma simple_executor_run_finishes_witness :
  exists s' q', SimpleExecutor.run 5 (SimpleExecutor.mk [mkTask 0%Z 2; mkTask 1%Z 0])
    ([] : list Waker) (mkQueue [] 100) = Ok (SimpleExecutor.new, s', q').
Proof.
  apply (simple_executor_run_finishes CountDown_FiniteLaws [mkTask 0%Z 2; mkTask 1%Z 0] [] (mkQueue [] 100)).
Defined.
