(* ===== verification/Keyboard.v ===== *)
(** * The keyboard

    [src/min-rust-os/src/task/keyboard.rs]: the interrupt handler pushes scancodes
    into a queue ([add_scancode]); a task takes them out ([ScancodeStream]), decodes
    and prints them ([print_keypresses]).

    The statics behind both sides are one record.  An interrupt can arrive between
    any two atomic operations of the task, so [poll_next] is given as the sequence
    of its atomic operations. *)

From S2P Require Import Prelude Queue Task Vga.
From stdpp Require Import base list option strings.
From Stdlib Require Import ZArith Lia.
Local Open Scope Z_scope.

(** ** Dependencies *)

(** [conquer_once::spin::OnceCell]: a cell that is initialised once.  The value in
    the cell has interior mutability: [oc_write] is the cell after an operation
    through the reference that [oc_try_get] returned. *)
Class OnceCell (T C : Type) := {
  oc_uninit : C;
  oc_try_get : C -> option T;
  oc_try_init_once : T -> C -> option C;
  oc_write : T -> C -> C;
}.
Class OnceCellLaws (T C : Type) `{OnceCell T C} : Prop := {
  oc_get_uninit : oc_try_get oc_uninit = None;
  oc_init_first v c : oc_try_get c = None ->
    exists c', oc_try_init_once v c = Some c' /\ oc_try_get c' = Some v;
  oc_init_again v v' c : oc_try_get c = Some v' -> oc_try_init_once v c = None;
  oc_get_write v v' c : oc_try_get c = Some v' -> oc_try_get (oc_write v c) = Some v;
}.

(** [futures_util::task::AtomicWaker]: the last waker that was registered.  [wake]
    and [take] remove it; [wake] hands it out to be woken. *)
Class AtomicWaker (W : Type) := {
  aw_new : W;
  aw_register : Waker -> W -> W;
  aw_wake : W -> option Waker * W;
  aw_take : W -> option Waker * W;
  aw_registered : W -> option Waker;
}.
Class AtomicWakerLaws (W : Type) `{AtomicWaker W} : Prop := {
  aw_registered_new : aw_registered aw_new = None;
  aw_registered_register w a : aw_registered (aw_register w a) = Some w;
  aw_wake_spec a : (aw_wake a).1 = aw_registered a /\ aw_registered (aw_wake a).2 = None;
  aw_take_spec a : (aw_take a).1 = aw_registered a /\ aw_registered (aw_take a).2 = None;
}.

(** [pc_keyboard::Keyboard]: [add_byte] returns [Result<Option<KeyEvent>, Error>],
    here [None] for an error.  [kb_fmt] is the text that [print!] produces for the
    key. *)
Inductive DecodedKey := Unicode (character : Z) | RawKey (key : Z).
Class PcKeyboard (K E : Type) := {
  kb_new : K;
  kb_add_byte : Z -> K -> option (option E) * K;
  kb_process_keyevent : E -> K -> option DecodedKey * K;
  kb_fmt : DecodedKey -> list Z;
}.

(** ** The statics *)

Section keyboard.
Context {QS QT C W K E P : Type}.
Context `{AQS : ArrayQueue Z QS} `{AQT : ArrayQueue Z QT} `{OC : OnceCell QS C}.
Context `{AW : AtomicWaker W} `{PK : PcKeyboard K E}.

(** [SCANCODE_QUEUE], [WAKER], the queue of the executor that the registered waker
    pushes to, the screen, and the interrupt controllers [PICS]. *)
Record statics := mkStatics {
  SCANCODE_QUEUE : C;
  WAKER : W;
  task_queue : QT;
  screen : Screen.t;
  PICS : P;
}.

Definition set_SCANCODE_QUEUE (c : C) (g : statics) : statics :=
  mkStatics c (WAKER g) (task_queue g) (screen g) (PICS g).
Definition set_WAKER (w : W) (g : statics) : statics :=
  mkStatics (SCANCODE_QUEUE g) w (task_queue g) (screen g) (PICS g).
Definition set_task_queue (q : QT) (g : statics) : statics :=
  mkStatics (SCANCODE_QUEUE g) (WAKER g) q (screen g) (PICS g).
Definition set_screen (s : Screen.t) (g : statics) : statics :=
  mkStatics (SCANCODE_QUEUE g) (WAKER g) (task_queue g) s (PICS g).
Definition set_PICS (p : P) (g : statics) : statics :=
  mkStatics (SCANCODE_QUEUE g) (WAKER g) (task_queue g) (screen g) p.

(** [print!] in the library crate and in [main.rs]. *)
Definition print (text : list Z) (g : statics) : res statics :=
  (fun s => set_screen s g) <$> Screen.print_lib [text] (screen g).
Definition println (text : list Z) (g : statics) : res statics :=
  (fun s => set_screen s g) <$> Screen.print_lib [text; [10]] (screen g).
Definition main_println (text : list Z) (g : statics) : res statics :=
  (fun s => set_screen s g) <$> Screen.print_bin [text; [10]] (screen g).

(** ** The interrupt's side *)

Definition add_scancode (scancode : Z) (g : statics) : res statics :=
  match oc_try_get (SCANCODE_QUEUE g) with
  | Some queue =>
      match aq_push scancode queue with
      | None => println (bytes_of "WARNING: scancode queue fill; dropping keyboard input") g
      | Some queue =>
          let g := set_SCANCODE_QUEUE (oc_write queue (SCANCODE_QUEUE g)) g in
          let '(waker, slot) := aw_wake (WAKER g) in
          let g := set_WAKER slot g in
          match waker with
          | None => Ok g
          | Some waker => q ← wake waker (task_queue g); Ok (set_task_queue q g)
          end
      end
  | None => println (bytes_of "WARNING: scancode queue uninitialised") g
  end.

(** ** The task's side *)

Definition ScancodeStream_new (g : statics) : res statics :=
  c ← expect "ScancodeStream::new should only be called once"
        (oc_try_init_once (aq_new 100) (SCANCODE_QUEUE g));
  Ok (set_SCANCODE_QUEUE c g).

(** Where [poll_next] stands: before its first [pop], before [WAKER.register],
    before the second [pop], before [WAKER.take] with the scancode it popped, and
    at its return. *)
Inductive stage :=
| FastPop
| Register
| SecondPop
| TakeWaker (scancode : Z)
| Return (r : Poll (option Z)).

(** [queue.pop()] through the reference in the cell. *)
Definition pop_scancode (g : statics) : res (option Z * statics) :=
  queue ← expect "not initialised" (oc_try_get (SCANCODE_QUEUE g));
  match aq_pop queue with
  | Some (scancode, queue) =>
      Ok (Some scancode, set_SCANCODE_QUEUE (oc_write queue (SCANCODE_QUEUE g)) g)
  | None => Ok (None, g)
  end.

Definition poll_next_step (cx_waker : Waker) (st : stage) (g : statics) : res (stage * statics) :=
  match st with
  | FastPop =>
      '(r, g) ← pop_scancode g;
      match r with
      | Some scancode => Ok (Return (Ready (Some scancode)), g)
      | None => Ok (Register, g)
      end
  | Register => Ok (SecondPop, set_WAKER (aw_register cx_waker (WAKER g)) g)
  | SecondPop =>
      '(r, g) ← pop_scancode g;
      match r with
      | Some scancode => Ok (TakeWaker scancode, g)
      | None => Ok (Return Pending, g)
      end
  | TakeWaker scancode =>
      Ok (Return (Ready (Some scancode)), set_WAKER (aw_take (WAKER g)).2 g)
  | Return r => Ok (Return r, g)
  end.

(** [poll_next] when no interrupt arrives: four operations at most. *)
Definition poll_next (cx_waker : Waker) (g : statics) : res (Poll (option Z) * statics) :=
  '(st, g) ← poll_next_step cx_waker FastPop g;
  '(st, g) ← poll_next_step cx_waker st g;
  '(st, g) ← poll_next_step cx_waker st g;
  '(st, g) ← poll_next_step cx_waker st g;
  match st with Return r => Ok (r, g) | _ => Diverge end.

(** The body of the [while let] of [print_keypresses]. *)
Definition handle_scancode (scancode : Z) (keyboard : K) (g : statics) : res (K * statics) :=
  let '(r, keyboard) := kb_add_byte scancode keyboard in
  match r with
  | Some (Some key_event) =>
      let '(key, keyboard) := kb_process_keyevent key_event keyboard in
      match key with
      | Some key => g ← print (kb_fmt key) g; Ok (keyboard, g)
      | None => Ok (keyboard, g)
      end
  | _ => Ok (keyboard, g)
  end.
End keyboard.
Arguments statics QT C W P : clear implicits.

(** Printing changes the screen only. *)
Section printing.
Context {QT C W P : Type}.
Abbreviation statics := (statics QT C W P).

Lemma print_ok text (g : statics) :
  Screen.wf (screen g) -> exists sc, print text g = Ok (set_screen sc g) /\ Screen.wf sc.
Proof.
  intros Hwf. unfold print.
  destruct (Screen.print_lib_wf [text] _ Hwf) as (sc & -> & ?). by exists sc.
Qed.

Lemma println_ok text (g : statics) :
  Screen.wf (screen g) -> exists sc, println text g = Ok (set_screen sc g) /\ Screen.wf sc.
Proof.
  intros Hwf. unfold println.
  destruct (Screen.print_lib_wf [text; [10]] _ Hwf) as (sc & -> & ?). by exists sc.
Qed.

Lemma main_println_ok text (g : statics) :
  Screen.wf (screen g) -> exists sc, main_println text g = Ok (set_screen sc g) /\ Screen.wf sc.
Proof.
  intros Hwf. unfold main_println.
  destruct (Screen.print_bin_wf [text; [10]] _ Hwf) as (sc & -> & ?). by exists sc.
Qed.


(** Lines printed one by one are one text. *)
Definition lines (ls : list (list Z)) : list (list Z) := mjoin ((fun l => [l; [10]]) <$> ls).

Lemma println_all ls : forall g : statics,
  Screen.wf (screen g) ->
  exists sc, for_each println ls g = Ok (set_screen sc g) /\ Screen.wf sc /\
    Screen.print_lib (lines ls) (screen g) = Ok sc.
Proof.
  induction ls as [|l ls IH]; intros g Hwf.
  { exists (screen g). split_and!; [by destruct g|done|by destruct (screen g)]. }
  destruct (Screen.print_lib_wf [l; [10]] _ Hwf) as (s1 & E1 & W1).
  destruct (IH (set_screen s1 g) W1) as (s2 & E2 & W2 & P2). exists s2. split_and!; [|done|].
  - cbn [for_each]. assert (println l g = Ok (set_screen s1 g)) as -> by (unfold println; by rewrite E1). exact E2.
  - change (lines (l :: ls)) with ([l; [10]] ++ lines ls). rewrite Screen.print_lib_app, E1 by done. exact P2.
Qed.
End printing.

(** ** Dependencies that satisfy the laws *)

Module KeyboardReference.
#[export] Instance option_OnceCell {T} : OnceCell T (option T) := {
  oc_uninit := None;
  oc_try_get c := c;
  oc_try_init_once v c := match c with None => Some (Some v) | Some _ => None end;
  oc_write v c := Some v;
}.
#[export] Instance option_OnceCellLaws {T} : OnceCellLaws T (option T).
Proof. split; simpl; [done|intros v ? ->; eauto|by intros v v' ? ->|done]. Qed.

#[export] Instance option_AtomicWaker : AtomicWaker (option Waker) := {
  aw_new := None;
  aw_register w _ := Some w;
  aw_wake a := (a, None);
  aw_take a := (a, None);
  aw_registered a := a;
}.
#[export] Instance option_AtomicWakerLaws : AtomicWakerLaws (option Waker).
Proof. by split. Qed.

(** A keyboard that shows every scancode as itself. *)
#[export] Instance raw_PcKeyboard : PcKeyboard unit Z := {
  kb_new := tt;
  kb_add_byte c k := (Some (Some c), k);
  kb_process_keyevent e k := (Some (Unicode e), k);
  kb_fmt key := match key with Unicode c | RawKey c => [c] end;
}.
End KeyboardReference.
Import KeyboardReference.

(** ** Properties *)

(** Without interrupts, [poll_next] takes the oldest scancode and leaves the waker
    alone, or, when there is none, registers the waker of its context and is pending;
    nothing else changes.  It panics only when the queue was never initialised. *)
Theorem keyboard_poll_next_spec {QS QT C W P} `{AQS : ArrayQueue Z QS} `{OC : OnceCell QS C}
    `{AW : AtomicWaker W} (L1 : ArrayQueueLaws Z QS) (L2 : OnceCellLaws QS C) (L3 : AtomicWakerLaws W)
    (cx_waker : Waker) (g : statics QT C W P) :
  match oc_try_get (SCANCODE_QUEUE g) with
  | None => poll_next cx_waker g = Panic (UnwrapFailed "not initialised")
  | Some q =>
      exists cell slot,
        poll_next cx_waker g
          = Ok (match aq_items q with c :: _ => Ready (Some c) | [] => Pending end,
                set_WAKER slot (set_SCANCODE_QUEUE cell g)) /\
        (exists q', oc_try_get cell = Some q' /\ aq_items q' = tail (aq_items q) /\
           aq_capacity q' = aq_capacity q) /\
        (aq_items q = [] -> cell = SCANCODE_QUEUE g /\ aw_registered slot = Some cx_waker) /\
        (aq_items q <> [] -> slot = WAKER g)
  end.
Proof.
  destruct (oc_try_get (SCANCODE_QUEUE g)) as [q|] eqn:Eq.
  2: { unfold poll_next. simpl. unfold pop_scancode. by rewrite Eq. }
  assert (Hpop : forall g', SCANCODE_QUEUE g' = SCANCODE_QUEUE g -> aq_items q = [] ->
    pop_scancode (QT := QT) (W := W) (P := P) g' = Ok (None, g')).
  { intros g' Hg Hi. unfold pop_scancode. rewrite Hg, Eq. simpl. by rewrite aq_pop_nil. }
  destruct (aq_items q) as [|c cs] eqn:Ei.
  - exists (SCANCODE_QUEUE g), (aw_register cx_waker (WAKER g)). split_and!; [|by exists q| |done].
    + unfold poll_next. cbn [poll_next_step]. rewrite Hpop by done. cbn [mbind res_bind poll_next_step].
      rewrite Hpop by done. simpl. by destruct g.
    + intros _. split; [done|]. apply aw_registered_register.
  - destruct (aq_pop_cons _ _ _ Ei) as (q' & Hp & Hi & Hc).
    exists (oc_write q' (SCANCODE_QUEUE g)), (WAKER g). split_and!; [| |done|done].
    + unfold poll_next. simpl. unfold pop_scancode. rewrite Eq. simpl. rewrite Hp. simpl. by destruct g.
    + exists q'. split_and!; [by eapply oc_get_write|done|done].
Qed.

Lemma keyboard_poll_next_spec_witness :
  let g := mkStatics (Some (mkQueue [30; 31] 100)) None (mkQueue ([] : list Z) 100) (Screen.boot cleared) tt in
  exists cell slot,
    poll_next (FromTaskWaker 1) g
      = Ok (Ready (Some 30), set_WAKER slot (set_SCANCODE_QUEUE cell g)) /\
    (exists q', cell = Some q' /\ lq_items q' = [31] /\ lq_capacity q' = 100%nat) /\
    ([30; 31] = [] -> cell = SCANCODE_QUEUE g /\ slot = Some (FromTaskWaker 1)) /\
    ([30; 31] <> [] -> slot = WAKER g).
Proof.
  intros g.
  exact (keyboard_poll_next_spec (list_ArrayQueueLaws Z) option_OnceCellLaws option_AtomicWakerLaws
           (FromTaskWaker 1) g).
Defined.
