(* ===== verification/Interrupts.v ===== *)
(** * Interrupts

    [src/min-rust-os/src/interrupts.rs] and [src/min-rust-os/src/gdt.rs]: the
    interrupt descriptor table, the vectors of the remapped interrupt controllers,
    and the handlers of the two hardware interrupts. *)

From S2P Require Import Prelude Queue Task Vga Keyboard.
From stdpp Require Import base list option gmap strings.
From Stdlib Require Import ZArith Lia.
Local Open Scope Z_scope.

Definition PIC_1_OFFSET : Z := 32.
Definition PIC_2_OFFSET : Z := PIC_1_OFFSET + 8.

Inductive InterruptIndex := Timer | Keyboard.

(** [repr(u8)]: the first discriminant is given, the second one is its successor. *)
Definition as_u8 (i : InterruptIndex) : Z :=
  match i with Timer => PIC_1_OFFSET | Keyboard => PIC_1_OFFSET + 1 end.
Definition as_usize (i : InterruptIndex) : Z := as_u8 i.

(** ** The task state segment and the descriptor table *)

Definition DOUBLE_FAULT_IST_INDEX : nat := 0.
Definition STACK_SIZE : Z := 4096 * 5.

(** The interrupt stack table: seven stack pointers, initially null.  [stack] is the
    address of the static [STACK]. *)
Definition TSS (stack : Z) : res (list Z) :=
  set_index (replicate 7 0) DOUBLE_FAULT_IST_INDEX (stack + STACK_SIZE).

Inductive Handler :=
| breakpoint_handler
| double_fault_handler
| timer_interrupt_handler_fn
| keyboard_interrupt_handler_fn
| page_fault_handler.

Record Entry := mkEntry { handler : Handler; stack_index : option nat }.

(** The vectors of the named fields of [InterruptDescriptorTable]. *)
Definition BREAKPOINT : Z := 3.
Definition DOUBLE_FAULT : Z := 8.
Definition PAGE_FAULT : Z := 14.

Definition IDT : gmap Z Entry :=
  let idt := ∅ in
  let idt := <[BREAKPOINT := mkEntry breakpoint_handler None]> idt in
  let idt := <[DOUBLE_FAULT := mkEntry double_fault_handler (Some DOUBLE_FAULT_IST_INDEX)]> idt in
  let idt := <[as_usize Timer := mkEntry timer_interrupt_handler_fn None]> idt in
  let idt := <[as_usize Keyboard := mkEntry keyboard_interrupt_handler_fn None]> idt in
  let idt := <[PAGE_FAULT := mkEntry page_fault_handler None]> idt in
  idt.

(** ** The interrupt controllers

    [pic8259::ChainedPics], with the 8259's part of the contract: an interrupt that
    was delivered is in service, and it is not delivered again until the end of
    interrupt is notified. *)
Class ChainedPics (P : Type) := {
  pic_accepts : Z -> P -> bool;
  pic_deliver : Z -> P -> P;
  pic_notify_end_of_interrupt : Z -> P -> P;
}.
Class ChainedPicsLaws (P : Type) `{ChainedPics P} : Prop := {
  pic_in_service v p : pic_accepts v (pic_deliver v p) = false;
  pic_eoi v v' p : pic_accepts v p = true ->
    pic_accepts v' (pic_notify_end_of_interrupt v (pic_deliver v p)) = pic_accepts v' p;
}.

Section handlers.
Context {QS QT C W P : Type}.
Context `{AQS : ArrayQueue Z QS} `{AQT : ArrayQueue Z QT} `{OC : OnceCell QS C}.
Context `{AW : AtomicWaker W} `{PIC : ChainedPics P}.

Definition timer_interrupt_handler (g : statics QT C W P) : res (statics QT C W P) :=
  g ← print (bytes_of ".") g;
  Ok (set_PICS (pic_notify_end_of_interrupt (as_u8 Timer) (PICS g)) g).

(** [scancode] is what the read of port 0x60 returns. *)
Definition keyboard_interrupt_handler (scancode : Z) (g : statics QT C W P) : res (statics QT C W P) :=
  g ← add_scancode scancode g;
  Ok (set_PICS (pic_notify_end_of_interrupt (as_u8 Keyboard) (PICS g)) g).
End handlers.

(** ** Dependencies that satisfy the laws *)

Module InterruptsReference.
(** The vectors in service. *)
#[export] Instance list_ChainedPics : ChainedPics (list Z) := {
  pic_accepts v p := bool_decide (v ∉ p);
  pic_deliver v p := v :: p;
  pic_notify_end_of_interrupt v p := filter (fun x => x <> v) p;
}.
#[export] Instance list_ChainedPicsLaws : ChainedPicsLaws (list Z).
Proof.
  split; simpl.
  - intros v p. apply bool_decide_eq_false. set_solver.
  - intros v v' p Hv. apply bool_decide_eq_true in Hv. apply bool_decide_ext.
    rewrite list_elem_of_filter, elem_of_cons. split; [|tauto].
    intros H Hin. apply H. split; [|by right]. by intros ->.
Qed.
End InterruptsReference.
