(* ===== verification/System.v ===== *)
(** * The running kernel

    [Executor::run] of [src/min-rust-os/src/task/executor.rs] with the two tasks that
    [kernel_main] spawns, interrupted at any point by the timer and the keyboard:
    [run_ready_tasks], [sleep_if_idle], [print_keypresses] and [example_task] as a
    machine whose steps are the atomic operations of the code.  Interleavings are
    sequences of events.  The memory of these operations (the wakers, the nodes of the
    maps, the scancode queue) is not part of this machine: [WakerMemory.v] runs it beside the
    heap, where each of them can run out of memory, and [Kernel.v] from the start. *)

From S2P Require Import Prelude Queue Task Vga Keyboard Interrupts.
From stdpp Require Import base list option gmap strings.
From Stdlib Require Import ZArith Lia.
Local Open Scope Z_scope.

(** The state machines of the two async functions.  [print_keypresses] either has
    not been polled yet or is suspended at [scancodes.next().await] with the state of
    its [Keyboard]; [example_task] awaits a future that is ready at once. *)
Inductive kernel_future (K : Type) :=
| example_task
| print_keypresses (suspended : option K).
Arguments example_task {K}.
Arguments print_keypresses {K} _.

(** Where the processor stands in [Executor::run]. *)
Inductive program_counter (K : Type) :=
| RunPop                                            (* [while let Ok(task_id) = task_queue.pop()] *)
| RunTask (task_id : Z)                             (* [tasks.get_mut], the waker, the start of [poll] *)
| InStream (task_id : Z) (waker : Waker) (keyboard : K) (st : stage)   (* in [poll_next] *)
| Handle (task_id : Z) (waker : Waker) (keyboard : K) (scancode : Z)   (* the loop's body *)
| SleepCheck                                        (* [if self.task_queue.is_empty()] *)
| SleepDisable                                      (* [interrupts::disable()] *)
| SleepRecheck                                      (* the second [is_empty()] *)
| SleepHlt                                          (* [enable_and_hlt()] *)
| SleepEnable                                       (* [interrupts::enable()] *)
| Halted.                                           (* in [hlt] *)
Arguments RunPop {K}.
Arguments RunTask {K} _.
Arguments InStream {K} _ _ _ _.
Arguments Handle {K} _ _ _ _.
Arguments SleepCheck {K}.
Arguments SleepDisable {K}.
Arguments SleepRecheck {K}.
Arguments SleepHlt {K}.
Arguments SleepEnable {K}.
Arguments Halted {K}.

(** What happens next: an operation of the kernel, or a hardware interrupt. *)
Inductive event := EMain | ETimer | EKeyboard (scancode : Z).
#[global] Instance event_eq_dec : EqDecision event.
Proof. solve_decision. Defined.

Definition is_keyboard (e : event) : bool := match e with EKeyboard _ => true | _ => false end.

Section system.
Context {QS QT C W K E P : Type}.
Context `{AQS : ArrayQueue Z QS} `{AQT : ArrayQueue Z QT} `{OC : OnceCell QS C}.
Context `{AW : AtomicWaker W} `{PK : PcKeyboard K E} `{PIC : ChainedPics P}.

(** [accepted] and [consumed] are histories for the specification: the scancodes
    that went into the queue, and those that [print_keypresses] has handled. *)
Record sys := mkSys {
  pc : program_counter K;
  interrupts_enabled : bool;
  globals : statics QT C W P;
  tasks : gmap Z (Task (kernel_future K));
  waker_cache : gmap Z Waker;
  accepted : list Z;
  consumed : list Z;
}.

Definition set_pc (c : program_counter K) (s : sys) : sys :=
  mkSys c (interrupts_enabled s) (globals s) (tasks s) (waker_cache s) (accepted s) (consumed s).
Definition set_interrupts (b : bool) (s : sys) : sys :=
  mkSys (pc s) b (globals s) (tasks s) (waker_cache s) (accepted s) (consumed s).
Definition set_globals (g : statics QT C W P) (s : sys) : sys :=
  mkSys (pc s) (interrupts_enabled s) g (tasks s) (waker_cache s) (accepted s) (consumed s).
Definition set_tasks (m : gmap Z (Task (kernel_future K))) (s : sys) : sys :=
  mkSys (pc s) (interrupts_enabled s) (globals s) m (waker_cache s) (accepted s) (consumed s).
Definition set_cache (m : gmap Z Waker) (s : sys) : sys :=
  mkSys (pc s) (interrupts_enabled s) (globals s) (tasks s) m (accepted s) (consumed s).
Definition log_accepted (c : Z) (s : sys) : sys :=
  mkSys (pc s) (interrupts_enabled s) (globals s) (tasks s) (waker_cache s) (accepted s ++ [c]) (consumed s).
Definition log_consumed (c : Z) (s : sys) : sys :=
  mkSys (pc s) (interrupts_enabled s) (globals s) (tasks s) (waker_cache s) (accepted s) (consumed s ++ [c]).

(** [Poll::Ready(()) => { tasks.remove; waker_cache.remove }] *)
Definition finish_task (i : Z) (s : sys) : sys :=
  set_pc RunPop (set_cache (delete i (waker_cache s)) (set_tasks (delete i (tasks s)) s)).

(** The start of [task.poll] for the task [i]. *)
Definition enter_poll (i : Z) (waker : Waker) (f : kernel_future K) (s : sys) : res sys :=
  match f with
  | example_task =>
      g ← main_println (bytes_of "async number: 42") (globals s);
      Ok (finish_task i (set_globals g s))
  | print_keypresses None =>
      g ← ScancodeStream_new (globals s);
      Ok (set_pc (InStream i waker kb_new FastPop) (set_globals g s))
  | print_keypresses (Some keyboard) => Ok (set_pc (InStream i waker keyboard FastPop) s)
  end.

(** One operation of the kernel; its allocations are those of [memory_step] in [WakerMemory.v]. *)
Definition main_step (s : sys) : res sys :=
  match pc s with
  | RunPop =>
      match aq_pop (task_queue (globals s)) with
      | Some (i, q) => Ok (set_pc (RunTask i) (set_globals (set_task_queue q (globals s)) s))
      | None => Ok (set_pc SleepCheck s)
      end
  | RunTask i =>
      match tasks s !! i with
      | None => Ok (set_pc RunPop s)
      | Some task =>
          let '(waker, cache) := Executor.entry_or_insert i (waker_cache s) in
          enter_poll i waker (future task) (set_cache cache s)
      end
  | InStream i waker keyboard (Return (Ready (Some scancode))) =>
      Ok (set_pc (Handle i waker keyboard scancode) s)
  | InStream i waker keyboard (Return (Ready None)) => Ok (finish_task i s)
  | InStream i waker keyboard (Return Pending) =>
      Ok (set_pc RunPop
           (set_tasks (<[i := mkTask i (print_keypresses (Some keyboard))]> (tasks s)) s))
  | InStream i waker keyboard st =>
      '(st, g) ← poll_next_step waker st (globals s);
      Ok (set_pc (InStream i waker keyboard st) (set_globals g s))
  | Handle i waker keyboard scancode =>
      '(keyboard, g) ← handle_scancode scancode keyboard (globals s);
      Ok (log_consumed scancode (set_pc (InStream i waker keyboard FastPop) (set_globals g s)))
  | SleepCheck =>
      Ok (set_pc (if aq_is_empty (task_queue (globals s)) then SleepDisable else RunPop) s)
  | SleepDisable => Ok (set_pc SleepRecheck (set_interrupts false s))
  | SleepRecheck =>
      Ok (set_pc (if aq_is_empty (task_queue (globals s)) then SleepHlt else SleepEnable) s)
  | SleepHlt => Ok (set_pc Halted (set_interrupts true s))
  | SleepEnable => Ok (set_pc RunPop (set_interrupts true s))
  | Halted => Ok s
  end.

(** The processor goes on after [hlt] when the handler has returned: [sleep_if_idle]
    returns and [run] starts over. *)
Definition resume (s : sys) : sys :=
  match pc s with Halted => set_pc RunPop s | _ => s end.

(** A hardware interrupt is delivered when interrupts are enabled and the controller
    does not hold it back. *)
Definition interrupt (v : InterruptIndex) (run : statics QT C W P -> res (statics QT C W P)) (s : sys) : res sys :=
  if interrupts_enabled s && pic_accepts (as_u8 v) (PICS (globals s)) then
    g ← run (set_PICS (pic_deliver (as_u8 v) (PICS (globals s))) (globals s));
    Ok (resume (set_globals g s))
  else Ok s.

(** Whether [add_scancode] can store a scancode. *)
Definition has_room (g : statics QT C W P) : bool :=
  match oc_try_get (SCANCODE_QUEUE g) with
  | Some q => bool_decide (length (aq_items q) < aq_capacity q)%nat
  | None => false
  end.

Definition sys_step (e : event) (s : sys) : res sys :=
  match e with
  | EMain => main_step s
  | ETimer => interrupt Timer timer_interrupt_handler s
  | EKeyboard c =>
      s' ← interrupt Keyboard (keyboard_interrupt_handler c) s;
      Ok (if interrupts_enabled s && pic_accepts (as_u8 Keyboard) (PICS (globals s)) && has_room (globals s)
          then log_accepted c s' else s')
  end.

Definition run_events (es : list event) (s : sys) : res sys := for_each sys_step es s.

(** The kernel at [executor.run()]: the two tasks spawned, interrupts enabled. *)
Definition start (ex : Executor.t (kernel_future K) QT) (g : statics QT C W P) : sys :=
  mkSys RunPop true (set_task_queue (Executor.task_queue ex) g) (Executor.tasks ex)
    (Executor.waker_cache ex) [] [].

Definition spawn_kernel_tasks (NEXT_ID : Z) : res (Executor.t (kernel_future K) QT * Z) :=
  Spawn.spawn_all [example_task; print_keypresses None] Executor.new NEXT_ID.
End system.
Arguments sys QT C W K P : clear implicits.

(** ** Observations *)

Section invariant.
Context {QS QT C W K E P : Type}.
Context `{AQS : ArrayQueue Z QS} `{AQT : ArrayQueue Z QT} `{OC : OnceCell QS C}.
Context `{AW : AtomicWaker W} `{PK : PcKeyboard K E} `{PIC : ChainedPics P}.
Abbreviation sys := (sys QT C W K P).
Abbreviation statics := (statics QT C W P).

(** The identifier of the keyboard task, the second one that is spawned, and its waker. *)
Definition KEYS : Z := 1.
Definition keys_waker : Waker := FromTaskWaker KEYS.

Definition scancodes (g : statics) : list Z :=
  match oc_try_get (SCANCODE_QUEUE g) with Some q => aq_items q | None => [] end.
Definition woken (g : statics) : list Z := aq_items (task_queue g).
Definition registered (g : statics) : option Waker := aw_registered (WAKER g).

(** A suspended keyboard task will run: either there is nothing for it to do and
    the next scancode wakes it, or it has been woken. *)
Definition wakeable (g : statics) : Prop :=
  (scancodes g = [] /\ registered g = Some keys_waker) \/ KEYS ∈ woken g.

(** The scancode that is neither in the queue nor handled yet. *)
Definition in_flight (c : program_counter K) : list Z :=
  match c with
  | InStream _ _ _ (TakeWaker x) | InStream _ _ _ (Return (Ready (Some x))) | Handle _ _ _ x => [x]
  | _ => []
  end.

Definition in_poll (c : program_counter K) : bool :=
  match c with InStream _ _ _ _ | Handle _ _ _ _ => true | _ => false end.

(** [o]: how far the keyboard task was when it was last suspended. *)
Definition suspended_ok (o : option K) (g : statics) : Prop :=
  match o with None => KEYS ∈ woken g | Some _ => wakeable g end.

Definition stage_ok (st : stage) (g : statics) : Prop :=
  match st with
  | SecondPop => registered g = Some keys_waker \/ KEYS ∈ woken g
  | Return Pending => wakeable g
  | Return (Ready None) => False
  | _ => True
  end.

Definition pc_ok (o : option K) (c : program_counter K) (enabled : bool) (g : statics) : Prop :=
  match c with
  | RunPop | SleepCheck | SleepDisable => enabled = true /\ suspended_ok o g
  | RunTask i => enabled = true /\ (i = KEYS \/ suspended_ok o g)
  | InStream i w _ st => enabled = true /\ i = KEYS /\ w = keys_waker /\ stage_ok st g
  | Handle i w _ _ => enabled = true /\ i = KEYS /\ w = keys_waker
  | SleepRecheck | SleepEnable => enabled = false /\ suspended_ok o g
  | SleepHlt => enabled = false /\ woken g = [] /\ suspended_ok o g
  | Halted => enabled = true /\ woken g = [] /\ suspended_ok o g
  end.

(** The scancode queue exists exactly once the keyboard task has started. *)
Definition cell_ok (started : bool) (g : statics) : Prop :=
  match oc_try_get (SCANCODE_QUEUE g) with
  | Some q => started = true /\ aq_capacity q = 100%nat
  | None => started = false
  end.

Definition is_started (o : option K) (c : program_counter K) : bool :=
  in_poll c || match o with Some _ => true | None => false end.

Record globals_ok (g : statics) : Prop := {
  go_screen : Screen.wf (screen g);
  go_waker : registered g = None \/ registered g = Some keys_waker;
  go_capacity : aq_capacity (task_queue g) = 100%nat;
}.

Record inv (s : sys) : Prop := {
  i_globals : globals_ok (globals s);
  i_pics : forall v, pic_accepts (as_u8 v) (PICS (globals s)) = true;
  i_cache : forall i w, waker_cache s !! i = Some w -> w = FromTaskWaker i;
  i_other : forall i t, i <> KEYS -> tasks s !! i = Some t -> future t = example_task;
  i_keys : exists o, tasks s !! KEYS = Some (mkTask KEYS (print_keypresses o)) /\
    cell_ok (is_started o (pc s)) (globals s) /\
    pc_ok o (pc s) (interrupts_enabled s) (globals s);
  i_history : consumed s ++ in_flight (pc s) ++ scancodes (globals s) = accepted s;
}.

Context `{!ArrayQueueLaws Z QS} `{!ArrayQueueLaws Z QT} `{!OnceCellLaws QS C}.
Context `{!AtomicWakerLaws W} `{!ChainedPicsLaws P}.

(** ** What an interrupt does *)

(** The cell after one more scancode. *)
Definition pushed (c : Z) (cell : C) (g : statics) : Prop :=
  exists q, oc_try_get cell = Some q /\ aq_items q = scancodes g ++ [c] /\ aq_capacity q = 100%nat.

(** The scancodes that are stored: [c] is [None] for the timer. *)
Definition stored (c : option Z) (g : statics) : list Z :=
  match c with Some x => if has_room g then [x] else [] | None => [] end.

(** The outcomes of a handler, up to the end of interrupt. *)
Inductive adds (c : option Z) (g : statics) : res statics -> Prop :=
| adds_print sc :
    Screen.wf sc -> stored c g = [] -> adds c g (Ok (set_screen sc g))
| adds_quiet x cell slot :
    c = Some x ->
    has_room g = true -> pushed x cell g -> registered g = None -> aw_registered slot = None ->
    adds c g (Ok (set_WAKER slot (set_SCANCODE_QUEUE cell g)))
| adds_wake x cell slot q :
    c = Some x ->
    has_room g = true -> pushed x cell g -> registered g = Some keys_waker -> aw_registered slot = None ->
    aq_items q = woken g ++ [KEYS] -> aq_capacity q = 100%nat ->
    adds c g (Ok (set_task_queue q (set_WAKER slot (set_SCANCODE_QUEUE cell g))))
| adds_panic x :
    c = Some x ->
    (100 <= length (woken g))%nat -> adds c g (Panic (UnwrapFailed "task queue full")).

Lemma add_scancode_spec c b (g : statics) : globals_ok g -> cell_ok b g -> adds (Some c) g (add_scancode c g).
Proof.
  intros [Hsc Hw Hc] Hcell. unfold add_scancode, cell_ok in *.
  destruct (oc_try_get (SCANCODE_QUEUE g)) as [q|] eqn:Eq.
  2: { destruct (println_ok (bytes_of "WARNING: scancode queue uninitialised") g Hsc) as (sc & -> & ?).
       apply adds_print; [done|]. unfold stored, has_room. by rewrite Eq. }
  destruct Hcell as [_ Hcap]. pose proof (aq_push_inv c q) as Hpush.
  destruct (aq_push c q) as [q'|].
  2: { destruct (println_ok (bytes_of "WARNING: scancode queue fill; dropping keyboard input") g Hsc) as (sc & -> & ?).
       apply adds_print; [done|]. unfold stored, has_room. rewrite Eq.
       by rewrite bool_decide_eq_false_2 by lia. }
  destruct Hpush as (Hl & Hi & Hcq).
  assert (Hroom : has_room g = true) by (unfold has_room; rewrite Eq; by apply bool_decide_eq_true).
  assert (Hpd : pushed c (oc_write q' (SCANCODE_QUEUE g)) g).
  { exists q'. split_and!; [by eapply oc_get_write| |congruence]. unfold scancodes. by rewrite Eq. }
  simpl. destruct (aw_wake_spec (WAKER g)) as [Hwk Hn]. destruct (aw_wake (WAKER g)) as [wk slot]. simpl in *.
  unfold registered in Hw. rewrite <- Hwk in Hw. destruct Hw as [-> | ->].
  - by eapply adds_quiet.
  - simpl. unfold wake_task. pose proof (aq_push_inv KEYS (task_queue g)) as Hq.
    destruct (aq_push KEYS (task_queue g)) as [tq|]; simpl.
    + destruct Hq as (? & ? & ?). eapply adds_wake; (done || congruence).
    + eapply adds_panic; [done|]. unfold woken. lia.
Qed.

(** Interrupts never take away what keeps the keyboard task alive. *)
Lemma adds_wakeable c g g' : adds c g (Ok g') -> wakeable g -> wakeable g'.
Proof.
  intros H [[Hs Hr]|Hin]; inversion H; subst; unfold wakeable, woken, scancodes, registered in *; simpl in *.
  - by left.
  - congruence.
  - right. rewrite H6. apply elem_of_app. right. by apply list_elem_of_singleton.
  - by right.
  - by right.
  - right. rewrite H6. apply elem_of_app. by left.
Qed.

Lemma adds_woken c g g' :
  adds c g (Ok g') ->
  (KEYS ∈ woken g -> KEYS ∈ woken g') /\ (length (woken g') <= S (length (woken g)))%nat.
Proof.
  intros H. inversion H; subst; unfold woken in *; simpl in *; [split; [done|lia]..|].
  rewrite H6, elem_of_app, length_app. simpl. split; [by left|lia].
Qed.

Lemma adds_suspended c o g g' : adds c g (Ok g') -> suspended_ok o g -> suspended_ok o g'.
Proof. intros H. destruct o; simpl; [by eapply adds_wakeable|]. by eapply (adds_woken c g g' H). Qed.

Lemma adds_stage c st g g' : adds c g (Ok g') -> stage_ok st g -> stage_ok st g'.
Proof.
  intros H. destruct st as [| | | |[[]|]]; simpl; try done; [|by eapply adds_wakeable].
  intros [Hr|Hin]; [|right; by eapply (adds_woken c g g' H)].
  inversion H; subst; unfold registered, woken in *; simpl in *; [by left|congruence|].
  right. rewrite H6. apply elem_of_app. right. by apply list_elem_of_singleton.
Qed.

Lemma adds_globals c g g' : adds c g (Ok g') -> globals_ok g -> globals_ok g'.
Proof.
  intros H [? ? ?]. inversion H; subst; constructor; simpl; try done; unfold registered; simpl; by left.
Qed.

Lemma adds_cell c b g g' : adds c g (Ok g') -> cell_ok b g -> cell_ok b g'.
Proof.
  intros H. unfold cell_ok.
  inversion H as [|? ? ? ? Hr (q & Eq & _ & Hc)|? ? ? ? ? Hr (q & Eq & _ & Hc)|]; subst; simpl; [done|..].
  all: rewrite Eq; unfold has_room in Hr; destruct (oc_try_get (SCANCODE_QUEUE g)); [naive_solver|done].
Qed.

Lemma adds_scancodes c g g' :
  adds c g (Ok g') -> scancodes g' = scancodes g ++ stored c g.
Proof.
  intros H. inversion H as [? ? Hr|x ? ? -> Hr (q & Eq & Hi & _)|x ? ? ? -> Hr (q & Eq & Hi & _)|]; subst.
  - rewrite Hr. by rewrite app_nil_r.
  - simpl. rewrite Hr. unfold scancodes in *. simpl. by rewrite Eq.
  - simpl. rewrite Hr. unfold scancodes in *. simpl. by rewrite Eq.
Qed.

Lemma pc_ok_interrupted c o p g g' :
  adds c g (Ok g') -> pc_ok o p true g ->
  pc_ok o (match p with Halted => RunPop | _ => p end) true g'.
Proof.
  intros H. pose proof (adds_suspended c o g g' H) as Hs. pose proof (fun st => adds_stage c st g g' H) as Ht.
  destruct p; simpl; naive_solver.
Qed.

(** A delivered interrupt, once its handler has returned. *)
Lemma interrupted_inv c v s g1 :
  inv s -> interrupts_enabled s = true ->
  adds c (set_PICS (pic_deliver (as_u8 v) (PICS (globals s))) (globals s)) (Ok g1) ->
  let s1 := resume (set_globals (set_PICS (pic_notify_end_of_interrupt (as_u8 v) (PICS g1)) g1) s) in
  PICS g1 = pic_deliver (as_u8 v) (PICS (globals s)) ->
  inv (match c with Some x => if has_room (globals s) then log_accepted x s1 else s1 | None => s1 end).
Proof.
  intros [Hg Hp Hc Ho (o & Ht & Hcell & Hpc) Hh] Hen H s1 HP.
  set (g0 := set_PICS (pic_deliver (as_u8 v) (PICS (globals s))) (globals s)) in *.
  assert (Epc : pc s1 = match pc s with Halted => RunPop | _ => pc s end)
    by (unfold s1, resume; simpl; destruct (pc s) eqn:Es; simpl; congruence).
  assert (Eg : globals s1 = set_PICS (pic_notify_end_of_interrupt (as_u8 v) (PICS g1)) g1)
    by (unfold s1, resume; simpl; by destruct (pc s)).
  assert (Eqs : tasks s1 = tasks s /\ waker_cache s1 = waker_cache s /\ consumed s1 = consumed s /\
    accepted s1 = accepted s /\ interrupts_enabled s1 = true) by (unfold s1, resume; simpl; by destruct (pc s)).
  destruct Eqs as (Et & Ew & Eco & Ea & Ei).
  assert (Hgo : globals_ok (globals s1)).
  { assert (Hg0 : globals_ok g0) by (destruct Hg; by constructor).
    rewrite Eg. apply (adds_globals _ _ _ H) in Hg0 as []. by constructor. }
  assert (Hpics : forall v', pic_accepts (as_u8 v') (PICS (globals s1)) = true).
  { intros v'. rewrite Eg. simpl. rewrite HP, pic_eoi by apply Hp. apply Hp. }
  assert (Hkeys : exists o, tasks s1 !! KEYS = Some (mkTask KEYS (print_keypresses o)) /\
    cell_ok (is_started o (pc s1)) (globals s1) /\ pc_ok o (pc s1) (interrupts_enabled s1) (globals s1)).
  { exists o. rewrite Et, Ei, Epc, Eg. split_and!; [done| |].
    - assert (Hst : is_started o (match pc s with Halted => RunPop | _ => pc s end) = is_started o (pc s))
        by (by destruct (pc s)). rewrite Hst. apply (adds_cell _ _ _ _ H Hcell).
    - rewrite Hen in Hpc. apply (pc_ok_interrupted _ _ _ _ _ H Hpc). }
  assert (Hif : in_flight (pc s1) = in_flight (pc s)) by (rewrite Epc; by destruct (pc s)).
  assert (Hsc : scancodes (globals s1) = scancodes (globals s) ++ stored c (globals s)).
  { rewrite Eg. apply (adds_scancodes _ _ _ H). }
  unfold stored in Hsc. destruct c as [x|]; [destruct (has_room (globals s))|]; constructor; simpl; try done;
    rewrite ?Ew, ?Et, ?Eco, ?Ea, ?Hif, ?Hsc; try done.
  - rewrite <- Hh, <- !app_assoc. done.
  - by rewrite app_nil_r.
  - by rewrite app_nil_r.
Qed.

(** ** What an operation of the kernel does *)

(** The operations until the processor halts, if no interrupt arrives: at most 20
    for each task that was woken and each scancode, and a few that depend on where
    it stands. *)
Definition weight (c : program_counter K) (idle : bool) : nat :=
  match c with
  | Halted => 0
  | SleepHlt => 1
  | SleepRecheck => if idle then 2 else 8
  | SleepDisable => if idle then 3 else 9
  | SleepCheck => if idle then 4 else 6
  | RunPop => 5
  | SleepEnable => 6
  | RunTask _ => 20
  | InStream _ _ _ FastPop => 15
  | InStream _ _ _ Register => 14
  | InStream _ _ _ SecondPop => 13
  | InStream _ _ _ (Return Pending) => 12
  | InStream _ _ _ (TakeWaker _) => 31
  | InStream _ _ _ (Return (Ready _)) => 30
  | Handle _ _ _ _ => 29
  end.
Definition steps_left (s : sys) : nat :=
  20 * length (woken (globals s)) + 20 * length (scancodes (globals s))
  + weight (pc s) (aq_is_empty (task_queue (globals s))).

Record progress (s s' : sys) : Prop := {
  p_inv : inv s';
  p_accepted : accepted s' = accepted s;
  p_woken : (length (woken (globals s')) <= length (woken (globals s)))%nat;
  p_steps : (steps_left s' < steps_left s)%nat;
}.

Lemma pop_scancode_ok b (g : statics) :
  cell_ok b g -> b = true ->
  match scancodes g with
  | [] => pop_scancode g = Ok (None, g)
  | x :: xs => exists cell, pop_scancode g = Ok (Some x, set_SCANCODE_QUEUE cell g) /\
      cell_ok true (set_SCANCODE_QUEUE cell g) /\ scancodes (set_SCANCODE_QUEUE cell g) = xs
  end.
Proof.
  unfold cell_ok, scancodes, pop_scancode. intros Hc ->.
  destruct (oc_try_get (SCANCODE_QUEUE g)) as [q|] eqn:Eq; [|done]. destruct Hc as [_ Hcap]. simpl.
  destruct (aq_items q) as [|x xs] eqn:Ei; [by rewrite aq_pop_nil|].
  destruct (aq_pop_cons _ _ _ Ei) as (q' & -> & Hi & Hc'). eexists. split; [done|]. simpl.
  rewrite (oc_get_write q' q) by done. split; [split; [done|congruence]|done].
Qed.

Lemma step_RunPop s : inv s -> pc s = RunPop -> exists s', main_step s = Ok s' /\ progress s s'.
Proof.
  intros [Hg Hp Hc Ho (o & Ht & Hcell & Hpc) Hh] Epc. unfold main_step. rewrite Epc in *. simpl in *.
  pose proof (aq_pop_inv (task_queue (globals s))) as Hpop. destruct Hpc as [Hen Hs].
  destruct (aq_pop (task_queue (globals s))) as [[i q]|].
  - destruct Hpop as [Hi Hcq]. eexists. split; [reflexivity|].
    assert (Hw : woken (globals s) = i :: aq_items q) by done.
    split; simpl; [constructor; simpl| | |]; try done.
    + destruct Hg. constructor; simpl; try done. congruence.
    + exists o. split_and!; [done|done|done|]. destruct (decide (i = KEYS)) as [->|Hne]; [by left|right].
      destruct o as [k|]; simpl in *; [destruct Hs as [Hs|Hs]; [by left|right]|]; unfold woken in *; simpl;
        rewrite Hw in Hs; set_solver.
    + rewrite Hw. simpl. unfold woken. simpl. lia.
    + unfold steps_left. rewrite Epc, Hw. unfold woken. simpl. unfold scancodes. simpl. lia.
  - eexists. split; [reflexivity|]. split; simpl; [constructor; simpl; try done; by exists o|done|done|].
    unfold steps_left. rewrite Epc. simpl. rewrite (proj2 (aq_is_empty_true _) Hpop). lia.
Qed.

Lemma step_RunTask s i : inv s -> pc s = RunTask i -> exists s', main_step s = Ok s' /\ progress s s'.
Proof.
  intros [Hg Hp Hc Ho (o & Ht & Hcell & Hpc) Hh] Epc. unfold main_step. rewrite Epc in *. simpl in *.
  destruct Hpc as [Hen Hs]. rewrite Executor.entry_or_insert_spec by apply Hc.
  assert (Hc' : forall j w, <[i := FromTaskWaker i]> (waker_cache s) !! j = Some w -> w = FromTaskWaker j).
  { intros j w [[<- <-]|[_ Hj]]%lookup_insert_Some; [done|by apply Hc]. }
  destruct (decide (i = KEYS)) as [->|Hne].
  - rewrite Ht. simpl. destruct o as [k|]; simpl.
    + eexists. split; [reflexivity|]. split; simpl; [constructor; simpl; try done; by exists (Some k)|done|done|].
      unfold steps_left. rewrite Epc. simpl. lia.
    + unfold cell_ok in Hcell. destruct (oc_try_get (SCANCODE_QUEUE (globals s))) eqn:Eq; [naive_solver|].
      destruct (aq_new_spec (A := Z) (Q := QS) 100 ltac:(lia)) as [Hni Hnc].
      destruct (oc_init_first (aq_new 100) _ Eq) as (cell & Hin & Hget).
      unfold ScancodeStream_new. rewrite Hin. simpl.
      assert (Hsc : scancodes (set_SCANCODE_QUEUE cell (globals s)) = scancodes (globals s)).
      { unfold scancodes. simpl. by rewrite Hget, Eq, Hni. }
      eexists. split; [reflexivity|]. split; simpl; [constructor; simpl; try done| done|done|].
      * destruct Hg. by constructor.
      * exists None. split_and!; try done. unfold cell_ok. simpl. by rewrite Hget.
      * by rewrite Hsc.
      * unfold steps_left. simpl. rewrite Hsc, Epc. unfold woken. simpl. lia.
  - destruct Hs as [?|Hs]; [done|]. destruct (tasks s !! i) as [task|] eqn:Ei.
    2: { eexists. split; [reflexivity|]. split; simpl; [constructor; simpl; try done; by exists o|done|done|].
         unfold steps_left. rewrite Epc. simpl. lia. }
    rewrite (Ho _ _ Hne Ei). cbn [enter_poll globals set_cache].
    destruct (main_println_ok (bytes_of "async number: 42") (globals s)) as (sc & -> & Hsc); [apply Hg|].
    simpl. eexists. split; [reflexivity|]. split; simpl; [constructor; simpl; try done|done|done|].
    + destruct Hg. by constructor.
    + intros j w [_ Hj]%lookup_delete_Some. by apply Hc'.
    + intros j t Hj [_ Hjt]%lookup_delete_Some. by eapply Ho.
    + exists o. rewrite lookup_delete_ne by done. done.
    + unfold steps_left. rewrite Epc. unfold woken, scancodes. simpl. lia.
Qed.

(** [pop] in [poll_next]: a scancode moves from the queue into flight. *)
Lemma step_pop s k st found missed :
  inv s -> pc s = InStream KEYS keys_waker k st ->
  main_step s = ('(r, g) ← pop_scancode (globals s);
    Ok (set_pc (InStream KEYS keys_waker k
          (match r with Some x => found x | None => missed end)) (set_globals g s))) ->
  in_flight (pc s) = [] ->
  (forall x, in_flight (InStream KEYS keys_waker k (found x)) = [x] /\
     forall g, stage_ok (found x) g) ->
  in_flight (InStream KEYS keys_waker k missed) = [] ->
  (scancodes (globals s) = [] -> stage_ok missed (globals s)) ->
  (forall b x, (weight (InStream KEYS keys_waker k (found x)) b < 20 + weight (pc s) b)%nat) ->
  (forall b, (weight (InStream KEYS keys_waker k missed) b < weight (pc s) b)%nat) ->
  exists s', main_step s = Ok s' /\ progress s s'.
Proof.
  intros [Hg Hp Hc Ho (o & Ht & Hcell & Hpc) Hh] Epc Estep Hfl Hfound Hmfl Hmissed Hw1 Hw2.
  rewrite Estep. pose proof (pop_scancode_ok _ _ Hcell) as Hpop. rewrite Epc in Hpop, Hcell, Hpc.
  specialize (Hpop eq_refl). destruct Hpc as [Hen _].
  rewrite Hfl in Hh. destruct (scancodes (globals s)) as [|x xs] eqn:Es.
  - rewrite Hpop. cbn [mbind res_bind]. eexists. split; [reflexivity|]. split; simpl; [constructor; simpl; try done|done|done|].
    + exists o. rewrite Hen. split_and!; try done; by apply Hmissed.
    + simpl in Hmfl. rewrite Hmfl, Es. done.
    + unfold steps_left. simpl. rewrite Es. specialize (Hw2 (aq_is_empty (task_queue (globals s)))).
      simpl in Hw2. lia.
  - destruct Hpop as (cell & -> & Hcell' & Hsc). cbn [mbind res_bind]. eexists. split; [reflexivity|].
    destruct (Hfound x) as [Hf1 Hf2].
    split; simpl; [constructor; simpl; try done|done|done|].
    + destruct Hg. by constructor.
    + exists o. rewrite Hen. split_and!; try done; apply Hf2.
    + simpl in Hf1. rewrite Hf1, Hsc. done.
    + unfold steps_left. simpl. rewrite Hsc, Es. unfold woken. simpl.
      specialize (Hw1 (aq_is_empty (task_queue (globals s))) x). simpl in Hw1. lia.
Qed.

Lemma step_InStream s i w k st :
  inv s -> pc s = InStream i w k st -> exists s', main_step s = Ok s' /\ progress s s'.
Proof.
  intros Hinv Epc. pose proof Hinv as [Hg Hp Hc Ho (o & Ht & Hcell & Hpc) Hh].
  rewrite Epc in Hpc. destruct Hpc as (Hen & -> & -> & Hst).
  destruct st as [| | |x|[[x|]|]].
  - apply (step_pop s k FastPop (fun x => Return (Ready (Some x))) Register); try done; rewrite ?Epc; try done.
    + unfold main_step. rewrite Epc. simpl. by destruct (pop_scancode _) as [[[|] ?]| | |].
    + simpl. lia.
    + simpl. lia.
  - unfold main_step. rewrite Epc in *. simpl. eexists. split; [reflexivity|].
    split; simpl; [constructor; simpl; try done|done|done|].
    + destruct Hg. constructor; simpl; try done. right. unfold registered. simpl. apply aw_registered_register.
    + exists o. split_and!; try done. left. unfold registered. simpl. apply aw_registered_register.
    + unfold steps_left. simpl. rewrite Epc. unfold woken, scancodes. simpl. lia.
  - apply (step_pop s k SecondPop TakeWaker (Return Pending)); try done; rewrite ?Epc; try done.
    + unfold main_step. rewrite Epc. simpl. by destruct (pop_scancode _) as [[[|] ?]| | |].
    + intros Hs. simpl. destruct Hst as [Hr|Hin]; [by left|by right].
    + simpl. lia.
    + simpl. lia.
  - unfold main_step. rewrite Epc in *. simpl. eexists. split; [reflexivity|].
    split; simpl; [constructor; simpl; try done|done|done|].
    + destruct Hg. constructor; simpl; try done. left. unfold registered. simpl. apply aw_take_spec.
    + exists o. split_and!; done.
    + unfold steps_left. simpl. rewrite Epc. unfold woken, scancodes. simpl. lia.
  - unfold main_step. rewrite Epc in *. eexists. split; [reflexivity|].
    split; simpl; [constructor; simpl; try done|done|done|].
    + exists o. split_and!; done.
    + unfold steps_left. simpl. rewrite Epc. simpl. lia.
  - done.
  - unfold main_step. rewrite Epc in *. eexists. split; [reflexivity|].
    split; simpl; [constructor; simpl; try done|done|done|].
    + intros j t Hj Hjt. rewrite lookup_insert_ne in Hjt by done. by eapply Ho.
    + exists (Some k). rewrite lookup_insert_eq. split_and!; done.
    + unfold steps_left. simpl. rewrite Epc. simpl. lia.
Qed.

Lemma handle_scancode_ok x k (g : statics) :
  Screen.wf (screen g) ->
  exists k' sc, handle_scancode x k g = Ok (k', set_screen sc g) /\ Screen.wf sc.
Proof.
  intros Hsc. unfold handle_scancode.
  assert (Hid : g = set_screen (screen g) g) by (by destruct g).
  destruct (kb_add_byte x k) as [[[ev|]|] k1]; [|by exists k1, (screen g); rewrite <- Hid..].
  destruct (kb_process_keyevent ev k1) as [[key|] k2]; [|by exists k2, (screen g); rewrite <- Hid].
  destruct (print_ok (kb_fmt key) g Hsc) as (sc & -> & ?). by exists k2, sc.
Qed.

Lemma step_Handle s i w k x :
  inv s -> pc s = Handle i w k x -> exists s', main_step s = Ok s' /\ progress s s'.
Proof.
  intros [Hg Hp Hc Ho (o & Ht & Hcell & Hpc) Hh] Epc. unfold main_step. rewrite Epc in *. simpl in *.
  destruct Hpc as (Hen & -> & ->).
  destruct (handle_scancode_ok x k (globals s)) as (k' & sc & -> & Hsc); [apply Hg|].
  simpl. eexists. split; [reflexivity|]. split; simpl; [constructor; simpl; try done|done|done|].
  - destruct Hg. by constructor.
  - exists o. split_and!; done.
  - by rewrite <- Hh, <- app_assoc.
  - unfold steps_left. simpl. rewrite Epc. unfold woken, scancodes. simpl. lia.
Qed.

Definition sleeping (c : program_counter K) : bool :=
  match c with SleepCheck | SleepDisable | SleepRecheck | SleepHlt | SleepEnable => true | _ => false end.

(** A step that changes only the program counter and the interrupt flag. *)
Lemma step_control s c b :
  inv s -> in_flight (pc s) = [] -> in_flight c = [] -> in_poll (pc s) = false -> in_poll c = false ->
  (forall o, pc_ok o (pc s) (interrupts_enabled s) (globals s) -> pc_ok o c b (globals s)) ->
  (weight c (aq_is_empty (task_queue (globals s)))
   < weight (pc s) (aq_is_empty (task_queue (globals s))))%nat ->
  progress s (set_pc c (set_interrupts b s)).
Proof.
  intros [Hg Hp Hc Ho (o & Ht & Hcell & Hpc) Hh] Hf1 Hf2 Hs1 Hs2 Hok Hw.
  split; simpl; [constructor; simpl; try done|done|done|].
  - exists o. split_and!; [done| |by apply Hok]. unfold is_started in *. rewrite Hs1 in Hcell. by rewrite Hs2.
  - rewrite Hf1 in Hh. by rewrite Hf2.
  - unfold steps_left. simpl. lia.
Qed.

Lemma step_sleep s : inv s -> sleeping (pc s) = true -> exists s', main_step s = Ok s' /\ progress s s'.
Proof.
  intros Hinv Hsl. unfold main_step.
  assert (Hid : forall c, set_pc c s = set_pc c (set_interrupts (interrupts_enabled s) s)) by (by destruct s).
  destruct (pc s) eqn:Epc; try done; (eexists; split; [reflexivity|]).
  - rewrite Hid. destruct (aq_is_empty (task_queue (globals s))) eqn:Ee;
      apply step_control; rewrite ?Epc, ?Ee; try done; simpl; lia.
  - apply step_control; rewrite ?Epc; try done; [by intros o [_ H]|].
    simpl. destruct (aq_is_empty _); lia.
  - rewrite Hid. destruct (aq_is_empty (task_queue (globals s))) eqn:Ee;
      apply step_control; rewrite ?Epc, ?Ee; try done; simpl; try lia.
    intros o [H1 H2]. split_and!; try done. by apply aq_is_empty_true.
  - apply step_control; rewrite ?Epc; try done; [by intros o [_ H]|simpl; lia].
  - apply step_control; rewrite ?Epc; try done; [by intros o [_ H]|simpl; lia].
Qed.

(** ** Runs *)

Lemma main_step_ok s :
  inv s -> (pc s = Halted /\ main_step s = Ok s) \/ exists s', main_step s = Ok s' /\ progress s s'.
Proof.
  intros Hinv. destruct (pc s) eqn:Epc.
  - right. by apply step_RunPop.
  - right. by eapply step_RunTask.
  - right. by eapply step_InStream.
  - right. by eapply step_Handle.
  - right. apply step_sleep; [done|by rewrite Epc].
  - right. apply step_sleep; [done|by rewrite Epc].
  - right. apply step_sleep; [done|by rewrite Epc].
  - right. apply step_sleep; [done|by rewrite Epc].
  - right. apply step_sleep; [done|by rewrite Epc].
  - left. split; [done|]. unfold main_step. by rewrite Epc.
Qed.

(** In [hlt] nothing is left to do. *)
Lemma halted_idle s :
  inv s -> pc s = Halted ->
  scancodes (globals s) = [] /\ woken (globals s) = [] /\ consumed s = accepted s /\
  registered (globals s) = Some keys_waker /\ interrupts_enabled s = true /\ cell_ok true (globals s).
Proof.
  intros [_ _ _ _ (o & _ & Hcell & Hok) Hh] Hpc. rewrite Hpc in *. destruct Hok as (Hen & Hw & Hs).
  destruct o as [k|]; simpl in Hs; [|rewrite Hw in Hs; by apply not_elem_of_nil in Hs].
  destruct Hs as [[Hsc Hr]|Hs]; [|rewrite Hw in Hs; by apply not_elem_of_nil in Hs].
  rewrite Hsc in Hh. simpl in Hh. rewrite app_nil_r in Hh. done.
Qed.

(** Left alone, the kernel handles every scancode and halts. *)
Lemma halts n : forall s,
  inv s -> (steps_left s <= n)%nat ->
  exists s', run_events (replicate n EMain) s = Ok s' /\ inv s' /\ pc s' = Halted /\ accepted s' = accepted s.
Proof.
  induction n as [|n IH]; intros s Hinv Hn.
  - destruct (main_step_ok s Hinv) as [[Hh _]|(s' & _ & [])]; [by exists s|lia].
  - change (run_events (replicate (S n) EMain) s)
      with (s1 ← main_step s; run_events (replicate n EMain) s1).
    destruct (main_step_ok s Hinv) as [[Hh E1]|(s' & E1 & [Hi Ha _ Hs])]; rewrite E1; cbn [mbind res_bind].
    + apply IH; [done|]. destruct (halted_idle s Hinv Hh) as (Hs & Hw & _). unfold steps_left.
      rewrite Hh, Hs, Hw. simpl. lia.
    + destruct (IH s') as (s2 & E2 & ? & ? & ?); [done|lia|]. exists s2. split_and!; try done. congruence.
Qed.

Lemma adds_PICS c g g' : adds c g (Ok g') -> PICS g' = PICS g.
Proof. intros H. by inversion H. Qed.

Lemma resume_woken (s : sys) g : woken (globals (resume (set_globals g s))) = woken g.
Proof. unfold resume. simpl. by destruct (pc s). Qed.

(** What is kept by every event, and when one panics. *)
Definition event_ok (e : event) (s : sys) (r : res sys) : Prop :=
  match r with
  | Ok s' => inv s' /\
      (length (woken (globals s')) <= length (woken (globals s)) + if is_keyboard e then 1 else 0)%nat
  | Panic p => p = UnwrapFailed "task queue full" /\ is_keyboard e = true /\ (100 <= length (woken (globals s)))%nat
  | _ => False
  end.

Lemma timer_ok s : inv s -> event_ok ETimer s (sys_step ETimer s).
Proof.
  intros Hinv. cbn [sys_step]. unfold interrupt. rewrite (i_pics s Hinv), andb_true_r.
  destruct (interrupts_enabled s) eqn:Hen; [|by split; [|simpl; lia]].
  set (g0 := set_PICS _ _). unfold timer_interrupt_handler.
  destruct (print_ok (bytes_of ".") g0) as (sc & -> & Hsc); [apply Hinv|]. cbn [mbind res_bind].
  assert (Hadd : adds None g0 (Ok (set_screen sc g0))) by (by apply adds_print).
  split; [by apply (interrupted_inv None Timer s (set_screen sc g0))|].
  rewrite resume_woken. unfold woken. simpl. lia.
Qed.

Lemma keyboard_ok c s : inv s -> event_ok (EKeyboard c) s (sys_step (EKeyboard c) s).
Proof.
  intros Hinv. cbn [sys_step]. unfold interrupt. rewrite (i_pics s Hinv), !andb_true_r.
  destruct (interrupts_enabled s) eqn:Hen; [|by split; [|simpl; lia]].
  set (g0 := set_PICS _ _). unfold keyboard_interrupt_handler.
  pose proof Hinv as [Hg Hp _ _ (o & _ & Hcell & _) _].
  assert (Hadd : adds (Some c) g0 (add_scancode c g0)).
  { eapply add_scancode_spec; [destruct Hg; by constructor|exact Hcell]. }
  destruct (add_scancode c g0) as [g1|p| |] eqn:Ea; cbn [mbind res_bind].
  - pose proof (interrupted_inv (Some c) Keyboard s g1 Hinv Hen Hadd (adds_PICS _ _ _ Hadd)) as Hi.
    destruct (adds_woken _ _ _ Hadd) as [_ Hw]. cbn [andb].
    destruct (has_room (globals s)); (split; [exact Hi|]); cbn [log_accepted globals];
      rewrite resume_woken; unfold woken in *; simpl in *; lia.
  - inversion Hadd. by split_and!.
  - inversion Hadd.
  - inversion Hadd.
Qed.

Lemma event_ok_step e s : inv s -> event_ok e s (sys_step e s).
Proof.
  intros Hinv. destruct e; [|by apply timer_ok|by apply keyboard_ok].
  destruct (main_step_ok s Hinv) as [[_ E1]|(s' & E1 & [])]; cbn [sys_step]; rewrite E1; (split; [done|]); simpl; lia.
Qed.

(** The running kernel goes on, or panics for one reason. *)
Lemma run_events_outcome es : forall s,
  inv s -> match run_events es s with Ok s' => inv s' | Panic p => p = UnwrapFailed "task queue full" | _ => False end.
Proof.
  induction es as [|e es IH]; intros s Hinv; [done|].
  change (run_events (e :: es) s) with (s1 ← sys_step e s; run_events es s1).
  pose proof (event_ok_step e s Hinv) as He. destruct (sys_step e s) as [s1|q| |]; simpl; try done; [|apply He].
  apply IH, He.
Qed.

Lemma run_events_inv es s s' : inv s -> run_events es s = Ok s' -> inv s'.
Proof. intros Hi E1. pose proof (run_events_outcome es s Hi) as Ho. by rewrite E1 in Ho. Qed.

(** Few enough keyboard interrupts cannot fill the task queue. *)
Lemma run_events_total es : forall s,
  inv s -> (length (woken (globals s)) + length (filter (fun e => is_keyboard e = true) es) <= 100)%nat ->
  exists s', run_events es s = Ok s'.
Proof.
  induction es as [|e es IH]; intros s Hinv Hn; [by exists s|].
  change (run_events (e :: es) s) with (s1 ← sys_step e s; run_events es s1).
  pose proof (event_ok_step e s Hinv) as He. rewrite filter_cons in Hn.
  destruct (sys_step e s) as [s1|p| |]; simpl in *; try done.
  - destruct He as [Hi Hw]. apply IH; [done|]. case_decide; simpl in *; destruct (is_keyboard e); (done || lia).
  - destruct He as (_ & He & Hw). rewrite decide_True in Hn by done. simpl in Hn. lia.
Qed.

(** ** The start *)

(** The statics before the executor runs: nothing registered yet, and the interrupt
    controllers initialised. *)
Record fresh_statics (g : statics) : Prop := {
  fs_cell : SCANCODE_QUEUE g = oc_uninit;
  fs_waker : WAKER g = aw_new;
  fs_screen : Screen.wf (screen g);
  fs_pics : forall v, pic_accepts (as_u8 v) (PICS g) = true;
}.

(** The state of the kernel when [kernel_main] calls [executor.run()]. *)
Definition boots (s : sys) : Prop :=
  exists ex n g, spawn_kernel_tasks 0 = Ok (ex, n) /\ fresh_statics g /\ s = start ex g.

Lemma boots_spec s : boots s -> inv s /\ length (woken (globals s)) = 2%nat /\ accepted s = [].
Proof.
  intros (ex & n & g & Hsp & [Hcell Hwk Hsc Hp] & ->).
  destruct (Spawn.spawn_all_spawned (Q := QT) 0 [example_task; @print_keypresses K None])
    as ([ex' n'] & E' & [Hq Hcap Hdom Htasks _ [Hids Hcache]]); [by split|simpl; lia|].
  unfold spawn_kernel_tasks in Hsp. rewrite Hsp in E'. injection E' as <- <-. simpl in *.
  split_and!; [|unfold woken; simpl; by rewrite Hq|done].
  assert (Hno : scancodes (set_task_queue (Executor.task_queue ex) g) = []).
  { unfold scancodes. simpl. by rewrite Hcell, oc_get_uninit. }
  constructor; simpl; [constructor; simpl|done| | | |]; try done.
  - left. unfold registered. simpl. rewrite Hwk. apply aw_registered_new.
  - intros i w Hw. by apply Hcache in Hw as [-> _].
  - intros i t Hi Ht. destruct (decide (i = 0)) as [->|Hi0].
    + pose proof (Htasks 0%nat example_task eq_refl) as H0. change ((0 + Z.of_nat 0) mod WORD) with 0 in H0.
      rewrite H0 in Ht. by injection Ht as <-.
    + rewrite (Hdom i) in Ht; [done|]. unfold Spawn.ids. simpl. unfold KEYS in Hi. set_solver.
  - exists None. split_and!; [by apply (Htasks 1%nat)| |done|].
    + unfold cell_ok. simpl. by rewrite Hcell, oc_get_uninit.
    + simpl. unfold woken. simpl. rewrite Hq. unfold KEYS. by right; left.
Qed.

(** ** Histories *)

(** The scancodes that the controller sent. *)
Definition typed (es : list event) : list Z :=
  omap (fun e => match e with EKeyboard c => Some c | _ => None end) es.

Lemma sys_step_accepted e s s' :
  inv s -> sys_step e s = Ok s' ->
  accepted s' = accepted s \/ accepted s' = accepted s ++ typed [e].
Proof.
  intros Hinv. destruct e as [| |c]; cbn [sys_step].
  - intros E1. destruct (main_step_ok s Hinv) as [[_ E2]|(s2 & E2 & [])]; rewrite E2 in E1;
      injection E1 as <-; by left.
  - unfold interrupt. destruct (_ && _); [|intros E1; left; congruence].
    destruct (timer_interrupt_handler _); simpl; try done. intros [= <-]. left.
    unfold resume. simpl. by destruct (pc s).
  - unfold interrupt. rewrite (i_pics s Hinv), !andb_true_r.
    destruct (interrupts_enabled s); simpl; [|intros E1; left; congruence].
    destruct (keyboard_interrupt_handler _ _); simpl; try done. intros [= <-].
    destruct (has_room _); [right|left]; unfold resume; simpl; by destruct (pc s).
Qed.

Lemma run_events_accepted es : forall s s',
  inv s -> run_events es s = Ok s' -> exists l, accepted s' = accepted s ++ l /\ sublist l (typed es).
Proof.
  induction es as [|e es IH]; intros s s' Hinv.
  { intros [= <-]. exists []. by rewrite app_nil_r. }
  change (run_events (e :: es) s) with (s1 ← sys_step e s; run_events es s1).
  pose proof (event_ok_step e s Hinv) as He. pose proof (sys_step_accepted e s) as Ha.
  destruct (sys_step e s) as [s1| | |]; cbn [mbind res_bind]; try done. intros E2.
  destruct (IH s1 s') as (l & Hl & Hsub); [apply He|done|].
  assert (Ht : typed (e :: es) = typed [e] ++ typed es) by (destruct e; done).
  destruct (Ha s1 Hinv eq_refl) as [E1|E1]; rewrite E1 in Hl.
  - exists l. split; [done|]. rewrite Ht. by apply sublist_inserts_l.
  - exists (typed [e] ++ l). rewrite Hl, <- app_assoc, Ht. split; [done|]. by apply sublist_app.
Qed.

(** ** Filling the task queue *)

(** The first task has run, and the keyboard task is polled for the first time. *)
Definition first_poll : list event := replicate 4 EMain.
(** A scancode that arrives after the waker was registered and before the second
    [pop], and its handling up to the next [poll_next]. *)
Definition hit (c : Z) : list event :=
  [EMain; EMain; EKeyboard c; EMain; EMain; EMain; EMain].

(** The keyboard task is about to look for a scancode, there is none; it has handled
    [cs], and been woken for each of them. *)
Record polling (cs : list Z) (s : sys) : Prop := {
  po_inv : inv s;
  po_pc : exists k, pc s = InStream KEYS keys_waker k FastPop;
  po_scancodes : scancodes (globals s) = [];
  po_woken : woken (globals s) = replicate (length cs) KEYS;
  po_consumed : consumed s = cs;
}.

Lemma run_step e es s s1 :
  inv s -> sys_step e s = Ok s1 -> inv s1 /\ run_events (e :: es) s = run_events es s1.
Proof.
  intros Hi E1. pose proof (event_ok_step e s Hi) as He. rewrite E1 in He. split; [apply He|].
  change (run_events (e :: es) s) with (s1 ← sys_step e s; run_events es s1). by rewrite E1.
Qed.

(** A scancode that arrives while the waker is registered and the queue is empty. *)
Lemma key_wakes c s k :
  inv s -> pc s = InStream KEYS keys_waker k SecondPop -> scancodes (globals s) = [] ->
  registered (globals s) = Some keys_waker ->
  match sys_step (EKeyboard c) s with
  | Ok s' => (length (woken (globals s)) < 100)%nat /\ pc s' = pc s /\ scancodes (globals s') = [c] /\
      woken (globals s') = woken (globals s) ++ [KEYS] /\ consumed s' = consumed s
  | Panic p => p = UnwrapFailed "task queue full" /\ (100 <= length (woken (globals s)))%nat
  | Undef => False
  | Diverge => False
  end.
Proof.
  intros [[_ _ Hcap] Hp _ _ (o & _ & Hcell & Hpc) _] Epc Hsc Hr. rewrite Epc in Hpc. destruct Hpc as [Hen _].
  cbn [sys_step]. unfold interrupt. rewrite Hen, Hp. cbn [andb]. unfold keyboard_interrupt_handler, add_scancode.
  set (g0 := set_PICS _ _). unfold cell_ok in Hcell. unfold scancodes in Hsc.
  change (SCANCODE_QUEUE g0) with (SCANCODE_QUEUE (globals s)). change (WAKER g0) with (WAKER (globals s)).
  rewrite Epc in Hcell. destruct (oc_try_get (SCANCODE_QUEUE (globals s))) as [q|] eqn:Eq; [|done]. destruct Hcell as [_ Hc].
  destruct (aq_push_room c q) as (q' & -> & Hi' & _); [rewrite Hsc, Hc; simpl; lia|].
  cbv zeta. cbn [WAKER set_SCANCODE_QUEUE]. change (WAKER g0) with (WAKER (globals s)).
  destruct (aw_wake_spec (WAKER (globals s))) as [Hw _]. unfold registered in Hr. rewrite Hr in Hw.
  destruct (aw_wake (WAKER (globals s))) as [wk slot]. simpl in Hw. subst wk. cbn [wake keys_waker]. unfold wake_task.
  pose proof (aq_push_inv KEYS (task_queue (globals s))) as Hpush. cbn [task_queue set_WAKER set_SCANCODE_QUEUE].
  change (task_queue g0) with (task_queue (globals s)).
  destruct (aq_push KEYS (task_queue (globals s))) as [tq|]; cbn [expect mbind res_bind].
  2: { split; [done|]. unfold woken. lia. }
  destruct Hpush as (Hl & Hti & _). unfold has_room. rewrite Eq, bool_decide_eq_true_2 by (rewrite Hsc, Hc; simpl; lia).
  cbn [andb]. unfold resume. cbn [pc set_globals]. rewrite Epc. cbn [pc set_globals log_accepted globals].
  split_and!; [unfold woken; lia|done| |exact Hti|done].
  unfold scancodes. simpl. rewrite (oc_get_write q' q) by exact Eq. by rewrite Hi', Hsc.
Qed.

(** [pop] during a poll. *)
Lemma pop_in_poll s x :
  inv s -> in_poll (pc s) = true -> scancodes (globals s) = x ->
  match x with
  | [] => pop_scancode (globals s) = Ok (None, globals s)
  | y :: ys => exists cell, pop_scancode (globals s) = Ok (Some y, set_SCANCODE_QUEUE cell (globals s)) /\
      scancodes (set_SCANCODE_QUEUE cell (globals s)) = ys
  end.
Proof.
  intros [_ _ _ _ (o & _ & Hcell & _) _] Hin Hx. pose proof (pop_scancode_ok _ _ Hcell) as Hp.
  unfold is_started in Hp. rewrite Hin, Hx in Hp. specialize (Hp eq_refl). destruct x; [done|].
  destruct Hp as (cell & Ep & _ & Hs). by exists cell.
Qed.

Lemma hit_ok c cs s :
  polling cs s ->
  match run_events (hit c) s with
  | Ok s' => (length cs < 100)%nat /\ polling (cs ++ [c]) s'
  | Panic p => p = UnwrapFailed "task queue full" /\ (100 <= length cs)%nat
  | Undef => False
  | Diverge => False
  end.
Proof.
  intros [Hi [k Epc] Hsc Hw Hco]. unfold hit.
  destruct (run_step EMain [EMain; EKeyboard c; EMain; EMain; EMain; EMain] s
    (set_pc (InStream KEYS keys_waker k Register) (set_globals (globals s) s)) Hi) as [Hi1 ->].
  { cbn [sys_step]. unfold main_step. rewrite Epc. cbn [poll_next_step].
    by rewrite (pop_in_poll s [] Hi ltac:(by rewrite Epc) Hsc). }
  set (s1 := set_pc _ _) in *.
  destruct (run_step EMain [EKeyboard c; EMain; EMain; EMain; EMain] s1
    (set_pc (InStream KEYS keys_waker k SecondPop)
      (set_globals (set_WAKER (aw_register keys_waker (WAKER (globals s1))) (globals s1)) s1)) Hi1 eq_refl) as [Hi2 ->].
  set (s2 := set_pc (InStream KEYS keys_waker k SecondPop) _) in *.
  pose proof (key_wakes c s2 k Hi2 eq_refl Hsc (aw_registered_register _ _)) as Hk.
  change (woken (globals s2)) with (woken (globals s)) in Hk. rewrite Hw, length_replicate in Hk.
  change (run_events (EKeyboard c :: ?es) s2) with (s' ← sys_step (EKeyboard c) s2; run_events es s').
  destruct (sys_step (EKeyboard c) s2) as [s3|p| |] eqn:E3; [|done..].
  destruct (run_step (EKeyboard c) [] s2 s3 Hi2 E3) as [Hi3 _]. destruct Hk as (Hn & Epc3 & Hsc3 & Hw3 & Hco3). cbn [mbind res_bind].
  destruct (pop_in_poll s3 [c] Hi3 ltac:(by rewrite Epc3) Hsc3) as (cell & Ep & Hsc4).
  destruct (run_step EMain [EMain; EMain; EMain] s3
    (set_pc (InStream KEYS keys_waker k (TakeWaker c)) (set_globals (set_SCANCODE_QUEUE cell (globals s3)) s3)) Hi3) as [Hi4 ->].
  { cbn [sys_step]. unfold main_step. rewrite Epc3. cbn [pc s2 set_pc poll_next_step]. by rewrite Ep. }
  set (s4 := set_pc (InStream _ _ _ (TakeWaker c)) _) in *.
  destruct (run_step EMain [EMain; EMain] s4 (set_pc (InStream KEYS keys_waker k (Return (Ready (Some c))))
    (set_globals (set_WAKER (aw_take (WAKER (globals s4))).2 (globals s4)) s4)) Hi4 eq_refl) as [Hi5 ->].
  set (s5 := set_pc (InStream _ _ _ (Return _)) _) in *.
  destruct (run_step EMain [EMain] s5 (set_pc (Handle KEYS keys_waker k c) s5) Hi5 eq_refl) as [Hi6 ->].
  set (s6 := set_pc (Handle _ _ _ _) s5) in *.
  destruct (handle_scancode_ok c k (globals s6)) as (k' & sc & Eh & _); [apply Hi6|].
  destruct (run_step EMain [] s6 (log_consumed c (set_pc (InStream KEYS keys_waker k' FastPop)
    (set_globals (set_screen sc (globals s6)) s6))) Hi6) as [Hi7 ->].
  { cbn [sys_step]. unfold main_step. cbn [pc s6 set_pc]. by rewrite Eh. }
  split; [done|]. constructor; [done|by exists k'|exact Hsc4| |].
  - change (woken (globals s3) = replicate (length (cs ++ [c])) KEYS). rewrite Hw3, length_app, replicate_add. done.
  - change (consumed s3 ++ [c] = cs ++ [c]). rewrite Hco3. by rewrite <- Hco.
Qed.

Lemma hits_ok cs : forall done s,
  polling done s -> (length done <= 100)%nat ->
  match run_events (mjoin (hit <$> cs)) s with
  | Ok s' => (length (done ++ cs) <= 100)%nat /\ polling (done ++ cs) s'
  | Panic p => p = UnwrapFailed "task queue full" /\ (100 < length (done ++ cs))%nat
  | Undef => False
  | Diverge => False
  end.
Proof.
  induction cs as [|c cs IH]; intros dn s Hs Hn; [simpl; by rewrite app_nil_r|].
  change (mjoin (hit <$> c :: cs)) with (hit c ++ mjoin (hit <$> cs)). unfold run_events. rewrite for_each_app.
  pose proof (hit_ok c dn s Hs) as Hh. unfold run_events in Hh, IH. rewrite length_app.
  destruct (for_each sys_step (hit c) s) as [s1|p| |]; cbn [mbind res_bind]; [|simpl; split; [apply Hh|lia]|done..].
  destruct Hh as [Hlt Hs1]. specialize (IH (dn ++ [c]) s1 Hs1 ltac:(rewrite length_app; simpl; lia)).
  rewrite <- app_assoc, length_app in IH. exact IH.
Qed.

Lemma boots_woken s : boots s -> woken (globals s) = [0; KEYS].
Proof.
  intros (ex & n & g & Hsp & _ & ->).
  destruct (Spawn.spawn_all_spawned (Q := QT) 0 [example_task; @print_keypresses K None])
    as ([ex' n'] & E' & [Hq _ _ _ _ _]); [by split|simpl; lia|].
  unfold spawn_kernel_tasks in Hsp. rewrite Hsp in E'. injection E' as <- <-. simpl in *. unfold woken. simpl. by rewrite Hq.
Qed.

(** [RunPop] with a task in the queue. *)
Lemma pop_task i rest s :
  pc s = RunPop -> woken (globals s) = i :: rest ->
  exists q, sys_step EMain s = Ok (set_pc (RunTask i) (set_globals (set_task_queue q (globals s)) s)) /\ aq_items q = rest.
Proof.
  intros Epc Hw. destruct (aq_pop_cons _ _ _ Hw) as (q & Eq & Hi & _). exists q. split; [|done].
  cbn [sys_step]. unfold main_step. rewrite Epc, Eq. done.
Qed.

Lemma first_poll_ok s0 : boots s0 -> exists s, run_events first_poll s0 = Ok s /\ polling [] s.
Proof.
  intros Hb. pose proof (boots_spec s0 Hb) as (Hi & _ & Ha). pose proof (boots_woken s0 Hb) as Hw.
  assert (Epc : pc s0 = RunPop) by (destruct Hb as (ex & n & g & _ & _ & ->); done).
  assert (Hn : oc_try_get (SCANCODE_QUEUE (globals s0)) = None /\ consumed s0 = []).
  { destruct Hb as (ex & n & g & _ & [Hc _ _ _] & ->). simpl. by rewrite Hc, oc_get_uninit. }
  destruct Hn as [Hn Hco].
  destruct (pop_task 0 [KEYS] s0 Epc Hw) as (q & E1 & Hq). unfold first_poll. cbn [replicate].
  destruct (run_step EMain [EMain; EMain; EMain] s0 _ Hi E1) as [Hi1 ->]. set (s1 := set_pc (RunTask 0) _) in *.
  assert (exists s2, sys_step EMain s1 = Ok s2 /\ pc s2 = RunPop /\ woken (globals s2) = [KEYS] /\
    oc_try_get (SCANCODE_QUEUE (globals s2)) = None /\ consumed s2 = []) as (s2 & E2 & Epc2 & Hw2 & Hn2 & Hco2).
  { cbn [sys_step]. unfold main_step. cbn [pc s1 set_pc]. pose proof Hi1 as [[Hwf _ _] _ Hc Ho _ _].
    destruct (tasks s1 !! 0) as [task|] eqn:Et; [|by eexists; split].
    rewrite Executor.entry_or_insert_spec by apply Hc. rewrite (Ho 0 task ltac:(done) Et). cbn [enter_poll].
    destruct (main_println_ok (bytes_of "async number: 42") (globals s1) Hwf) as (sc & Em & _).
    change (globals (set_cache _ s1)) with (globals s1). rewrite Em. by eexists; split. }
  destruct (run_step EMain [EMain; EMain] s1 s2 Hi1 E2) as [Hi2 ->].
  destruct (pop_task KEYS [] s2 Epc2 Hw2) as (q3 & E3 & Hq3). destruct (run_step EMain [EMain] s2 _ Hi2 E3) as [Hi3 ->].
  set (s3 := set_pc (RunTask KEYS) _) in *. change (oc_try_get (SCANCODE_QUEUE (globals s3)) = None) in Hn2.
  assert (exists s4, sys_step EMain s3 = Ok s4 /\ (exists k, pc s4 = InStream KEYS keys_waker k FastPop) /\
    woken (globals s4) = [] /\ scancodes (globals s4) = [] /\ consumed s4 = []) as (s4 & E4 & Epc4 & Hw4 & Hsc4 & Hco4).
  { cbn [sys_step]. unfold main_step. cbn [pc s3 set_pc]. pose proof Hi3 as [_ _ Hc _ (o & Ht & Hcell & _) _]. rewrite Ht.
    rewrite Executor.entry_or_insert_spec by apply Hc. cbn [future].
    unfold cell_ok in Hcell. rewrite Hn2 in Hcell. destruct o; [done|]. cbn [enter_poll].
    destruct (aq_new_spec (A := Z) (Q := QS) 100 ltac:(lia)) as [Hni _].
    destruct (oc_init_first (aq_new 100) _ Hn2) as (cell & Hin & Hget). unfold ScancodeStream_new.
    change (SCANCODE_QUEUE (globals (set_cache _ s3))) with (SCANCODE_QUEUE (globals s3)). rewrite Hin.
    eexists. split; [reflexivity|]. split_and!; [by eexists|done| |done]. unfold scancodes. simpl. by rewrite Hget. }
  destruct (run_step EMain [] s3 s4 Hi3 E4) as [Hi4 ->]. exists s4. by split.
Qed.
End invariant.

(** ** Dependencies that satisfy the laws *)

Module Reference.
Export KeyboardReference InterruptsReference.

Definition statics0 : statics (list_queue Z) (option (list_queue Z)) (option Waker) (list Z) :=
  mkStatics None None (mkQueue [] 100) (Screen.boot cleared) [].

Definition executor0 : Executor.t (kernel_future unit) (list_queue Z) :=
  Executor.mk (<[1 := mkTask 1 (print_keypresses None)]> (<[0 := mkTask 0 example_task]> ∅))
    (mkQueue [0; 1] 100) ∅.

Definition boot0 : sys (list_queue Z) (option (list_queue Z)) (option Waker) unit (list Z) :=
  start executor0 statics0.

Lemma boots_boot0 : boots boot0.
Proof.
  exists executor0, 2, statics0. split_and!; [reflexivity| |reflexivity].
  constructor; [done|done| |].
  - constructor; simpl; [apply wf_cleared|unfold BUFFER_WIDTH; lia..].
  - by intros v.
Qed.
End Reference.
Import Reference.

(** ** Properties *)

Section properties.
Context {QS QT C W K E P : Type}.
Context `{AQS : ArrayQueue Z QS} `{AQT : ArrayQueue Z QT} `{OC : OnceCell QS C}.
Context `{AW : AtomicWaker W} `{PK : PcKeyboard K E} `{PIC : ChainedPics P}.
Context (L1 : ArrayQueueLaws Z QS) (L2 : ArrayQueueLaws Z QT) (L3 : OnceCellLaws QS C).
Context (L4 : AtomicWakerLaws W) (L5 : ChainedPicsLaws P).

(** C4: no wake-up is lost.  However the interrupts interleave with the operations
    of the kernel, when the processor sleeps in [hlt] every scancode that went into
    the queue has been handled, no task is waiting to be run, and the keyboard
    task's waker is registered, so the next scancode wakes it. *)
Theorem kernel_halts_only_when_idle (es : list event) (s0 s : sys QT C W K P) :
  boots s0 -> run_events es s0 = Ok s -> pc s = Halted ->
  scancodes (globals s) = [] /\ consumed s = accepted s /\ woken (globals s) = [] /\
  registered (globals s) = Some keys_waker /\ interrupts_enabled s = true.
Proof.
  intros H0 Hrun Hpc. apply boots_spec in H0 as [Hinv _]. apply run_events_inv in Hrun; [|done].
  by destruct (halted_idle s Hrun Hpc) as (? & ? & ? & ? & ? & _).
Qed.

(** C5: every accepted scancode is handled.  From any state the kernel can be in, if
    no further interrupt arrives, it takes at most [steps_left] operations until it
    has handled every scancode in the queue and halts; none of them panics. *)
Theorem kernel_handles_every_scancode (es : list event) (s0 s : sys QT C W K P) :
  boots s0 -> run_events es s0 = Ok s ->
  exists s', run_events (replicate (steps_left s) EMain) s = Ok s' /\
    pc s' = Halted /\ consumed s' = accepted s.
Proof.
  intros H0 Hrun. apply boots_spec in H0 as [Hinv _]. apply run_events_inv in Hrun; [|done].
  destruct (halts (steps_left s) s) as (s' & E1 & Hinv' & Hpc & Ha); [done|lia|].
  destruct (halted_idle s' Hinv' Hpc) as (_ & _ & Hc & _). exists s'. split_and!; [done|done|congruence].
Qed.

(** C24: scancodes keep their order and none is duplicated: the scancodes that were
    handled, followed by the one in flight and those in the queue, are the accepted
    ones, which are a subsequence of the ones the controller sent. *)
Theorem kernel_scancodes_in_order (es : list event) (s0 s : sys QT C W K P) :
  boots s0 -> run_events es s0 = Ok s ->
  consumed s ++ in_flight (pc s) ++ scancodes (globals s) = accepted s /\
  sublist (accepted s) (typed es).
Proof.
  intros H0 Hrun. apply boots_spec in H0 as (Hinv & _ & Ha). split.
  - by apply run_events_inv in Hrun as []; [|done].
  - apply run_events_accepted in Hrun as (l & -> & Hl); [|done]. by rewrite Ha.
Qed.

(** Up to 98 keyboard interrupts never panic, whenever they arrive: neither the
    task queue nor an index nor a cell can fail, and after each of them both
    interrupt lines can be delivered again. *)
Theorem kernel_survives_98_keys (es : list event) (s0 : sys QT C W K P) :
  boots s0 -> (length (filter (fun e => is_keyboard e = true) es) <= 98)%nat ->
  exists s, run_events es s0 = Ok s /\
    forall v, pic_accepts (as_u8 v) (PICS (globals s)) = true.
Proof.
  intros H0 Hn. apply boots_spec in H0 as (Hinv & Hw & _).
  destruct (run_events_total es s0 Hinv) as [s Hs]; [lia|].
  exists s. split; [done|]. by apply run_events_inv in Hs as []; [|done].
Qed.

(** C35: what fills the task queue.  A scancode that arrives between [WAKER.register] and
    the second [pop] wakes the task that is already running and is then taken by it,
    which leaves an entry in the task queue that nothing removes before the task
    is done.  When every scancode arrives at that point of the first poll, up to 100 of them
    are handled, whatever they are, and leave as many entries; the 101st panics in the interrupt handler. *)
Theorem kernel_task_queue_overflows (cs : list Z) (s0 : sys QT C W K P) :
  boots s0 ->
  match run_events (first_poll ++ mjoin (hit <$> cs)) s0 with
  | Ok s => (length cs <= 100)%nat /\ consumed s = cs /\ woken (globals s) = replicate (length cs) KEYS
  | Panic p => (100 < length cs)%nat /\ p = UnwrapFailed "task queue full"
  | Undef => False
  | Diverge => False
  end.
Proof.
  intros Hb. destruct (first_poll_ok s0 Hb) as (s & E1 & Hs). unfold run_events. rewrite for_each_app.
  fold (run_events first_poll s0). rewrite E1. cbn [mbind res_bind]. fold (run_events (mjoin (hit <$> cs)) s).
  pose proof (hits_ok cs [] s Hs ltac:(simpl; lia)) as Hh.
  destruct (run_events (mjoin (hit <$> cs)) s) as [s'|p| |]; [|by destruct Hh|done..].
  by destruct Hh as [Hl [Hi _ _ Hw Hco]].
Qed.
End properties.

Lemma kernel_halts_only_when_idle_witness :
  exists s, run_events (replicate 20 EMain ++ [EKeyboard 30] ++ replicate 20 EMain) boot0 = Ok s /\
    pc s = Halted /\ consumed s = [30] /\ scancodes (globals s) = [] /\
    registered (globals s) = Some keys_waker.
Proof.
  destruct (run_events (replicate 20 EMain ++ [EKeyboard 30] ++ replicate 20 EMain) boot0) as [s| | |] eqn:Es;
    [|vm_compute in Es; discriminate Es..].
  assert (Hs : pc s = Halted /\ accepted s = [30]) by (vm_compute in Es; injection Es as <-; done).
  destruct (kernel_halts_only_when_idle _ _ _ _ _ _ boot0 s boots_boot0 Es (proj1 Hs)) as (H1 & H2 & _ & H3 & _).
  exists s. rewrite H2. split_and!; [reflexivity|apply Hs|apply Hs|exact H1|exact H3].
Defined.

Lemma kernel_handles_every_scancode_witness :
  exists s s', run_events (replicate 20 EMain ++ [EKeyboard 30; EKeyboard 31]) boot0 = Ok s /\
    run_events (replicate (steps_left s) EMain) s = Ok s' /\ pc s' = Halted /\ consumed s' = [30; 31].
Proof.
  destruct (run_events (replicate 20 EMain ++ [EKeyboard 30; EKeyboard 31]) boot0) as [s| | |] eqn:Es;
    [|vm_compute in Es; discriminate Es..].
  assert (Hs : accepted s = [30; 31]) by (vm_compute in Es; injection Es as <-; done).
  destruct (kernel_handles_every_scancode _ _ _ _ _ _ boot0 s boots_boot0 Es) as (s' & H1 & H2 & H3).
  exists s, s'. rewrite H3. split_and!; [reflexivity|exact H1|exact H2|exact Hs].
Defined.

Lemma kernel_scancodes_in_order_witness :
  exists s, run_events (replicate 20 EMain ++ [EKeyboard 30; ETimer; EKeyboard 31]) boot0 = Ok s /\
    consumed s ++ in_flight (pc s) ++ scancodes (globals s) = accepted s /\
    sublist (accepted s) [30; 31].
Proof.
  destruct (run_events (replicate 20 EMain ++ [EKeyboard 30; ETimer; EKeyboard 31]) boot0) as [s| | |] eqn:Es;
    [|vm_compute in Es; discriminate Es..].
  exists s. split; [reflexivity|]. apply (kernel_scancodes_in_order _ _ _ _ _ _ boot0 s boots_boot0 Es).
Defined.

Lemma kernel_survives_98_keys_witness :
  exists s, run_events (first_poll ++ mjoin (replicate 98 (hit 30))) boot0 = Ok s /\
    forall v, pic_accepts (as_u8 v) (PICS (globals s)) = true.
Proof.
  apply (kernel_survives_98_keys _ _ _ _ _ _ boot0 boots_boot0). vm_compute. lia.
Defined.

(** 101 times the same key. *)
Lemma kernel_task_queue_overflows_witness :
  run_events (first_poll ++ mjoin (hit <$> replicate 101 30)) boot0 = Panic (UnwrapFailed "task queue full").
Proof.
  pose proof (kernel_task_queue_overflows _ _ _ _ _ (replicate 101 30) boot0 boots_boot0) as H.
  destruct (run_events (first_poll ++ mjoin (hit <$> replicate 101 30)) boot0) as [s|p| |]; [|by destruct H as [_ ->]|done..].
  destruct H as [H _]. rewrite length_replicate in H. lia.
Defined.
