(* ===== verification/Echo.v ===== *)
(** * What the user sees

    The machine of [System.v] from the outside: what the timer, the keyboard's handler,
    [example_task] and [print_keypresses] put on the screen, in the order in which
    they do, for every interleaving; and when a typist's keys are all echoed.  The
    source is [src/min-rust-os/src/task/keyboard.rs], [src/min-rust-os/src/task/executor.rs]
    and [src/min-rust-os/src/interrupts.rs]. *)

From S2P Require Import Prelude Queue Task Vga Keyboard Interrupts System.
From stdpp Require Import base list option gmap strings.
From Stdlib Require Import ZArith Lia.
Local Open Scope Z_scope.

(** ** Observations *)

(** What is printed: the timer's dot, the two warnings of [add_scancode], the line of
    [example_task], and a key. *)
Inductive output := Dot | Uninitialised | Full | Number | Key (key : DecodedKey).

Definition key_of (o : output) : option DecodedKey := match o with Key k => Some k | _ => None end.
Definition is_number (o : output) : bool := match o with Number => true | _ => false end.
Definition is_dot (o : output) : bool := match o with Dot => true | _ => false end.
Definition count (p : output -> bool) (outs : list output) : nat := length (filter (fun o => p o = true) outs).

Section observations.
Context {QS QT C W K E P : Type}.
Context `{AQS : ArrayQueue Z QS} `{AQT : ArrayQueue Z QT} `{OC : OnceCell QS C}.
Context `{AW : AtomicWaker W} `{PK : PcKeyboard K E} `{PIC : ChainedPics P}.
Abbreviation sys := (sys QT C W K P).

(** What a scancode is to the decoder: [add_byte], and [process_keyevent] when a key
    event is complete. *)
Definition decode (scancode : Z) (keyboard : K) : option DecodedKey * K :=
  let '(r, keyboard) := kb_add_byte scancode keyboard in
  match r with
  | Some (Some key_event) => kb_process_keyevent key_event keyboard
  | _ => (None, keyboard)
  end.

(** The keys of a sequence of scancodes, and the decoder after it. *)
Fixpoint decode_all (cs : list Z) (keyboard : K) : list DecodedKey * K :=
  match cs with
  | [] => ([], keyboard)
  | c :: cs =>
      let '(key, keyboard) := decode c keyboard in
      let '(keys, keyboard) := decode_all cs keyboard in
      (option_list key ++ keys, keyboard)
  end.

(** The text of an output; all but [Number] go through the library's writer. *)
Definition text (o : output) : list Z :=
  match o with
  | Dot => bytes_of "."
  | Uninitialised => bytes_of "WARNING: scancode queue uninitialised" ++ [10]
  | Full => bytes_of "WARNING: scancode queue fill; dropping keyboard input" ++ [10]
  | Number => bytes_of "async number: 42" ++ [10]
  | Key key => kb_fmt key
  end.

Definition display (o : output) : Screen.t -> res Screen.t :=
  if is_number o then Screen.print_bin [text o] else Screen.print_lib [text o].

(** Whether an interrupt is delivered. *)
Definition taken (v : InterruptIndex) (s : sys) : bool :=
  interrupts_enabled s && pic_accepts (as_u8 v) (PICS (globals s)).

(** The scancodes, and the ticks of the timer, that reach a handler. *)
Definition delivered (e : event) (s : sys) : list Z :=
  match e with EKeyboard c => if taken Keyboard s then [c] else [] | _ => [] end.
Definition ticks (e : event) (s : sys) : list unit :=
  match e with ETimer => if taken Timer s then [tt] else [] | _ => [] end.

(** What an event prints. *)
Definition emitted (e : event) (s : sys) : list output :=
  match e with
  | ETimer => if taken Timer s then [Dot] else []
  | EKeyboard c =>
      if taken Keyboard s then
        match oc_try_get (SCANCODE_QUEUE (globals s)) with
        | None => [Uninitialised]
        | Some _ => if has_room (globals s) then [] else [Full]
        end
      else []
  | EMain =>
      match pc s with
      | RunTask i =>
          match tasks s !! i with
          | Some task => match future task with example_task => [Number] | _ => [] end
          | None => []
          end
      | Handle _ _ keyboard scancode => option_list (Key <$> (decode scancode keyboard).1)
      | _ => []
      end
  end.

(** An observation of every event of a run. *)
Fixpoint observe {A} (f : event -> sys -> list A) (es : list event) (s : sys) : list A :=
  match es with
  | [] => []
  | e :: es => f e s ++ match sys_step e s with Ok s' => observe f es s' | _ => [] end
  end.

Lemma run_events_cons e es (s : sys) : run_events (e :: es) s = (s1 ← sys_step e s; run_events es s1).
Proof. done. Qed.

Lemma run_events_app es1 es2 (s : sys) : run_events (es1 ++ es2) s = (s1 ← run_events es1 s; run_events es2 s1).
Proof. apply for_each_app. Qed.

Lemma observe_app {A} (f : event -> sys -> list A) es1 es2 : forall s s1,
  run_events es1 s = Ok s1 -> observe f (es1 ++ es2) s = observe f es1 s ++ observe f es2 s1.
Proof.
  induction es1 as [|e es1 IH]; intros s s1; [by intros [= <-]|]. rewrite run_events_cons. cbn [observe app].
  destruct (sys_step e s) as [s'| | |]; cbn [mbind res_bind]; try done. intros H.
  by rewrite (IH s' s1 H), app_assoc.
Qed.

Lemma decode_all_app cs1 cs2 : forall k : K,
  decode_all (cs1 ++ cs2) k =
  let '(keys1, k1) := decode_all cs1 k in let '(keys2, k2) := decode_all cs2 k1 in (keys1 ++ keys2, k2).
Proof.
  induction cs1 as [|c cs1 IH]; intros k; simpl; [by destruct (decode_all cs2 k)|].
  destruct (decode c k) as [key k1]. rewrite IH. destruct (decode_all cs1 k1) as [keys1 k2].
  destruct (decode_all cs2 k2). by rewrite app_assoc.
Qed.

Lemma decode_all_snoc cs c (k : K) :
  decode_all (cs ++ [c]) k =
  ((decode_all cs k).1 ++ option_list (decode c (decode_all cs k).2).1, (decode c (decode_all cs k).2).2).
Proof.
  rewrite decode_all_app. destruct (decode_all cs k) as [keys k1]. simpl. destruct (decode c k1). simpl.
  by rewrite app_nil_r.
Qed.

(** ** The screen follows the outputs *)

(** A print of the library, as a function of the screen. *)
Lemma print_screen pieces (g g' : statics QT C W P) :
  (fun sc => set_screen sc g) <$> Screen.print_lib pieces (screen g) = Ok g' ->
  Screen.print_lib pieces (screen g) = Ok (screen g').
Proof. destruct (Screen.print_lib pieces (screen g)); simpl; intros H; by simplify_eq. Qed.

Lemma main_print_screen pieces (g g' : statics QT C W P) :
  (fun sc => set_screen sc g) <$> Screen.print_bin pieces (screen g) = Ok g' ->
  Screen.print_bin pieces (screen g) = Ok (screen g').
Proof. destruct (Screen.print_bin pieces (screen g)); simpl; intros H; by simplify_eq. Qed.

Lemma handle_scancode_decode c k (g : statics QT C W P) :
  handle_scancode c k g =
  match decode c k with
  | (Some key, k') => g ← print (kb_fmt key) g; Ok (k', g)
  | (None, k') => Ok (k', g)
  end.
Proof.
  unfold handle_scancode, decode. destruct (kb_add_byte c k) as [[[ev|]|] k1]; [|done..].
  by destruct (kb_process_keyevent ev k1) as [[key|] k2].
Qed.

Lemma poll_next_step_screen w st (g : statics QT C W P) st' g' :
  poll_next_step w st g = Ok (st', g') -> screen g' = screen g.
Proof.
  destruct st; simpl; unfold pop_scancode;
    [|by intros [= <- <-]| |by intros [= <- <-]|by intros [= <- <-]].
  all: destruct (oc_try_get (SCANCODE_QUEUE g)) as [q|]; simpl; [|done]; destruct (aq_pop q) as [[x q']|]; simpl;
    by intros [= <- <-].
Qed.

Lemma wake_screen c (g g' : statics QT C W P) :
  oc_try_get (SCANCODE_QUEUE g) <> None -> has_room g = true -> ArrayQueueLaws Z QS ->
  add_scancode c g = Ok g' -> screen g' = screen g.
Proof.
  intros Hi Hr HL. unfold add_scancode, has_room in *. destruct (oc_try_get (SCANCODE_QUEUE g)) as [q|]; [|done].
  apply bool_decide_eq_true in Hr. destruct (aq_push_room c q Hr) as (q' & -> & _). simpl.
  destruct (aw_wake (WAKER g)) as [[w|] slot]; [|by intros [= <-]].
  destruct (wake w _) as [tq| | |]; simpl; [by intros [= <-]|done..].
Qed.

Lemma resume_screen (s : sys) g : screen (globals (resume (set_globals g s))) = screen g.
Proof. unfold resume. simpl. by destruct (pc s). Qed.
End observations.

Section facts.
Context {QS QT C W K E P : Type}.
Context `{AQS : ArrayQueue Z QS} `{AQT : ArrayQueue Z QT} `{OC : OnceCell QS C}.
Context `{AW : AtomicWaker W} `{PK : PcKeyboard K E} `{PIC : ChainedPics P}.
Context `{!ArrayQueueLaws Z QS} `{!ArrayQueueLaws Z QT} `{!OnceCellLaws QS C}.
Context `{!AtomicWakerLaws W} `{!ChainedPicsLaws P}.
Abbreviation sys := (sys QT C W K P).

Lemma display_one o sc : for_each display [o] sc = display o sc.
Proof. cbn [for_each]. by destruct (display o sc). Qed.

(** The operations of the kernel. *)
Lemma main_step_shows (s s' : sys) :
  main_step s = Ok s' ->
  for_each display (emitted EMain s) (screen (globals s)) = Ok (screen (globals s')).
Proof.
  unfold main_step, emitted. intros H. destruct (pc s) as [|i|i w k st|i w k c| | | | | |]; try (by simplify_eq).
  - destruct (aq_pop _) as [[j q]|]; by simplify_eq.
  - destruct (tasks s !! i) as [task|]; [|by simplify_eq].
    destruct (Executor.entry_or_insert i (waker_cache s)) as [waker cache].
    destruct (future task) as [|[k|]]; cbn [enter_poll] in H; [|by simplify_eq|].
    + rewrite display_one. unfold display. cbn [is_number text globals set_cache] in *. unfold main_println in H.
      destruct (Screen.print_bin _ _) as [sc| | |] eqn:Ep; simpl in H; simplify_eq. simpl.
      rewrite Screen.print_bin_concat in Ep. exact Ep.
    + unfold ScancodeStream_new in H. destruct (oc_try_init_once _ _); simpl in H; by simplify_eq.
  - destruct st as [| | |x|[[x|]|]]; try (by simplify_eq);
      match type of H with context [poll_next_step ?w ?st ?g] =>
        destruct (poll_next_step w st g) as [[st' g']| | |] eqn:Ep end;
      cbn [mbind res_bind] in H; simplify_eq; simpl; apply poll_next_step_screen in Ep; by rewrite Ep.
  - rewrite handle_scancode_decode in H. destruct (decode c k) as [[key|] k']; simpl in H; [|by simplify_eq].
    change (option_list _) with [Key key]. rewrite display_one. unfold display. cbn [is_number text].
    destruct (print (kb_fmt key) (globals s)) as [g| | |] eqn:Ep; simpl in H; simplify_eq. simpl.
    by apply print_screen in Ep.
Qed.

(** An interrupt's handler. *)
Lemma interrupt_shows v run (s s' : sys) outs :
  interrupt v run s = Ok s' ->
  (taken v s = false -> outs = []) ->
  (forall g', run (set_PICS (pic_deliver (as_u8 v) (PICS (globals s))) (globals s)) = Ok g' ->
     taken v s = true -> for_each display outs (screen (globals s)) = Ok (screen g')) ->
  for_each display outs (screen (globals s)) = Ok (screen (globals s')).
Proof.
  unfold interrupt, taken. intros H Hno Hyes. destruct (_ && _); [|by rewrite Hno by done; simplify_eq].
  destruct (run _) as [g'| | |] eqn:Er; cbn [mbind res_bind] in H; simplify_eq.
  rewrite resume_screen. by apply Hyes.
Qed.

Lemma step_shows e (s s' : sys) :
  sys_step e s = Ok s' ->
  for_each display (emitted e s) (screen (globals s)) = Ok (screen (globals s')).
Proof.
  destruct e as [| |c]; [by apply main_step_shows|..]; cbn [sys_step]; intros H.
  - eapply interrupt_shows; [exact H|by cbn [emitted]; intros ->|].
    intros g' Hg Ht. cbn [emitted]. rewrite Ht, display_one. unfold timer_interrupt_handler in Hg.
    destruct (print (bytes_of ".") _) as [g1| | |] eqn:Ep; cbn [mbind res_bind] in Hg; simplify_eq.
    by apply print_screen in Ep.
  - destruct (interrupt Keyboard _ s) as [s1| | |] eqn:Ei; cbn [mbind res_bind] in H; simplify_eq.
    match goal with |- _ = Ok (screen (globals ?x)) =>
      replace (screen (globals x)) with (screen (globals s1)) by (by destruct (_ && _)) end.
    eapply interrupt_shows; [exact Ei|by cbn [emitted]; intros ->|].
    intros g' Hg Ht. cbn [emitted]. rewrite Ht. unfold keyboard_interrupt_handler in Hg.
    set (g0 := set_PICS _ _) in Hg. destruct (add_scancode c g0) as [g1| | |] eqn:Ea; cbn [mbind res_bind] in Hg; simplify_eq.
    cbn [screen set_PICS].
    destruct (oc_try_get (SCANCODE_QUEUE (globals s))) as [q|] eqn:Eq.
    2: { unfold add_scancode in Ea. change (SCANCODE_QUEUE g0) with (SCANCODE_QUEUE (globals s)) in Ea.
         rewrite Eq in Ea. rewrite display_one. unfold println in Ea. apply print_screen in Ea.
         rewrite Screen.print_lib_concat in Ea. exact Ea. }
    destruct (has_room (globals s)) eqn:Hr.
    + assert (Es : screen g1 = screen g0) by (eapply wake_screen; [unfold g0; simpl; by rewrite Eq|exact Hr|done|exact Ea]).
      by rewrite Es.
    + unfold has_room in Hr. rewrite Eq in Hr. apply bool_decide_eq_false in Hr.
      unfold add_scancode in Ea. change (SCANCODE_QUEUE g0) with (SCANCODE_QUEUE (globals s)) in Ea.
      rewrite Eq, aq_push_full in Ea by lia. rewrite display_one. unfold println in Ea. apply print_screen in Ea.
      rewrite Screen.print_lib_concat in Ea. exact Ea.
Qed.

Lemma run_shows es : forall s s' : sys,
  run_events es s = Ok s' ->
  for_each display (observe emitted es s) (screen (globals s)) = Ok (screen (globals s')).
Proof.
  induction es as [|e es IH]; intros s s'; [by intros [= <-]|]. rewrite run_events_cons. cbn [observe].
  destruct (sys_step e s) as [s1| | |] eqn:E1; cbn [mbind res_bind]; try done. intros H.
  rewrite for_each_app, (step_shows e s s1 E1). cbn [mbind res_bind]. by apply IH.
Qed.

(** ** The decoder and the first task *)

(** The decoder of the keyboard task, once it has one. *)
Definition current (s : sys) : option K :=
  match pc s with
  | InStream _ _ k _ | Handle _ _ k _ => Some k
  | _ => match tasks s !! KEYS with Some (mkTask _ (print_keypresses o)) => o | _ => None end
  end.

Definition decoder_ok (o : option K) (cs : list Z) : Prop :=
  match o with Some k => k = (decode_all cs kb_new).2 | None => cs = [] end.

(** Whether the first task is still there. *)
Definition first_left (s : sys) : nat := match tasks s !! 0 with Some _ => 1 | None => 0 end.

(** The first task has printed its line exactly if it is gone, and it is only gone
    once it has run; [outs] is what was printed so far. *)
Record echo (outs : list output) (s : sys) : Prop := {
  e_inv : inv s;
  e_keys : omap key_of outs = (decode_all (consumed s) kb_new).1;
  e_decoder : decoder_ok (current s) (consumed s);
  e_dom : forall i t, tasks s !! i = Some t -> i = 0 \/ i = KEYS;
  e_number : (count is_number outs + first_left s)%nat = 1%nat;
  e_first : is_Some (tasks s !! 0) -> 0 ∈ woken (globals s) \/ pc s = RunTask 0;
}.

Lemma count_app p outs1 outs2 : count p (outs1 ++ outs2) = (count p outs1 + count p outs2)%nat.
Proof. unfold count. by rewrite filter_app, length_app. Qed.

(** A step that prints nothing and handles nothing. *)
Lemma echo_silent outs (s s' : sys) :
  echo outs s -> inv s' -> consumed s' = consumed s -> current s' = current s ->
  (forall i, tasks s' !! i = None <-> tasks s !! i = None) ->
  (is_Some (tasks s !! 0) -> 0 ∈ woken (globals s') \/ pc s' = RunTask 0) ->
  echo outs s'.
Proof.
  intros [] Hi Hc Hk Ht Hf.
  assert (Hsome : forall i, is_Some (tasks s' !! i) <-> is_Some (tasks s !! i)).
  { intros i. rewrite <- !not_eq_None_Some. by rewrite Ht. }
  constructor; rewrite ?Hc, ?Hk; try done.
  - intros i t Hit. destruct (proj1 (Hsome i)) as [t' Ht']; [by exists t|]. by eapply e_dom0.
  - unfold first_left in *. specialize (Ht 0). destruct (tasks s' !! 0), (tasks s !! 0); try done;
      [discriminate (proj2 Ht eq_refl)|discriminate (proj1 Ht eq_refl)].
  - intros H0. by apply Hf, Hsome.
Qed.

(** An interrupt; the scancode may be logged. *)
Lemma echo_interrupt outs v run (s s1 s' : sys) outs' :
  echo outs s -> interrupt v run s = Ok s1 -> inv s' ->
  (s' = s1 \/ exists x, s' = log_accepted x s1) ->
  omap key_of outs' = [] -> count is_number outs' = 0%nat ->
  (forall x g g', run g = Ok g' -> x ∈ woken g -> x ∈ woken g') ->
  echo (outs ++ outs') s'.
Proof.
  unfold interrupt. intros He Hs' Hi Hl Hk Hn Hw.
  assert (Hsame : pc s' = pc s1 /\ globals s' = globals s1 /\ tasks s' = tasks s1 /\ consumed s' = consumed s1)
    by (destruct Hl as [->|[x ->]]; done). destruct Hsame as (E1 & E2 & E3 & E4).
  assert (echo outs s') as [].
  { destruct (_ && _); [destruct (run _) as [g'| | |] eqn:Er; cbn [mbind res_bind] in Hs'; simplify_eq|simplify_eq].
    2: { apply (echo_silent outs s1); rewrite ?E2, ?E3, ?E4; try done; [unfold current; by rewrite E1, E3|].
         rewrite E1. apply He. }
    apply (echo_silent outs s); [done|done|..]; unfold current; rewrite ?E1, ?E2, ?E3, ?E4; unfold resume; simpl.
    - by destruct (pc s).
    - by destruct (pc s) eqn:Epc; simpl; rewrite ?Epc.
    - by destruct (pc s).
    - intros H0. destruct (e_first _ _ He H0) as [Hz|Hz].
      + left. destruct (pc s); by eapply Hw.
      + right. rewrite Hz. simpl. exact Hz. }
  constructor; try done.
  - rewrite omap_app, Hk, app_nil_r. done.
  - by rewrite count_app, Hn, Nat.add_0_r.
Qed.

Lemma poll_next_step_woken w st (g : statics QT C W P) st' g' :
  poll_next_step w st g = Ok (st', g') -> woken g' = woken g.
Proof.
  destruct st; simpl; unfold pop_scancode;
    [|by intros [= <- <-]| |by intros [= <- <-]|by intros [= <- <-]].
  all: destruct (oc_try_get (SCANCODE_QUEUE g)) as [q|]; simpl; [|done]; destruct (aq_pop q) as [[x q']|]; simpl;
    by intros [= <- <-].
Qed.

Lemma handle_scancode_woken c k (g : statics QT C W P) k' g' :
  handle_scancode c k g = Ok (k', g') -> woken g' = woken g /\ k' = (decode c k).2.
Proof.
  rewrite handle_scancode_decode. destruct (decode c k) as [[key|] k1]; simpl; [|by intros [= <- <-]].
  unfold print. destruct (Screen.print_lib _ _); simpl; [|done..]. by intros [= <- <-].
Qed.

(** The line of the first task. *)
Lemma echo_first outs (s : sys) g cache :
  echo outs s -> pc s = RunTask 0 -> is_Some (tasks s !! 0) ->
  inv (finish_task 0 (set_globals g (set_cache cache s))) -> woken g = woken (globals s) ->
  echo (outs ++ [Number]) (finish_task 0 (set_globals g (set_cache cache s))).
Proof.
  intros [] Epc [t Ht] Hi Hw. constructor; simpl; [done|..].
  - by rewrite omap_app, app_nil_r.
  - unfold current in *. simpl. rewrite Epc in e_decoder0. by rewrite lookup_delete_ne by done.
  - intros i t' [_ Hit]%lookup_delete_Some. by eapply e_dom0.
  - unfold first_left in *. simpl. rewrite lookup_delete_eq. rewrite Ht in e_number0. rewrite count_app. simpl.
    unfold count at 2. simpl. lia.
  - rewrite lookup_delete_eq. by intros [? ?].
Qed.

(** A key. *)
Lemma echo_key outs (s s' : sys) i w k c :
  echo outs s -> pc s = Handle i w k c -> main_step s = Ok s' -> inv s' ->
  echo (outs ++ emitted EMain s) s'.
Proof.
  intros [] Epc Hs Hi. cbn [emitted]. unfold main_step in Hs. rewrite Epc in *.
  destruct (handle_scancode c k (globals s)) as [[k' g']| | |] eqn:Eh; cbn [mbind res_bind] in Hs; simplify_eq.
  apply handle_scancode_woken in Eh as [Hw ->].
  unfold current in e_decoder0. rewrite Epc in e_decoder0. simpl in e_decoder0. subst k.
  constructor; simpl; [done|..]; try done.
  - rewrite omap_app, e_keys0, decode_all_snoc. simpl. by destruct (decode c _) as [[key|] k'].
  - by rewrite decode_all_snoc.
  - rewrite count_app. unfold first_left in *. simpl. destruct (decode c _) as [[key|] k']; simpl; exact e_number0 || (unfold count at 2; simpl; lia).
  - intros H0. rewrite Hw. destruct (e_first0 H0) as [?|?]; [by left|congruence].
Qed.

(** A step of the control flow outside of the tasks. *)
Lemma echo_control outs (s : sys) c b :
  echo outs s -> inv (set_pc c (set_interrupts b s)) ->
  in_poll (pc s) = false -> in_poll c = false -> (forall i, pc s <> RunTask i) ->
  echo outs (set_pc c (set_interrupts b s)).
Proof.
  intros He Hi Hp Hc Hr. apply (echo_silent outs s); simpl; [done|done|done| |done|].
  - unfold current. simpl. by destruct c, (pc s).
  - intros H0. destruct (e_first _ _ He H0) as [?|?]; [by left|by edestruct Hr].
Qed.

Lemma echo_pop outs (s s' : sys) :
  echo outs s -> pc s = RunPop -> main_step s = Ok s' -> inv s' -> echo outs s'.
Proof.
  intros He Epc Hs Hi. pose proof (e_first _ _ He) as Hf. unfold main_step in Hs. rewrite Epc in *.
  pose proof (aq_pop_inv (task_queue (globals s))) as Hp.
  destruct (aq_pop (task_queue (globals s))) as [[i q]|]; simplify_eq;
    (apply (echo_silent outs s); simpl; [done|done|done|by unfold current; simpl; rewrite Epc|done|]);
    intros H0; destruct (Hf H0) as [Hz|?]; try done.
  - destruct Hp as [Hp _]. unfold woken in *. simpl. rewrite Hp in Hz. apply elem_of_cons in Hz as [->|Hz]; [by right|by left].
  - by left.
Qed.

Lemma echo_task outs (s s' : sys) i :
  echo outs s -> pc s = RunTask i -> main_step s = Ok s' -> inv s' -> echo (outs ++ emitted EMain s) s'.
Proof.
  intros He Epc Hs Hi. pose proof (e_first _ _ He) as Hf. cbn [emitted]. unfold main_step in Hs. rewrite Epc in *.
  assert (Hlater : i <> 0 \/ tasks s !! 0 = None -> is_Some (tasks s !! 0) -> 0 ∈ woken (globals s)).
  { intros Hn H0. destruct (Hf H0) as [Hz|[= ->]]; [done|]. destruct Hn as [?|Hn]; [done|]. rewrite Hn in H0. by destruct H0. }
  destruct (tasks s !! i) as [task|] eqn:Et.
  2: { simplify_eq. rewrite app_nil_r. apply (echo_silent outs s); simpl; [done|done|done|by unfold current; simpl; rewrite Epc|done|].
       intros H0. left. apply Hlater; [|done]. destruct (decide (i = 0)) as [->|?]; [by right|by left]. }
  destruct (Executor.entry_or_insert i (waker_cache s)) as [waker cache].
  pose proof (e_inv _ _ He) as [_ _ _ Ho (o & Hk & _) _].
  destruct (e_dom _ _ He i task Et) as [->| ->].
  - rewrite (Ho 0 task ltac:(done) Et) in *. cbn [enter_poll globals set_cache] in Hs.
    unfold main_println in Hs. destruct (Screen.print_bin _ _) as [sc| | |]; simpl in Hs; simplify_eq.
    apply (echo_first outs s (set_screen sc (globals s)) cache); (done || by exists task).
  - rewrite Hk in Et. injection Et as <-. cbn [future] in *. pose proof (e_decoder _ _ He) as Hd.
    unfold current in Hd. rewrite Epc, Hk in Hd. rewrite app_nil_r.
    assert (Hec : consumed s' = consumed s /\ tasks s' = tasks s /\ woken (globals s') = woken (globals s) /\
      exists k, current s' = Some k /\ k = match o with Some k => k | None => kb_new end).
    { destruct o as [k|]; cbn [enter_poll] in Hs; [simplify_eq; split_and!; try done; by exists k|].
      unfold ScancodeStream_new in Hs. destruct (oc_try_init_once _ _); simpl in Hs; simplify_eq.
      split_and!; try done. by exists kb_new. }
    destruct Hec as (E1 & E2 & E3 & k & E4 & ->). destruct He. constructor; try done.
    + by rewrite E1.
    + rewrite E1, E4. destruct o as [k|]; simpl in *; [done|]. by rewrite Hd.
    + by rewrite E2.
    + unfold first_left in *. by rewrite E2.
    + rewrite E2, E3. intros H0. left. apply Hlater; [by left|done].
Qed.

Lemma echo_stream outs (s s' : sys) i w k st :
  echo outs s -> pc s = InStream i w k st -> main_step s = Ok s' -> inv s' -> echo outs s'.
Proof.
  intros He Epc Hs Hi. pose proof (e_first _ _ He) as Hf.
  pose proof (e_inv _ _ He) as [_ _ _ _ (o & Hk & _ & Hpc) _]. rewrite Epc in Hpc. destruct Hpc as (_ & -> & -> & Hst).
  assert (Hwoken : is_Some (tasks s !! 0) -> 0 ∈ woken (globals s)).
  { intros H0. destruct (Hf H0) as [?|?]; [done|congruence]. }
  pose proof (e_decoder _ _ He) as Hd. unfold current in Hd. rewrite Epc in Hd.
  unfold main_step in Hs. rewrite Epc in Hs.
  destruct st as [| | |x|[[x|]|]]; [| | | |simplify_eq|done|simplify_eq].
  1-4: match type of Hs with context [poll_next_step ?w ?st ?g] =>
      destruct (poll_next_step w st g) as [[st' g']| | |] eqn:Ep end;
    cbn [mbind res_bind] in Hs; simplify_eq; apply poll_next_step_woken in Ep;
    (apply (echo_silent outs s); simpl; [done|done|done|by unfold current; simpl; rewrite Epc|done|]);
    rewrite Ep; intros H0; left; by apply Hwoken.
  - apply (echo_silent outs s); simpl; [done|done|done|by unfold current; simpl; rewrite Epc|done|].
    intros H0. left. by apply Hwoken.
  - apply (echo_silent outs s); simpl; [done|done|done| | |].
    + unfold current. simpl. by rewrite Epc, lookup_insert_eq.
    + intros j. destruct (decide (j = KEYS)) as [->|Hj]; [by rewrite lookup_insert_eq, Hk|by rewrite lookup_insert_ne].
    + intros H0. left. by apply Hwoken.
Qed.

Lemma echo_main outs (s s' : sys) :
  echo outs s -> main_step s = Ok s' -> inv s' -> echo (outs ++ emitted EMain s) s'.
Proof.
  intros He Hs Hi.
  assert (Hid : forall c, set_pc c s = set_pc c (set_interrupts (interrupts_enabled s) s)) by (by destruct s).
  destruct (pc s) as [|i|i w k st|i w k c| | | | | |] eqn:Epc.
  5-10: cbn [emitted]; rewrite Epc, app_nil_r; unfold main_step in Hs; rewrite Epc in Hs;
    injection Hs as <-; rewrite ?Hid in *; try done;
    apply echo_control; try done; rewrite ?Epc; try done; by destruct (aq_is_empty _).
  - cbn [emitted]. rewrite Epc, app_nil_r. by eapply echo_pop.
  - by eapply echo_task.
  - cbn [emitted]. rewrite Epc, app_nil_r. by eapply echo_stream.
  - by eapply echo_key.
Qed.

(** The handlers only add to the task queue. *)
Lemma add_scancode_woken c x (g g' : statics QT C W P) :
  add_scancode c g = Ok g' -> x ∈ woken g -> x ∈ woken g'.
Proof.
  unfold add_scancode, println. intros H Hx.
  destruct (oc_try_get (SCANCODE_QUEUE g)) as [q|]; [destruct (aq_push c q) as [q'|]|];
    [|destruct (Screen.print_lib _ _); simpl in H; by simplify_eq..].
  simpl in H. destruct (aw_wake (WAKER g)) as [[w|] slot]; [|by simplify_eq].
  destruct w as [i|]; simpl in H; [|by simplify_eq]. unfold wake_task in H. pose proof (aq_push_inv i (task_queue g)) as Hp.
  destruct (aq_push i (task_queue g)) as [tq|]; simpl in H; simplify_eq. destruct Hp as (_ & Hp & _).
  unfold woken in *. simpl. rewrite Hp. apply elem_of_app. by left.
Qed.

Lemma echo_step outs e (s s' : sys) :
  echo outs s -> sys_step e s = Ok s' -> echo (outs ++ emitted e s) s'.
Proof.
  intros He Hs. assert (Hi : inv s').
  { pose proof (event_ok_step e s (e_inv _ _ He)) as H. rewrite Hs in H. apply H. }
  destruct e as [| |c]; [by apply echo_main|..]; cbn [sys_step] in Hs.
  - eapply echo_interrupt; [done|exact Hs|done|by left|by cbn [emitted]; destruct (taken _ _)..|].
    intros x g g' Hg Hx. unfold timer_interrupt_handler, print in Hg.
    destruct (Screen.print_lib _ _); simpl in Hg; by simplify_eq.
  - destruct (interrupt Keyboard _ s) as [s1| | |] eqn:Ei; cbn [mbind res_bind] in Hs; [|done..].
    eapply echo_interrupt; [done|exact Ei|done| | | |].
    + injection Hs as <-. destruct (_ && _ && _); [right; by exists c|by left].
    + cbn [emitted]. destruct (taken _ _); [|done]. destruct (oc_try_get _); [|done]. by destruct (has_room _).
    + cbn [emitted]. destruct (taken _ _); [|done]. destruct (oc_try_get _); [|done]. by destruct (has_room _).
    + intros x g g' Hg Hx. unfold keyboard_interrupt_handler in Hg.
      destruct (add_scancode c g) as [g1| | |] eqn:Ea; cbn [mbind res_bind] in Hg; simplify_eq.
      exact (add_scancode_woken c x g g1 Ea Hx).
Qed.

Lemma echo_run es : forall outs (s s' : sys),
  echo outs s -> run_events es s = Ok s' -> echo (outs ++ observe emitted es s) s'.
Proof.
  induction es as [|e es IH]; intros outs s s' He; [intros [= <-]; by rewrite app_nil_r|].
  rewrite run_events_cons. cbn [observe]. destruct (sys_step e s) as [s1| | |] eqn:E1; cbn [mbind res_bind]; try done.
  intros H. rewrite app_assoc. apply IH; [|done]. by apply echo_step.
Qed.

Lemma boots_echo (s : sys) : boots s -> echo [] s.
Proof.
  intros Hb. pose proof (boots_spec s Hb) as (Hi & _ & _). destruct Hb as (ex & n & g & Hsp & _ & ->).
  destruct (Spawn.spawn_all_spawned (Q := QT) 0 [example_task; @print_keypresses K None])
    as ([ex' n'] & E' & [Hq _ Hdom Htasks _ _]); [by split|simpl; lia|].
  unfold spawn_kernel_tasks in Hsp. rewrite Hsp in E'. injection E' as <- <-.
  pose proof (Htasks 0%nat example_task eq_refl) as H0. change ((0 + Z.of_nat 0) mod WORD) with 0 in H0.
  pose proof (Htasks 1%nat (print_keypresses None) eq_refl) as H1. change ((0 + Z.of_nat 1) mod WORD) with KEYS in H1.
  simpl in Hq, Hdom, H0, H1.
  constructor; simpl; [done|done| | | |].
  - unfold current. simpl. by rewrite H1.
  - intros i t Ht. destruct (decide (i = 0)) as [|H0n]; [by left|]. destruct (decide (i = KEYS)) as [|H1n]; [by right|].
    rewrite Hdom in Ht; [done|]. unfold Spawn.ids. simpl. unfold KEYS in H1n. set_solver.
  - unfold first_left. simpl. by rewrite H0.
  - intros _. left. unfold woken. simpl. rewrite Hq. by left.
Qed.

(** ** Bursts of keys *)

Definition keys (es : list event) : nat := length (filter (fun e => is_keyboard e = true) es).
Definition warns (o : output) : bool := match o with Uninitialised | Full => true | _ => false end.
Definition initialised (s : sys) : Prop := is_Some (oc_try_get (SCANCODE_QUEUE (globals s))).

Lemma keys_cons e es : keys (e :: es) = ((if is_keyboard e then 1 else 0) + keys es)%nat.
Proof. unfold keys. rewrite filter_cons. by destruct (is_keyboard e). Qed.

(** Handled scancodes stay handled, and the queue stays. *)
Lemma interrupt_keeps v run (s s' : sys) :
  interrupt v run s = Ok s' ->
  (forall g g', run g = Ok g' -> is_Some (oc_try_get (SCANCODE_QUEUE g)) -> is_Some (oc_try_get (SCANCODE_QUEUE g'))) ->
  consumed s' = consumed s /\ (initialised s -> initialised s').
Proof.
  unfold interrupt, initialised. intros H Hg. destruct (_ && _); [|by simplify_eq].
  destruct (run _) as [g'| | |] eqn:Er; cbn [mbind res_bind] in H; simplify_eq.
  specialize (Hg _ _ Er). unfold resume. simpl. by destruct (pc s).
Qed.

Lemma pop_scancode_keeps (g : statics QT C W P) r g' :
  pop_scancode g = Ok (r, g') -> is_Some (oc_try_get (SCANCODE_QUEUE g')).
Proof.
  unfold pop_scancode. destruct (oc_try_get (SCANCODE_QUEUE g)) as [q|] eqn:Eq; simpl; [|done].
  destruct (aq_pop q) as [[x q']|]; intros [= <- <-]; simpl; [by erewrite oc_get_write|by rewrite Eq].
Qed.

Lemma poll_next_step_keeps w st (g : statics QT C W P) st' g' :
  poll_next_step w st g = Ok (st', g') -> is_Some (oc_try_get (SCANCODE_QUEUE g)) ->
  is_Some (oc_try_get (SCANCODE_QUEUE g')).
Proof.
  destruct st; simpl; [|by intros [= <- <-]| |by intros [= <- <-]|by intros [= <- <-]].
  all: destruct (pop_scancode g) as [[[x|] g1]| | |] eqn:Ep; cbn [mbind res_bind]; try done;
    intros [= <- <-] _; by eapply pop_scancode_keeps.
Qed.

Lemma main_step_keeps (s s' : sys) :
  main_step s = Ok s' ->
  (length (consumed s) <= length (consumed s'))%nat /\ (initialised s -> initialised s').
Proof.
  unfold main_step, initialised. intros H. destruct (pc s) as [|i|i w k st|i w k c| | | | | |]; try (by simplify_eq).
  - destruct (aq_pop _) as [[j q]|]; by simplify_eq.
  - destruct (tasks s !! i) as [task|]; [|by simplify_eq].
    destruct (Executor.entry_or_insert i (waker_cache s)) as [waker cache].
    destruct (future task) as [|[k|]]; cbn [enter_poll] in H; [|by simplify_eq|].
    + unfold main_println in H. destruct (Screen.print_bin _ _); simpl in H; by simplify_eq.
    + unfold ScancodeStream_new in H. cbn [globals set_cache] in H.
      destruct (oc_try_get (SCANCODE_QUEUE (globals s))) as [q|] eqn:Eq.
      * by rewrite (oc_init_again _ _ _ Eq) in H.
      * destruct (oc_try_init_once _ _); simpl in H; simplify_eq. split; [done|]. by intros [? ?].
  - destruct st as [| | |x|[[x|]|]]; try (by simplify_eq);
      match type of H with context [poll_next_step ?w ?st ?g] =>
        destruct (poll_next_step w st g) as [[st' g']| | |] eqn:Ep end;
      cbn [mbind res_bind] in H; simplify_eq; simpl; (split; [done|]); by eapply poll_next_step_keeps.
  - rewrite handle_scancode_decode in H. unfold print in H.
    destruct (decode c k) as [[key|] k']; [destruct (Screen.print_lib _ _)|]; simpl in H; simplify_eq;
      simpl; rewrite length_app; (split; [lia|done]).
Qed.

Lemma add_scancode_keeps c (g g' : statics QT C W P) :
  add_scancode c g = Ok g' -> is_Some (oc_try_get (SCANCODE_QUEUE g)) -> is_Some (oc_try_get (SCANCODE_QUEUE g')).
Proof.
  unfold add_scancode, println. intros H [q Eq]. rewrite Eq in H. destruct (aq_push c q) as [q'|].
  2: { destruct (Screen.print_lib _ _); simpl in H; simplify_eq. simpl. by rewrite Eq. }
  simpl in H. destruct (aw_wake (WAKER g)) as [[w|] slot].
  - destruct (wake w _) as [tq| | |]; simpl in H; simplify_eq. simpl. by erewrite oc_get_write.
  - simplify_eq. simpl. by erewrite oc_get_write.
Qed.

Lemma step_keeps e (s s' : sys) :
  sys_step e s = Ok s' ->
  (length (consumed s) <= length (consumed s'))%nat /\ (initialised s -> initialised s').
Proof.
  destruct e as [| |c]; [apply main_step_keeps|..]; cbn [sys_step]; intros H.
  - apply interrupt_keeps in H as [-> ?]; [done|]. intros g g' Hg. unfold timer_interrupt_handler, print in Hg.
    destruct (Screen.print_lib _ _); simpl in Hg; by simplify_eq.
  - destruct (interrupt Keyboard _ s) as [s1| | |] eqn:Ei; cbn [mbind res_bind] in H; [|done..].
    apply interrupt_keeps in Ei as [Hc Hi].
    + injection H as <-. unfold initialised in *. destruct (_ && _ && _); simpl; by rewrite Hc.
    + intros g g' Hg. unfold keyboard_interrupt_handler in Hg.
      destruct (add_scancode c g) as [g1| | |] eqn:Ea; cbn [mbind res_bind] in Hg; simplify_eq.
      exact (add_scancode_keeps c g g1 Ea).
Qed.

(** With room for a scancode, none is dropped. *)
Lemma room_left (s : sys) :
  inv s -> initialised s -> (length (accepted s) < length (consumed s) + 100)%nat -> has_room (globals s) = true.
Proof.
  intros [_ _ _ _ (o & _ & Hcell & _) Hh] [q Eq] Hn. unfold cell_ok in Hcell. rewrite Eq in Hcell.
  destruct Hcell as [_ Hcap]. unfold has_room. rewrite Eq. apply bool_decide_eq_true. rewrite Hcap.
  apply (f_equal length) in Hh. rewrite !length_app in Hh. unfold scancodes in Hh. rewrite Eq in Hh. lia.
Qed.

(** The kernel's own operations print neither warnings nor dots. *)
Lemma main_emits (s : sys) : count warns (emitted EMain s) = 0%nat /\ count is_dot (emitted EMain s) = 0%nat.
Proof.
  cbn [emitted]. destruct (pc s) as [|i| |i w k c| | | | | |]; try done.
  - by destruct (tasks s !! i) as [[? []]|].
  - by destruct (decode c k) as [[]].
Qed.

Lemma burst_step e (s s' : sys) :
  inv s -> initialised s -> (is_keyboard e = true -> (length (accepted s) < length (consumed s) + 100)%nat) ->
  sys_step e s = Ok s' ->
  accepted s' = accepted s ++ delivered e s /\ count warns (emitted e s) = 0%nat /\
  count is_dot (emitted e s) = length (ticks e s).
Proof.
  intros Hi Hin Hn Hs. destruct e as [| |c]; cbn [sys_step delivered emitted ticks] in *.
  - split; [|apply (main_emits s)].
    destruct (main_step_ok s Hi) as [[_ E2]|(s2 & E2 & [])]; rewrite E2 in Hs; simplify_eq; by rewrite app_nil_r.
  - split_and!; [|by destruct (taken _ _)..]. rewrite app_nil_r. unfold interrupt in Hs. destruct (_ && _); [|by simplify_eq].
    destruct (timer_interrupt_handler _); cbn [mbind res_bind] in Hs; simplify_eq. unfold resume. simpl. by destruct (pc s).
  - rewrite (room_left s Hi Hin (Hn eq_refl)), andb_true_r in *. destruct Hin as [q Eq]. rewrite Eq.
    split_and!; [|by destruct (taken _ _)..].
    unfold interrupt, taken in *. destruct (_ && _); cbn [mbind res_bind] in Hs; [|simplify_eq; by rewrite app_nil_r].
    destruct (keyboard_interrupt_handler _ _); cbn [mbind res_bind] in Hs; simplify_eq. unfold resume. simpl. by destruct (pc s).
Qed.

(** A burst that fits into both queues. *)
Lemma burst es : forall s : sys,
  inv s -> initialised s ->
  (length (accepted s) + keys es <= length (consumed s) + 100)%nat ->
  (length (woken (globals s)) + keys es <= 100)%nat ->
  exists s', run_events es s = Ok s' /\ inv s' /\ initialised s' /\
    accepted s' = accepted s ++ observe delivered es s /\
    count warns (observe emitted es s) = 0%nat /\
    count is_dot (observe emitted es s) = length (observe ticks es s).
Proof.
  induction es as [|e es IH]; intros s Hi Hin Ha Hw.
  { exists s. split_and!; try done. by rewrite app_nil_r. }
  rewrite keys_cons in Ha, Hw. pose proof (event_ok_step e s Hi) as He. rewrite run_events_cons. cbn [observe].
  destruct (sys_step e s) as [s1|p| |] eqn:E1; simpl in He; [|destruct He as (_ & Hk & He); rewrite Hk in Hw; lia|done|done].
  destruct He as [Hi1 Hw1]. destruct (step_keeps e s s1 E1) as [Hc Hin1].
  destruct (burst_step e s s1 Hi Hin) as (Ea & Ew & Ed); [intros Hk; rewrite Hk in Ha; lia|done|].
  assert (Hd : (length (delivered e s) <= if is_keyboard e then 1 else 0)%nat)
    by (destruct e; simpl; try destruct (taken _ _); simpl; lia).
  destruct (IH s1) as (s2 & E2 & Hi2 & Hin2 & Ha2 & Hw2 & Hd2); [done|by apply Hin1| | |].
  - rewrite Ea, length_app. destruct (is_keyboard e); lia.
  - destruct (is_keyboard e); lia.
  - exists s2. cbn [mbind res_bind]. rewrite !count_app, length_app, Ha2, Ea, <- app_assoc. split_and!; try done; lia.
Qed.

(** Time to settle: the operations until the kernel halts. *)
Definition settle (s : sys) : list event := replicate (steps_left s) EMain.

(** Bursts of events, each followed by the time to settle. *)
Fixpoint schedule (ess : list (list event)) (s : sys) : list event :=
  match ess with
  | [] => []
  | es :: ess =>
      es ++ match run_events es s with
            | Ok s1 => settle s1 ++ match run_events (settle s1) s1 with Ok s2 => schedule ess s2 | _ => [] end
            | _ => []
            end
  end.

Lemma settle_quiet n : forall s : sys,
  observe delivered (replicate n EMain) s = [] /\ observe ticks (replicate n EMain) s = [] /\
  count warns (observe emitted (replicate n EMain) s) = 0%nat /\
  count is_dot (observe emitted (replicate n EMain) s) = 0%nat.
Proof.
  induction n as [|n IH]; intros s; [done|]. cbn [replicate observe]. rewrite !count_app.
  destruct (main_emits s) as [-> ->]. cbn [sys_step delivered ticks app]. destruct (main_step s); [apply IH|done..].
Qed.

(** From a halt, through any number of bursts, to a halt. *)
Lemma schedule_ok ess : forall s : sys,
  inv s -> pc s = Halted -> Forall (fun es => (keys es <= 100)%nat) ess ->
  exists s', run_events (schedule ess s) s = Ok s' /\ inv s' /\ pc s' = Halted /\
    accepted s' = accepted s ++ observe delivered (schedule ess s) s /\
    count warns (observe emitted (schedule ess s) s) = 0%nat /\
    count is_dot (observe emitted (schedule ess s) s) = length (observe ticks (schedule ess s) s).
Proof.
  induction ess as [|es ess IH]; intros s Hi Hpc Hk.
  { exists s. split_and!; try done. by rewrite app_nil_r. }
  apply Forall_cons in Hk as [Hk Hks]. destruct (halted_idle s Hi Hpc) as (_ & Hw & Hc & _ & _ & Hcell).
  assert (Hin : initialised s).
  { unfold initialised. unfold cell_ok in Hcell. by destruct (oc_try_get _). }
  destruct (burst es s Hi Hin) as (s1 & E1 & Hi1 & Hin1 & Ha1 & Hw1 & Hd1); [rewrite Hc; lia|rewrite Hw; simpl; lia|].
  destruct (halts (steps_left s1) s1 Hi1) as (s2 & E2 & Hi2 & Hpc2 & Ha2); [done|].
  destruct (settle_quiet (steps_left s1) s1) as (Q1 & Q2 & Q3 & Q4). fold (settle s1) in E2, Q1, Q2, Q3, Q4.
  destruct (IH s2 Hi2 Hpc2 Hks) as (s3 & E3 & Hi3 & Hpc3 & Ha3 & Hw3 & Hd3).
  exists s3. cbn [schedule]. rewrite E1, E2.
  rewrite !(observe_app _ es _ s s1 E1), !(observe_app _ (settle s1) _ s1 s2 E2), !count_app, !length_app.
  rewrite Q1, Q2, Q3, Q4, Hw1, Hw3, Hd1, Hd3, Ha3, Ha2, Ha1. split_and!; try done.
  - rewrite run_events_app, E1. cbn [mbind res_bind]. rewrite run_events_app, E2. exact E3.
  - by rewrite <- app_assoc.
Qed.

(** The whole run: the kernel settles after the start, then the bursts. *)
Lemma schedule_boots ess (s0 : sys) :
  boots s0 -> Forall (fun es => (keys es <= 100)%nat) ess ->
  exists s, run_events (schedule ([] :: ess) s0) s0 = Ok s /\ pc s = Halted /\
    consumed s = observe delivered (schedule ([] :: ess) s0) s0.
Proof.
  intros Hb Hk. pose proof (boots_spec s0 Hb) as (Hi0 & _ & Ha0).
  destruct (halts (steps_left s0) s0 Hi0) as (s1 & E1 & Hi1 & Hpc1 & Ha1); [done|]. fold (settle s0) in E1.
  destruct (schedule_ok ess s1 Hi1 Hpc1 Hk) as (s & E2 & Hi2 & Hpc2 & Ha2 & _).
  destruct (halted_idle s Hi2 Hpc2) as (_ & _ & Hc2 & _).
  exists s. cbn [schedule app]. change (run_events [] s0) with (Ok s0). cbv iota. rewrite E1.
  destruct (settle_quiet (steps_left s0) s0) as (Q1 & _). fold (settle s0) in Q1.
  rewrite run_events_app, E1, (observe_app _ _ _ _ _ E1), Q1. rewrite Ha1, Ha0 in Ha2.
  split_and!; [exact E2|done|]. rewrite Hc2. exact Ha2.
Qed.

(** ** One text *)

(** What goes through the library's writer is one print of the whole text. *)
Lemma display_lib outs : forall sc sc',
  Screen.wf sc -> count is_number outs = 0%nat -> for_each display outs sc = Ok sc' ->
  Screen.print_lib (text <$> outs) sc = Ok sc'.
Proof.
  induction outs as [|o outs IH]; intros sc sc' Hwf Hn; [intros [= <-]; by destruct sc|].
  unfold count in Hn. rewrite filter_cons in Hn. destruct (is_number o) eqn:Eo; [done|]. cbn [for_each].
  assert (display o sc = Screen.print_lib [text o] sc) as -> by (unfold display; by rewrite Eo).
  destruct (Screen.print_lib_wf [text o] sc Hwf) as (s1 & E1 & W1).
  rewrite E1. cbn [mbind res_bind]. intros H. rewrite fmap_cons.
  change (text o :: (text <$> outs)) with ([text o] ++ (text <$> outs)).
  rewrite Screen.print_lib_app, E1 by done. by apply IH.
Qed.

Lemma outputs_partition outs :
  length outs = (length (omap key_of outs) + count is_dot outs + count warns outs + count is_number outs)%nat.
Proof.
  unfold count. induction outs as [|[| | | |k] outs IH]; cbn [omap list_omap key_of]; [done|..];
    rewrite !filter_cons; simpl; lia.
Qed.

(** A list with one number and neither a key, a warning nor a dot. *)
Lemma one_number outs :
  count is_number outs = 1%nat -> omap key_of outs = [] ->
  count warns outs = 0%nat -> count is_dot outs = 0%nat -> outs = [Number].
Proof.
  unfold count. destruct outs as [|[| | | |k] outs]; try done. simpl. intros [= H1] H2 H3 H4.
  by destruct outs as [|[| | | |k] outs].
Qed.
End facts.

(** ** Properties *)

Section properties.
Context {QS QT C W K E P : Type}.
Context `{AQS : ArrayQueue Z QS} `{AQT : ArrayQueue Z QT} `{OC : OnceCell QS C}.
Context `{AW : AtomicWaker W} `{PK : PcKeyboard K E} `{PIC : ChainedPics P}.
Context (L1 : ArrayQueueLaws Z QS) (L2 : ArrayQueueLaws Z QT) (L3 : OnceCellLaws QS C).
Context (L4 : AtomicWakerLaws W) (L5 : ChainedPicsLaws P).

(** C3: the kernel echoes what is typed.  It settles after the start, and then bursts of
    events arrive, each with at most 100 keyboard interrupts, interleaved in any way
    with timer interrupts and with the kernel's operations, and each followed by the
    time to settle.  Then nothing panics, every scancode that reaches the handler is
    handled, in order, and the screen shows the line of the first task, followed by
    one text: a dot for each tick of the timer that reaches its handler, and the keys
    that the scancodes decode to, in order and completely, with no warning between them. *)
Theorem kernel_echoes_typing (ess : list (list event)) (s0 : sys QT C W K P) :
  boots s0 -> Forall (fun es => (keys es <= 100)%nat) ess ->
  exists s outs sc,
    let es := schedule ([] :: ess) s0 in
    run_events es s0 = Ok s /\ pc s = Halted /\ consumed s = observe delivered es s0 /\
    Screen.print_bin [bytes_of "async number: 42"; [10]] (screen (globals s0)) = Ok sc /\
    Screen.print_lib (text <$> outs) sc = Ok (screen (globals s)) /\
    omap key_of outs = (decode_all (observe delivered es s0) kb_new).1 /\
    count is_dot outs = length (observe ticks es s0) /\
    length outs = (length (omap key_of outs) + count is_dot outs)%nat.
Proof.
  intros Hb Hk. pose proof (boots_echo s0 Hb) as He0. pose proof (boots_spec s0 Hb) as (Hi0 & _ & Ha0).
  destruct (halts (steps_left s0) s0 Hi0) as (s1 & E1 & Hi1 & Hpc1 & Ha1); [done|]. fold (settle s0) in E1.
  destruct (settle_quiet (steps_left s0) s0) as (Q1 & Q2 & Q3 & Q4). fold (settle s0) in Q1, Q2, Q3, Q4.
  destruct (schedule_ok ess s1 Hi1 Hpc1 Hk) as (s & E2 & Hi2 & Hpc2 & Ha2 & Hw2 & Hd2).
  destruct (halted_idle s1 Hi1 Hpc1) as (_ & Hw1 & Hc1 & _). destruct (halted_idle s Hi2 Hpc2) as (_ & _ & Hc2 & _).
  pose proof (echo_run _ _ _ _ He0 E1) as He1. pose proof (echo_run _ _ _ _ He1 E2) as He2. cbn [app] in He1, He2.
  set (outs2 := observe emitted (schedule ess s1) s1) in *.
  assert (Hgone : first_left s1 = 0%nat).
  { unfold first_left. destruct (tasks s1 !! 0) as [t|] eqn:Et; [|done].
    destruct (e_first _ _ He1) as [Hz|Hz]; [by rewrite Et|rewrite Hw1 in Hz; by apply not_elem_of_nil in Hz|congruence]. }
  assert (Hone : observe emitted (settle s0) s0 = [Number]).
  { apply one_number; [|rewrite (e_keys _ _ He1), Hc1, Ha1, Ha0|..]; try done.
    pose proof (e_number _ _ He1). lia. }
  rewrite Hone in *. pose proof (run_shows _ _ _ E1) as S1. rewrite Hone, display_one in S1.
  pose proof (run_shows _ _ _ E2) as S2.
  assert (Hn : count is_number outs2 = 0%nat).
  { pose proof (e_number _ _ He2) as H. rewrite count_app in H. unfold count at 1 in H. simpl in H. lia. }
  assert (Hes : schedule ([] :: ess) s0 = settle s0 ++ schedule ess s1).
  { cbn [schedule app]. change (run_events [] s0) with (Ok s0). cbv iota. by rewrite E1. }
  exists s, outs2, (screen (globals s1)). cbv zeta. rewrite Hes.
  rewrite !(observe_app _ _ _ _ _ E1), Q1, Q2. cbn [app]. rewrite Ha1, Ha0 in Ha2. cbn [app] in Ha2. rewrite Ha2 in Hc2.
  split_and!; [rewrite run_events_app, E1; exact E2|done|done| | | |done|].
  - rewrite Screen.print_bin_concat. exact S1.
  - apply display_lib; [apply Hi1|done|exact S2].
  - pose proof (e_keys _ _ He2) as H. rewrite Hc2 in H. exact H.
  - rewrite (outputs_partition outs2). lia.
Qed.
End properties.

Import Reference.

(** Two bursts, the second of which has two keys and a tick: the three characters follow
    the line of the first task. *)
Lemma kernel_echoes_typing_witness :
  let ess := [[EKeyboard 65]; [EKeyboard 66; ETimer; EMain; EKeyboard 67]] in
  exists s outs sc,
    run_events (schedule ([] :: ess) boot0) boot0 = Ok s /\ consumed s = [65; 66; 67] /\
    Screen.print_lib (text <$> outs) sc = Ok (screen (globals s)) /\ count is_dot outs = 1%nat /\
    omap key_of outs = [Unicode 65; Unicode 66; Unicode 67].
Proof.
  intros ess.
  destruct (kernel_echoes_typing _ _ _ _ _ ess boot0 boots_boot0) as (s & outs & sc & E1 & _ & E2 & _ & E3 & E4 & E5 & _).
  - repeat constructor; vm_compute; lia.
  - exists s, outs, sc. rewrite E2, E4, E5. split_and!; [exact E1|vm_compute; reflexivity|exact E3|vm_compute; reflexivity|vm_compute; reflexivity].
Defined.
