(* ===== verification/Wakers.v ===== *)
(** * Who owns the wakers

    A waker of [src/min-rust-os/src/task/executor.rs] is an [Arc<TaskWaker>] on the heap.
    The executor's [waker_cache] holds one reference for each task, and
    [WAKER] of [src/min-rust-os/src/task/keyboard.rs] holds a clone of the one that was
    registered last, which [add_scancode] takes out and drops in the interrupt
    handler.  The last reference that is dropped frees the memory, and with it takes
    the allocator's lock, which the interrupted code may hold ([Locks.v]).  So it matters
    that a handler never drops the last one. *)

From S2P Require Import Prelude Queue Task Vga Keyboard Interrupts System Echo.
From stdpp Require Import base list option gmap strings.
From Stdlib Require Import ZArith Lia.
Local Open Scope Z_scope.

Section wakers.
Context {QS QT C W K E P : Type}.
Context `{AQS : ArrayQueue Z QS} `{AQT : ArrayQueue Z QT} `{OC : OnceCell QS C}.
Context `{AW : AtomicWaker W} `{PK : PcKeyboard K E} `{PIC : ChainedPics P}.
Abbreviation sys := (sys QT C W K P).

(** The strong count of the [TaskWaker] of the task [i]: the reference in the cache, and
    the one that is registered. *)
Definition cached (i : Z) (s : sys) : nat := match waker_cache s !! i with Some _ => 1 | None => 0 end.
Definition in_slot (i : Z) (w : option Waker) : nat :=
  match w with Some (FromTaskWaker j) => if decide (j = i) then 1 else 0 | _ => 0 end.
Definition strong_count (i : Z) (s : sys) : nat := (cached i s + in_slot i (registered (globals s)))%nat.

(** Whether an event drops the last reference. *)
Definition frees (i : Z) (e : event) (s : sys) : bool :=
  match sys_step e s with
  | Ok s' => bool_decide (0 < strong_count i s /\ strong_count i s' = 0)%nat
  | _ => false
  end.

(** ** The invariant *)

(** Only tasks have a cached waker, and the keyboard task has one as soon as its waker
    can be registered. *)
Record owned (s : sys) : Prop := {
  o_tasks : forall i, is_Some (waker_cache s !! i) -> is_Some (tasks s !! i);
  o_keys : registered (globals s) <> None \/ in_poll (pc s) = true -> is_Some (waker_cache s !! KEYS);
}.

Context `{!ArrayQueueLaws Z QS} `{!ArrayQueueLaws Z QT} `{!OnceCellLaws QS C}.
Context `{!AtomicWakerLaws W} `{!ChainedPicsLaws P}.

(** A step that leaves the cache alone. *)
Lemma owned_same (s s' : sys) :
  owned s -> waker_cache s' = waker_cache s -> (forall i, is_Some (tasks s !! i) -> is_Some (tasks s' !! i)) ->
  (registered (globals s') <> None \/ in_poll (pc s') = true -> registered (globals s) <> None \/ in_poll (pc s) = true) ->
  owned s'.
Proof. intros [H1 H2] Hc Ht Hr. constructor; rewrite Hc; auto. Qed.

(** The handlers register nothing. *)
Lemma add_scancode_registered c (g g' : statics QT C W P) :
  add_scancode c g = Ok g' -> registered g' = registered g \/ registered g' = None.
Proof.
  unfold add_scancode, println. intros H.
  destruct (oc_try_get (SCANCODE_QUEUE g)) as [q|]; [destruct (aq_push c q) as [q'|]|];
    [|left; destruct (Screen.print_lib _ _); simpl in H; by simplify_eq..].
  right. simpl in H. pose proof (aw_wake_spec (WAKER g)) as [_ Hs]. unfold registered.
  destruct (aw_wake (WAKER g)) as [[w|] slot]; simpl in Hs; [|by simplify_eq].
  destruct (wake w _); simpl in H; by simplify_eq.
Qed.

Lemma interrupt_owns v run (s s' : sys) :
  interrupt v run s = Ok s' ->
  (forall g g', run g = Ok g' -> registered g' = registered g \/ registered g' = None) ->
  waker_cache s' = waker_cache s /\ tasks s' = tasks s /\ in_poll (pc s') = in_poll (pc s) /\
  (registered (globals s') = registered (globals s) \/ registered (globals s') = None).
Proof.
  unfold interrupt. intros H Hr. destruct (_ && _); [|simplify_eq; split_and!; try done; by left].
  destruct (run _) as [g'| | |] eqn:Er; cbn [mbind res_bind] in H; simplify_eq.
  apply Hr in Er. unfold resume. simpl. destruct (pc s) eqn:Epc; simpl; rewrite ?Epc; split_and!; done.
Qed.

(** Hardware interrupts: nothing is cached, nothing is registered. *)
Lemma irq_owns e (s s' : sys) :
  e <> EMain -> sys_step e s = Ok s' ->
  waker_cache s' = waker_cache s /\ tasks s' = tasks s /\ in_poll (pc s') = in_poll (pc s) /\
  (registered (globals s') = registered (globals s) \/ registered (globals s') = None).
Proof.
  intros He Hs. destruct e as [| |c]; [done|..]; cbn [sys_step] in Hs.
  - eapply interrupt_owns; [exact Hs|]. intros g g' Hg. left. unfold timer_interrupt_handler, print in Hg.
    destruct (Screen.print_lib _ _); simpl in Hg; by simplify_eq.
  - destruct (interrupt Keyboard _ s) as [s1| | |] eqn:Ei; cbn [mbind res_bind] in Hs; [|done..].
    assert (waker_cache s' = waker_cache s1 /\ tasks s' = tasks s1 /\ pc s' = pc s1 /\ globals s' = globals s1)
      as (-> & -> & -> & ->) by (injection Hs as <-; by destruct (_ && _ && _)).
    eapply interrupt_owns; [exact Ei|]. intros g g' Hg. unfold keyboard_interrupt_handler in Hg.
    destruct (add_scancode c g) as [g1| | |] eqn:Ea; cbn [mbind res_bind] in Hg; simplify_eq.
    exact (add_scancode_registered c g g1 Ea).
Qed.

Lemma owned_task (s s' : sys) i :
  inv s -> owned s -> pc s = RunTask i -> main_step s = Ok s' -> owned s'.
Proof.
  intros [_ _ Hc Ho (o & Hk & _) _] [H1 H2] Epc Hs. unfold main_step in Hs. rewrite Epc in *.
  destruct (tasks s !! i) as [task|] eqn:Et; [|simplify_eq; constructor; simpl; [done|intros [?|?]; auto; done]].
  rewrite Executor.entry_or_insert_spec in Hs by apply Hc.
  assert (Ht : forall j, is_Some (<[i := FromTaskWaker i]> (waker_cache s) !! j) -> is_Some (tasks s !! j)).
  { intros j [w [[<- _]|[_ Hj]]%lookup_insert_Some]; [by rewrite Et|]. apply H1. by exists w. }
  destruct (decide (i = KEYS)) as [->|Hne].
  - rewrite Hk in Et. injection Et as <-. cbn [future] in Hs.
    assert (Hs' : waker_cache s' = <[KEYS := FromTaskWaker KEYS]> (waker_cache s) /\ tasks s' = tasks s).
    { destruct o as [k|]; cbn [enter_poll] in Hs; [by simplify_eq|].
      unfold ScancodeStream_new in Hs. destruct (oc_try_init_once _ _); simpl in Hs; by simplify_eq. }
    destruct Hs' as [E1 E2]. constructor; rewrite E1, ?E2; [done|]. intros _. by rewrite lookup_insert_eq.
  - rewrite (Ho _ _ Hne Et) in Hs. cbn [enter_poll] in Hs. unfold main_println in Hs.
    destruct (Screen.print_bin _ _) as [sc| | |]; simpl in Hs; simplify_eq. constructor; simpl.
    + intros j [w [Hj Hw]%lookup_delete_Some]. rewrite lookup_delete_ne by done. apply Ht. by exists w.
    + intros [Hr|?]; [|done]. rewrite lookup_delete_ne, lookup_insert_ne by done. apply H2. by left.
Qed.

Lemma owned_step e (s s' : sys) : inv s -> owned s -> sys_step e s = Ok s' -> owned s'.
Proof.
  intros Hi Hw Hs. destruct (decide (e = EMain)) as [->|He].
  2: { destruct (irq_owns e s s' He Hs) as (E1 & E2 & E3 & E4).
       apply (owned_same s); [done|done|by rewrite E2|]. rewrite E3.
       intros [Hr|Hr]; [|by right]. left. destruct E4 as [E4|E4]; rewrite E4 in Hr; done. }
  cbn [sys_step] in Hs. destruct (pc s) as [|i|i w k st|i w k c| | | | | |] eqn:Epc.
  2: by eapply owned_task.
  all: unfold main_step in Hs; rewrite Epc in Hs.
  4-9: injection Hs as <-; apply (owned_same s); try done; simpl; rewrite ?Epc; (intros [?|H]; [by left|]);
    try done; by destruct (aq_is_empty _).
  - destruct (aq_pop _) as [[j q]|]; simplify_eq; by apply (owned_same s); try done; simpl; rewrite Epc.
  - pose proof Hi as [_ _ _ _ (o & Hk & _ & Hpc) _]. rewrite Epc in Hpc. destruct Hpc as (_ & -> & -> & Hst).
    destruct st as [| | |x|[[x|]|]]; [| | | |simplify_eq|done|simplify_eq].
    1-4: match type of Hs with context [poll_next_step ?w ?st ?g] =>
        destruct (poll_next_step w st g) as [[st' g']| | |] end; cbn [mbind res_bind] in Hs; simplify_eq;
      apply (owned_same s); try done; intros _; right; by rewrite Epc.
    + apply (owned_same s); try done. intros _. right. by rewrite Epc.
    + apply (owned_same s); try done; simpl; [|intros _; right; by rewrite Epc].
      intros j Hj. destruct (decide (j = KEYS)) as [->|Hne]; [by rewrite lookup_insert_eq|by rewrite lookup_insert_ne].
  - destruct (handle_scancode c k (globals s)) as [[k' g']| | |]; cbn [mbind res_bind] in Hs; simplify_eq.
    apply (owned_same s); try done. intros _. right. by rewrite Epc.
Qed.

Lemma owned_run es : forall s s' : sys, inv s -> owned s -> run_events es s = Ok s' -> owned s'.
Proof.
  induction es as [|e es IH]; intros s s' Hi Hw; [by intros [= <-]|]. rewrite run_events_cons.
  pose proof (event_ok_step e s Hi) as He. destruct (sys_step e s) as [s1| | |] eqn:E1; cbn [mbind res_bind]; try done.
  apply IH; [apply He|by eapply owned_step].
Qed.

Lemma boots_owned (s : sys) : boots s -> owned s.
Proof.
  intros (ex & n & g & Hsp & [_ Hwk _ _] & ->).
  destruct (Spawn.spawn_all_spawned (Q := QT) 0 [example_task; @print_keypresses K None])
    as ([ex' n'] & E' & [_ _ _ _ _ [_ Hcache]]); [by split|simpl; lia|].
  unfold spawn_kernel_tasks in Hsp. rewrite Hsp in E'. injection E' as <- <-. simpl in Hcache.
  constructor; simpl.
  - intros i [w Hw]. by apply Hcache in Hw as [_ ?].
  - intros [H|?]; [|done]. unfold registered in H. simpl in H. by rewrite Hwk, aw_registered_new in H.
Qed.

(** What is left when the processor sleeps. *)
Lemma halted_counts (es : list event) (s0 s : sys) :
  boots s0 -> run_events es s0 = Ok s -> pc s = Halted ->
  (forall i, strong_count i s = if decide (i = KEYS) then 2 else 0)%nat.
Proof.
  intros Hb Hrun Hpc i. pose proof (boots_spec s0 Hb) as (Hi0 & _ & _).
  pose proof (echo_run _ _ _ _ (boots_echo s0 Hb) Hrun) as He. pose proof (e_inv _ _ He) as Hi.
  pose proof (owned_run _ _ _ Hi0 (boots_owned s0 Hb) Hrun) as [Ht Hk].
  destruct (halted_idle s Hi Hpc) as (_ & Hw & _ & Hr & _). unfold strong_count, cached. rewrite Hr. simpl.
  destruct (decide (i = KEYS)) as [->|Hne].
  - destruct Hk as [w ->]; [left; by rewrite Hr|]. by rewrite decide_True.
  - rewrite decide_False by congruence. destruct (waker_cache s !! i) as [w|] eqn:Ew; [|done].
    destruct (Ht i) as [t Hit]; [by exists w|]. destruct (e_dom _ _ He i t Hit) as [->|?]; [|done].
    destruct (e_first _ _ He) as [Hz|Hz]; [by exists t|rewrite Hw in Hz; by apply not_elem_of_nil in Hz|congruence].
Qed.
End wakers.

(** ** Properties *)

Section properties.
Context {QS QT C W K E P : Type}.
Context `{AQS : ArrayQueue Z QS} `{AQT : ArrayQueue Z QT} `{OC : OnceCell QS C}.
Context `{AW : AtomicWaker W} `{PK : PcKeyboard K E} `{PIC : ChainedPics P}.
Context (L1 : ArrayQueueLaws Z QS) (L2 : ArrayQueueLaws Z QT) (L3 : OnceCellLaws QS C).
Context (L4 : AtomicWakerLaws W) (L5 : ChainedPicsLaws P).

(** No interrupt handler frees memory.  Whatever has happened before, the waker that
    a keyboard interrupt takes out and drops is never the last reference to its
    [TaskWaker], so the handler does not call the allocator, whose lock the
    interrupted code may hold.  And no waker leaks: when the processor sleeps, the
    [TaskWaker] of the keyboard task is referenced exactly twice, by the cache and by
    [WAKER], and that of the task that has finished is gone. *)
Theorem interrupts_free_nothing (es : list event) (s0 s : sys QT C W K P) :
  boots s0 -> run_events es s0 = Ok s ->
  (forall e i, e <> EMain -> frees i e s = false) /\
  (pc s = Halted -> forall i, strong_count i s = if decide (i = KEYS) then 2 else 0)%nat.
Proof.
  intros Hb Hrun. pose proof (boots_spec s0 Hb) as (Hi0 & _ & _).
  pose proof (run_events_inv es s0 s Hi0 Hrun) as Hi.
  pose proof (owned_run _ _ _ Hi0 (boots_owned s0 Hb) Hrun) as [_ Hk]. split; [|by apply (halted_counts es s0)].
  intros e i Hne. unfold frees. destruct (sys_step e s) as [s'| | |] eqn:Es; try done.
  destruct (irq_owns e s s' Hne Es) as (E1 & _ & _ & E4). apply bool_decide_eq_false. unfold strong_count, cached.
  rewrite E1. intros [Hpos Hzero].
  assert (Hslot : in_slot i (registered (globals s)) = 0%nat); [|destruct (waker_cache s !! i); lia].
  destruct (i_globals _ Hi) as [_ [Hr|Hr] _]; rewrite Hr; [done|]. simpl. destruct (decide (KEYS = i)) as [<-|]; [|done].
  destruct Hk as [w Hw]; [left; by rewrite Hr|]. by rewrite Hw in Hzero.
Qed.
End properties.

Import Reference.

(** A keyboard interrupt arrives while the processor sleeps. *)
Lemma interrupts_free_nothing_witness :
  exists s, run_events (replicate 20 EMain) boot0 = Ok s /\ strong_count KEYS s = 2%nat /\ strong_count 0 s = 0%nat /\
    frees KEYS (EKeyboard 30) s = false.
Proof.
  destruct (run_events (replicate 20 EMain) boot0) as [s| | |] eqn:Es; [|vm_compute in Es; discriminate Es..].
  assert (Hs : pc s = Halted) by (vm_compute in Es; injection Es as <-; done).
  destruct (interrupts_free_nothing _ _ _ _ _ _ boot0 s boots_boot0 Es) as [H1 H2].
  exists s. split_and!; [reflexivity|exact (H2 Hs KEYS)|exact (H2 Hs 0)|apply H1; discriminate].
Defined.
