(* ===== verification/Locks.v ===== *)
(** * Spin locks and interrupts

    The kernel's statics are behind [spin::Mutex], and an interrupt handler that
    spins on a lock held by the code it interrupted never returns.  [_print] of
    [src/min-rust-os/src/vga_buffer.rs] and [src/min-rust-os/src/serial.rs] therefore
    take their lock inside [without_interrupts]; the allocators ([Locked] in
    [src/min-rust-os/src/allocator.rs]) and [write_to_vga] of
    [src/min-rust-os/src/main.rs] do not.  Here the code is reduced to what it does
    to the locks and to the interrupt flag, on a processor that is interrupted at
    any point.

    Panics and exceptions report through the same locks.  A panic does not unwind:
    the panic handler of [src/min-rust-os/src/main.rs] runs on top of what the failing
    code holds, prints, and halts; so does the page fault handler.  The points where
    code can fail are marked. *)

From S2P Require Import Prelude.
From stdpp Require Import base option sets list.
From Stdlib Require Import Lia.

(** The locks: the library's [WRITER] and the one of the module's copy in [main.rs],
    [SERIAL1], [PICS] and the global allocator. *)
Inductive lock := WRITER | BIN_WRITER | SERIAL1 | PICS | ALLOCATOR.
#[global] Instance lock_eq_dec : EqDecision lock.
Proof. solve_decision. Defined.

(** [Save] and [Restore] are the two ends of [without_interrupts]: interrupts are
    disabled, and enabled again if they were enabled before.  The code can fail at
    [MayFail], and [Halt] is [hlt_loop]. *)
Inductive op := Save | Restore | Acquire (l : lock) | Release (l : lock) | MayFail | Halt.
#[global] Instance op_eq_dec : EqDecision op.
Proof. solve_decision. Defined.

Definition without_interrupts (f : list op) : list op := Save :: f ++ [Restore].

(** [LOCK.lock()] and an operation through the guard, which is dropped at the end of
    the statement. *)
Definition locked (l : lock) : list op := [Acquire l; Release l].

(** ** The kernel's code *)

Definition print : list op := without_interrupts (locked WRITER).
Definition main_print : list op := without_interrupts (locked BIN_WRITER).
Definition serial_print : list op := without_interrupts (locked SERIAL1).
(** The allocators' assertions can fail, with the lock held. *)
Definition heap_operation : list op := [Acquire ALLOCATOR; MayFail; Release ALLOCATOR].
(** [write_str] and [write!], each on a guard of its own. *)
Definition write_to_vga : list op := locked BIN_WRITER ++ locked BIN_WRITER.
Definition timer_handler : list op := print ++ locked PICS.
(** [add_scancode] prints a warning, or it wakes the task, which panics when the task
    queue is full. *)
Definition keyboard_handler (warns : bool) : list op := (if warns then print else [MayFail]) ++ locked PICS.

(** [init], up to enabling interrupts. *)
Definition init_pics : list op := locked PICS.

(** The breakpoint handler prints a line and returns. *)
Definition breakpoint_handler : list op := print.

Definition hlt_loop : list op := [Halt].

(** The fatal handlers: the panic handler, to which the double fault handler comes, too,
    and the page fault handler with its four lines. *)
Definition panic_handler : list op := main_print ++ hlt_loop.
Definition page_fault_handler : list op := print ++ print ++ print ++ print ++ hlt_loop.

(** What the kernel runs before it enables interrupts, and after; [[MayFail]] is code
    that takes no lock. *)
Definition boot_jobs : list (list op) := [main_print; write_to_vga; init_pics; [MayFail]].
Definition kernel_jobs : list (list op) := [print; main_print; serial_print; heap_operation; [MayFail]].
Definition kernel_handlers : list (list op) :=
  [timer_handler; keyboard_handler true; keyboard_handler false; breakpoint_handler].

(** ** The processor *)

Record frame := mkFrame { code : list op; saved : bool }.
Record cpu := mkCpu { frames : list frame; enabled : bool; held : list lock }.

(** What happens next: an operation of the code on top; an interrupt with its handler;
    a failure of the code on top, as a panic or as an exception, which is delivered
    with interrupts disabled; and, when the kernel has nothing left to do, a new job,
    or the end of [init], which enables interrupts. *)
Inductive event :=
| Run
| Irq (handler : list op)
| Panics
| Faults (handler : list op)
| BootJob (job : list op)
| Enable
| Job (job : list op).

(** An operation of the code on top; [None] while it spins on a lock. *)
Definition run_op (s : cpu) : option cpu :=
  match frames s with
  | [] => Some s
  | mkFrame [] _ :: [] => Some s
  | mkFrame [] _ :: fs => Some (mkCpu fs true (held s))   (* [iret] restores the flags *)
  | mkFrame (Save :: c) _ :: fs => Some (mkCpu (mkFrame c (enabled s) :: fs) false (held s))
  | mkFrame (Restore :: c) sv :: fs => Some (mkCpu (mkFrame c sv :: fs) (if sv then true else enabled s) (held s))
  | mkFrame (Acquire l :: c) sv :: fs =>
      if decide (l ∈ held s) then None else Some (mkCpu (mkFrame c sv :: fs) (enabled s) (l :: held s))
  | mkFrame (Release l :: c) sv :: fs =>
      Some (mkCpu (mkFrame c sv :: fs) (enabled s) (filter (fun x => x <> l) (held s)))
  | mkFrame (MayFail :: c) sv :: fs => Some (mkCpu (mkFrame c sv :: fs) (enabled s) (held s))
  | mkFrame (Halt :: _) _ :: _ => Some s
  end.

(** The code on top fails, if it can fail here: the handler takes over, and what the
    code holds stays locked. *)
Definition fail_with (h : list op) (en : bool) (s : cpu) : cpu :=
  match frames s with
  | mkFrame (MayFail :: _) sv :: fs => mkCpu (mkFrame h sv :: fs) en (held s)
  | _ => s
  end.

(** The kernel has nothing to do, and interrupts are [en]. *)
Definition start_job (j : list op) (en : bool) (s : cpu) : cpu :=
  match frames s with
  | [mkFrame [] _] => if Bool.eqb (enabled s) en then mkCpu [mkFrame j false] (enabled s) (held s) else s
  | _ => s
  end.

Definition cpu_step (e : event) (s : cpu) : option cpu :=
  match e with
  | Run => run_op s
  | Irq h => Some (if enabled s then mkCpu (mkFrame h false :: frames s) false (held s) else s)
  | Panics => Some (fail_with panic_handler (enabled s) s)
  | Faults h => Some (fail_with h false s)
  | BootJob j => Some (start_job j false s)
  | Enable =>
      Some (match frames s with
            | [mkFrame [] sv] => mkCpu [mkFrame [] sv] true (held s)
            | _ => s
            end)
  | Job j => Some (start_job j true s)
  end.

Fixpoint run_cpu (es : list event) (s : cpu) : option cpu :=
  match es with
  | [] => Some s
  | e :: es' => s' ← cpu_step e s; run_cpu es' s'
  end.

(** The bootloader starts the kernel with interrupts disabled. *)
Definition boot : cpu := mkCpu [mkFrame [] false] false [].

Definition fatal_handlers : list (list op) := [panic_handler; page_fault_handler].

Definition kernel_event (e : event) : Prop :=
  match e with
  | Run | Panics | Enable => True
  | Irq h => h ∈ kernel_handlers
  | Faults h => h ∈ fatal_handlers
  | BootJob j => j ∈ boot_jobs
  | Job j => j ∈ kernel_jobs
  end.

(** ** A discipline of locks

    [check hl fin sv en hs c]: with the flag saved as [sv], interrupts [en], and the
    locks [hs] taken by this code, [c] never takes a lock twice, never holds one of
    the handlers' locks [hl] while interrupts are enabled or where it can fail, and
    ends in a halt, or with all locks released and interrupts [fin]. *)
Definition clear_of (hl hs : list lock) : bool := forallb (fun l => bool_decide (l ∉ hl)) hs.

Fixpoint check (hl : list lock) (fin sv en : bool) (hs : list lock) (c : list op) : bool :=
  match c with
  | [] => bool_decide (hs = []) && Bool.eqb en fin
  | Save :: c' => check hl fin en false hs c'
  | Restore :: c' =>
      let en' := if sv then true else en in
      implb en' (clear_of hl hs) && check hl fin sv en' hs c'
  | Acquire l :: c' =>
      bool_decide (l ∉ hs) && implb en (bool_decide (l ∉ hl)) && check hl fin sv en (l :: hs) c'
  | Release l :: c' => bool_decide (l ∈ hs) && check hl fin sv en (filter (fun x => x <> l) hs) c'
  | MayFail :: c' => clear_of hl hs && check hl fin sv en hs c'
  | Halt :: c' => true
  end.

(** The locks that code takes. *)
Definition takes (c : list op) : list lock :=
  omap (fun o => match o with Acquire l => Some l | _ => None end) c.

(** A report: lines printed through the locks [ls], and a halt. *)
Fixpoint report (ls : list lock) : list op :=
  match ls with
  | [] => [Halt]
  | l :: ls => without_interrupts (locked l) ++ report ls
  end.

Section discipline.
Context (hl : list lock).

Definition handler_ok (h : list op) : Prop :=
  check hl false false false [] h = true /\ Forall (fun l => l ∈ hl) (takes h).
Definition fatal_ok (h : list op) : Prop := exists ls, h = report ls /\ Forall (fun l => l ∈ hl) ls.

(** Either the kernel's code runs, or one handler on top of it; what the interrupted
    code holds, the handler does not take. *)
Inductive ok : cpu -> Prop :=
| ok_main fin c sv en hs :
    check hl fin sv en hs c = true ->
    (en = true -> Forall (fun l => l ∉ hl) hs) ->
    ok (mkCpu [mkFrame c sv] en hs)
| ok_handler fin h c sv hs hm :
    check hl false false false hs h = true ->
    Forall (fun l => l ∈ hl) (takes h) -> Forall (fun l => l ∈ hl) hs ->
    check hl fin sv true hm c = true -> Forall (fun l => l ∉ hl) hm ->
    ok (mkCpu [mkFrame h false; mkFrame c sv] false (hs ++ hm)).

Lemma filter_other l hm :
  l ∈ hl -> Forall (fun x => x ∉ hl) hm -> filter (fun x => x <> l) hm = hm.
Proof.
  intros Hl. induction 1 as [|x hm Hx _ IH]; [done|].
  rewrite filter_cons_True by (by intros ->). by rewrite IH.
Qed.

Lemma Forall_filter_keep (P : lock -> Prop) (l : lock) hs :
  Forall P hs -> Forall P (filter (fun x => x <> l) hs).
Proof. rewrite !Forall_forall. intros H x [_ Hx]%list_elem_of_filter. by apply H. Qed.

Lemma clear_of_spec hs : clear_of hl hs = true <-> Forall (fun l => l ∉ hl) hs.
Proof.
  unfold clear_of. rewrite forallb_forall, Forall_forall. split; intros H x Hx.
  - apply (bool_decide_eq_true (x ∉ hl)), H. by apply list_elem_of_In.
  - apply bool_decide_eq_true, H. by apply list_elem_of_In.
Qed.

Ltac split_check H :=
  cbn [check] in H; repeat (apply andb_true_iff in H as [H ?]);
  repeat match goal with
    | X : bool_decide _ = true |- _ => apply bool_decide_eq_true in X
    | X : clear_of _ _ = true |- _ => apply clear_of_spec in X
    end.

(** A report finds the handlers' locks free, where the code under it holds none. *)
Lemma check_report fin ls : forall sv en hs,
  Forall (fun l => l ∈ hl) ls -> Forall (fun l => l ∉ hl) hs -> check hl fin sv en hs (report ls) = true.
Proof.
  induction ls as [|l ls IH]; intros sv en hs Hls Hhs; [done|]. apply Forall_cons in Hls as [Hl Hls].
  assert (l ∉ hs) as Hn by (intros Hx; by apply (proj1 (Forall_forall _ _) Hhs) in Hx).
  cbn [report without_interrupts locked app check]. rewrite bool_decide_true by done. cbn [implb andb].
  rewrite bool_decide_true by by left. rewrite filter_cons_False by tauto.
  rewrite (filter_other l hs) by done. rewrite (proj2 (clear_of_spec hs)) by done.
  rewrite IH by done. by destruct en.
Qed.

Lemma takes_report ls : takes (report ls) = ls.
Proof. induction ls as [|l ls IH]; [done|]. unfold takes in *. cbn [report without_interrupts locked app omap list_omap]. by rewrite IH. Qed.

(** An operation of the kernel's own code. *)
Lemma run_main fin c sv en hs :
  check hl fin sv en hs c = true -> (en = true -> Forall (fun l => l ∉ hl) hs) ->
  exists s', run_op (mkCpu [mkFrame c sv] en hs) = Some s' /\ ok s'.
Proof.
  intros Hc Hen. destruct c as [|[| |l|l| |] c]; cbn [run_op frames enabled held].
  - eexists. split; [done|]. by econstructor.
  - eexists. split; [done|]. by econstructor.
  - split_check Hc. eexists. split; [done|]. econstructor; [done|]. intros E. rewrite E in Hc. by apply clear_of_spec.
  - split_check Hc. rewrite decide_False by done. eexists. split; [done|]. econstructor; [done|].
    intros ->. simpl in *. apply Forall_cons. split; [by apply (bool_decide_eq_true (l ∉ hl))|by apply Hen].
  - split_check Hc. eexists. split; [done|]. econstructor; [done|]. intros E. by apply Forall_filter_keep, Hen.
  - split_check Hc. eexists. split; [done|]. by econstructor.
  - eexists. split; [done|]. by econstructor.
Qed.

(** An operation of a handler: it finds every lock free. *)
Lemma run_handler fin h c sv hs hm :
  check hl false false false hs h = true -> Forall (fun l => l ∈ hl) (takes h) ->
  Forall (fun l => l ∈ hl) hs -> check hl fin sv true hm c = true -> Forall (fun l => l ∉ hl) hm ->
  exists s', run_op (mkCpu [mkFrame h false; mkFrame c sv] false (hs ++ hm)) = Some s' /\ ok s'.
Proof.
  intros Hc Ht Hh Hm Hd. destruct h as [|[| |l|l| |] h]; cbn [run_op frames enabled held].
  - split_check Hc. subst hs. eexists. split; [done|]. by econstructor.
  - eexists. split; [done|]. by econstructor.
  - split_check Hc. eexists. split; [done|]. by econstructor.
  - split_check Hc. apply Forall_cons in Ht as [Hl Ht].
    rewrite decide_False.
    + eexists. split; [done|]. apply (ok_handler fin h c sv (l :: hs) hm); try done. by apply Forall_cons.
    + rewrite elem_of_app. intros [Hx|Hx]; [done|]. by apply (proj1 (Forall_forall _ _) Hd) in Hx.
  - split_check Hc. eexists. split; [done|]. rewrite filter_app.
    assert (Hlh : l ∈ hl) by (by apply (proj1 (Forall_forall _ _) Hh)).
    rewrite (filter_other l hm) by done. econstructor; try done. by apply Forall_filter_keep.
  - split_check Hc. eexists. split; [done|]. by econstructor.
  - eexists. split; [done|]. by econstructor.
Qed.

(** A failure. *)
Lemma fail_ok h en s : fatal_ok h -> (en = true -> enabled s = true) -> ok s -> ok (fail_with h en s).
Proof.
  intros (ls & -> & Hls) Hen Hs.
  destruct Hs as [fin c sv en' hs H1 H2|fin h c sv hs hm H1 H2 H3 H4 H5]; cbn [fail_with frames].
  - destruct c as [|[| |l|l| |] c]; try by econstructor. split_check H1.
    apply (ok_main fin); [by apply check_report|]. intros E. by apply H2, Hen.
  - destruct h as [|[| |l|l| |] h]; try by econstructor. split_check H1.
    destruct en; [by specialize (Hen eq_refl)|].
    cbn [held]. apply (ok_handler fin (report ls) c sv hs hm); [by apply check_report|by rewrite takes_report|done..].
Qed.

(** Jobs and handlers that keep the discipline. *)
Definition event_ok (e : event) : Prop :=
  match e with
  | Run | Enable => True
  | Panics => fatal_ok panic_handler
  | Faults h => fatal_ok h
  | Irq h => handler_ok h
  | BootJob j => check hl false false false [] j = true
  | Job j => check hl true false true [] j = true
  end.

Lemma start_job_ok j en s : check hl en false en [] j = true -> ok s -> ok (start_job j en s).
Proof.
  intros Hj Hs. destruct Hs as [fin c sv en' hs H1 H2|fin h c sv hs hm]; unfold start_job; cbn [frames enabled held];
    [|destruct h; by eapply ok_handler].
  destruct c as [|o c]; [|by eapply ok_main]. split_check H1. subst hs.
  destruct (Bool.eqb en' en) eqn:E; [apply Bool.eqb_prop in E as ->; by eapply ok_main|].
  apply (ok_main fin); [cbn [check]; by rewrite bool_decide_true|done].
Qed.

Lemma enable_ok s : ok s -> ok (match frames s with
  | [mkFrame [] sv] => mkCpu [mkFrame [] sv] true (held s) | _ => s end).
Proof.
  intros Hs. destruct Hs as [fin c sv en hs H1 H2|fin h c sv hs hm]; cbn [frames held];
    [|destruct h; by eapply ok_handler].
  destruct c as [|o c]; [|by eapply ok_main]. split_check H1. subst hs. by apply (ok_main true).
Qed.

Lemma cpu_step_ok e s : event_ok e -> ok s -> exists s', cpu_step e s = Some s' /\ ok s'.
Proof.
  intros He Hs. destruct e as [|h| |h|j| |j]; cbn [cpu_step event_ok] in *;
    try (eexists; split; [reflexivity|]; by auto using fail_ok, start_job_ok, enable_ok).
  - destruct Hs as [fin c sv en hs H1 H2|fin h c sv hs hm H1 H3 H4 H5 H6]; [by eapply run_main|by eapply run_handler].
  - eexists. split; [reflexivity|]. destruct He as [He1 He2].
    destruct Hs as [fin c sv [] hs H1 H2|]; cbn [enabled]; [|by econstructor|by econstructor].
    apply (ok_handler fin h c sv [] hs); try done. by apply H2.
  - eexists. split; [reflexivity|]. by apply fail_ok.
Qed.

Lemma run_cpu_ok es : forall s, Forall event_ok es -> ok s -> exists s', run_cpu es s = Some s' /\ ok s'.
Proof.
  induction es as [|e es IH]; intros s Hes Hs; [by exists s|].
  apply Forall_cons in Hes as [He Hes]. destruct (cpu_step_ok e s He Hs) as (s1 & E1 & Hs1).
  simpl. rewrite E1. simpl. by apply IH.
Qed.
End discipline.

(** ** Reports end *)

(** The code on top. *)
Definition running (s : cpu) : list op := match frames s with f :: _ => code f | [] => [] end.

Lemma run_op_running s s' o c :
  running s = o :: c -> o <> Halt -> run_op s = Some s' -> running s' = c.
Proof.
  unfold running, run_op. destruct (frames s) as [|[c' sv] fs]; [done|]. simpl. intros ->.
  destruct o as [| |l|l| |]; simpl; intros Hh E;
    try destruct (decide _); by simplify_eq.
Qed.

(** Code that is not interrupted runs to its halt, unless it spins. *)
Lemma run_to_halt c : forall s,
  running s = c ++ [Halt] -> Halt ∉ c -> (forall n, is_Some (run_cpu (replicate n Run) s)) ->
  exists s', run_cpu (replicate (length c) Run) s = Some s' /\ running s' = [Halt].
Proof.
  induction c as [|o c IH]; intros s Hr Hn Hs; [by exists s|].
  apply not_elem_of_cons in Hn as [Ho Hn]. destruct (Hs 1%nat) as [s1 E1]. simpl in E1.
  destruct (run_op s) as [s2|] eqn:E2; [|done]. simpl in E1. injection E1 as <-. simpl. rewrite E2. simpl.
  apply IH; [by eapply run_op_running|done|]. intros n. specialize (Hs (S n)). simpl in Hs. by rewrite E2 in Hs.
Qed.

(** ** Properties *)

(** The locks that interrupt handlers and fatal handlers take. *)
Definition handler_locks : list lock := [WRITER; BIN_WRITER; PICS].

Lemma fatal_handler_ok h : h ∈ fatal_handlers -> fatal_ok handler_locks h.
Proof.
  unfold fatal_handlers. intros [-> |[-> |[]%not_elem_of_nil]%elem_of_cons]%elem_of_cons.
  - by exists [BIN_WRITER]; split; [|apply (bool_decide_unpack _)].
  - by exists [WRITER; WRITER; WRITER; WRITER]; split; [|apply (bool_decide_unpack _)].
Qed.

Lemma kernel_event_ok e : kernel_event e -> event_ok handler_locks e.
Proof.
  destruct e as [|h| |h|j| |j]; simpl; [done| |intros _|apply fatal_handler_ok| |done|];
    [|apply fatal_handler_ok; by left|..];
    unfold kernel_handlers, kernel_jobs, boot_jobs; intros H;
    repeat (apply elem_of_cons in H as [-> |H];
      [first [reflexivity|split; [reflexivity|by apply (bool_decide_unpack _)]]|]); by apply not_elem_of_nil in H.
Qed.

Lemma kernel_run_ok es s :
  Forall kernel_event es -> ok handler_locks s -> exists s', run_cpu es s = Some s' /\ ok handler_locks s'.
Proof. intros Hes. apply run_cpu_ok. eapply Forall_impl; [exact Hes|]. exact kernel_event_ok. Qed.

Lemma boot_is_ok : ok handler_locks boot.
Proof. by apply (ok_main _ false). Qed.

(** C23: no interrupt handler and no part of the kernel ever spins on a lock, wherever
    the interrupts arrive and wherever the code fails: printing holds its lock with
    interrupts disabled, what [write_to_vga] does without that happens before
    interrupts are enabled, and the allocator's lock is taken by no handler.  And every
    failure is reported: when code panics or faults at a point where it can, with
    whatever is locked under it, the handler prints its lines and comes to its halt. *)
Theorem kernel_never_spins_on_a_lock (es : list event) :
  Forall kernel_event es ->
  exists s, run_cpu es boot = Some s /\
    forall c, running s = MayFail :: c ->
      (exists s', run_cpu (Panics :: replicate 4 Run) s = Some s' /\ running s' = [Halt]) /\
      (exists s', run_cpu (Faults page_fault_handler :: replicate 16 Run) s = Some s' /\ running s' = [Halt]).
Proof.
  intros Hes. destruct (kernel_run_ok es boot Hes boot_is_ok) as (s & E & Hs). exists s. split; [done|].
  assert (Hrep : forall e h c, kernel_event e -> running s = MayFail :: c ->
    (exists s1, cpu_step e s = Some s1 /\ running s1 = h ++ [Halt]) -> Halt ∉ h ->
    exists s', run_cpu (e :: replicate (length h) Run) s = Some s' /\ running s' = [Halt]).
  { intros e h c He Hc (s1 & E1 & Hr) Hh. simpl. rewrite E1. simpl.
    destruct (cpu_step_ok _ e s (kernel_event_ok e He) Hs) as (s1' & E1' & Hs1).
    rewrite E1 in E1'. injection E1' as <-.
    apply run_to_halt; [done|done|]. intros n.
    destruct (kernel_run_ok (replicate n Run) s1) as (s2 & -> & _); [by apply Forall_replicate|done|done]. }
  intros c Hc. split.
  - apply (Hrep Panics main_print c); [done|done| |by apply (bool_decide_unpack _)].
    eexists. split; [reflexivity|]. unfold fail_with, running in *.
    destruct (frames s) as [|[c' sv] fs]; [done|]. simpl in Hc. by subst c'.
  - apply (Hrep (Faults page_fault_handler) (print ++ print ++ print ++ print) c);
      [by right; left|done| |by apply (bool_decide_unpack _)].
    eexists. split; [reflexivity|]. unfold fail_with, running in *.
    destruct (frames s) as [|[c' sv] fs]; [done|]. simpl in Hc. by subst c'.
Qed.

(** A heap operation is interrupted, and then fails while it holds its lock. *)
Lemma kernel_never_spins_on_a_lock_witness :
  exists s,
    run_cpu ([BootJob write_to_vga; Run; Run; Run; Run; Enable; Job heap_operation; Run; Irq timer_handler]
      ++ replicate 7 Run) boot = Some s /\ held s = [ALLOCATOR] /\
    exists s', run_cpu (Panics :: replicate 4 Run) s = Some s' /\ running s' = [Halt].
Proof.
  destruct (kernel_never_spins_on_a_lock ([BootJob write_to_vga; Run; Run; Run; Run; Enable; Job heap_operation; Run;
    Irq timer_handler] ++ replicate 7 Run)) as (s & E & Hf).
  - repeat (apply Forall_cons; split); try apply Forall_nil; simpl;
      unfold kernel_jobs, boot_jobs, kernel_handlers; set_solver.
  - vm_compute in E. injection E as <-. eexists. split; [reflexivity|]. split; [reflexivity|].
    exact (proj1 (Hf _ eq_refl)).
Defined.

(** Without [without_interrupts], printing would deadlock with the timer: the
    handler spins on the lock that the code under it holds. *)
Theorem unguarded_print_deadlocks :
  run_cpu [Enable; Job (locked WRITER); Run; Irq timer_handler; Run; Run] boot = None.
Proof. reflexivity. Qed.

(** [write_to_vga] relies on its place before [init]: with interrupts enabled, a
    panic of the keyboard's handler would spin on the writer's lock. *)
Theorem late_write_to_vga_deadlocks :
  run_cpu [Enable; Job write_to_vga; Run; Irq (keyboard_handler false); Panics; Run; Run] boot = None.
Proof. reflexivity. Qed.
