(* ===== verification/Console.v ===== *)
(** * Direct uses of the screen

    [print_something] of [src/min-rust-os/src/vga_buffer.rs], and [write_to_vga] and
    [write_to_vga_unsafe] of [src/min-rust-os/src/main.rs].  The last one stores bytes
    at 0xb8000, so the buffer also appears as the bytes it consists of. *)

From S2P Require Import Prelude Fmt Vga.
From stdpp Require Import base option strings list.
From Stdlib Require Import ZArith Lia.
Local Open Scope Z_scope.

(** ** Texts *)

(** The UTF-8 bytes of ["Wört! \n"], and what [{}] shows for [1.0 / 3.0]. *)
Definition woert : list Z := bytes_of "W" ++ [0xC3; 0xB6] ++ bytes_of "rt! " ++ [10].
Definition one_third : list Z := bytes_of "0.3333333333333333".

(** ** [print_something] *)

Definition print_something (chars : Writer.Buffer) : res Writer.t :=
  let writer := Writer.mk 0 (ColourCode_new Pink Black) chars in
  writer ← Writer.write_byte 87 writer;
  writer ← Writer.write_string (bytes_of "ello ") writer;
  writer ← Writer.write_string woert writer;
  Writer.write_fmt [bytes_of "Print numbers "; decimal 42; bytes_of " and "; one_third] writer.

(** ** [main.rs] *)

Definition write_to_vga (self : Screen.t) : res Screen.t :=
  self ← Screen.print_bin [bytes_of "Allo " ++ woert] self;
  Screen.print_bin [bytes_of "Print numbers "; decimal 42; bytes_of " and "; one_third; bytes_of " " ++ [10]] self.

(** The first two statements of [kernel_main]. *)
Definition banner (self : Screen.t) : res Screen.t :=
  self ← write_to_vga self;
  Screen.print_bin [bytes_of "Hello from the hand crafted println macro :)"; [10]] self.

(** ** The buffer as bytes *)

(** [repr(C)]: the character, then the colour, which is transparent. *)
Definition encode_char (c : ScreenChar) : list Z := [ascii_character c; code (char_colour c)].
Definition encode_row (r : Writer.Row) : list Z := mjoin (encode_char <$> r).
Definition encode (b : Writer.Buffer) : list Z := mjoin (encode_row <$> b).

Definition HELLO : list Z := bytes_of "Hi from the minimal OS :)".

(** A store through a pointer derived from 0xb8000: only the buffer is known to be
    memory. *)
Definition poke (offset : nat) (b : Z) (vga_buffer : list Z) : res (list Z) :=
  if decide (offset < length vga_buffer)%nat then Ok (<[offset := b]> vga_buffer) else Undef.

Definition write_to_vga_unsafe (vga_buffer : list Z) : res (list Z) :=
  for_each (fun '(i, byte) m =>
    m ← poke (i * 2) byte m;
    poke (i * 2 + 1) 0xb m) (zip (seq 0 (length HELLO)) HELLO) vga_buffer.

(** ** Facts *)

Lemma length_encode_row r : length (encode_row r) = (2 * length r)%nat.
Proof.
  induction r as [|c r IH]; [done|]. change (encode_row (c :: r)) with (encode_char c ++ encode_row r).
  rewrite length_app, IH. simpl. lia.
Qed.

(** A character is two stores. *)
Lemma encode_row_insert r : forall i c,
  encode_row (<[i := c]> r)
  = <[(i * 2 + 1)%nat := code (char_colour c)]> (<[(i * 2)%nat := ascii_character c]> (encode_row r)).
Proof.
  unfold encode_row. induction r as [|x r IH]; intros i c; [done|].
  destruct i as [|i]; [done|]. simpl. f_equal. f_equal. apply IH.
Qed.

Lemma encode_cons r b : encode (r :: b) = encode_row r ++ encode b.
Proof. done. Qed.

(** The loop has painted what it has visited. *)
Lemma write_to_vga_unsafe_ok r b :
  Writer.wf_row r ->
  write_to_vga_unsafe (encode (r :: b))
  = Ok (encode (Writer.paint (ColourCode_new LightCyan Black) r HELLO :: b)).
Proof.
  intros Hr. unfold write_to_vga_unsafe.
  destruct (for_each_inv (fun visited m =>
      m = encode (Writer.paint (ColourCode_new LightCyan Black) r (take (length visited) HELLO) :: b))
    (fun '(i, byte) m => m ← poke (i * 2) byte m; poke (i * 2 + 1) 0xb m)
    (zip (seq 0 (length HELLO)) HELLO) (encode (r :: b))) as (m & E & Hm).
  - done.
  - intros visited [i byte] rest m Hl ->. eexists. split; [|reflexivity].
    assert (Hi : zip (seq 0 (length HELLO)) HELLO !! length visited = Some (i, byte))
      by (rewrite Hl; apply list_lookup_middle; done).
    apply lookup_zip_Some in Hi as [Hs Hb]. apply lookup_seq in Hs as [Hs Hlt]. simpl in Hs. subst i.
    set (cc := ColourCode_new LightCyan Black). set (l := take (length visited) HELLO).
    assert (El : length l = length visited) by (unfold l; rewrite length_take; lia).
    assert (Hlen : (length l < BUFFER_WIDTH)%nat) by (rewrite El; unfold BUFFER_WIDTH; simpl in Hlt; lia).
    pose proof (Writer.length_paint cc r l Hr ltac:(lia)) as Hw. unfold Writer.wf_row in Hw.
    unfold poke. rewrite decide_True by (rewrite encode_cons, length_app, length_encode_row; lia). cbn [mbind res_bind].
    rewrite decide_True by (rewrite length_insert, encode_cons, length_app, length_encode_row; lia).
    replace (length (visited ++ [(length visited, byte)])) with (S (length visited)) by (rewrite length_app; simpl; lia).
    rewrite (take_S_r _ _ _ Hb). fold l.
    rewrite <- (Writer.paint_snoc cc r l byte Hr Hlen), El, !encode_cons, encode_row_insert.
    rewrite <- !insert_app_l by (rewrite ?length_insert, length_encode_row; lia). done.
  - rewrite E, Hm. done.
Qed.

(** One print of the whole text. *)
Lemma banner_print self :
  Screen.wf self ->
  banner self = Screen.print_bin
    [bytes_of "Allo " ++ woert; bytes_of "Print numbers "; decimal 42; bytes_of " and "; one_third;
     bytes_of " " ++ [10]; bytes_of "Hello from the hand crafted println macro :)"; [10]] self.
Proof.
  intros Hwf. unfold banner, write_to_vga.
  change (Screen.print_bin [bytes_of "Allo " ++ woert; bytes_of "Print numbers "; decimal 42; bytes_of " and "; one_third;
     bytes_of " " ++ [10]; bytes_of "Hello from the hand crafted println macro :)"; [10]] self)
    with (Screen.print_bin ([bytes_of "Allo " ++ woert] ++
      [bytes_of "Print numbers "; decimal 42; bytes_of " and "; one_third; bytes_of " " ++ [10]] ++
      [bytes_of "Hello from the hand crafted println macro :)"; [10]]) self).
  rewrite Screen.print_bin_app by done.
  destruct (Screen.print_bin_wf [bytes_of "Allo " ++ woert] self Hwf) as (s1 & -> & W1). cbn [mbind res_bind].
  by rewrite Screen.print_bin_app.
Qed.

(** [print_something] shows two lines; the two bytes of the letter that is not ASCII
    are two blocks. *)
Lemma print_something_shows b :
  Writer.wf_buffer b ->
  exists lst w, b !! (BUFFER_HEIGHT - 1)%nat = Some lst /\ print_something b = Ok w /\
    Writer.shows (take (BUFFER_HEIGHT - 1) b) lst
      [bytes_of "Wello W" ++ [0xfe; 0xfe] ++ bytes_of "rt! "; bytes_of "Print numbers 42 and 0.3333333333333333"]
      (ColourCode_new Pink Black) w.
Proof.
  intros Hwf. set (w0 := Writer.mk 0 (ColourCode_new Pink Black) b).
  destruct (Writer.at_line_start w0 Hwf eq_refl) as (lst & Hl & Hat).
  set (text := bytes_of "W" ++ bytes_of "ello " ++ woert ++
    mjoin [bytes_of "Print numbers "; decimal 42; bytes_of " and "; one_third]).
  destruct (Writer.write_string_at text _ _ _ _ Hat) as (w & E & Hs); [constructor|].
  exists lst, w. split_and!; [done| |].
  - rewrite <- E. unfold text. rewrite Writer.write_string_app. unfold print_something. fold w0.
    change (Writer.write_string (bytes_of "W") w0) with (w ← Writer.write_byte 87 w0; Ok w).
    destruct (Writer.write_byte 87 w0) as [w1| | |]; cbn [mbind res_bind]; try done.
    rewrite Writer.write_string_app.
    destruct (Writer.write_string (bytes_of "ello ") w1) as [w2| | |]; cbn [mbind res_bind]; try done.
    rewrite Writer.write_string_app.
    destruct (Writer.write_string woert w2) as [w3| | |]; cbn [mbind res_bind]; try done.
    apply Writer.write_fmt_concat.
  - exact Hs.
Qed.

(** ** Properties *)

(** The first words of the kernel.  The two statements that [kernel_main] starts
    with return on any screen, and leave three lines in the last rows with the cursor
    below them: both writes and the [println!] continue one text, and the letter of
    ["Wört"] that is not ASCII is shown as two blocks. *)
Theorem kernel_banner_shows (self : Screen.t) :
  Screen.wf self -> Screen.bin_column self = 0%nat ->
  exists lst sc, Screen.chars self !! (BUFFER_HEIGHT - 1)%nat = Some lst /\ banner self = Ok sc /\
    Screen.lib_column sc = Screen.lib_column self /\
    Writer.shows (take (BUFFER_HEIGHT - 1) (Screen.chars self)) lst
      [bytes_of "Allo W" ++ [0xfe; 0xfe] ++ bytes_of "rt! ";
       bytes_of "Print numbers 42 and 0.3333333333333333 ";
       bytes_of "Hello from the hand crafted println macro :)"; []]
      (ColourCode_new Pink Black) (Writer.mk (Screen.bin_column sc) (ColourCode_new Pink Black) (Screen.chars sc)).
Proof. intros Hwf Hcol. rewrite banner_print by done. by apply Screen.print_bin_shows. Qed.

Lemma kernel_banner_shows_witness :
  exists lst sc, cleared !! 24%nat = Some lst /\ banner (Screen.boot cleared) = Ok sc /\
    Screen.lib_column sc = 0%nat /\
    Writer.shows (take 24 cleared) lst
      [bytes_of "Allo W" ++ [0xfe; 0xfe] ++ bytes_of "rt! ";
       bytes_of "Print numbers 42 and 0.3333333333333333 ";
       bytes_of "Hello from the hand crafted println macro :)"; []]
      (ColourCode_new Pink Black) (Writer.mk (Screen.bin_column sc) (ColourCode_new Pink Black) (Screen.chars sc)).
Proof.
  apply (kernel_banner_shows (Screen.boot cleared)); [|reflexivity].
  constructor; simpl; [apply wf_cleared|unfold BUFFER_WIDTH; lia..].
Defined.

(** The raw loop is a paint.  Storing bytes at 0xb8000 never leaves the buffer, and
    what it leaves there is the first row with the greeting painted over it in light
    cyan on black; the rest of the screen is untouched. *)
Theorem write_to_vga_unsafe_paints (b : Writer.Buffer) :
  Writer.wf_buffer b ->
  exists row, b !! 0%nat = Some row /\
    write_to_vga_unsafe (encode b)
    = Ok (encode (<[0%nat := Writer.paint (ColourCode_new LightCyan Black) row HELLO]> b)).
Proof.
  intros Hwf. destruct (Writer.wf_buffer_lookup b 0 Hwf) as (row & Hrow & Hr); [unfold BUFFER_HEIGHT; lia|].
  exists row. split; [done|]. destruct b as [|r b]; [done|]. injection Hrow as ->. by apply write_to_vga_unsafe_ok.
Qed.

Lemma write_to_vga_unsafe_paints_witness :
  exists row, cleared !! 0%nat = Some row /\
    write_to_vga_unsafe (encode cleared)
    = Ok (encode (<[0%nat := Writer.paint (ColourCode_new LightCyan Black) row HELLO]> cleared)).
Proof. apply (write_to_vga_unsafe_paints cleared), wf_cleared. Defined.
