(* ===== verification/Collections.v ===== *)
(** * Heap values

    What [kernel_main] ([src/min-rust-os/src/main.rs]) and the tests of
    [tests/heap_allocation.rs] do with the heap: [Box], [Vec] and [Rc] of the [alloc]
    crate over any global allocator, with the contents of the memory they own, and
    [alloc_error_handler] of [src/min-rust-os/src/lib.rs].

    The allocator's own data is part of its state; the contents of the blocks that
    clients own are the map [ram].  What a block holds is lost when it is freed, and
    a store destroys every value it overlaps. *)

From S2P Require Import Prelude Regions Layout GlobalAlloc Bump FixedSizeBlock HeapInit.
From stdpp Require Import base option gmap strings list list_numbers.
From Stdlib Require Import ZArith Lia.
Local Open Scope Z_scope.

(** ** Memory *)

(** At an address, the size and the value that was stored there. *)
Abbreviation contents := (gmap Z (Z * Z)).

Definition overlaps (r1 r2 : region) : bool := (r_addr r2 <? r_end r1) && (r_addr r1 <? r_end r2).

(** Every value that overlaps [r] is gone. *)
Definition overwrite (r : region) (m : contents) : contents :=
  foldr (fun e => delete e.1) m (filter (fun e : Z * (Z * Z) => overlaps (Region e.1 e.2.1) r = true) (map_to_list m)).

Section collections.
Context {A : Type} `{!GlobalAlloc A}.

Record heap := mkHeap { allocator : A; ram : gmap Z (Z * Z) }.

(** [alloc_error_handler] of [lib.rs]; the message names the layout. *)
Definition ALLOCATION_ERROR (layout : Layout) : panic :=
  FormattedPanic "allocation error: {:?}" [layout_size layout; layout_align layout].
Definition alloc_error_handler {B} (layout : Layout) : res B := Panic (ALLOCATION_ERROR layout).

(** [alloc::alloc::alloc] as the collections call it: null goes to the handler. *)
Definition allocate (l : Layout) (h : heap) : res (Z * heap) :=
  '(p, a) ← ga_alloc (allocator h) l;
  if p =? 0 then alloc_error_handler l else Ok (p, mkHeap a (ram h)).

Definition deallocate (p : Z) (l : Layout) (h : heap) : res heap :=
  a ← ga_dealloc (allocator h) p l;
  Ok (mkHeap a (overwrite (Region p (layout_size l)) (ram h))).

(** [*ptr = v] and [*ptr] for an integer of [size] bytes. *)
Definition store (size p v : Z) (h : heap) : heap :=
  mkHeap (ga_write (allocator h) p size) (<[p := (size, v)]> (overwrite (Region p size) (ram h))).

Definition load (size p : Z) (h : heap) : res Z :=
  match ram h !! p with
  | Some (s, v) => if s =? size then Ok v else Undef
  | None => Undef
  end.

(** ** [Box] *)

Definition Box_new (size v : Z) (h : heap) : res (Z * heap) :=
  '(p, h) ← allocate (mkLayout size size) h;
  Ok (p, store size p v h).

(** ** [Vec] *)

Record Vec := mkVec { buf : Z; cap : Z; len : Z }.

(** [Vec::new] does not allocate; the pointer dangles. *)
Definition Vec_new : Vec := mkVec 0 0 0.

Definition vec_layout (size n : Z) : Layout := mkLayout (size * n) size.

(** [RawVec::MIN_NON_ZERO_CAP] for elements of [size] bytes. *)
Definition MIN_NON_ZERO_CAP (size : Z) : Z := if size =? 1 then 8 else if size <=? 1024 then 4 else 1.
(** [RawVec::grow_amortized]: double, at least as much as is needed, at least the minimum. *)
Definition grown (size cap len : Z) : Z := Z.max (MIN_NON_ZERO_CAP size) (Z.max (cap * 2) (len + 1)).

(** The default [GlobalAlloc::realloc]: a new block, the bytes copied, the old one
    freed. *)
Fixpoint copy (n : nat) (size src dst : Z) (h : heap) : heap :=
  match n with
  | O => h
  | S n =>
      let h := match ram h !! src with
               | Some (_, v) => store size dst v h
               | None => mkHeap (ga_write (allocator h) dst size) (overwrite (Region dst size) (ram h))
               end in
      copy n size (src + size) (dst + size) h
  end.

Definition realloc (size : Z) (v : Vec) (new_cap : Z) (h : heap) : res (Z * heap) :=
  '(p, h) ← allocate (vec_layout size new_cap) h;
  let h := copy (Z.to_nat (Z.min (cap v) new_cap)) size (buf v) p h in
  h ← deallocate (buf v) (vec_layout size (cap v)) h;
  Ok (p, h).

Definition grow (size : Z) (v : Vec) (h : heap) : res (Vec * heap) :=
  let new_cap := grown size (cap v) (len v) in
  if 2 ^ 63 - 1 <? size * new_cap then Panic (ExplicitPanic "capacity overflow")
  else
    '(p, h) ← (if cap v =? 0 then allocate (vec_layout size new_cap) h else realloc size v new_cap h);
    Ok (mkVec p new_cap (len v), h).

Definition push (size x : Z) (v : Vec) (h : heap) : res (Vec * heap) :=
  '(v, h) ← (if len v =? cap v then grow size v h else Ok (v, h));
  Ok (mkVec (buf v) (cap v) (len v + 1), store size (buf v + size * len v) x h).

(** [for x in xs { vec.push(x) }] *)
Definition push_all (size : Z) (xs : list Z) (s : Vec * heap) : res (Vec * heap) :=
  for_each (fun x '(v, h) => push size x v h) xs s.

(** [vec![...]]: a block of the exact size. *)
Fixpoint store_all (size p : Z) (xs : list Z) (h : heap) : heap :=
  match xs with
  | [] => h
  | x :: xs => store_all size (p + size) xs (store size p x h)
  end.
Definition vec_of (size : Z) (xs : list Z) (h : heap) : res (Vec * heap) :=
  let n := Z.of_nat (length xs) in
  '(p, h) ← allocate (vec_layout size n) h;
  Ok (mkVec p n n, store_all size p xs h).

(** [vec.iter()] *)
Fixpoint load_all (n : nat) (size p : Z) (h : heap) : res (list Z) :=
  match n with
  | O => Ok []
  | S n =>
      x ← load size p h;
      xs ← load_all n size (p + size) h;
      Ok (x :: xs)
  end.
Definition iter (size : Z) (v : Vec) (h : heap) : res (list Z) :=
  load_all (Z.to_nat (len v)) size (buf v) h.

(** ** [Rc] *)

(** [RcBox<Vec<i32>>]: the two counters, then the vector's pointer, capacity and
    length. *)
Definition RcBox : Layout := mkLayout 40 8.

Definition Rc_new (v : Vec) (h : heap) : res (Z * heap) :=
  '(p, h) ← allocate RcBox h;
  Ok (p, store_all 8 p [1; 1; buf v; cap v; len v] h).

Definition strong_count (rc : Z) (h : heap) : res Z := load 8 rc h.

(** [Rc::clone] aborts when the counter overflows. *)
Definition Rc_clone (rc : Z) (h : heap) : res (Z * heap) :=
  strong ← load 8 rc h;
  if strong =? WORD - 1 then Panic (ExplicitPanic "abort")
  else Ok (rc, store 8 rc (strong + 1) h).

(** [drop] of an [Rc<Vec<i32>>]: the last one drops the vector, and frees the block
    when no weak reference is left. *)
Definition Rc_drop (rc : Z) (h : heap) : res heap :=
  strong ← load 8 rc h;
  let h := store 8 rc (strong - 1) h in
  if strong - 1 =? 0 then
    buf ← load 8 (rc + 16) h;
    cap ← load 8 (rc + 24) h;
    h ← (if cap =? 0 then Ok h else deallocate buf (vec_layout 4 cap) h);
    weak ← load 8 (rc + 8) h;
    let h := store 8 (rc + 8) (weak - 1) h in
    if weak - 1 =? 0 then deallocate rc RcBox h else Ok h
  else Ok h.

(** ** [tests/heap_allocation.rs] *)

(** The boxes are dropped in the reverse of the order of their declarations. *)
Definition simple_allocation (h : heap) : res heap :=
  '(heap_value_1, h) ← Box_new 4 41 h;
  '(heap_value_2, h) ← Box_new 4 13 h;
  v1 ← load 4 heap_value_1 h;
  _ ← assert_ (v1 =? 41);
  v2 ← load 4 heap_value_2 h;
  _ ← assert_ (v2 =? 13);
  h ← deallocate heap_value_2 (mkLayout 4 4) h;
  deallocate heap_value_1 (mkLayout 4 4) h.

(** [vec.iter().sum::<u64>()] adds with the overflow check of the build. *)
Definition large_and_multiple_allocations {profile : BuildProfile} (h : heap) : res heap :=
  let n := 1000 in
  '(vec, h) ← push_all 8 (seqZ 0 n) (Vec_new, h);
  xs ← iter 8 vec h;
  sum ← for_each (fun x s => uadd s x) xs 0;
  _ ← assert_ (sum =? (n - 1) * n / 2);
  if cap vec =? 0 then Ok h else deallocate (buf vec) (vec_layout 8 (cap vec)) h.

(** Each box is dropped at the end of its iteration. *)
Definition many_boxes (h : heap) : res heap :=
  for_each (fun i h =>
    '(x, h) ← Box_new 8 i h;
    v ← load 8 x h;
    _ ← assert_ (v =? i);
    deallocate x (mkLayout 8 8) h) (seqZ 0 HEAP_SIZE) h.
End collections.
Arguments heap : clear implicits.

(** ** Facts *)

(** A panic of [alloc_error_handler]. *)
Definition out_of_memory (p : panic) : Prop := exists layout, p = ALLOCATION_ERROR layout.

Lemma ALLOCATION_ERROR_oom layout : out_of_memory (ALLOCATION_ERROR layout).
Proof. by exists layout. Qed.
#[export] Hint Resolve ALLOCATION_ERROR_oom : core.

(** The only way to fail is to run out of memory. *)
Definition ok_or_oom {B} (Q : B -> Prop) (r : res B) : Prop :=
  match r with Ok b => Q b | Panic p => out_of_memory p | Undef => False | Diverge => False end.

Lemma ok_or_oom_bind {B C} (P : B -> Prop) (Q : C -> Prop) (r : res B) (f : B -> res C) :
  ok_or_oom P r -> (forall b, P b -> ok_or_oom Q (f b)) -> ok_or_oom Q (r ≫= f).
Proof. destruct r; simpl; auto. Qed.

(** Whether a computation returns. *)
Definition is_ok {B} (r : res B) : bool := match r with Ok _ => true | _ => false end.

Lemma is_ok_inv {B} (r : res B) : is_ok r = true -> exists b, r = Ok b.
Proof. destruct r; [by eexists|done..]. Qed.

Lemma ok_or_oom_impl {B} (P Q : B -> Prop) (r : res B) :
  ok_or_oom P r -> (forall b, P b -> Q b) -> ok_or_oom Q r.
Proof. destruct r; simpl; auto. Qed.

Lemma lookup_overwrite_ne r (m : contents) k s v :
  m !! k = Some (s, v) -> disj (Region k s) r -> overwrite r m !! k = Some (s, v).
Proof.
  intros Hk Hd. unfold overwrite.
  assert (Forall (fun e => e.1 <> k) (filter (fun e => overlaps (Region e.1 e.2.1) r = true) (map_to_list m))) as Hne.
  { apply Forall_forall. intros [k' [s' v']] [Hn He]%list_elem_of_filter. simpl in *.
    apply elem_of_map_to_list in He. intros ->. simplify_eq.
    unfold overlaps in Hn. rewrite andb_true_iff, !Z.ltb_lt in Hn. unfold disj in Hd. lia. }
  induction Hne as [|e l He _ IH]; simpl; [done|]. by rewrite lookup_delete_ne.
Qed.

Section facts.
Context {A : Type} `{!GlobalAlloc A} `{!AllocContract A} `{!AllocTotal A} (lo hi : Z).

Definition hp (h : heap A) (live : list allocation) : Prop := heap_ok lo hi (allocator h, live).

(** The values outside a range, and those in the blocks [live], are untouched. *)
Definition keeps_outside (r : region) (h h' : heap A) : Prop :=
  forall k s v, 0 < s -> disj (Region k s) r -> ram h !! k = Some (s, v) -> ram h' !! k = Some (s, v).
Definition keeps (live : list allocation) (h h' : heap A) : Prop :=
  forall b k s v, b ∈ live -> 0 < s -> subregion (Region k s) (al_region b) ->
    ram h !! k = Some (s, v) -> ram h' !! k = Some (s, v).

Lemma keeps_trans live h1 h2 h3 : keeps live h1 h2 -> keeps live h2 h3 -> keeps live h1 h3.
Proof. intros H1 H2 b k s v Hb Hs Hr Hk. eapply H2; [done..|]. by eapply H1. Qed.

Lemma keeps_mono live live' (h h' : heap A) :
  (forall b, b ∈ live -> b ∈ live') -> keeps live' h h' -> keeps live h h'.
Proof. intros Hl Hk b k s v Hb. by apply (Hk b), Hl. Qed.

Lemma keeps_ram live (h h' : heap A) : ram h' = ram h -> keeps live h h'.
Proof. by intros E b k s v _ _ _; rewrite E. Qed.

Lemma hp_disj h x live b : hp h (x :: live) -> b ∈ live -> disj (al_region x) (al_region b).
Proof.
  intros [_ [Hd _ _ _]] Hb. apply (pairwise_disj_cons_elem _ _ (al_region <$> live)); [done|].
  by apply list_elem_of_fmap_2.
Qed.

(** What happens inside a block does not concern the others. *)
Lemma keeps_outside_keeps r x live h0 h h' :
  hp h0 (x :: live) -> subregion r (al_region x) -> keeps_outside r h h' -> keeps live h h'.
Proof.
  intros Hp Hr Hk b k s v Hb Hs Hsub Hv. apply (Hk k s v Hs); [|done].
  pose proof (hp_disj _ _ _ _ Hp Hb). symmetry. apply (disj_sub (al_region x)); [done|].
  symmetry. apply (disj_sub (al_region b)); [done|by symmetry].
Qed.

Lemma hp_perm h live live' : live ≡ₚ live' -> hp h live -> hp h live'.
Proof. intros Hp [Hi Hc]. split; [by eapply ac_perm|by eapply client_ok_perm]. Qed.

Lemma allocate_ok l h live :
  hp h live -> layout_ok l ->
  ok_or_oom (fun '(p, h') => hp h' (Alloc p l :: live) /\ ram h' = ram h) (allocate l h).
Proof.
  intros Hp Hl. pose proof (alloc_heap_ok lo hi _ _ l Hp Hl) as Ha. unfold allocate. simpl in Ha.
  destruct Hp as [Hi _]. destruct (ac_total _ _ _ _ _ Hi Hl) as (p & a & E). simpl in E. rewrite E in *.
  simpl in *. destruct (p =? 0); simpl; [done|]. by split.
Qed.

Lemma deallocate_ok x h live :
  hp h (x :: live) ->
  exists h', deallocate (al_ptr x) (al_layout x) h = Ok h' /\ hp h' live /\ keeps live h h'.
Proof.
  intros Hp. pose proof Hp as [Hi Hc]. simpl in Hi, Hc. destruct x as [p l].
  destruct (ac_dealloc _ _ _ _ _ _ Hi) as (a & Ha & Hi'). unfold deallocate. simpl. rewrite Ha. simpl.
  eexists. split; [reflexivity|]. split; [split; [done|by eapply client_ok_tail]|].
  eapply (keeps_outside_keeps (Region p (layout_size l)) (Alloc p l)); [exact Hp|unfold al_region; simpl; reflexivity|].
  intros k s v _ Hd Hk. by apply lookup_overwrite_ne.
Qed.

Lemma write_hp x h live p size :
  hp h live -> x ∈ live -> subregion (Region p size) (al_region x) ->
  forall m, hp (mkHeap (ga_write (allocator h) p size) m) live.
Proof. intros [Hi Hc] Hx Hs m. split; [|done]. by eapply ac_write. Qed.

Lemma store_keeps size p v h : 0 < size -> keeps_outside (Region p size) h (store size p v h).
Proof.
  intros Hs k s w Hs' Hd Hk. unfold store. simpl. rewrite lookup_insert_ne by (intros ->; region_lia).
  by apply lookup_overwrite_ne.
Qed.

Lemma load_store size p v h : load size p (store size p v h) = Ok v.
Proof. unfold load, store. simpl. by rewrite lookup_insert_eq, Z.eqb_refl. Qed.

(** Values at [p], [p + size], ... *)
Definition holds (size p : Z) (xs : list Z) (h : heap A) : Prop :=
  forall i x, xs !! i = Some x -> ram h !! (p + size * Z.of_nat i) = Some (size, x).

Lemma holds_keeps size p xs x live h h' :
  0 < size -> x ∈ live -> subregion (Region p (size * Z.of_nat (length xs))) (al_region x) ->
  keeps live h h' -> holds size p xs h -> holds size p xs h'.
Proof.
  intros Hs Hx Hr Hk Hh i y Hy. apply lookup_lt_Some in Hy as Hlt.
  eapply Hk; [exact Hx|done| |by apply Hh]. region_lia || (unfold subregion, r_end in *; simpl in *; nia).
Qed.

Lemma holds_outside size p xs r h h' :
  0 < size -> disj (Region p (size * Z.of_nat (length xs))) r ->
  keeps_outside r h h' -> holds size p xs h -> holds size p xs h'.
Proof.
  intros Hs Hd Hk Hh i y Hy. apply lookup_lt_Some in Hy as Hlt. apply Hk; [done| |by apply Hh].
  eapply disj_sub; [|exact Hd]. unfold subregion, r_end. simpl. nia.
Qed.

Lemma holds_snoc size p xs x h :
  holds size p xs h -> ram h !! (p + size * Z.of_nat (length xs)) = Some (size, x) ->
  holds size p (xs ++ [x]) h.
Proof.
  intros Hh Hx i y Hy. apply lookup_app_Some in Hy as [Hy|[Hge Hy]]; [by apply Hh|].
  apply list_lookup_singleton_Some in Hy as [Hi <-]. by replace i with (length xs) by lia.
Qed.

Lemma load_holds size p v h : holds size p [v] h -> load size p h = Ok v.
Proof.
  intros H. pose proof (H 0%nat v eq_refl) as H0. rewrite Z.mul_0_r, Z.add_0_r in H0.
  unfold load. by rewrite H0, Z.eqb_refl.
Qed.

Lemma load_all_holds size xs : forall p h,
  holds size p xs h -> load_all (length xs) size p h = Ok xs.
Proof.
  induction xs as [|x xs IH]; intros p h Hh; [done|]. cbn [load_all length].
  pose proof (Hh 0%nat x eq_refl) as H0. simpl in H0. rewrite Z.mul_0_r, Z.add_0_r in H0.
  unfold load. rewrite H0, Z.eqb_refl. cbn [mbind res_bind]. rewrite IH; [done|].
  intros i y Hy. replace (p + size + size * Z.of_nat i) with (p + size * Z.of_nat (S i)) by lia. by apply Hh.
Qed.

(** Values stored one after the other in a block. *)
Lemma store_all_ok size x live xs : forall p h,
  0 < size -> hp h live -> x ∈ live -> subregion (Region p (size * Z.of_nat (length xs))) (al_region x) ->
  let h' := store_all size p xs h in
  hp h' live /\ keeps_outside (Region p (size * Z.of_nat (length xs))) h h' /\ holds size p xs h'.
Proof.
  induction xs as [|y xs IH]; intros p h Hs Hp Hx Hr; cbn [store_all].
  { split_and!; [done|by intros k s v|by intros i z]. }
  cbn [length] in Hr. rewrite Nat2Z.inj_succ in Hr.
  assert (subregion (Region p size) (al_region x)) as Hr1 by (unfold subregion, r_end in *; simpl in *; nia).
  destruct (IH (p + size) (store size p y h)) as (Hp' & Hk & Hh);
    [done|by eapply write_hp|done|unfold subregion, r_end in *; simpl in *; nia|].
  split_and!; [done| |].
  - intros k s v Hsv Hd Hv. cbn [length] in Hd. rewrite Nat2Z.inj_succ in Hd.
    apply Hk; [done|unfold disj, r_end in *; simpl in *; nia|].
    apply store_keeps; [done|done|unfold disj, r_end in *; simpl in *; nia|done].
  - intros [|i] z Hz; simpl in Hz.
    + injection Hz as <-. rewrite Z.mul_0_r, Z.add_0_r. apply Hk; [done|unfold disj, r_end; simpl; nia|].
      unfold store. simpl. apply lookup_insert_eq.
    + replace (p + size * Z.of_nat (S i)) with (p + size + size * Z.of_nat i) by lia. by apply Hh.
Qed.

(** Copying leaves everything outside of the target alone. *)
Lemma copy_ok size y live n : forall src dst h xs,
  0 < size -> hp h live -> y ∈ live ->
  subregion (Region dst (size * Z.of_nat n)) (al_region y) ->
  disj (Region src (size * Z.of_nat n)) (Region dst (size * Z.of_nat n)) ->
  (length xs <= n)%nat -> holds size src xs h ->
  let h' := copy n size src dst h in
  hp h' live /\ keeps_outside (Region dst (size * Z.of_nat n)) h h' /\ holds size dst xs h'.
Proof.
  induction n as [|n IH]; intros src dst h xs Hs Hp Hy Hr Hd Hl Hh; cbn [copy].
  { destruct xs; [|simpl in Hl; lia]. split_and!; [done|by intros k s v|by intros i z]. }
  rewrite Nat2Z.inj_succ in Hr, Hd.
  assert (subregion (Region dst size) (al_region y)) as Hr1 by (unfold subregion, r_end in *; simpl in *; nia).
  set (h1 := match ram h !! src with Some (_, v) => store size dst v h
             | None => mkHeap (ga_write (allocator h) dst size) (overwrite (Region dst size) (ram h)) end).
  assert (hp h1 live) as Hp1.
  { unfold h1. destruct (ram h !! src) as [[? ?]|]; by eapply write_hp. }
  assert (keeps_outside (Region dst size) h h1) as Hk1.
  { unfold h1. destruct (ram h !! src) as [[? ?]|]; [by apply store_keeps|].
    intros k s v _ Hdk Hv. by apply lookup_overwrite_ne. }
  assert (holds size (src + size) (tail xs) h1) as Hh1.
  { destruct xs as [|x xs]; [by intros i z|]. apply (holds_outside size _ _ (Region dst size) h h1); [done| |done|].
    - simpl in *. unfold disj, r_end in *; simpl in *; nia.
    - intros i z Hz. replace (src + size + size * Z.of_nat i) with (src + size * Z.of_nat (S i)) by lia.
      by apply Hh. }
  destruct (IH (src + size) (dst + size) h1 (tail xs)) as (Hp2 & Hk2 & Hh2); try done;
    [unfold subregion, disj, r_end in *; simpl in *; nia..|destruct xs; simpl in *; lia|].
  split_and!; [done| |].
  - intros k s v Hsv Hdk Hv. rewrite Nat2Z.inj_succ in Hdk.
    apply Hk2; [done|unfold disj, r_end in *; simpl in *; nia|].
    apply Hk1; [done|unfold disj, r_end in *; simpl in *; nia|done].
  - destruct xs as [|x xs]; [by intros i z|]. intros [|i] z Hz; simpl in Hz.
    + injection Hz as <-. rewrite Z.mul_0_r, Z.add_0_r. apply Hk2; [done|unfold disj, r_end; simpl; nia|].
      pose proof (Hh 0%nat x eq_refl) as H0. rewrite Z.mul_0_r, Z.add_0_r in H0.
      unfold h1. rewrite H0. unfold store. simpl. apply lookup_insert_eq.
    + replace (dst + size * Z.of_nat (S i)) with (dst + size + size * Z.of_nat i) by lia. by apply Hh2.
Qed.

(** ** Vectors *)

(** The integers the program stores. *)
Definition size_ok (size : Z) : Prop := size = 1 \/ size = 2 \/ size = 4 \/ size = 8.

(** The block of a vector; one without capacity has none. *)
Definition vec_block (size : Z) (v : Vec) : allocation := Alloc (buf v) (vec_layout size (cap v)).
Definition vec_owns (size : Z) (v : Vec) : list allocation :=
  if cap v =? 0 then [] else [vec_block size v].

Record vec_ok (size : Z) (v : Vec) (xs : list Z) (h : heap A) : Prop := {
  vo_len : len v = Z.of_nat (length xs);
  vo_cap : len v <= cap v;
  vo_holds : holds size (buf v) xs h;
}.

Lemma vec_layout_ok size n : size_ok size -> 0 < n -> size * n <= 2 ^ 63 - 1 -> layout_ok (vec_layout size n).
Proof.
  intros Hs Hn Hb. unfold layout_ok, layout_valid, vec_layout. simpl. unfold size_ok in Hs. split_and!.
  - destruct Hs as [-> |[-> |[-> | ->]]]; [exists 0|exists 1|exists 2|exists 3]; split; (done || lia).
  - nia.
  - unfold WORD. lia.
  - nia.
Qed.

Lemma vec_owns_cons size v : 0 < cap v -> vec_owns size v = [vec_block size v].
Proof. intros H. unfold vec_owns. destruct (Z.eqb_spec (cap v) 0); [lia|done]. Qed.

Lemma MIN_NON_ZERO_CAP_bounds size : 1 <= MIN_NON_ZERO_CAP size <= 8.
Proof. unfold MIN_NON_ZERO_CAP. destruct (size =? 1), (size <=? 1024); lia. Qed.

Lemma grow_ok size v xs h live :
  size_ok size -> hp h (vec_owns size v ++ live) -> vec_ok size v xs h -> len v = cap v ->
  size * grown size (cap v) (len v) <= 2 ^ 63 - 1 ->
  ok_or_oom (fun '(v', h') =>
    hp h' (vec_block size v' :: live) /\ vec_ok size v' xs h' /\ keeps live h h' /\
    len v' = len v /\ cap v' = grown size (cap v) (len v)) (grow size v h).
Proof.
  intros Hs Hp [Hl Hc Hh] Hfull Hb. unfold grow. set (n := grown size (cap v) (len v)) in *.
  pose proof (MIN_NON_ZERO_CAP_bounds size). assert (0 < n /\ cap v < n) as [Hn4 Hnc] by (unfold n, grown; lia).
  assert (0 < size) as Hs0 by (destruct Hs as [-> |[-> |[-> | ->]]]; lia).
  rewrite (proj2 (Z.ltb_ge _ _)) by lia. pose proof (vec_layout_ok size n Hs ltac:(lia) Hb) as Hlay.
  unfold vec_owns in Hp. destruct (Z.eqb_spec (cap v) 0) as [E0|E0].
  - eapply ok_or_oom_bind; [by apply allocate_ok|]. intros [p h1] [Hp1 Hr]. simpl in *.
    split_and!; [done| |by apply keeps_ram|done|done].
    constructor; simpl; [done|lia|]. destruct xs; [by intros i z|simpl in Hl; lia].
  - simpl in Hp. unfold realloc. eapply ok_or_oom_bind with (P := fun '(p, h') =>
      hp h' (Alloc p (vec_layout size n) :: live) /\ holds size p xs h' /\ keeps live h h').
    2: { intros [p h1] (Hp1 & Hh1 & Hk1). simpl. split_and!; try done. constructor; simpl; [done|lia|done]. }
    eapply ok_or_oom_bind; [by apply allocate_ok|]. intros [p h1] [Hp1 Hr]. cbn beta iota.
    rewrite Z.min_l by lia. set (old := vec_block size v) in *. set (new := Alloc p (vec_layout size n)) in *.
    pose proof (hp_disj _ _ _ old Hp1 ltac:(by left)) as Hdis.
    destruct (copy_ok size new (new :: old :: live) (Z.to_nat (cap v)) (buf v) p h1 xs)
      as (Hp2 & Hk2 & Hh2); [done|done|by left| | |lia|by intros i z Hz; rewrite Hr; apply Hh|].
    { unfold subregion, al_region, r_end. simpl. rewrite Z2Nat.id by lia. nia. }
    { unfold old, new, al_region, disj, r_end in *. simpl in *. rewrite Z2Nat.id by lia. nia. }
    set (h2 := copy _ _ _ _ _) in *.
    assert (hp h2 (old :: new :: live)) as Hp2' by (eapply hp_perm; [|exact Hp2]; apply perm_swap).
    destruct (deallocate_ok old h2 (new :: live) Hp2') as (h3 & Hd & Hp3 & Hk3).
    change (deallocate (buf v) (vec_layout size (cap v)) h2) with (deallocate (al_ptr old) (al_layout old) h2).
    rewrite Hd. simpl. split_and!; [done| |].
    + eapply (holds_keeps size p xs new (new :: live)); [done|by left| |exact Hk3|done].
      unfold subregion, al_region, r_end. simpl. nia.
    + eapply keeps_trans; [by apply (keeps_ram _ h h1)|]. eapply keeps_trans.
      * eapply (keeps_mono live (old :: live)); [set_solver|]. eapply (keeps_outside_keeps _ new); [exact Hp1| |exact Hk2].
        unfold subregion, al_region, r_end. simpl. rewrite Z2Nat.id by lia. nia.
      * eapply (keeps_mono live (new :: live)); [set_solver|exact Hk3].
Qed.

(** Pushing a value: the vector holds it behind the others, wherever it lies now. *)
Lemma push_ok size x v xs h live :
  size_ok size -> hp h (vec_owns size v ++ live) -> vec_ok size v xs h ->
  size * grown size (cap v) (len v) <= 2 ^ 63 - 1 ->
  ok_or_oom (fun '(v', h') =>
    hp h' (vec_owns size v' ++ live) /\ vec_ok size v' (xs ++ [x]) h' /\ keeps live h h' /\
    cap v' = if len v =? cap v then grown size (cap v) (len v) else cap v) (push size x v h).
Proof.
  intros Hs Hp Hv Hb. assert (0 < size) as Hs0 by (destruct Hs as [-> |[-> |[-> | ->]]]; lia). unfold push.
  eapply ok_or_oom_bind with (P := fun '(v', h') =>
    hp h' (vec_block size v' :: live) /\ vec_ok size v' xs h' /\ keeps live h h' /\
    len v' < cap v' /\ cap v' = if len v =? cap v then grown size (cap v) (len v) else cap v).
  { destruct (Z.eqb_spec (len v) (cap v)) as [E|E].
    - eapply ok_or_oom_impl; [by apply grow_ok|]. intros [v' h'] (? & ? & ? & El & Ec).
      split_and!; try done. rewrite El, Ec, E. unfold grown. lia.
    - destruct Hv as [Hl Hc Hh]. rewrite vec_owns_cons in Hp by lia. simpl.
      split_and!; [done|by constructor|by apply keeps_ram|lia|done]. }
  intros [v' h'] (Hp' & [Hl Hc Hh] & Hk & Hlt & Ec). simpl.
  set (r := Region (buf v' + size * len v') size).
  assert (subregion r (al_region (vec_block size v'))) as Hr
    by (unfold r, subregion, al_region, r_end; simpl; nia).
  split_and!; [|constructor; simpl| |done].
  - rewrite vec_owns_cons by (simpl; lia). eapply write_hp; [exact Hp'|by left|done].
  - rewrite length_app. simpl. lia.
  - lia.
  - apply holds_snoc.
    + eapply (holds_outside _ _ _ r); [done| |by apply store_keeps|done]. unfold r, disj, r_end. simpl. lia.
    + unfold store. simpl. rewrite <- Hl. apply lookup_insert_eq.
  - eapply keeps_trans; [exact Hk|]. eapply (keeps_outside_keeps r (vec_block size v')); [exact Hp'|done|by apply store_keeps].
Qed.

(** The capacity after [n] pushes. *)
Fixpoint capacity (size : Z) (n : nat) : Z :=
  match n with
  | O => 0
  | S n =>
      let c := capacity size n in
      if Z.of_nat n =? c then grown size c (Z.of_nat n) else c
  end.

Lemma capacity_bounds size n : Z.of_nat n <= capacity size n <= Z.max 8 (2 * Z.of_nat n).
Proof.
  pose proof (MIN_NON_ZERO_CAP_bounds size). induction n as [|n IH]; [simpl; lia|]. cbn [capacity]. rewrite Nat2Z.inj_succ.
  destruct (Z.eqb_spec (Z.of_nat n) (capacity size n)); unfold grown; lia.
Qed.

Lemma push_all_ok size xs live : forall ys v h,
  size_ok size -> hp h (vec_owns size v ++ live) -> vec_ok size v ys h -> cap v = capacity size (length ys) ->
  size * (8 * (Z.of_nat (length ys + length xs) + 1)) <= 2 ^ 63 - 1 ->
  ok_or_oom (fun '(v', h') =>
    hp h' (vec_owns size v' ++ live) /\ vec_ok size v' (ys ++ xs) h' /\ keeps live h h' /\
    cap v' = capacity size (length (ys ++ xs))) (push_all size xs (v, h)).
Proof.
  induction xs as [|x xs IH]; intros ys v h Hs Hp Hv Hc Hb.
  { rewrite app_nil_r. simpl. split_and!; [done|done|by apply keeps_ram|done]. }
  assert (0 < size) as Hs0 by (destruct Hs as [-> |[-> |[-> | ->]]]; lia). pose proof Hv as [Hl _ _].
  change (push_all size (x :: xs) (v, h)) with (s ← push size x v h; push_all size xs s).
  eapply ok_or_oom_bind; [apply (push_ok size x v ys h live); [done..|]|].
  - rewrite Hc, Hl. pose proof (capacity_bounds size (length ys)). pose proof (MIN_NON_ZERO_CAP_bounds size). unfold grown. simpl in Hb. nia.
  - intros [v1 h1] (Hp1 & Hv1 & Hk1 & Hc1). eapply ok_or_oom_impl.
    + apply (IH (ys ++ [x])); [done|done|done| |].
      * rewrite Hc1, Hc, Hl, length_app, Nat.add_comm. done.
      * rewrite length_app. simpl in *. rewrite <- Nat.add_assoc. done.
    + intros [v2 h2]. rewrite <- app_assoc. intros (? & ? & ? & ?). split_and!; try done. by eapply keeps_trans.
Qed.

Lemma vec_ok_keeps size v xs live h h' :
  0 < size -> vec_block size v ∈ live -> keeps live h h' -> vec_ok size v xs h -> vec_ok size v xs h'.
Proof.
  intros Hs Hb Hk [Hl Hc Hh]. constructor; [done|done|].
  eapply (holds_keeps size _ _ (vec_block size v)); [done|exact Hb| |exact Hk|done].
  unfold subregion, al_region, r_end. simpl in *. nia.
Qed.

Lemma iter_ok size v xs h : vec_ok size v xs h -> iter size v h = Ok xs.
Proof. intros [Hl _ Hh]. unfold iter. rewrite Hl, Nat2Z.id. by apply load_all_holds. Qed.

(** ** Boxes, literals and reference counts *)

Lemma Box_new_ok size v h live :
  size_ok size -> hp h live ->
  ok_or_oom (fun '(p, h') => hp h' (Alloc p (mkLayout size size) :: live) /\
    holds size p [v] h' /\ keeps live h h') (Box_new size v h).
Proof.
  intros Hs Hp. assert (0 < size <= 8) as Hs0 by (destruct Hs as [-> |[-> |[-> | ->]]]; lia).
  unfold Box_new. eapply ok_or_oom_bind; [apply allocate_ok; [exact Hp|]|].
  { replace size with (size * 1) at 1 by lia. apply (vec_layout_ok size 1); [done|lia|lia]. }
  intros [p h1] [Hp1 Hr]. simpl.
  destruct (store_all_ok size (Alloc p (mkLayout size size)) (Alloc p (mkLayout size size) :: live) [v] p h1)
    as (Hp2 & Hk2 & Hh2); [lia|done|by left|unfold subregion, al_region, r_end; simpl; lia|].
  split_and!; [exact Hp2|exact Hh2|].
  eapply keeps_trans; [by apply (keeps_ram _ h h1)|].
  eapply (keeps_outside_keeps _ (Alloc p (mkLayout size size))); [exact Hp1| |exact Hk2].
  unfold subregion, al_region, r_end. simpl. lia.
Qed.

Lemma vec_of_ok size xs h live :
  size_ok size -> hp h live -> xs <> [] -> size * Z.of_nat (length xs) <= 2 ^ 63 - 1 ->
  ok_or_oom (fun '(v, h') => hp h' (vec_block size v :: live) /\ vec_ok size v xs h' /\ keeps live h h')
    (vec_of size xs h).
Proof.
  intros Hs Hp Hxs Hb. assert (0 < size) as Hs0 by (destruct Hs as [-> |[-> |[-> | ->]]]; lia).
  assert (0 < length xs)%nat as Hn by (destruct xs; [done|simpl; lia]). unfold vec_of.
  eapply ok_or_oom_bind; [apply allocate_ok; [exact Hp|apply vec_layout_ok; [done|lia|done]]|].
  intros [p h1] [Hp1 Hr]. simpl.
  set (b := Alloc p (vec_layout size (Z.of_nat (length xs)))) in *.
  destruct (store_all_ok size b (b :: live) xs p h1) as (Hp2 & Hk2 & Hh2); [done|done|by left|reflexivity|].
  split_and!; [exact Hp2|constructor; simpl; [done|lia|exact Hh2]|].
  eapply keeps_trans; [by apply (keeps_ram _ h h1)|].
  eapply (keeps_outside_keeps _ b); [exact Hp1| |exact Hk2]. reflexivity.
Qed.

(** What an [RcBox] holds, with [strong] references. *)
Definition rc_ok (rc strong : Z) (v : Vec) (h : heap A) : Prop :=
  holds 8 rc [strong; 1; buf v; cap v; len v] h.

(** A new block that is filled with words. *)
Lemma allocate_words_ok l xs h live :
  hp h live -> layout_ok l -> 8 * Z.of_nat (length xs) <= layout_size l ->
  ok_or_oom (fun '(p, h') => hp h' (Alloc p l :: live) /\ holds 8 p xs h' /\ keeps live h h')
    ('(p, h) ← allocate l h; Ok (p, store_all 8 p xs h)).
Proof.
  intros Hp Hl Hs. eapply ok_or_oom_bind; [by apply allocate_ok|].
  intros [p h1] [Hp1 Hr]. cbn [ok_or_oom].
  assert (subregion (Region p (8 * Z.of_nat (length xs))) (al_region (Alloc p l))) as Hsub
    by (unfold subregion, al_region, r_end; simpl; lia).
  destruct (store_all_ok 8 (Alloc p l) (Alloc p l :: live) xs p h1) as (Hp2 & Hk2 & Hh2); [done|done|by left|done|].
  split_and!; [exact Hp2|exact Hh2|]. eapply keeps_trans; [by apply (keeps_ram _ h h1)|].
  by eapply (keeps_outside_keeps _ (Alloc p l)); [exact Hp1| |exact Hk2].
Qed.

Lemma Rc_new_ok v h live :
  hp h live ->
  ok_or_oom (fun '(p, h') => hp h' (Alloc p RcBox :: live) /\ rc_ok p 1 v h' /\ keeps live h h') (Rc_new v h).
Proof. intros Hp. apply allocate_words_ok; [done|by apply layout_okb_spec|simpl; lia]. Qed.

Lemma strong_count_ok rc strong v h : rc_ok rc strong v h -> strong_count rc h = Ok strong.
Proof.
  intros H. pose proof (H 0%nat strong eq_refl) as H0. rewrite Z.mul_0_r, Z.add_0_r in H0.
  unfold strong_count, load. by rewrite H0, Z.eqb_refl.
Qed.

(** Changing the counter at the head of a block. *)
Lemma head_store_ok p l n n' xs h live :
  hp h (Alloc p l :: live) -> 8 <= layout_size l -> holds 8 p (n :: xs) h ->
  hp (store 8 p n' h) (Alloc p l :: live) /\ holds 8 p (n' :: xs) (store 8 p n' h) /\
  keeps live h (store 8 p n' h).
Proof.
  intros Hp Hl Hr. assert (subregion (Region p 8) (al_region (Alloc p l))) as Hsub
    by (unfold subregion, al_region, r_end; simpl; lia).
  split_and!; [by eapply write_hp; [|by left|]| |].
  - intros [|i] x Hx; simpl in Hx.
    + injection Hx as <-. rewrite Z.mul_0_r, Z.add_0_r. unfold store. simpl. apply lookup_insert_eq.
    + apply store_keeps; [lia|lia|unfold disj, r_end; simpl; lia|]. by apply (Hr (S i)).
  - eapply (keeps_outside_keeps _ (Alloc p l)); [exact Hp|exact Hsub|by apply store_keeps].
Qed.

Lemma rc_store_ok rc strong strong' v h live :
  hp h (Alloc rc RcBox :: live) -> rc_ok rc strong v h ->
  hp (store 8 rc strong' h) (Alloc rc RcBox :: live) /\ rc_ok rc strong' v (store 8 rc strong' h) /\
  keeps live h (store 8 rc strong' h).
Proof. intros Hp. by apply head_store_ok. Qed.

Lemma Rc_clone_ok rc strong v h live :
  hp h (Alloc rc RcBox :: live) -> rc_ok rc strong v h -> strong < WORD - 1 ->
  exists h', Rc_clone rc h = Ok (rc, h') /\ hp h' (Alloc rc RcBox :: live) /\
    rc_ok rc (strong + 1) v h' /\ keeps live h h'.
Proof.
  intros Hp Hr Hb. unfold Rc_clone. pose proof (strong_count_ok _ _ _ _ Hr) as E. unfold strong_count in E.
  rewrite E. cbn [mbind res_bind]. rewrite (proj2 (Z.eqb_neq _ _)) by lia.
  eexists. split; [reflexivity|]. by eapply rc_store_ok.
Qed.

(** Dropping a reference that is not the last one. *)
Lemma Rc_drop_ok rc strong v h live :
  hp h (Alloc rc RcBox :: live) -> rc_ok rc strong v h -> 1 < strong ->
  exists h', Rc_drop rc h = Ok h' /\ hp h' (Alloc rc RcBox :: live) /\
    rc_ok rc (strong - 1) v h' /\ keeps live h h'.
Proof.
  intros Hp Hr Hb. unfold Rc_drop. pose proof (strong_count_ok _ _ _ _ Hr) as E. unfold strong_count in E.
  rewrite E. cbn [mbind res_bind]. rewrite (proj2 (Z.eqb_neq _ _)) by lia.
  eexists. split; [reflexivity|]. by eapply rc_store_ok.
Qed.

(** Dropping the last one frees the vector and the block. *)
Lemma Rc_drop_last rc v h live :
  hp h (Alloc rc RcBox :: vec_block 4 v :: live) -> rc_ok rc 1 v h -> 0 < cap v ->
  exists h', Rc_drop rc h = Ok h' /\ hp h' live /\ keeps live h h'.
Proof.
  intros Hp Hr Hc. unfold Rc_drop. pose proof (strong_count_ok _ _ _ _ Hr) as E. unfold strong_count in E.
  rewrite E. cbn [mbind res_bind]. change (1 - 1 =? 0) with true. cbv iota.
  destruct (rc_store_ok rc 1 (1 - 1) v h _ Hp Hr) as (Hp1 & Hr1 & Hk1). set (h1 := store 8 rc (1 - 1) h) in *.
  assert (forall i x h0, rc_ok rc 0 v h0 -> [0; 1; buf v; cap v; len v] !! i = Some x ->
            load 8 (rc + 8 * Z.of_nat i) h0 = Ok x) as Hload.
  { intros i x h0 H0 Hi. unfold load. by rewrite (H0 i x Hi). }
  change (rc + 16) with (rc + 8 * Z.of_nat 2). rewrite (Hload 2%nat (buf v)) by done. cbn [mbind res_bind].
  change (rc + 24) with (rc + 8 * Z.of_nat 3). rewrite (Hload 3%nat (cap v)) by done. cbn [mbind res_bind].
  rewrite (proj2 (Z.eqb_neq (cap v) 0)) by lia.
  destruct (deallocate_ok (vec_block 4 v) h1 (Alloc rc RcBox :: live)) as (h2 & Hd & Hp2 & Hk2).
  { eapply hp_perm; [apply perm_swap|exact Hp1]. }
  change (deallocate (buf v) (vec_layout 4 (cap v)) h1)
    with (deallocate (al_ptr (vec_block 4 v)) (al_layout (vec_block 4 v)) h1).
  rewrite Hd. cbn [mbind res_bind].
  assert (rc_ok rc 0 v h2) as Hr2.
  { eapply (holds_keeps 8 rc _ (Alloc rc RcBox)); [lia|by left|reflexivity|exact Hk2|exact Hr1]. }
  change (rc + 8) with (rc + 8 * Z.of_nat 1). rewrite (Hload 1%nat 1) by done. cbn [mbind res_bind].
  change (1 - 1 =? 0) with true. cbv iota. set (h3 := store 8 _ _ h2).
  assert (subregion (Region (rc + 8) 8) (al_region (Alloc rc RcBox))) as Hsub
    by (unfold subregion, al_region, r_end; simpl; lia).
  destruct (deallocate_ok (Alloc rc RcBox) h3 live) as (h4 & Hd4 & Hp4 & Hk4).
  { unfold h3. eapply write_hp; [exact Hp2|by left|exact Hsub]. }
  exists h4. split_and!; [exact Hd4|done|].
  eapply keeps_trans; [eapply (keeps_mono live (vec_block 4 v :: live)); [set_solver|exact Hk1]|].
  eapply keeps_trans; [eapply (keeps_mono live (Alloc rc RcBox :: live)); [set_solver|exact Hk2]|].
  eapply keeps_trans; [|exact Hk4].
  eapply (keeps_outside_keeps _ (Alloc rc RcBox)); [exact Hp2|exact Hsub|by apply store_keeps].
Qed.

(** ** The tests *)

(** What [simple_allocation] does once it has its first box. *)
Definition simple_rest (heap_value_1 : Z) (h : heap A) : res (heap A) :=
  '(heap_value_2, h) ← Box_new 4 13 h;
  v1 ← load 4 heap_value_1 h;
  _ ← assert_ (v1 =? 41);
  v2 ← load 4 heap_value_2 h;
  _ ← assert_ (v2 =? 13);
  h ← deallocate heap_value_2 (mkLayout 4 4) h;
  deallocate heap_value_1 (mkLayout 4 4) h.

Lemma simple_rest_ok p1 h1 live :
  hp h1 (Alloc p1 (mkLayout 4 4) :: live) -> holds 4 p1 [41] h1 ->
  ok_or_oom (fun h' => hp h' live /\ keeps live h1 h') (simple_rest p1 h1).
Proof.
  intros Hp1 Hh1. unfold simple_rest. set (l := mkLayout 4 4) in *.
  eapply ok_or_oom_bind; [apply (Box_new_ok 4 13 h1 (Alloc p1 l :: live)); [by right; right; left|done]|].
  intros [p2 h2] (Hp2 & Hh2 & Hk2).
  assert (holds 4 p1 [41] h2) as Hh1'.
  { eapply (holds_keeps 4 p1 [41] (Alloc p1 l) (Alloc p1 l :: live)); [lia|by left|reflexivity|exact Hk2|done]. }
  rewrite (load_holds _ _ _ _ Hh1'). cbn [mbind res_bind assert_ Z.eqb Pos.eqb].
  rewrite (load_holds _ _ _ _ Hh2). cbn [mbind res_bind assert_ Z.eqb Pos.eqb].
  destruct (deallocate_ok (Alloc p2 l) h2 (Alloc p1 l :: live) Hp2) as (h3 & Hd3 & Hp3 & Hk3).
  simpl in Hd3. rewrite Hd3. cbn [mbind res_bind].
  destruct (deallocate_ok (Alloc p1 l) h3 live Hp3) as (h4 & Hd4 & Hp4 & Hk4).
  simpl in Hd4. rewrite Hd4. cbn [ok_or_oom]. split; [done|].
  eapply keeps_trans; [|exact Hk4].
  apply (keeps_mono live (Alloc p1 l :: live)); [set_solver|]. by eapply keeps_trans.
Qed.

Lemma large_and_multiple_allocations_ok {profile : BuildProfile} h live :
  hp h live ->
  ok_or_oom (fun h' => hp h' live /\ keeps live h h') (large_and_multiple_allocations h).
Proof.
  intros Hp. unfold large_and_multiple_allocations.
  eapply ok_or_oom_bind; [eapply (push_all_ok 8 (seqZ 0 1000) live [] Vec_new h);
    [by right; right; right|done|by constructor|done|rewrite length_app || simpl; rewrite ?length_seqZ; lia]|].
  intros [v h1] (Hp1 & Hv1 & Hk1 & Hc1). rewrite (iter_ok _ _ _ _ Hv1). cbn [mbind res_bind app].
  assert (for_each (fun x s => uadd s x) (seqZ 0 1000) 0 = Ok 499500) as -> by (vm_compute; reflexivity).
  change (assert_ (499500 =? (1000 - 1) * 1000 / 2)) with (Ok tt). cbn [mbind res_bind].
  assert (capacity 8 (length ([] ++ seqZ 0 1000)) = 1024) as E1024 by (vm_compute; reflexivity).
  rewrite E1024 in Hc1. unfold vec_owns in Hp1. rewrite Hc1 in *. simpl in Hp1 |- *.
  destruct (deallocate_ok (vec_block 8 v) h1 live Hp1) as (h2 & Hd & Hp2 & Hk2).
  unfold vec_block in Hd. rewrite Hc1 in Hd. simpl in Hd. rewrite Hd. cbn [ok_or_oom].
  split; [done|]. by eapply keeps_trans.
Qed.

(** One iteration of [many_boxes], when there is a block for the box. *)
Lemma one_box_ok i h live x h1 :
  hp h live -> Box_new 8 i h = Ok (x, h1) ->
  exists h2, (v ← load 8 x h1; _ ← assert_ (v =? i); deallocate x (mkLayout 8 8) h1) = Ok h2 /\
    hp h2 live /\ keeps live h h2.
Proof.
  intros Hp E. pose proof (Box_new_ok 8 i h live) as Hb. rewrite E in Hb.
  destruct Hb as (Hp1 & Hh1 & Hk1); [by right; right; right|done|].
  rewrite (load_holds _ _ _ _ Hh1). cbn [mbind res_bind]. rewrite Z.eqb_refl. cbn [assert_ mbind res_bind].
  destruct (deallocate_ok (Alloc x (mkLayout 8 8)) h1 live Hp1) as (h2 & Hd & Hp2 & Hk2).
  exists h2. split_and!; [exact Hd|done|]. by eapply keeps_trans.
Qed.
End facts.

(** ** The kernel's allocator *)

#[export] Existing Instances FixedSizeBlockAllocator.FixedSizeBlockAllocator_GlobalAlloc
  FixedSizeBlockAllocator.FixedSizeBlockAllocator_contract FixedSizeBlockAllocator.FixedSizeBlockAllocator_total.

(** A heap of the kernel's allocator. *)
Definition heap0 : heap (FixedSizeBlockAllocator.t BumpAllocator.t) :=
  mkHeap (FixedSizeBlockAllocator.init (FixedSizeBlockAllocator.new ∅) 0x444444440000 102400) ∅.

Lemma hp_heap0 : hp 0x444444440000 (0x444444440000 + 102400) heap0 [].
Proof. split; [|apply client_ok_nil]. eexists. by apply FixedSizeBlockAllocator.fsb_init_inv. Qed.
