(* ===== verification/Harness.v ===== *)
(** * The test harness

    [src/min-rust-os/src/lib.rs] (the runner, the panic handler for tests, leaving
    QEMU) and [src/min-rust-os/src/serial.rs] (the serial port the results go to),
    with [tests/should_panic.rs], which brings its own harness.

    The serial port is [uart_16550::SerialPort], a dependency.  A test is an
    arbitrary function on the rest of the machine that returns or panics. *)

From S2P Require Import Prelude Fmt.
From stdpp Require Import base option strings list.
From Stdlib Require Import ZArith Lia.
Local Open Scope Z_scope.

(** ** The serial port *)

(** [SerialPort::new], [init] and [write_str]; [None] is an error of [write_str].
    [uart_sent] is what went over the wire. *)
Class SerialPort (U : Type) := {
  uart_new : Z -> U;
  uart_init : U -> U;
  uart_write_str : list Z -> U -> option U;
  uart_sent : U -> list Z;
}.

(** The crate sends every byte as it is, but backspace and delete, and reports no
    error. *)
Definition plain (s : list Z) : Prop := Forall (fun b => b <> 8 /\ b <> 127) s.
#[global] Instance plain_dec s : Decision (plain s).
Proof. unfold plain. apply _. Defined.

Class SerialPortLaws (U : Type) `{SerialPort U} : Prop := {
  uart_sent_new p : uart_sent (uart_init (uart_new p)) = [];
  uart_write_str_spec s u : plain s ->
    exists u', uart_write_str s u = Some u' /\ uart_sent u' = uart_sent u ++ s;
}.

(** ** The harness *)

Inductive QemuExitCode := Success | Failure.
Definition as_u32 (c : QemuExitCode) : Z := match c with Success => 0x10 | Failure => 0x11 end.

(** A test: its type name, and what it does to the machine, with the message of the
    panic if it panics. *)
Record test (S : Type) := mkTest { type_name : list Z; call : S -> S * option (list Z) }.
Arguments mkTest {S} _ _.
Arguments type_name {S} _.
Arguments call {S} _ _.

Section harness.
Context {U S : Type} `{SerialPort U}.

(** [SERIAL1] is initialised by the first access.  [machine] is everything a test
    works on; [exit_port] is the last value written to port 0xf4. *)
Record t := mk {
  SERIAL1 : option U;
  machine : S;
  exit_port : option Z;
}.

(** [SERIAL1.lock()] *)
Definition serial_lock (h : t) : U :=
  match SERIAL1 h with
  | Some u => u
  | None => uart_init (uart_new 0x3F8)
  end.

(** [_print] of [serial.rs], on the pieces the formatting machinery produces. *)
Definition serial_print (pieces : list (list Z)) (h : t) : res t :=
  u ← for_each (fun s u => expect "Printing to serial failed" (uart_write_str s u)) pieces (serial_lock h);
  Ok (mk (Some u) (machine h) (exit_port h)).

(** [serial_println!] appends the line feed to the format string. *)
Definition serial_println (pieces : list (list Z)) (h : t) : res t := serial_print (pieces ++ [[10]]) h.

Definition exit_qemu (exit_code : QemuExitCode) (h : t) : t :=
  mk (SERIAL1 h) (machine h) (Some (as_u32 exit_code)).

(** [<T as Testable>::run]; the message is that of a panic of the test. *)
Definition Testable_run (self : test S) (h : t) : res (t * option (list Z)) :=
  h ← serial_print [type_name self; bytes_of "..."; [9]] h;
  let '(s, panicked) := call self (machine h) in
  let h := mk (SERIAL1 h) s (exit_port h) in
  match panicked with
  | Some info => Ok (h, Some info)
  | None => h ← serial_println [bytes_of "[ok]"] h; Ok (h, None)
  end.

(** The loop over the tests ends at the first panic. *)
Fixpoint run_tests (tests : list (test S)) (h : t) : res (t * option (list Z)) :=
  match tests with
  | [] => Ok (h, None)
  | x :: tests =>
      '(h, panicked) ← Testable_run x h;
      match panicked with
      | Some info => Ok (h, Some info)
      | None => run_tests tests h
      end
  end.

Definition test_runner (tests : list (test S)) (h : t) : res (t * option (list Z)) :=
  h ← serial_println [bytes_of "Running "; decimal (Z.of_nat (length tests)); bytes_of " tests"] h;
  '(h, panicked) ← run_tests tests h;
  match panicked with
  | Some info => Ok (h, Some info)
  | None => Ok (exit_qemu Success h, None)
  end.

(** [test_panic_handler], up to the endless loop at its end. *)
Definition test_panic_handler (info : list Z) (h : t) : res t :=
  h ← serial_println [bytes_of "[failed]"; [10]] h;
  h ← serial_println [bytes_of "Error: "; info; [10]] h;
  Ok (exit_qemu Failure h).

(** [test_main] with the panic handler behind it. *)
Definition test_main (tests : list (test S)) (h : t) : res t :=
  '(h, panicked) ← test_runner tests h;
  match panicked with
  | Some info => test_panic_handler info h
  | None => Ok h
  end.

(** The entry point of [cargo test], up to the endless loop at its end.  [init] is
    [lib::init], which works on the machine only. *)
Definition test_kernel_main (init : S -> res S) (tests : list (test S)) (h : t) : res t :=
  s ← init (machine h);
  test_main tests (mk (SERIAL1 h) s (exit_port h)).

(** ** Tests without the harness *)

(** [tests/should_panic.rs]: whether [should_fail] panics; its assertion compares
    two constants. *)
Definition should_fail (h : t) : res (t * bool) :=
  h ← serial_print [bytes_of "should_panic::should_fail()..."; [9]] h;
  Ok (h, negb (0 =? 1)).

(** [_start] and the panic handler, up to the endless loops at their ends. *)
Definition should_panic_start (h : t) : res t :=
  '(h, panicked) ← should_fail h;
  if (panicked : bool) then
    h ← serial_println [bytes_of "[ok]"] h; Ok (exit_qemu Success h)
  else
    h ← serial_println [bytes_of "[test did not panic]"] h; Ok (exit_qemu Failure h).
End harness.
Arguments t U S : clear implicits.

(** ** Reference: what a run of the tests comes to *)

(** The tests that return before the first one that panics, the one that panics
    with its message, and what is left of the machine. *)
Fixpoint verdict {S} (tests : list (test S)) (s : S) : list (test S) * option (test S * list Z) * S :=
  match tests with
  | [] => ([], None, s)
  | x :: tests =>
      match call x s with
      | (s, Some info) => ([], Some (x, info), s)
      | (s, None) => let '(passed, failed, s) := verdict tests s in (x :: passed, failed, s)
      end
  end.

(** The report on the serial line. *)
Definition started {S} (x : test S) : list Z := type_name x ++ bytes_of "..." ++ [9].
Definition passed_line {S} (x : test S) : list Z := started x ++ bytes_of "[ok]" ++ [10].
Definition failed_lines {S} (x : test S) (info : list Z) : list Z :=
  started x ++ bytes_of "[failed]" ++ [10; 10] ++ bytes_of "Error: " ++ info ++ [10; 10].
Definition report {S} (n : nat) (passed : list (test S)) (failed : option (test S * list Z)) : list Z :=
  bytes_of "Running " ++ decimal (Z.of_nat n) ++ bytes_of " tests" ++ [10] ++
  mjoin (passed_line <$> passed) ++
  match failed with Some (x, info) => failed_lines x info | None => [] end.

(** The exit status of QEMU with the [isa-debug-exit] device, and the one that
    [Cargo.toml] declares to be a success. *)
Definition qemu_status (v : Z) : Z := Z.lor (Z.shiftl v 1) 1.
Definition test_success_exit_code : Z := 33.

Section facts.
Context {U S : Type} `{SerialPortLaws U}.

Lemma plain_app s1 s2 : plain (s1 ++ s2) <-> plain s1 /\ plain s2.
Proof. apply Forall_app. Qed.

Lemma plain_decimal n : is_word n -> plain (decimal n).
Proof. intros Hn. destruct (decimal_value n Hn) as [_ Hd]. eapply Forall_impl; [exact Hd|]. simpl. lia. Qed.

(** What is on the wire. *)
Definition sent (h : t U S) : list Z := uart_sent (serial_lock h).

Lemma serial_print_ok pieces (h : t U S) :
  Forall plain pieces ->
  exists u, serial_print pieces h = Ok (mk (Some u) (machine h) (exit_port h)) /\
    uart_sent u = sent h ++ mjoin pieces.
Proof.
  intros Hp. unfold serial_print, sent. generalize (serial_lock h) as u.
  induction Hp as [|s pieces Hs Hp IH]; intros u; simpl.
  { exists u. by rewrite app_nil_r. }
  destruct (uart_write_str_spec s u Hs) as (u1 & -> & E1). simpl.
  destruct (IH u1) as (u2 & E2 & E3). exists u2. split; [exact E2|]. by rewrite E3, E1, <- app_assoc.
Qed.

(** Runs of the tests on the wire, on the machine and in their verdict. *)
Lemma run_tests_ok tests : forall h : t U S,
  Forall (fun x => plain (type_name x)) tests ->
  let '(passed, failed, s) := verdict tests (machine h) in
  exists u, run_tests tests h = Ok (mk u s (exit_port h), snd <$> failed) /\
    uart_sent (serial_lock (mk u s (exit_port h)))
    = sent h ++ mjoin (passed_line <$> passed)
        ++ match failed with Some (x, _) => started x | None => [] end.
Proof.
  induction tests as [|x tests IH]; intros h Hp; cbn [verdict run_tests].
  { exists (SERIAL1 h). split; [by destruct h|]. by rewrite app_nil_r. }
  apply Forall_cons in Hp as [Hx Hp]. unfold Testable_run.
  destruct (serial_print_ok [type_name x; bytes_of "..."; [9]] h) as (u1 & -> & E1).
  { constructor; [done|]. by apply (bool_decide_unpack _). }
  cbn [mbind res_bind machine]. destruct (call x (machine h)) as [s1 [info|]]; cbn [mbind res_bind].
  { exists (Some u1). split; [done|]. etrans; [exact E1|]. done. }
  unfold serial_println.
  destruct (serial_print_ok ([bytes_of "[ok]"] ++ [[10]]) (mk (Some u1) s1 (exit_port h))) as (u2 & E2 & E3);
    [by apply (bool_decide_unpack _)|].
  cbn [SERIAL1 exit_port]. rewrite E2. cbn [mbind res_bind machine exit_port].
  specialize (IH (mk (Some u2) s1 (exit_port h)) Hp). cbn [machine exit_port] in IH.
  destruct (verdict tests s1) as [[passed failed] s2]. destruct IH as (u3 & -> & E4).
  exists u3. split; [done|]. rewrite E4.
  change (uart_sent u2 = uart_sent u1 ++ mjoin [bytes_of "[ok]"; [10]]) in E3.
  change (sent (mk (Some u2) s1 (exit_port h))) with (uart_sent u2). rewrite E3, E1.
  cbn [fmap list_fmap mjoin list_join]. unfold passed_line at 2, started.
  by rewrite <- !app_assoc, ?app_nil_r.
Qed.

Lemma test_panic_handler_ok info (h : t U S) :
  plain info ->
  exists h', test_panic_handler info h = Ok h' /\ exit_port h' = Some (as_u32 Failure) /\
    sent h' = sent h ++ bytes_of "[failed]" ++ [10; 10] ++ bytes_of "Error: " ++ info ++ [10; 10] /\
    machine h' = machine h.
Proof.
  intros Hi. unfold test_panic_handler, serial_println.
  destruct (serial_print_ok ([bytes_of "[failed]"; [10]] ++ [[10]]) h) as (u1 & -> & E1);
    [by apply (bool_decide_unpack _)|]. cbn [mbind res_bind].
  destruct (serial_print_ok ([bytes_of "Error: "; info; [10]] ++ [[10]]) (mk (Some u1) (machine h) (exit_port h)))
    as (u2 & -> & E2).
  { constructor; [by apply (bool_decide_unpack _)|]. constructor; [done|]. by apply (bool_decide_unpack _). }
  cbn [mbind res_bind]. eexists. split_and!; [done..| |done].
  change (uart_sent u2 = uart_sent u1 ++ mjoin [bytes_of "Error: "; info; [10]; [10]]) in E2.
  change (sent (exit_qemu _ _)) with (uart_sent u2). rewrite E2, E1.
  cbn [mjoin list_join app]. by rewrite <- !app_assoc.
Qed.

(** The verdict is about a test of the list that panicked. *)
Lemma verdict_failed (tests : list (test S)) : forall s,
  match verdict tests s with
  | (_, Some (x, info), s') => exists s0, x ∈ tests /\ call x s0 = (s', Some info)
  | (_, None, _) => True
  end.
Proof.
  induction tests as [|x tests IH]; intros s; simpl; [done|].
  destruct (call x s) as [s1 [info|]] eqn:Ec; simpl.
  { exists s. split; [by left|done]. }
  specialize (IH s1). destruct (verdict tests s1) as [[passed [[y info]|]] s2]; [|done].
  destruct IH as (s0 & Hy & Hc). exists s0. split; [by right|done].
Qed.

(** [tests/should_panic.rs] succeeds. *)
Lemma should_panic_start_ok (h : t U S) :
  exists h', should_panic_start h = Ok h' /\ exit_port h' = Some (as_u32 Success) /\
    sent h' = sent h ++ bytes_of "should_panic::should_fail()..." ++ [9] ++ bytes_of "[ok]" ++ [10].
Proof.
  unfold should_panic_start, should_fail, serial_println.
  destruct (serial_print_ok [bytes_of "should_panic::should_fail()..."; [9]] h) as (u1 & -> & E1);
    [by apply (bool_decide_unpack _)|]. cbn [mbind res_bind]. change (negb (0 =? 1)) with true. cbv iota.
  destruct (serial_print_ok ([bytes_of "[ok]"] ++ [[10]]) (mk (Some u1) (machine h) (exit_port h))) as (u2 & -> & E2);
    [by apply (bool_decide_unpack _)|].
  eexists. split_and!; [done..|]. change (sent (exit_qemu _ _)) with (uart_sent u2).
  change (uart_sent u2 = uart_sent u1 ++ mjoin [bytes_of "[ok]"; [10]]) in E2. rewrite E2, E1.
  cbn [mjoin list_join]. by rewrite <- !app_assoc.
Qed.
(** The whole run. *)
Lemma test_main_ok (tests : list (test S)) (h : t U S) :
  is_word (Z.of_nat (length tests)) ->
  Forall (fun x => plain (type_name x)) tests ->
  (forall x s s' info, x ∈ tests -> call x s = (s', Some info) -> plain info) ->
  let '(passed, failed, s) := verdict tests (machine h) in
  exists h' v, test_main tests h = Ok h' /\ exit_port h' = Some v /\
    (qemu_status v = test_success_exit_code <-> failed = None) /\
    sent h' = sent h ++ report (length tests) passed failed /\ machine h' = s.
Proof.
  intros Hn Hp Hi. unfold test_main, test_runner, serial_println.
  destruct (serial_print_ok ([bytes_of "Running "; decimal (Z.of_nat (length tests)); bytes_of " tests"] ++ [[10]]) h)
    as (u1 & -> & E1).
  { constructor; [by apply (bool_decide_unpack _)|]. constructor; [by apply plain_decimal|].
    by apply (bool_decide_unpack _). }
  cbn [mbind res_bind machine exit_port]. pose proof (verdict_failed tests (machine h)) as Hf.
  pose proof (run_tests_ok tests (mk (Some u1) (machine h) (exit_port h)) Hp) as Hr.
  cbn [machine exit_port] in Hr. change (sent (mk (Some u1) _ _)) with (uart_sent u1) in Hr.
  destruct (verdict tests (machine h)) as [[passed failed] s]. destruct Hr as (u2 & -> & E2).
  rewrite E1 in E2. destruct failed as [[x info]|]; cbn [fmap option_fmap option_map mbind res_bind snd].
  - destruct Hf as (s0 & Hx & Hc). destruct (test_panic_handler_ok info (mk u2 s (exit_port h))) as (h' & -> & Hv & Hs & Hm).
    { by apply (Hi x s0 s). }
    exists h', 0x11. split_and!; [done|done|by split|rewrite Hs; unfold sent; rewrite E2|done].
    unfold report, failed_lines. cbn [app mjoin list_join]. by rewrite <- ?app_assoc.
  - eexists _, 0x10. split_and!; [done|done|by split|unfold sent in *|done].
    change (serial_lock (exit_qemu _ ?h)) with (serial_lock h). rewrite E2.
    unfold report. cbn [app mjoin list_join]. by rewrite <- ?app_assoc.
Qed.
End facts.

(** ** A serial port that satisfies the laws *)

Module HarnessReference.
(** The bytes that were sent. *)
#[export] Instance list_SerialPort : SerialPort (list Z) := {
  uart_new _ := [];
  uart_init u := u;
  uart_write_str s u := Some (u ++ s);
  uart_sent u := u;
}.
#[export] Instance list_SerialPortLaws : SerialPortLaws (list Z).
Proof. split; [done|]. intros s u _. by exists (u ++ s). Qed.

(** Three tests on a counter, the last of which panics. *)
Definition tests0 : list (test nat) := [
  mkTest (bytes_of "first") (fun n => (Datatypes.S n, None));
  mkTest (bytes_of "second") (fun n => (Datatypes.S n, None));
  mkTest (bytes_of "third") (fun n => (n, Some (bytes_of "oh no")))].
Definition harness0 : t (list Z) nat := mk None 0%nat None.
End HarnessReference.
Import HarnessReference.

(** ** Properties *)

Section properties.
Context {U S : Type} `{SP : SerialPort U} (SL : SerialPortLaws U).

(** C13: the harness tells the truth.  Running any tests, which may do anything to the
    machine and may panic, ends with a value in QEMU's exit port, and the status that
    QEMU turns it into is the one [Cargo.toml] declares to be a success exactly when
    no test panicked.  The serial line carries the number of tests, a line for each
    test that returned, in order, and the message of the first one that panicked,
    after which no test is run. *)
Theorem harness_reports (init : S -> res S) (tests : list (test S)) (h : t U S) (s0 : S) :
  init (machine h) = Ok s0 ->
  is_word (Z.of_nat (length tests)) ->
  Forall (fun x => plain (type_name x)) tests ->
  (forall x s s' info, x ∈ tests -> call x s = (s', Some info) -> plain info) ->
  let '(passed, failed, s) := verdict tests s0 in
  exists h' v, test_kernel_main init tests h = Ok h' /\ exit_port h' = Some v /\
    (qemu_status v = test_success_exit_code <-> failed = None) /\
    sent h' = sent h ++ report (length tests) passed failed /\ machine h' = s.
Proof.
  intros Hinit Hn Hp Hi. unfold test_kernel_main. rewrite Hinit. cbn [mbind res_bind].
  by apply (test_main_ok tests (mk (SERIAL1 h) s0 (exit_port h))).
Qed.
End properties.

Lemma harness_reports_witness :
  exists h', test_kernel_main (fun n => Ok (5 + n)%nat) tests0 harness0 = Ok h' /\ exit_port h' = Some 0x11 /\ machine h' = 7%nat /\
    sent h' = bytes_of "Running 3 tests" ++ [10] ++ bytes_of "first..." ++ [9] ++ bytes_of "[ok]" ++ [10] ++
      bytes_of "second..." ++ [9] ++ bytes_of "[ok]" ++ [10] ++ bytes_of "third..." ++ [9] ++
      bytes_of "[failed]" ++ [10; 10] ++ bytes_of "Error: oh no" ++ [10; 10].
Proof.
  destruct (harness_reports _ (fun n => Ok (5 + n)%nat) tests0 harness0 5%nat) as (h' & v & H1 & H2 & _ & H4 & H5).
  - reflexivity.
  - vm_compute. split; [discriminate|reflexivity].
  - by apply (bool_decide_unpack _).
  - intros x s s' info Hx. repeat (apply elem_of_cons in Hx as [->|Hx]; [simpl; intros E; simplify_eq|]).
    + by apply (bool_decide_unpack _).
    + by apply not_elem_of_nil in Hx.
  - exists h'. split_and!; [exact H1| |exact H5|exact H4].
    vm_compute in H1. injection H1 as <-. reflexivity.
Defined.
