(* ===== verification/Exceptions.v ===== *)
(** * Processor exceptions

    [gdt.rs] (the descriptor table with the task state segment), the exception
    handlers of [interrupts.rs], [init] of [lib.rs] that puts both in place, and
    [tests/stack_overflow.rs], all under [src/min-rust-os].

    How the processor delivers an exception is that of the Intel manual (volume 3,
    chapter 6): a fault on the way to a handler is a new exception, two faults of
    certain classes make a double fault, and a fault on the way to the double fault
    handler resets the machine. *)

From S2P Require Import Prelude Fmt Queue Task Vga Keyboard Interrupts Harness.
From stdpp Require Import base option gmap strings list.
From Stdlib Require Import ZArith Lia.
Local Open Scope Z_scope.

(** ** The global descriptor table *)

(** [x86_64::structures::gdt::Descriptor], the two that are used.  The segment refers
    to the interrupt stack table of [TSS]. *)
Inductive Descriptor := KernelCodeSegment | TssSegment (tss : list Z).

(** A system segment takes two entries of the table. *)
Definition slots (d : Descriptor) : nat := match d with KernelCodeSegment => 1 | TssSegment _ => 2 end.

(** [x86_64]'s [GlobalDescriptorTable]: [gdt_add_entry] is [None] where it panics,
    which is when there are no free entries left.  The first of the eight entries is
    the null descriptor. *)
Class Gdt (G : Type) := {
  gdt_new : G;
  gdt_add_entry : Descriptor -> G -> option (Z * G);
  gdt_lookup : Z -> G -> option Descriptor;
  gdt_free : G -> nat;
}.
Class GdtLaws (G : Type) `{Gdt G} : Prop := {
  gdt_free_new : gdt_free gdt_new = 7%nat;
  gdt_add_entry_spec d g : (slots d <= gdt_free g)%nat ->
    exists sel g', gdt_add_entry d g = Some (sel, g') /\ gdt_lookup sel g' = Some d /\
      gdt_free g' = (gdt_free g - slots d)%nat /\
      forall s x, gdt_lookup s g = Some x -> gdt_lookup s g' = Some x;
}.

Record Selectors := mkSelectors { code_selector : Z; tss_selector : Z }.

(** ** The processor *)

(** A gate of a loaded descriptor table: [set_handler_fn] stores the code segment
    that is current when the table is built, and marks the entry present. *)
Record gate (H : Type) := mkGate { gate_handler : H; gate_stack_index : option nat; gate_segment : Z }.
Arguments mkGate {H} _ _ _.
Arguments gate_handler {H} _.
Arguments gate_stack_index {H} _.
Arguments gate_segment {H} _.

(** The registers: the loaded tables, the code segment, the task register. *)
Record cpu (G H : Type) := mkCpu {
  gdtr : option G;
  cs : Z;
  tr : option (list Z);
  idtr : gmap Z (gate H);
  interrupt_flag : bool;
}.
Arguments mkCpu {G H} _ _ _ _ _.
Arguments gdtr {G H} _.
Arguments cs {G H} _.
Arguments tr {G H} _.
Arguments idtr {G H} _.
Arguments interrupt_flag {G H} _.

(** ** Delivery of an exception *)

Definition SEGMENT_NOT_PRESENT : Z := 11.
Definition STACK_SEGMENT_FAULT : Z := 12.
Definition GENERAL_PROTECTION : Z := 13.

Inductive class := Benign | Contributory | PageFaults | DoubleFault.
Definition class_of (v : Z) : class :=
  if bool_decide (v ∈ [0; 10; 11; 12; 13; 21]) then Contributory
  else if bool_decide (v ∈ [PAGE_FAULT; 20]) then PageFaults
  else if v =? DOUBLE_FAULT then DoubleFault
  else Benign.

(** What the processor does about a fault [second] on the way to the handler of
    [first]; [None] is a triple fault. *)
Definition escalate (first second : Z) : option Z :=
  match class_of first, class_of second with
  | DoubleFault, _ => None
  | Contributory, Contributory => Some DOUBLE_FAULT
  | PageFaults, (Contributory | PageFaults) => Some DOUBLE_FAULT
  | _, _ => Some second
  end.

Inductive delivered (H : Type) := Entered (h : H) (stack_pointer : Z) | TripleFault.
Arguments Entered {H} _ _.
Arguments TripleFault {H}.

Section delivery.
Context {G H : Type} `{Gdt G}.
(** Which exception pushing a frame below an address raises, if any. *)
Variable stack_fault : Z -> option Z.

(** One attempt to enter the handler of vector [v] from a stack at [rsp]. *)
Definition enter (c : cpu G H) (rsp v : Z) : Z + H * Z :=
  match idtr c !! v with
  | None => inl SEGMENT_NOT_PRESENT
  | Some e =>
      match gdtr c ≫= gdt_lookup (gate_segment e) with
      | Some KernelCodeSegment =>
          let target :=
            match gate_stack_index e with
            | None => Some rsp
            | Some i => tr c ≫= fun tss => tss !! i
            end in
          match target with
          | None => inl GENERAL_PROTECTION
          | Some sp => match stack_fault sp with Some f => inl f | None => inr (gate_handler e, sp) end
          end
      | _ => inl GENERAL_PROTECTION
      end
  end.

Fixpoint deliver (fuel : nat) (c : cpu G H) (rsp v : Z) : option (delivered H) :=
  match fuel with
  | O => None
  | S fuel =>
      match enter c rsp v with
      | inr (h, sp) => Some (Entered h sp)
      | inl f => match escalate v f with
                 | None => Some TripleFault
                 | Some w => deliver fuel c rsp w
                 end
      end
  end.

(** A benign exception can become a contributory one, that a page fault, that a
    double fault, and then the processor gives up: four attempts are enough. *)
Definition ATTEMPTS : nat := 4.
Definition rank (v : Z) : nat :=
  match class_of v with Benign => 3 | Contributory => 2 | PageFaults => 1 | DoubleFault => 0 end.
End delivery.

(** ** [gdt.rs] *)

Section gdt.
Context {G H : Type} `{Gdt G}.

(** [add_entry] panics when the table is full. *)
Definition add_entry (d : Descriptor) (g : G) : res (Z * G) :=
  match gdt_add_entry d g with Some x => Ok x | None => Panic (ExplicitPanic "GDT full") end.

(** The static [GDT]; [stack] is the address of the static [STACK]. *)
Definition GDT (stack : Z) : res (G * Selectors) :=
  tss ← TSS stack;
  let gdt := gdt_new in
  '(code_selector, gdt) ← add_entry KernelCodeSegment gdt;
  '(tss_selector, gdt) ← add_entry (TssSegment tss) gdt;
  Ok (gdt, mkSelectors code_selector tss_selector).

Definition load_gdt (g : G) (c : cpu G H) : cpu G H :=
  mkCpu (Some g) (cs c) (tr c) (idtr c) (interrupt_flag c).

(** Loading a selector that does not name a code segment, or not a task state
    segment that is available, breaks memory safety.  The segment that is loaded is
    marked busy, and is no longer available. *)
Definition set_cs (sel : Z) (c : cpu G H) : res (cpu G H) :=
  match gdtr c ≫= gdt_lookup sel with
  | Some KernelCodeSegment => Ok (mkCpu (gdtr c) sel (tr c) (idtr c) (interrupt_flag c))
  | _ => Undef
  end.
Definition load_tss (sel : Z) (c : cpu G H) : res (cpu G H) :=
  match gdtr c ≫= gdt_lookup sel, tr c with
  | Some (TssSegment tss), None => Ok (mkCpu (gdtr c) (cs c) (Some tss) (idtr c) (interrupt_flag c))
  | _, _ => Undef
  end.

(** [gdt::init] *)
Definition gdt_init (stack : Z) (c : cpu G H) : res (cpu G H) :=
  '(gdt, selectors) ← GDT stack;
  let c := load_gdt gdt c in
  c ← set_cs (code_selector selectors) c;
  load_tss (tss_selector selectors) c.

Definition load_idt (idt : gmap Z (gate H)) (c : cpu G H) : cpu G H :=
  mkCpu (gdtr c) (cs c) (tr c) idt (interrupt_flag c).

(** [x86_64::instructions::interrupts::enable] *)
Definition enable (c : cpu G H) : cpu G H := mkCpu (gdtr c) (cs c) (tr c) (idtr c) true.
End gdt.

(** The static [IDT] as the processor sees it, built when [segment] was current. *)
Definition IDT_gates (segment : Z) : gmap Z (gate Handler) :=
  (fun e => mkGate (handler e) (stack_index e) segment) <$> IDT.

(** [interrupts::init_idt]: the table is built on its first use, which is here. *)
Definition init_idt {G} (c : cpu G Handler) : cpu G Handler := load_idt (IDT_gates (cs c)) c.

(** ** [init] of [lib.rs] *)

(** [ChainedPics::initialize] moves the interrupts of the two controllers to the
    vectors from [o1] and [o2] on, and leaves it to the masks, which it does not
    change, which lines are delivered. *)
Class ChainedPicsInit (P : Type) := {
  pic_initialize : Z -> Z -> P -> P;
  pic_unmasked : Z -> P -> bool;
}.
Class ChainedPicsInitLaws (P : Type) `{ChainedPics P} `{ChainedPicsInit P} : Prop := {
  pic_initialize_spec o1 o2 line p : 0 <= line < 8 -> pic_unmasked line p = true ->
    pic_accepts (o1 + line) (pic_initialize o1 o2 p) = true;
}.

Section init.
Context {G P : Type} `{Gdt G} `{PI : ChainedPicsInit P}.

(** [PICS.lock().initialize()], where [PICS] holds the two offsets. *)
Definition initialize_PICS (p : P) : P := pic_initialize PIC_1_OFFSET PIC_2_OFFSET p.

Definition init (stack : Z) (c : cpu G Handler) (p : P) : res (cpu G Handler * P) :=
  c ← gdt_init stack c;
  let c := init_idt c in
  let p := initialize_PICS p in
  Ok (enable c, p).
End init.

(** ** The handlers *)

(** What a handler leaves behind: the interrupted code goes on, or the processor
    stays in [hlt_loop] with interrupts disabled, as they are in a handler. *)
Inductive outcome (S : Type) := Resumes (s : S) | Hangs (s : S).
Arguments Resumes {S} _.
Arguments Hangs {S} _.

Section exception_handlers.
Context {QS QT C W P : Type}.
Context `{AQS : ArrayQueue Z QS} `{AQT : ArrayQueue Z QT} `{OC : OnceCell QS C}.
Context `{AW : AtomicWaker W} `{PIC : ChainedPics P}.
Abbreviation statics := (statics QT C W P).

(** What the hardware passes to a handler, as the text that is printed for it: the
    stack frame, the error code, the register CR2; and the byte at port 0x60. *)
Record context := mkContext { stack_frame : list Z; error_code : list Z; cr2 : list Z; port_0x60 : Z }.

Definition breakpoint (x : context) (g : statics) : res (outcome statics) :=
  g ← println (bytes_of "EXCEPTION: BREAKPOINT" ++ [10] ++ stack_frame x) g;
  Ok (Resumes g).

(** The panic handler of [main.rs]. *)
Definition panic_handler (info : list Z) (g : statics) : res (outcome statics) :=
  g ← main_println info g;
  Ok (Hangs g).

(** [location] is the text in front of the message of a panic. *)
Definition double_fault (location : list Z) (x : context) (g : statics) : res (outcome statics) :=
  panic_handler (location ++ bytes_of "EXCEPTION: DOUBLE FAULT" ++ [10] ++ stack_frame x) g.

Definition page_fault (x : context) (g : statics) : res (outcome statics) :=
  g ← println (bytes_of "EXCEPTION: PAGE FAULT") g;
  g ← println (bytes_of "Accessed Address: " ++ cr2 x) g;
  g ← println (bytes_of "Error Code: " ++ error_code x) g;
  g ← println (stack_frame x) g;
  Ok (Hangs g).

(** The functions behind the entries of the table. *)
Definition run_handler (h : Handler) (location : list Z) (x : context) (g : statics) : res (outcome statics) :=
  match h with
  | breakpoint_handler => breakpoint x g
  | double_fault_handler => double_fault location x g
  | page_fault_handler => page_fault x g
  | timer_interrupt_handler_fn => g ← timer_interrupt_handler g; Ok (Resumes g)
  | keyboard_interrupt_handler_fn => g ← keyboard_interrupt_handler (port_0x60 x) g; Ok (Resumes g)
  end.

(** The exception [v] raised with the stack pointer at [rsp]. *)
Definition exception {G} `{Gdt G} (stack_fault : Z -> option Z) (c : cpu G Handler) (rsp v : Z)
    (location : list Z) (x : context) (g : statics) : res (outcome statics) :=
  match deliver stack_fault ATTEMPTS c rsp v with
  | Some (Entered h _) => run_handler h location x g
  | _ => Undef
  end.

(** The lines a page fault leaves on the screen. *)
Definition page_fault_lines (x : context) : list (list Z) :=
  [bytes_of "EXCEPTION: PAGE FAULT"; bytes_of "Accessed Address: " ++ cr2 x;
   bytes_of "Error Code: " ++ error_code x; stack_frame x].

Lemma page_fault_ok x (g : statics) :
  Screen.wf (screen g) ->
  exists sc, page_fault x g = Ok (Hangs (set_screen sc g)) /\ Screen.wf sc /\
    Screen.print_lib (lines (page_fault_lines x)) (screen g) = Ok sc.
Proof.
  intros Hwf. destruct (println_all (page_fault_lines x) g Hwf) as (sc & E & Hsc & HP).
  exists sc. split_and!; [|done|done].
  assert (Ef : page_fault x g = Hangs <$> for_each println (page_fault_lines x) g).
  { unfold page_fault, page_fault_lines. cbn [for_each].
    repeat (match goal with |- context [println ?t ?g] => destruct (println t g) end; cbn [mbind res_bind]; try done). }
  by rewrite Ef, E.
Qed.
End exception_handlers.

(** ** Facts *)

Section facts.
Context {G H : Type} `{Gdt G}.
Context (stack_fault : Z -> option Z).
Hypothesis stack_fault_vector : forall sp f, stack_fault sp = Some f -> f = STACK_SEGMENT_FAULT \/ f = PAGE_FAULT.

Lemma enter_fault (c : cpu G H) rsp v f :
  enter stack_fault c rsp v = inl f -> f ∈ [SEGMENT_NOT_PRESENT; STACK_SEGMENT_FAULT; GENERAL_PROTECTION; PAGE_FAULT].
Proof.
  unfold enter. intros E. repeat case_match; simplify_eq; set_solver.
Qed.

(** A fault on the way to a handler makes the attempt that follows more severe. *)
Lemma escalate_rank (c : cpu G H) rsp v f w :
  enter stack_fault c rsp v = inl f -> escalate v f = Some w -> (rank w < rank v)%nat.
Proof.
  intros E. apply enter_fault in E. unfold escalate, rank.
  assert (class_of f = Contributory \/ class_of f = PageFaults /\ f = PAGE_FAULT) as [Ef|[Ef ->]].
  { repeat (apply elem_of_cons in E as [->|E]; [by (left + (right; split))|]). by apply not_elem_of_nil in E. }
  all: rewrite Ef; destruct (class_of v) eqn:Ev; intros [= <-]; rewrite ?Ef; change (class_of DOUBLE_FAULT) with DoubleFault; cbn; lia.
Qed.

(** The processor always comes to a decision. *)
Lemma deliver_total (c : cpu G H) rsp : forall n v, (rank v < n)%nat -> is_Some (deliver stack_fault n c rsp v).
Proof.
  induction n as [|n IH]; intros v Hv; [lia|]. simpl.
  destruct (enter stack_fault c rsp v) as [f|[h sp]] eqn:E; [|done].
  destruct (escalate v f) as [w|] eqn:Ew; [|done]. apply IH. pose proof (escalate_rank _ _ _ _ _ E Ew). lia.
Qed.

(** A table that has no gates for the contributory faults of a delivery, and a gate
    for double faults that works: whatever cannot be delivered ends there. *)
Lemma falls_to_double_fault (c : cpu G H) rsp df ist v f :
  enter stack_fault c rsp DOUBLE_FAULT = inr (df, ist) ->
  (forall x, x ∈ [SEGMENT_NOT_PRESENT; STACK_SEGMENT_FAULT; GENERAL_PROTECTION] ->
     enter stack_fault c rsp x = inl SEGMENT_NOT_PRESENT) ->
  enter stack_fault c rsp v = inl f ->
  (f = PAGE_FAULT -> exists f', enter stack_fault c rsp PAGE_FAULT = inl f') ->
  deliver stack_fault ATTEMPTS c rsp v = Some (Entered df ist).
Proof.
  intros H8 H11 Hv H14. pose proof (enter_fault _ _ _ _ Hv) as Hf.
  assert (Hdf : forall n, deliver stack_fault (S n) c rsp DOUBLE_FAULT = Some (Entered df ist))
    by (intros n; cbn [deliver]; by rewrite H8).
  assert (Hcontrib : forall n x, x ∈ [SEGMENT_NOT_PRESENT; STACK_SEGMENT_FAULT; GENERAL_PROTECTION] ->
            deliver stack_fault (S (S n)) c rsp x = Some (Entered df ist)).
  { intros n x Hx. cbn [deliver]. rewrite (H11 x Hx).
    repeat (apply elem_of_cons in Hx as [->|Hx]; [exact (Hdf n)|]). by apply not_elem_of_nil in Hx. }
  assert (Hclass : class_of v <> DoubleFault).
  { intros E. unfold class_of in E. repeat case_bool_decide; try done.
    destruct (Z.eqb_spec v DOUBLE_FAULT) as [->|]; [congruence|done]. }
  unfold ATTEMPTS. cbn [deliver]. rewrite Hv.
  destruct (decide (f = PAGE_FAULT)) as [->|Hne].
  - destruct (H14 eq_refl) as [f' H14']. pose proof (enter_fault _ _ _ _ H14') as Hf'.
    assert (Hpf : forall n, deliver stack_fault (S (S n)) c rsp PAGE_FAULT = Some (Entered df ist)).
    { intros n. cbn [deliver]. rewrite H14'.
      repeat (apply elem_of_cons in Hf' as [->|Hf']; [exact (Hdf n)|]). by apply not_elem_of_nil in Hf'. }
    unfold escalate. change (class_of PAGE_FAULT) with PageFaults.
    destruct (class_of v); [apply (Hpf 1%nat)|apply (Hpf 1%nat)|apply (Hdf 2%nat)|done].
  - assert (Hf3 : f ∈ [SEGMENT_NOT_PRESENT; STACK_SEGMENT_FAULT; GENERAL_PROTECTION]) by set_solver.
    assert (Ef : class_of f = Contributory).
    { clear - Hf3. repeat (apply elem_of_cons in Hf3 as [->|Hf3]; [done|]). by apply not_elem_of_nil in Hf3. }
    unfold escalate. rewrite Ef.
    destruct (class_of v); [by apply (Hcontrib 1%nat)|apply (Hdf 2%nat)|apply (Hdf 2%nat)|done].
Qed.
End facts.

(** ** After [init] *)

(** The tables that [init] leaves behind, whichever gates are loaded. *)
Record tables_loaded {G H} `{Gdt G} (stack : Z) (c : cpu G H) : Prop := {
  tl_segment : gdtr c ≫= gdt_lookup (cs c) = Some KernelCodeSegment;
  tl_tss : tr c = Some (<[DOUBLE_FAULT_IST_INDEX := stack + STACK_SIZE]> (replicate 7 0));
}.

Section after_init.
Context {G P : Type} `{GD : Gdt G} `{GL : !GdtLaws G} `{PI : ChainedPicsInit P}.

Lemma gdt_init_ok {HT} stack (c : cpu G HT) :
  tr c = None ->
  exists c', gdt_init stack c = Ok c' /\ tables_loaded stack c' /\ interrupt_flag c' = interrupt_flag c.
Proof.
  intros Htr. unfold gdt_init, GDT. change (TSS stack) with
    (Ok (<[DOUBLE_FAULT_IST_INDEX := stack + STACK_SIZE]> (replicate 7 0))). cbn [mbind res_bind].
  destruct (gdt_add_entry_spec KernelCodeSegment gdt_new) as (sel & g1 & E1 & L1 & F1 & _);
    [rewrite gdt_free_new; simpl; lia|].
  set (tss := <[DOUBLE_FAULT_IST_INDEX := stack + STACK_SIZE]> (replicate 7 0)).
  destruct (gdt_add_entry_spec (TssSegment tss) g1) as (sel2 & g2 & E2 & L2 & F2 & K2);
    [rewrite F1, gdt_free_new; simpl; lia|].
  unfold add_entry. rewrite E1. cbn [mbind res_bind]. rewrite E2. cbn [mbind res_bind].
  unfold set_cs. cbn [gdtr load_gdt mbind option_bind code_selector]. rewrite (K2 _ _ L1). cbn [mbind res_bind].
  unfold load_tss. cbn [gdtr tr load_gdt mbind option_bind tss_selector]. rewrite L2, Htr.
  eexists. split; [reflexivity|]. split; [|done]. constructor; [|done]. exact (K2 _ _ L1).
Qed.

Lemma init_loads stack (c : cpu G Handler) (p : P) :
  tr c = None ->
  exists c', init stack c p = Ok (c', initialize_PICS p) /\ tables_loaded stack c' /\
    idtr c' = IDT_gates (cs c') /\ interrupt_flag c' = true.
Proof.
  intros Htr. destruct (gdt_init_ok stack c Htr) as (c1 & E & [Hs Ht] & _). unfold init. rewrite E.
  cbn [mbind res_bind]. eexists. split; [reflexivity|]. done.
Qed.

Lemma enter_loaded {HT} (sf : Z -> option Z) stack (c : cpu G HT) rsp v :
  tables_loaded stack c ->
  (forall x e, idtr c !! x = Some e -> gate_segment e = cs c /\ default DOUBLE_FAULT_IST_INDEX (gate_stack_index e) = DOUBLE_FAULT_IST_INDEX) ->
  enter sf c rsp v =
  match idtr c !! v with
  | None => inl SEGMENT_NOT_PRESENT
  | Some e =>
      let sp := match gate_stack_index e with None => rsp | Some _ => stack + STACK_SIZE end in
      match sf sp with Some f => inl f | None => inr (gate_handler e, sp) end
  end.
Proof.
  intros [Hs Ht] He. unfold enter. destruct (idtr c !! v) as [e|] eqn:E; [|done].
  destruct (He _ _ E) as [-> Hi]. rewrite Hs. destruct (gate_stack_index e) as [i|]; [|done].
  simpl in Hi. subst i. by rewrite Ht.
Qed.
End after_init.

(** ** [tests/stack_overflow.rs] *)

Inductive test_handler := test_double_fault_handler.

Definition TEST_IDT (segment : Z) : gmap Z (gate test_handler) :=
  <[DOUBLE_FAULT := mkGate test_double_fault_handler (Some DOUBLE_FAULT_IST_INDEX) segment]> ∅.

(** Loading a table of other handlers. *)
Definition init_test_idt {G} (c : cpu G Handler) : cpu G test_handler :=
  mkCpu (gdtr c) (cs c) (tr c) (TEST_IDT (cs c)) (interrupt_flag c).

Section stack_overflow_test.
Context {G U S P : Type} `{GD : Gdt G} `{SP : SerialPort U} `{PI : ChainedPicsInit P}.
Variable stack_fault : Z -> option Z.

(** Each call pushes a frame of [frame] bytes, until that faults: where the stack
    pointer is then, and which exception it is. *)
Fixpoint stack_overflow (fuel : nat) (frame rsp : Z) : option (Z * Z) :=
  match fuel with
  | O => None
  | Datatypes.S fuel =>
      match stack_fault rsp with
      | Some f => Some (rsp, f)
      | None => stack_overflow fuel frame (rsp - frame)
      end
  end.

(** What the handler does, up to the endless loop at its end. *)
Definition run_test_handler (x : test_handler) (h : Harness.t U S) : res (Harness.t U S) :=
  match x with
  | test_double_fault_handler =>
      h ← serial_println [bytes_of "[ok]"] h;
      Ok (exit_qemu Success h)
  end.

(** [_start] *)
Definition stack_overflow_start (fuel : nat) (stack frame rsp : Z) (c : cpu G Handler) (p : P)
    (h : Harness.t U S) : res (Harness.t U S) :=
  h ← serial_print [bytes_of "stack_overflow::stack_overflow..." ++ [9]] h;
  '(c, p) ← init stack c p;
  let c := init_test_idt c in
  match stack_overflow fuel frame rsp with
  | None => Diverge
  | Some (rsp, f) =>
      match deliver stack_fault ATTEMPTS c rsp f with
      | Some (Entered x _) => run_test_handler x h
      | _ => Undef
      end
  end.
End stack_overflow_test.

(** ** Dependencies that satisfy the laws *)

Module ExceptionsReference.
Export HarnessReference InterruptsReference KeyboardReference.

(** The entries of the table; the second entry of a system segment is never named. *)
#[export] Instance list_Gdt : Gdt (list (option Descriptor)) := {
  gdt_new := [None];
  gdt_add_entry d g :=
    if decide (length g + slots d <= 8)%nat
    then Some (8 * Z.of_nat (length g), g ++ Some d :: replicate (slots d - 1) None)
    else None;
  gdt_lookup s g := mjoin (g !! Z.to_nat (s / 8));
  gdt_free g := (8 - length g)%nat;
}.
#[export] Instance list_GdtLaws : GdtLaws (list (option Descriptor)).
Proof.
  split; simpl; [done|]. intros d g Hd. rewrite decide_True by (destruct d; simpl in *; lia).
  eexists _, _. split; [reflexivity|].
  rewrite Z.mul_comm, Z.div_mul, Nat2Z.id by lia. split_and!.
  - by rewrite list_lookup_middle.
  - rewrite length_app. destruct d; simpl; lia.
  - intros s x Hs. rewrite lookup_app_l; [done|]. apply lookup_lt_is_Some. by destruct (g !! _).
Qed.

(** A masked line is one that stays in service. *)
#[export] Instance list_ChainedPicsInit : ChainedPicsInit (list Z) := {
  pic_initialize o1 _ p := (fun line => o1 + line) <$> p;
  pic_unmasked line p := bool_decide (line ∉ p);
}.
#[export] Instance list_ChainedPicsInitLaws : ChainedPicsInitLaws (list Z).
Proof.
  split. intros o1 o2 line p _ Hu. simpl in *. apply bool_decide_eq_true in Hu. apply bool_decide_eq_true.
  intros Hin. apply list_elem_of_fmap in Hin as (x & E & Hx). by replace line with x in Hu by lia.
Qed.

(** The bootloader's processor, and a stack of 64 KiB below 0x10000 whose end is not
    mapped; the static [STACK] is at 0x20000. *)
Definition cpu0 : cpu (list (option Descriptor)) Handler := mkCpu None 8 None ∅ false.
Definition stack_fault0 (sp : Z) : option Z := if 0 <? sp then None else Some PAGE_FAULT.
Lemma stack_fault0_vector sp f :
  stack_fault0 sp = Some f -> f = STACK_SEGMENT_FAULT \/ f = PAGE_FAULT.
Proof. unfold stack_fault0. destruct (0 <? sp); [done|]. intros [= <-]. by right. Qed.

Definition statics1 : statics (list_queue Z) (option (list_queue Z)) (option Waker) (list Z) :=
  mkStatics None None (mkQueue [] 100) (Screen.boot cleared) [].
End ExceptionsReference.
Import ExceptionsReference.

(** ** Properties *)

Section properties.
Context {G P : Type} `{GD : Gdt G} (GL : GdtLaws G) `{PIC : ChainedPics P} `{PI : ChainedPicsInit P}.
Context (PL : ChainedPicsInitLaws P).
Context (stack_fault : Z -> option Z).
Hypothesis stack_fault_vector : forall sp f, stack_fault sp = Some f -> f = STACK_SEGMENT_FAULT \/ f = PAGE_FAULT.

Lemma IDT_lookup_ist v e : IDT !! v = Some e ->
  stack_index e = if v =? DOUBLE_FAULT then Some DOUBLE_FAULT_IST_INDEX else None.
Proof.
  unfold IDT. intros E. repeat (apply lookup_insert_Some in E as [[<- <-]|[_ E]]; [reflexivity|]).
  by apply lookup_empty_Some in E.
Qed.

(** How the processor answers to vector [v] after [init], on a stack at [rsp]. *)
Definition answer (stack rsp v : Z) : delivered Handler :=
  match IDT !! v with
  | Some e =>
      if bool_decide (v = DOUBLE_FAULT) then Entered double_fault_handler (stack + STACK_SIZE)
      else match stack_fault rsp with
           | None => Entered (handler e) rsp
           | Some _ => Entered double_fault_handler (stack + STACK_SIZE)
           end
  | None => Entered double_fault_handler (stack + STACK_SIZE)
  end.

Lemma deliver_loaded stack (c : cpu G Handler) rsp v :
  tables_loaded stack c -> idtr c = IDT_gates (cs c) -> stack_fault (stack + STACK_SIZE) = None ->
  deliver stack_fault ATTEMPTS c rsp v = Some (answer stack rsp v).
Proof.
  intros Ht Hidt Hist.
  assert (Henter : forall v, enter stack_fault c rsp v =
    match IDT !! v with
    | None => inl SEGMENT_NOT_PRESENT
    | Some e =>
        let sp := if v =? DOUBLE_FAULT then stack + STACK_SIZE else rsp in
        match stack_fault sp with Some f => inl f | None => inr (handler e, sp) end
    end).
  { intros x. rewrite (enter_loaded _ stack) by (done || (rewrite Hidt; intros y e; unfold IDT_gates;
      rewrite lookup_fmap_Some; intros (e0 & <- & He); split; [done|]; simpl;
      rewrite (IDT_lookup_ist _ _ He); by destruct (_ =? _))).
    rewrite Hidt. unfold IDT_gates. rewrite lookup_fmap. destruct (IDT !! x) as [e|] eqn:E; [|done]. simpl.
    rewrite (IDT_lookup_ist _ _ E). by destruct (x =? DOUBLE_FAULT). }
  assert (H8 : enter stack_fault c rsp DOUBLE_FAULT = inr (double_fault_handler, stack + STACK_SIZE)).
  { rewrite Henter. simpl. by rewrite Hist. }
  unfold answer. pose proof (Henter v) as Hv. destruct (IDT !! v) as [e|] eqn:Ev.
  - case_bool_decide as Hdf.
    + subst v. unfold ATTEMPTS. cbn [deliver]. by rewrite H8.
    + rewrite (proj2 (Z.eqb_neq _ _) Hdf) in Hv. simpl in Hv.
      destruct (stack_fault rsp) as [f|] eqn:Ef; [|unfold ATTEMPTS; cbn [deliver]; by rewrite Hv].
      eapply falls_to_double_fault; [exact stack_fault_vector|exact H8| |exact Hv|].
      * intros x Hx. rewrite Henter.
        repeat (apply elem_of_cons in Hx as [->|Hx]; [reflexivity|]). by apply not_elem_of_nil in Hx.
      * intros _. exists f. rewrite Henter. simpl. by rewrite Ef.
  - eapply falls_to_double_fault; [exact stack_fault_vector|exact H8| |exact Hv|done].
    intros x Hx. rewrite Henter.
    repeat (apply elem_of_cons in Hx as [->|Hx]; [reflexivity|]). by apply not_elem_of_nil in Hx.
Qed.

(** C12: after [init] no exception resets the machine.  [init] always returns, with
    interrupts enabled and the lines of the timer and the keyboard delivered on their
    vectors if they are not masked.  Then every vector whatever, raised on a stack
    that may have overflowed, ends in a handler: the one of the table if there is one
    and the stack can take the frame, and otherwise the double fault handler, on the
    stack of its own. *)
Theorem init_never_triple_faults (stack : Z) (c : cpu G Handler) (p : P) :
  tr c = None -> stack_fault (stack + STACK_SIZE) = None ->
  exists c' p', init stack c p = Ok (c', p') /\ interrupt_flag c' = true /\
    (forall i, pic_unmasked (as_u8 i - PIC_1_OFFSET) p = true -> pic_accepts (as_u8 i) p' = true) /\
    forall rsp v, deliver stack_fault ATTEMPTS c' rsp v = Some (answer stack rsp v).
Proof.
  intros Htr Hist. destruct (init_loads stack c p Htr) as (c' & E & Ht & Hi & Hif).
  exists c', (initialize_PICS p). split_and!; [done|done| |intros; by apply deliver_loaded].
  intros i Hu. replace (as_u8 i) with (PIC_1_OFFSET + (as_u8 i - PIC_1_OFFSET)) by lia.
  apply pic_initialize_spec; [|done]. destruct i; unfold as_u8, PIC_1_OFFSET; lia.
Qed.

(** C18: what an exception comes to.  After [init], every exception but the two
    interrupts returns from its delivery and changes nothing but the screen.  A
    breakpoint prints its message and the kernel goes on; a page fault prints the
    address, the error code and the frame and stops; and every other exception, and
    every exception on a stack that cannot take a frame, stops the kernel with the
    double fault's panic message. *)
Theorem exceptions_are_reported {QS QT C W} `{AQS : ArrayQueue Z QS} `{AQT : ArrayQueue Z QT}
    `{OC : OnceCell QS C} `{AW : AtomicWaker W} (stack rsp v : Z) (c : cpu G Handler) (p : P)
    (location : list Z) (x : context) (g : statics QT C W P) :
  tr c = None -> stack_fault (stack + STACK_SIZE) = None -> Screen.wf (screen g) ->
  v <> as_usize Timer -> v <> as_usize Keyboard ->
  exists c' p' sc, init stack c p = Ok (c', p') /\ Screen.wf sc /\
    let text := location ++ bytes_of "EXCEPTION: DOUBLE FAULT" ++ [10] ++ stack_frame x in
    let outcome := exception stack_fault c' rsp v location x g in
    if bool_decide (stack_fault rsp = None /\ v = BREAKPOINT) then
      outcome = Ok (Resumes (set_screen sc g)) /\
      Screen.print_lib [bytes_of "EXCEPTION: BREAKPOINT" ++ [10] ++ stack_frame x; [10]] (screen g) = Ok sc
    else if bool_decide (stack_fault rsp = None /\ v = PAGE_FAULT) then
      outcome = Ok (Hangs (set_screen sc g)) /\
      Screen.print_lib (lines (page_fault_lines x)) (screen g) = Ok sc
    else
      outcome = Ok (Hangs (set_screen sc g)) /\ Screen.print_bin [text; [10]] (screen g) = Ok sc.
Proof.
  intros Htr Hist Hwf Ht Hk. destruct (init_loads stack c p Htr) as (c' & E & Hl & Hi & _).
  exists c', (initialize_PICS p). unfold exception. rewrite (deliver_loaded stack) by done.
  assert (Hdf : exists sc, double_fault location x g = Ok (Hangs (set_screen sc g)) /\ Screen.wf sc /\
    Screen.print_bin [location ++ bytes_of "EXCEPTION: DOUBLE FAULT" ++ [10] ++ stack_frame x; [10]] (screen g) = Ok sc).
  { unfold double_fault, panic_handler, main_println.
    destruct (Screen.print_bin_wf [location ++ bytes_of "EXCEPTION: DOUBLE FAULT" ++ [10] ++ stack_frame x; [10]] _ Hwf)
      as (sc & Ep & Hsc). exists sc. by rewrite Ep. }
  unfold answer. destruct (stack_fault rsp) as [f|] eqn:Ef.
  - destruct Hdf as (sc & H1 & H2 & H3). exists sc. rewrite !bool_decide_eq_false_2 by (intros [? ?]; congruence).
    split_and!; [done|done| |done]. by destruct (IDT !! v), (bool_decide (v = DOUBLE_FAULT)).
  - destruct (decide (v = BREAKPOINT)) as [->|Hb]; [|destruct (decide (v = PAGE_FAULT)) as [->|Hp]].
    + destruct (Screen.print_lib_wf [bytes_of "EXCEPTION: BREAKPOINT" ++ [10] ++ stack_frame x; [10]] _ Hwf) as (sc & Ep & Hsc).
      exists sc. rewrite bool_decide_eq_true_2 by done. split_and!; [done|done| |done].
      change (breakpoint x g = Ok (Resumes (set_screen sc g))). unfold breakpoint, println. by rewrite Ep.
    + destruct (page_fault_ok x g Hwf) as (sc & H1 & H2 & H3). exists sc.
      rewrite bool_decide_eq_false_2 by (by intros [_ ?]). rewrite bool_decide_eq_true_2 by done. done.
    + destruct Hdf as (sc & H1 & H2 & H3). exists sc. rewrite !bool_decide_eq_false_2 by (intros [? ?]; congruence).
      split_and!; [done|done| |done]. destruct (IDT !! v) as [e|] eqn:Ev; [|done].
      case_bool_decide as H8; [done|]. unfold IDT in Ev.
      repeat (apply lookup_insert_Some in Ev as [[? _]|[_ Ev]]; [congruence|]).
      by apply lookup_empty_Some in Ev.
Qed.
End properties.

Lemma init_never_triple_faults_witness :
  exists c' p', init 0x20000 cpu0 [] = Ok (c', p') /\ pic_accepts (as_u8 Keyboard) p' = true /\
    deliver stack_fault0 ATTEMPTS c' 0x10000 PAGE_FAULT = Some (Entered page_fault_handler 0x10000) /\
    deliver stack_fault0 ATTEMPTS c' 0 PAGE_FAULT = Some (Entered double_fault_handler 0x25000) /\
    deliver stack_fault0 ATTEMPTS c' 0x10000 6 = Some (Entered double_fault_handler 0x25000).
Proof.
  destruct (init_never_triple_faults _ _ stack_fault0 stack_fault0_vector 0x20000 cpu0 []) as (c' & p' & H1 & _ & H2 & H3);
    [reflexivity..|].
  exists c', p'. split_and!; [exact H1|apply (H2 Keyboard); reflexivity|apply H3..].
Defined.

Lemma exceptions_are_reported_witness :
  exists c' p' sc, init 0x20000 cpu0 [] = Ok (c', p') /\ Screen.wf sc /\
    exception stack_fault0 c' 0x10000 6 [] (mkContext [] [] [] 0) statics1
      = Ok (Hangs (set_screen sc statics1)) /\
    Screen.print_bin [bytes_of "EXCEPTION: DOUBLE FAULT" ++ [10]; [10]] (Screen.boot cleared) = Ok sc.
Proof.
  apply (exceptions_are_reported _ stack_fault0 stack_fault0_vector 0x20000 0x10000 6 cpu0 []
    [] (mkContext [] [] [] 0) statics1); [reflexivity|reflexivity| |discriminate|discriminate].
  constructor; simpl; [apply wf_cleared|unfold BUFFER_WIDTH; lia..].
Defined.

(** ** The test of the stack overflow *)

Section overflow_properties.
Context {G U S P : Type} `{GD : Gdt G} (GL : GdtLaws G) `{SP : SerialPort U} (SL : SerialPortLaws U).
Context `{PI : ChainedPicsInit P}.
Context (stack_fault : Z -> option Z).
Hypothesis stack_fault_vector : forall sp f, stack_fault sp = Some f -> f = STACK_SEGMENT_FAULT \/ f = PAGE_FAULT.

(** Under the test's table every vector ends in the double fault handler. *)
Lemma deliver_test_idt stack (c : cpu G Handler) rsp v :
  tables_loaded stack c -> stack_fault (stack + STACK_SIZE) = None ->
  deliver stack_fault ATTEMPTS (init_test_idt c) rsp v
  = Some (Entered test_double_fault_handler (stack + STACK_SIZE)).
Proof.
  intros [Hs Ht] Hist.
  assert (Henter : forall v, enter stack_fault (init_test_idt c) rsp v =
    if decide (v = DOUBLE_FAULT) then inr (test_double_fault_handler, stack + STACK_SIZE)
    else inl SEGMENT_NOT_PRESENT).
  { intros x. rewrite (enter_loaded _ stack) by (done || (intros y e; simpl; unfold TEST_IDT;
      intros [[<- <-]|[_ He%lookup_empty_Some]]%lookup_insert_Some; done)).
    cbn [idtr init_test_idt]. unfold TEST_IDT.
    case_decide as Hx; [subst x; rewrite lookup_insert_eq; cbn; by rewrite Hist|].
    by rewrite lookup_insert_ne, lookup_empty by congruence. }
  destruct (decide (v = DOUBLE_FAULT)) as [->|Hv].
  - unfold ATTEMPTS. cbn [deliver]. by rewrite Henter.
  - eapply falls_to_double_fault; [exact stack_fault_vector|by rewrite Henter| |by rewrite Henter, decide_False|done].
    intros x Hx. rewrite Henter, decide_False; [done|]. intros ->. by apply (bool_decide_pack _) in Hx.
Qed.

(** A stack that ends somewhere overflows. *)
Lemma stack_overflow_ok n : forall frame rsp,
  stack_fault (rsp - Z.of_nat n * frame) <> None ->
  exists sp f, stack_overflow stack_fault (Datatypes.S n) frame rsp = Some (sp, f) /\ stack_fault sp = Some f.
Proof.
  induction n as [|n IH]; intros frame rsp Hn; cbn [stack_overflow]; destruct (stack_fault rsp) as [f|] eqn:E; eauto.
  - by rewrite Z.mul_0_l, Z.sub_0_r in Hn.
  - apply IH. by replace (rsp - frame - Z.of_nat n * frame) with (rsp - Z.of_nat (Datatypes.S n) * frame) by lia.
Qed.

(** [tests/stack_overflow.rs] succeeds.  If the stack ends after some number [n]
    of calls, and the static [STACK] is mapped, then the overflow is delivered as a
    double fault on that stack, and the test reports success to QEMU. *)
Theorem stack_overflow_test_passes (n : nat) (stack frame rsp : Z) (c : cpu G Handler) (p : P)
    (h : Harness.t U S) :
  tr c = None -> stack_fault (stack + STACK_SIZE) = None ->
  stack_fault (rsp - Z.of_nat n * frame) <> None ->
  exists h', stack_overflow_start stack_fault (Datatypes.S n) stack frame rsp c p h = Ok h' /\
    exit_port h' = Some (as_u32 Success) /\
    sent h' = sent h ++ bytes_of "stack_overflow::stack_overflow..." ++ [9] ++ bytes_of "[ok]" ++ [10].
Proof.
  intros Htr Hist Hn. unfold stack_overflow_start, run_test_handler, serial_println.
  destruct (serial_print_ok [bytes_of "stack_overflow::stack_overflow..." ++ [9]] h) as (u1 & -> & E1);
    [by apply (bool_decide_unpack _)|]. cbn [mbind res_bind].
  destruct (init_loads stack c p Htr) as (c' & -> & Hl & _). cbn [mbind res_bind].
  destruct (stack_overflow_ok n frame rsp Hn) as (sp & f & -> & _).
  rewrite (deliver_test_idt stack) by done.
  destruct (serial_print_ok ([bytes_of "[ok]"] ++ [[10]]) (mk (Some u1) (machine h) (exit_port h))) as (u2 & -> & E2);
    [by apply (bool_decide_unpack _)|].
  eexists. split_and!; [reflexivity|done|]. change (sent (exit_qemu _ _)) with (uart_sent u2).
  change (uart_sent u2 = uart_sent u1 ++ mjoin [bytes_of "[ok]"; [10]]) in E2. rewrite E2, E1.
  cbn [mjoin list_join]. by rewrite ?app_nil_r, <- !app_assoc.
Qed.

(** The test cannot tell why it ended: its table has no gate for the timer, whose
    interrupts [init] has enabled, so a timer interrupt that comes first reports
    success just as well. *)
Lemma stack_overflow_test_any_cause (stack rsp : Z) (c : cpu G Handler) (p : P) :
  tr c = None -> stack_fault (stack + STACK_SIZE) = None ->
  exists c' p', init stack c p = Ok (c', p') /\ interrupt_flag (init_test_idt c') = true /\
    deliver stack_fault ATTEMPTS (init_test_idt c') rsp (as_usize Timer)
      = Some (Entered test_double_fault_handler (stack + STACK_SIZE)).
Proof.
  intros Htr Hist. destruct (init_loads stack c p Htr) as (c' & E & Hl & _ & Hif).
  exists c', (initialize_PICS p). split_and!; [done|done|by apply deliver_test_idt].
Qed.
End overflow_properties.

Lemma stack_overflow_test_passes_witness :
  exists h', stack_overflow_start stack_fault0 4097 0x20000 16 0x10000 cpu0 [] harness0 = Ok h' /\
    exit_port h' = Some 0x10 /\
    sent h' = bytes_of "stack_overflow::stack_overflow..." ++ [9] ++ bytes_of "[ok]" ++ [10].
Proof.
  destruct (stack_overflow_test_passes _ _ stack_fault0 stack_fault0_vector 4096 0x20000 16 0x10000 cpu0 [] harness0)
    as (h' & H1 & H2 & H3); [reflexivity|reflexivity|discriminate|].
  exists h'. split_and!; [exact H1|exact H2|exact H3].
Defined.
