(* ===== verification/WakerMemory.v ===== *)
(** * The executor's memory

    What [Executor::new], [Task::new], [run_ready_tasks] and [TaskWaker] of
    [src/min-rust-os/src/task] allocate, share and free while the kernel runs: the
    queues' buffers, the boxed futures, the nodes of the maps, and the reference counted
    [TaskWaker]s with their counters in the memory of the heap.  The machine of [System.v] runs beside it, so
    that every interleaving with interrupts is covered; [Wakers.v] says how many
    references there should be. *)

From S2P Require Import Prelude Regions Layout GlobalAlloc Bump FixedSizeBlock HeapInit Collections Queue Task Vga Keyboard Interrupts System Echo Wakers.
From stdpp Require Import base list option gmap fin_maps strings.
From Stdlib Require Import ZArith Lia.
Local Open Scope Z_scope.

(** ** [Arc] *)

Section arc.
Context {A : Type} `{!GlobalAlloc A}.

(** [Arc::new] of a value that consists of the words [xs]. *)
Definition Arc_new (l : Layout) (xs : list Z) (h : heap A) : res (Z * heap A) :=
  '(p, h) ← allocate l h;
  Ok (p, store_all 8 p (1 :: 1 :: xs) h).

(** [Arc::clone] aborts when there are more than [isize::MAX] references. *)
Definition Arc_clone (p : Z) (h : heap A) : res (heap A) :=
  strong ← load 8 p h;
  if 2 ^ 63 - 1 <? strong then Panic (ExplicitPanic "abort") else Ok (store 8 p (strong + 1) h).

(** [drop] of an [Arc] whose block has the layout [l]: the last strong reference drops the
    value, and the last weak one, which the strong ones hold together, frees the block. *)
Definition Arc_drop (l : Layout) (drop_value : heap A -> res (heap A)) (p : Z) (h : heap A) : res (heap A) :=
  strong ← load 8 p h;
  let h := store 8 p (strong - 1) h in
  if strong =? 1 then
    h ← drop_value h;
    weak ← load 8 (p + 8) h;
    let h := store 8 (p + 8) (weak - 1) h in
    if weak =? 1 then deallocate p l h else Ok h
  else Ok h.
End arc.

(** ** [BTreeMap] *)

(** The calls of the two maps that can allocate or free nodes.  How a map lays out its nodes
    is up to the [alloc] crate: a map is a client of the allocator that asks for blocks, frees
    them and writes to them ([command] of [GlobalAlloc.v]), as it likes for the calls
    it has seen. *)
Inductive map_call :=
| InsertTask (i : Z)
| InsertWaker (i : Z)
| RemoveTask (i : Z)
| RemoveWaker (i : Z).

Section nodes.
Context {A : Type} `{!GlobalAlloc A}.

(** [len] bytes at [p] are written. *)
Definition scribble (p len : Z) (h : heap A) : heap A :=
  mkHeap (ga_write (allocator h) p len) (overwrite (Region p len) (ram h)).

Definition node_command (c : command) (x : heap A * list allocation) : res (heap A * list allocation) :=
  let '(h, nodes) := x in
  match c with
  | CAlloc l => '(p, h) ← allocate l h; Ok (h, Alloc p l :: nodes)
  | CFree i =>
      match nodes !! i with
      | Some x => h ← deallocate (al_ptr x) (al_layout x) h; Ok (h, delete i nodes)
      | None => Ok (h, nodes)
      end
  | CStore i off len =>
      match nodes !! i with
      | Some x =>
          if (0 <=? off) && (0 <=? len) && (off + len <=? layout_size (al_layout x))
          then Ok (scribble (al_ptr x + off) len h, nodes) else Ok (h, nodes)
      | None => Ok (h, nodes)
      end
  end.
End nodes.

(** [ArcInner<TaskWaker>]: the two counters, [task_id], and the pointer to the queue. *)
Definition ArcTaskWaker : Layout := mkLayout 32 8.

Section memory.
Context {A : Type} `{!GlobalAlloc A}.
Context {QS QT C W K E P : Type}.
Context `{AQS : ArrayQueue Z QS} `{AQT : ArrayQueue Z QT} `{OC : OnceCell QS C}.
Context `{AW : AtomicWaker W} `{PK : PcKeyboard K E} `{PIC : ChainedPics P}.
Abbreviation sys := (sys QT C W K P).

(** What the compiler and [crossbeam_queue] decide: the layouts of [ArcInner<ArrayQueue<TaskId>>],
    of the buffers that [ArrayQueue::new(100)] allocates for identifiers and for
    scancodes, and of the two futures; what dropping an [ArrayQueue] does; and what the
    maps do with their nodes. *)
Variables ArcQueue TaskSlots ScancodeSlots : Layout.
Variables ExampleTask PrintKeypresses : Layout.
Variable drop_ArrayQueue : Z -> heap A -> res (heap A).
Variable map_commands : list map_call -> list command.

(** The heap, and where it holds what: the executor's queue and its buffer, the buffer of
    [SCANCODE_QUEUE], the boxes of the tasks, the wakers in [waker_cache], and the one
    in [WAKER]; the nodes of the two maps, and the calls they have seen. *)
Record memory := mkMemory {
  contents_of : heap A;
  queue : Z;
  slots : Z;
  scancode_slots : option Z;
  boxes : gmap Z allocation;
  cache : gmap Z Z;
  slot : option Z;
  nodes : list allocation;
  calls : list map_call;
}.

Definition set_contents (h : heap A) (m : memory) : memory :=
  mkMemory h (queue m) (slots m) (scancode_slots m) (boxes m) (cache m) (slot m) (nodes m) (calls m).
Definition set_scancode_slots (p : Z) (m : memory) : memory :=
  mkMemory (contents_of m) (queue m) (slots m) (Some p) (boxes m) (cache m) (slot m) (nodes m) (calls m).
Definition set_boxes (b : gmap Z allocation) (m : memory) : memory :=
  mkMemory (contents_of m) (queue m) (slots m) (scancode_slots m) b (cache m) (slot m) (nodes m) (calls m).
Definition set_cached (c : gmap Z Z) (m : memory) : memory :=
  mkMemory (contents_of m) (queue m) (slots m) (scancode_slots m) (boxes m) c (slot m) (nodes m) (calls m).
Definition set_slot (p : option Z) (m : memory) : memory :=
  mkMemory (contents_of m) (queue m) (slots m) (scancode_slots m) (boxes m) (cache m) p (nodes m) (calls m).

(** ** Operations *)

(** A call of one of the maps. *)
Definition map_operation (c : map_call) (m : memory) : res memory :=
  let seen := calls m ++ [c] in
  '(h, ns) ← for_each node_command (map_commands seen) (contents_of m, nodes m);
  Ok (mkMemory h (queue m) (slots m) (scancode_slots m) (boxes m) (cache m) (slot m) ns seen).

(** [Box::pin(future)]: a future without state needs no memory. *)
Definition Box_pin (l : Layout) (h : heap A) : res (allocation * heap A) :=
  if layout_size l =? 0 then Ok (Alloc (layout_align l) l, h)
  else '(p, h) ← allocate l h; Ok (Alloc p l, h).

(** [drop] of a [Pin<Box<dyn Future>>], which knows its layout. *)
Definition Box_drop (x : allocation) (h : heap A) : res (heap A) :=
  if layout_size (al_layout x) =? 0 then Ok h else deallocate (al_ptr x) (al_layout x) h.

Definition ArcTaskWaker_new (task_id task_queue : Z) (h : heap A) : res (Z * heap A) :=
  Arc_new ArcTaskWaker [task_id; task_queue] h.

(** [drop] of the [Waker] at [p]; dropping the [TaskWaker] drops its [task_queue]. *)
Definition Waker_drop (p : Z) (h : heap A) : res (heap A) :=
  Arc_drop ArcTaskWaker (fun h =>
    task_queue ← load 8 (p + 24) h;
    Arc_drop ArcQueue (drop_ArrayQueue task_queue) task_queue h) p h.

(** [waker_cache.entry(task_id).or_insert_with(...)] *)
Definition cache_waker (i : Z) (m : memory) : res memory :=
  match cache m !! i with
  | Some _ => Ok m
  | None =>
      h ← Arc_clone (queue m) (contents_of m);
      '(p, h) ← ArcTaskWaker_new i (queue m) h;
      map_operation (InsertWaker i) (set_cached (<[i := p]> (cache m)) (set_contents h m))
  end.

(** [tasks.remove(&task_id); waker_cache.remove(&task_id);] *)
Definition remove_task (i : Z) (m : memory) : res memory :=
  m ← map_operation (RemoveTask i) m;
  h ← match boxes m !! i with Some x => Box_drop x (contents_of m) | None => Ok (contents_of m) end;
  m ← map_operation (RemoveWaker i) (set_boxes (delete i (boxes m)) (set_contents h m));
  h ← match cache m !! i with Some p => Waker_drop p (contents_of m) | None => Ok (contents_of m) end;
  Ok (set_cached (delete i (cache m)) (set_contents h m)).

(** [WAKER.take()] and the waker that [WAKER.wake()] consumes: what was registered is
    dropped. *)
Definition drop_registered (m : memory) : res memory :=
  match slot m with
  | Some p => h ← Waker_drop p (contents_of m); Ok (set_slot None (set_contents h m))
  | None => Ok m
  end.

(** [WAKER.register(&cx.waker())]: the waker of the context is the one in the cache. *)
Definition register_waker (i : Z) (m : memory) : res memory :=
  match cache m !! i with
  | None => Undef
  | Some p =>
      h ← Arc_clone p (contents_of m);
      m ← drop_registered (set_contents h m);
      Ok (set_slot (Some p) m)
  end.

(** The part of [run_ready_tasks] between [get_mut] and the suspension or the end of the
    future; [ScancodeStream::new] allocates the buffer of [SCANCODE_QUEUE]. *)
Definition start_poll (i : Z) (f : kernel_future K) (m : memory) : res memory :=
  m ← cache_waker i m;
  match f with
  | example_task => remove_task i m
  | print_keypresses None =>
      '(p, h) ← allocate ScancodeSlots (contents_of m);
      Ok (set_scancode_slots p (set_contents h m))
  | print_keypresses (Some _) => Ok m
  end.

(** What an event does to the memory. *)
Definition memory_step (e : event) (s : sys) (m : memory) : res memory :=
  match e with
  | EMain =>
      match pc s with
      | RunTask i => match tasks s !! i with Some task => start_poll i (future task) m | None => Ok m end
      | InStream i _ _ Register => register_waker i m
      | InStream i _ _ (TakeWaker _) => drop_registered m
      | InStream i _ _ (Return (Ready None)) => remove_task i m
      | _ => Ok m
      end
  | ETimer => Ok m
  | EKeyboard _ =>
      if interrupts_enabled s && pic_accepts (as_u8 Keyboard) (PICS (globals s)) && has_room (globals s)
      then drop_registered m else Ok m
  end.

Definition full_step (e : event) (x : sys * memory) : res (sys * memory) :=
  s ← sys_step e x.1;
  m ← memory_step e x.1 x.2;
  Ok (s, m).

Definition run_full (es : list event) (x : sys * memory) : res (sys * memory) := for_each full_step es x.

(** [executor.spawn(Task::new(future))] *)
Definition spawn_task (i : Z) (l : Layout) (m : memory) : res memory :=
  '(x, h) ← Box_pin l (contents_of m);
  map_operation (InsertTask i) (set_boxes (<[i := x]> (boxes m)) (set_contents h m)).

(** [Executor::new]: [ArrayQueue::new(100)] and the [Arc] around it.  What the queue holds
    is part of the machine. *)
Definition new_executor (h : heap A) : res memory :=
  '(slots, h) ← allocate TaskSlots h;
  '(queue, h) ← Arc_new ArcQueue [] h;
  Ok (mkMemory h queue slots None ∅ ∅ None [] []).

(** [Executor::new] and the two tasks. *)
Definition new_memory (h : heap A) : res memory :=
  m ← new_executor h;
  m ← spawn_task 0 ExampleTask m;
  spawn_task KEYS PrintKeypresses m.
End memory.
Arguments memory A : clear implicits.

(** ** Facts on [Arc] *)

Section arc_facts.
Context {A : Type} `{!GlobalAlloc A} `{!AllocContract A} (lo hi : Z).
Abbreviation hp := (hp lo hi).

Lemma load_head p n xs (h : heap A) : holds 8 p (n :: xs) h -> load 8 p h = Ok n.
Proof. intros Hh. apply load_holds. intros i x Hi. apply Hh. by destruct i. Qed.

Lemma load_word i p x xs (h : heap A) :
  holds 8 p xs h -> xs !! i = Some x -> load 8 (p + 8 * Z.of_nat i) h = Ok x.
Proof. intros Hh Hi. unfold load. by rewrite (Hh i x Hi). Qed.

Lemma Arc_clone_ok p l n xs (h : heap A) live :
  hp h (Alloc p l :: live) -> 8 <= layout_size l -> holds 8 p (n :: xs) h -> n < 2 ^ 63 ->
  exists h', Arc_clone p h = Ok h' /\ hp h' (Alloc p l :: live) /\ holds 8 p (n + 1 :: xs) h' /\ keeps live h h'.
Proof.
  intros Hp Hl Hh Hn. unfold Arc_clone. rewrite (load_head _ _ _ _ Hh). cbn [mbind res_bind].
  rewrite (proj2 (Z.ltb_ge _ _)) by lia. eexists. split; [reflexivity|]. by eapply head_store_ok.
Qed.

(** A reference that is not the last one: nothing happens but to the counter. *)
Lemma Arc_drop_ok p l drop n xs (h : heap A) live :
  hp h (Alloc p l :: live) -> 8 <= layout_size l -> holds 8 p (n :: xs) h -> n <> 1 ->
  Arc_drop l drop p h = Ok (store 8 p (n - 1) h) /\
  hp (store 8 p (n - 1) h) (Alloc p l :: live) /\ holds 8 p (n - 1 :: xs) (store 8 p (n - 1) h) /\
  keeps live h (store 8 p (n - 1) h).
Proof.
  intros Hp Hl Hh Hn. unfold Arc_drop. rewrite (load_head _ _ _ _ Hh). cbn [mbind res_bind].
  rewrite (proj2 (Z.eqb_neq _ _)) by lia. split; [reflexivity|]. by eapply head_store_ok.
Qed.

(** The last one drops the value, which may change what [kept] does not cover, and frees
    the block. *)
Lemma Arc_drop_last p l drop xs (h : heap A) live kept (Q : heap A -> Prop) :
  hp h (Alloc p l :: live) -> 16 <= layout_size l -> holds 8 p (1 :: 1 :: xs) h ->
  (forall b, b ∈ kept -> b ∈ live) ->
  (forall h1, hp h1 (Alloc p l :: live) -> holds 8 p (0 :: 1 :: xs) h1 -> keeps live h h1 ->
     exists h2, drop h1 = Ok h2 /\ hp h2 (Alloc p l :: live) /\ keeps (Alloc p l :: kept) h1 h2 /\ Q h2) ->
  exists h2 h', Arc_drop l drop p h = Ok h' /\ hp h' live /\ keeps kept h h' /\ Q h2 /\ keeps live h2 h'.
Proof.
  intros Hp Hl Hh Hsub Hdrop. unfold Arc_drop. rewrite (load_head _ _ _ _ Hh). cbn [mbind res_bind].
  change (1 - 1) with 0. change (1 =? 1) with true. cbv iota.
  destruct (head_store_ok lo hi p l 1 0 (1 :: xs) h live) as (Hp1 & Hh1 & Hk1); [done|lia|done|].
  destruct (Hdrop _ Hp1 Hh1 Hk1) as (h2 & E2 & Hp2 & Hk2 & HQ). rewrite E2. cbn [mbind res_bind].
  assert (ram h2 !! (p + 8) = Some (8, 1)) as Hw.
  { eapply Hk2; [by left|lia| |exact (Hh1 1%nat 1 eq_refl)]. unfold subregion, al_region, r_end. simpl. lia. }
  assert (load 8 (p + 8) h2 = Ok 1) as -> by (unfold load; by rewrite Hw).
  cbn [mbind res_bind]. change (1 =? 1) with true. cbv iota.
  assert (subregion (Region (p + 8) 8) (al_region (Alloc p l))) as Hr
    by (unfold subregion, al_region, r_end; simpl; lia).
  destruct (deallocate_ok lo hi (Alloc p l) (store 8 (p + 8) (1 - 1) h2) live) as (h3 & Hd & Hp3 & Hk3).
  { unfold store. eapply write_hp; [exact Hp2|by left|exact Hr]. }
  simpl in Hd. exists h2, h3.
  assert (keeps live h2 h3) as Hk23.
  { eapply keeps_trans; [|exact Hk3]. eapply (keeps_outside_keeps lo hi _ (Alloc p l)); [exact Hp2|exact Hr|by apply store_keeps]. }
  split_and!; [exact Hd|done| |done|done].
  eapply keeps_trans; [eapply keeps_mono; [exact Hsub|exact Hk1]|].
  eapply keeps_trans; [eapply (keeps_mono kept); [by intros b Hb; right|exact Hk2]|].
  eapply keeps_mono; [exact Hsub|exact Hk23].
Qed.
End arc_facts.

(** What any layouts have in common: a queue has at least its two counters, a buffer is not
    empty. *)
Record layouts_ok (ArcQueue TaskSlots ScancodeSlots ExampleTask PrintKeypresses : Layout) : Prop := {
  lk_queue : layout_ok ArcQueue;
  lk_counters : 16 <= layout_size ArcQueue;
  lk_slots : layout_ok TaskSlots;
  lk_scancodes : layout_ok ScancodeSlots;
  lk_example : layout_size ExampleTask = 0 \/ layout_ok ExampleTask;
  lk_keypresses : layout_size PrintKeypresses = 0 \/ layout_ok PrintKeypresses;
}.

Section memory_facts.
Context {A : Type} `{!GlobalAlloc A} `{!AllocContract A} `{!AllocTotal A} (lo hi : Z).
Context (ArcQueue TaskSlots ScancodeSlots ExampleTask PrintKeypresses : Layout).
Context (drop_ArrayQueue : Z -> heap A -> res (heap A)) (map_commands : list map_call -> list command).
Hypothesis Hlay : layouts_ok ArcQueue TaskSlots ScancodeSlots ExampleTask PrintKeypresses.
Hypothesis Hmap : forall seen, Forall command_ok (map_commands seen).
Abbreviation hp := (hp lo hi).
Abbreviation memory := (memory A).
Abbreviation waker_block p := (Alloc p ArcTaskWaker).

(** ** Blocks *)

(** The blocks of the executor and its tasks. *)
Definition box_blocks (b : gmap Z allocation) : list allocation :=
  filter (fun x => 0 < layout_size (al_layout x)) (map_to_list b).*2.
Definition cache_blocks (c : gmap Z Z) : list allocation := (fun e => waker_block e.2) <$> map_to_list c.
Definition blocks (m : memory) : list allocation :=
  Alloc (queue m) ArcQueue :: Alloc (slots m) TaskSlots ::
  match scancode_slots m with Some p => [Alloc p ScancodeSlots] | None => [] end ++
  box_blocks (boxes m) ++ cache_blocks (cache m) ++ nodes m.

Lemma cache_blocks_insert c i p :
  c !! i = None -> cache_blocks (<[i := p]> c) ≡ₚ waker_block p :: cache_blocks c.
Proof. intros Hi. unfold cache_blocks. by rewrite map_to_list_insert. Qed.

Lemma cache_blocks_delete c i p :
  c !! i = Some p -> cache_blocks c ≡ₚ waker_block p :: cache_blocks (delete i c).
Proof. intros Hi. unfold cache_blocks. by rewrite <- (map_to_list_delete c i p Hi). Qed.

Lemma box_blocks_insert b i x :
  b !! i = None ->
  box_blocks (<[i := x]> b) ≡ₚ (if decide (0 < layout_size (al_layout x)) then [x] else []) ++ box_blocks b.
Proof.
  intros Hi. unfold box_blocks. rewrite (map_to_list_insert b i x Hi). cbn [fmap list_fmap snd].
  rewrite filter_cons. by destruct (decide _).
Qed.

Lemma box_blocks_delete b i x :
  b !! i = Some x ->
  box_blocks b ≡ₚ (if decide (0 < layout_size (al_layout x)) then [x] else []) ++ box_blocks (delete i b).
Proof.
  intros Hi. unfold box_blocks. rewrite <- (map_to_list_delete b i x Hi). cbn [fmap list_fmap snd].
  rewrite filter_cons. by destruct (decide _).
Qed.

(** One waker in front of all the rest. *)
Definition others (i : Z) (m : memory) : list allocation := blocks (set_cached (delete i (cache m)) m).

Lemma blocks_waker m i p : cache m !! i = Some p -> blocks m ≡ₚ waker_block p :: others i m.
Proof.
  intros Hi. unfold others, blocks. simpl. rewrite (cache_blocks_delete _ _ _ Hi). solve_Permutation.
Qed.

Lemma others_queue m i : others i m = Alloc (queue m) ArcQueue :: tail (others i m).
Proof. done. Qed.

Lemma cache_blocks_elem c j q : c !! j = Some q -> waker_block q ∈ cache_blocks c.
Proof. intros Hj. apply list_elem_of_fmap. exists (j, q). split; [done|]. by apply elem_of_map_to_list. Qed.

Lemma blocks_cached m b : b ∈ cache_blocks (cache m) -> b ∈ tail (blocks m).
Proof.
  intros Hb. unfold blocks. cbn [tail]. right. apply elem_of_app. right. apply elem_of_app. right. apply elem_of_app. by left.
Qed.

Lemma others_waker m i j q : j <> i -> cache m !! j = Some q -> waker_block q ∈ tail (others i m).
Proof. intros Hne Hj. apply blocks_cached, (cache_blocks_elem _ j). simpl. by rewrite lookup_delete_ne. Qed.

(** ** Ownership *)

(** The heap holds the blocks of the executor beside those of the rest of the kernel,
    [live]; [refs i] is the counter of the waker of the task [i], and the queue is
    referenced by the executor and by each waker. *)
Record owns (refs : Z -> Z) (m : memory) (live : list allocation) : Prop := {
  ow_heap : hp (contents_of m) (blocks m ++ live);
  ow_wakers : forall i p, cache m !! i = Some p -> holds 8 p [refs i; 1; i; queue m] (contents_of m);
  ow_queue : holds 8 (queue m) [1 + Z.of_nat (size (cache m)); 1] (contents_of m);
}.

Lemma owns_pull refs m live i p :
  owns refs m live -> cache m !! i = Some p -> hp (contents_of m) (waker_block p :: others i m ++ live).
Proof. intros [Hp _ _] Hi. eapply hp_perm; [|exact Hp]. by rewrite (blocks_waker m i p Hi). Qed.

Lemma queue_block_ok q xs (h h' : heap A) bs :
  (length xs <= 2)%nat -> Alloc q ArcQueue ∈ bs -> keeps bs h h' -> holds 8 q xs h -> holds 8 q xs h'.
Proof.
  intros Hl Hb Hk. apply (holds_keeps 8 q xs (Alloc q ArcQueue) bs); [lia|done| |done].
  pose proof (lk_counters _ _ _ _ _ Hlay). unfold subregion, al_region, r_end. simpl. lia.
Qed.

Lemma waker_block_ok p xs (h h' : heap A) bs :
  (length xs <= 4)%nat -> waker_block p ∈ bs -> keeps bs h h' -> holds 8 p xs h -> holds 8 p xs h'.
Proof.
  intros Hl Hb Hk. apply (holds_keeps 8 p xs (waker_block p) bs); [lia|done| |done].
  unfold subregion, al_region, r_end. simpl. lia.
Qed.

(** One counter changes. *)
Lemma owns_count refs refs' m live i p h' :
  owns refs m live -> cache m !! i = Some p ->
  hp h' (waker_block p :: others i m ++ live) -> holds 8 p [refs' i; 1; i; queue m] h' ->
  keeps (others i m ++ live) (contents_of m) h' -> (forall j, j <> i -> refs' j = refs j) ->
  owns refs' (set_contents h' m) live /\ keeps live (contents_of m) h'.
Proof.
  intros Ho Hi Hp' Hh' Hk Hrefs. pose proof Ho as [Hp Hw Hq].
  split; [constructor; cbn [set_contents contents_of cache queue]|].
  - eapply hp_perm; [|exact Hp']. change (blocks (set_contents h' m)) with (blocks m). by rewrite (blocks_waker m i p Hi).
  - intros j q Hj. destruct (decide (j = i)) as [->|Hne]; [by simplify_eq|]. rewrite Hrefs by done.
    eapply (waker_block_ok q _ (contents_of m) _ (others i m ++ live)); [done| |done|by apply Hw].
    apply elem_of_app. left. right. by eapply others_waker.
  - eapply (queue_block_ok _ _ (contents_of m) _ (others i m ++ live)); [done| |done|done].
    apply elem_of_app. left. by left.
  - eapply keeps_mono; [|exact Hk]. intros b Hb. apply elem_of_app. by right.
Qed.

(** ** Counting references *)

Definition recount (refs : Z -> Z) (i n : Z) : Z -> Z := fun j => if decide (j = i) then n else refs j.

Lemma recount_eq refs i n : recount refs i n i = n.
Proof. unfold recount. by rewrite decide_True. Qed.

Lemma recount_ne refs i n j : j <> i -> recount refs i n j = refs j.
Proof. intros H. unfold recount. by rewrite decide_False. Qed.

Lemma owns_cached refs refs' m live :
  (forall i, is_Some (cache m !! i) -> refs' i = refs i) -> owns refs m live -> owns refs' m live.
Proof. intros H [Hp Hw Hq]. constructor; [done| |done]. intros i p Hi. rewrite H by by exists p. by apply Hw. Qed.

Lemma owns_ext refs refs' m live : (forall i, refs' i = refs i) -> owns refs m live -> owns refs' m live.
Proof. intros H. by apply owns_cached. Qed.

Lemma owns_slot refs m live o : owns refs m live -> owns refs (set_slot o m) live.
Proof. by intros []. Qed.

Lemma clone_waker_ok refs m live i p :
  owns refs m live -> cache m !! i = Some p -> refs i < 2 ^ 63 ->
  exists h', Arc_clone p (contents_of m) = Ok h' /\
    owns (recount refs i (refs i + 1)) (set_contents h' m) live /\ keeps live (contents_of m) h'.
Proof.
  intros Ho Hi Hn. pose proof (ow_wakers _ _ _ Ho i p Hi) as Hh.
  destruct (Arc_clone_ok lo hi p ArcTaskWaker (refs i) [1; i; queue m] _ _ (owns_pull _ _ _ _ _ Ho Hi)) as (h' & E & Hp & Hh' & Hk);
    [simpl; lia|exact Hh|done|].
  exists h'. split; [done|]. eapply owns_count; [done|done|done|by rewrite recount_eq|done|by apply recount_ne].
Qed.

(** A waker that is not the last reference. *)
Lemma drop_waker_ok refs m live i p :
  owns refs m live -> cache m !! i = Some p -> refs i <> 1 ->
  let h' := store 8 p (refs i - 1) (contents_of m) in
  Waker_drop ArcQueue drop_ArrayQueue p (contents_of m) = Ok h' /\
  owns (recount refs i (refs i - 1)) (set_contents h' m) live /\ keeps live (contents_of m) h'.
Proof.
  intros Ho Hi Hn h'. pose proof (ow_wakers _ _ _ Ho i p Hi) as Hh. unfold Waker_drop.
  match goal with |- context [Arc_drop _ ?drop _ _] =>
    destruct (Arc_drop_ok lo hi p ArcTaskWaker drop (refs i) [1; i; queue m] _ _ (owns_pull _ _ _ _ _ Ho Hi)) as (E & Hp & Hh' & Hk) end;
    [simpl; lia|exact Hh|done|].
  split; [exact E|]. eapply owns_count; [done|done|done|by rewrite recount_eq|done|by apply recount_ne].
Qed.

(** The last reference: its [TaskWaker] is freed, and the queue loses a reference. *)
Lemma drop_last_ok refs m live i p :
  owns refs m live -> cache m !! i = Some p -> refs i = 1 ->
  exists h', Waker_drop ArcQueue drop_ArrayQueue p (contents_of m) = Ok h' /\
    owns refs (set_cached (delete i (cache m)) (set_contents h' m)) live /\ keeps live (contents_of m) h'.
Proof.
  intros Ho Hi Hn. pose proof Ho as [Hp Hw Hq]. pose proof (Hw i p Hi) as Hh. rewrite Hn in Hh.
  pose proof (map_size_delete_Some i (cache m) (mk_is_Some _ _ Hi)) as Hs.
  pose proof (map_size_ne_0_lookup_2 (cache m) i (mk_is_Some _ _ Hi)) as H0.
  pose proof (lk_counters _ _ _ _ _ Hlay) as Hc. set (n := Z.of_nat (size (cache m))) in *.
  pose proof (owns_pull _ _ _ _ _ Ho Hi) as Hpull. rewrite others_queue in Hpull.
  set (rest := tail (others i m) ++ live). unfold Waker_drop.
  match goal with |- context [Arc_drop ArcTaskWaker ?drop _ _] =>
    destruct (Arc_drop_last lo hi p ArcTaskWaker drop [i; queue m] (contents_of m)
      (Alloc (queue m) ArcQueue :: rest) rest (holds 8 (queue m) [n; 1]))
      as (h2 & h' & E' & Hp' & Hk' & Hq2 & Hk2) end;
    [exact Hpull|simpl; lia|exact Hh|by intros b Hb; right| |].
  - intros h1 Hp1 Hh1 Hk1.
    assert (load 8 (p + 24) h1 = Ok (queue m)) as -> by exact (load_word 3 p _ _ h1 Hh1 eq_refl).
    cbn [mbind res_bind].
    destruct (Arc_drop_ok lo hi (queue m) ArcQueue (drop_ArrayQueue (queue m)) (1 + n) [1] h1 (waker_block p :: rest))
      as (E & Hp2 & Hh2 & Hk2);
      [by eapply hp_perm; [apply perm_swap|]|lia|by eapply queue_block_ok; [|by left|exact Hk1|]|lia|].
    eexists. replace (1 + n - 1) with n in * by lia.
    split_and!; [exact E|by eapply hp_perm; [apply perm_swap|]|exact Hk2|exact Hh2].
  - exists h'. split; [exact E'|]. split; [|eapply keeps_mono; [|exact Hk']; intros b Hb; apply elem_of_app; by right].
    constructor; cbn [set_contents set_cached contents_of cache queue].
    + exact Hp'.
    + intros j q [Hne Hj]%lookup_delete_Some.
      eapply (waker_block_ok q _ (contents_of m) _ rest); [done| |exact Hk'|by apply Hw].
      apply elem_of_app. left. by eapply others_waker.
    + eapply queue_block_ok; [done|by left|exact Hk2|]. rewrite Hs.
      by replace (1 + Z.of_nat (Init.Nat.pred (size (cache m)))) with n by lia.
Qed.

(** ** Blocks that come and go *)

(** Nothing that is counted changes. *)
Lemma owns_frame refs m m' live :
  owns refs m live -> queue m' = queue m -> cache m' = cache m -> hp (contents_of m') (blocks m' ++ live) ->
  keeps (Alloc (queue m) ArcQueue :: cache_blocks (cache m)) (contents_of m) (contents_of m') ->
  owns refs m' live.
Proof.
  intros [Hp Hw Hq] Eq Ec Hp' Hk. constructor; rewrite ?Eq, ?Ec; [done| |].
  - intros i p Hi. eapply waker_block_ok; [done| |exact Hk|by apply Hw]. right. by eapply cache_blocks_elem.
  - eapply queue_block_ok; [done|by left|exact Hk|done].
Qed.

Lemma counted_blocks m live b :
  b ∈ Alloc (queue m) ArcQueue :: cache_blocks (cache m) -> b ∈ blocks m ++ live.
Proof.
  intros Hb. apply elem_of_app. left. apply elem_of_cons in Hb as [->|Hb]; [by left|]. right. by apply blocks_cached.
Qed.

(** What the maps do stays inside their nodes. *)
Lemma node_command_ok c (h : heap A) ns others :
  hp h (ns ++ others) -> command_ok c ->
  ok_or_oom (fun '(h', ns') => hp h' (ns' ++ others) /\ keeps others h h') (node_command c (h, ns)).
Proof.
  intros Hp Hc. assert (Hin : forall b ns' : list allocation, forall x, x ∈ b -> x ∈ ns' ++ b)
    by (intros b ns' x Hx; apply elem_of_app; by right).
  destruct c as [l|i|i off len]; cbn [node_command].
  - eapply ok_or_oom_bind; [by apply allocate_ok|]. intros [p h1] [Hp1 Hr]. split; [exact Hp1|by apply keeps_ram].
  - destruct (ns !! i) as [x|] eqn:Ex; [|by split; [|apply keeps_ram]].
    destruct (deallocate_ok lo hi x h (delete i ns ++ others)) as (h' & -> & Hp' & Hk').
    { eapply hp_perm; [|exact Hp]. exact (Permutation_app_tail others (delete_Permutation _ _ _ Ex)). }
    split; [exact Hp'|]. eapply keeps_mono; [apply Hin|exact Hk'].
  - destruct (ns !! i) as [x|] eqn:Ex; [|by split; [|apply keeps_ram]].
    destruct (_ && _) eqn:Hb; [|by split; [|apply keeps_ram]].
    rewrite !andb_true_iff, !Z.leb_le in Hb. set (r := Region (al_ptr x + off) len).
    assert (subregion r (al_region x)) as Hr by (unfold r, subregion, al_region, r_end; simpl; lia).
    split; [unfold scribble; eapply write_hp; [exact Hp| |exact Hr]; apply elem_of_app; left; by eapply list_elem_of_lookup_2|].
    eapply (keeps_mono others (delete i ns ++ others)); [apply Hin|].
    eapply (keeps_outside_keeps lo hi r x); [|exact Hr|intros k sz v _ Hd Hk; by apply lookup_overwrite_ne].
    eapply hp_perm; [|exact Hp]. exact (Permutation_app_tail others (delete_Permutation _ _ _ Ex)).
Qed.

Lemma node_commands_ok cs others : forall (h : heap A) ns,
  hp h (ns ++ others) -> Forall command_ok cs ->
  ok_or_oom (fun '(h', ns') => hp h' (ns' ++ others) /\ keeps others h h') (for_each node_command cs (h, ns)).
Proof.
  induction cs as [|c cs IH]; intros h ns Hp Hc; cbn [for_each]; [by split; [|apply keeps_ram]|].
  apply Forall_cons in Hc as [Hc Hcs]. eapply ok_or_oom_bind; [by apply node_command_ok|].
  intros [h1 ns1] [Hp1 Hk1]. eapply ok_or_oom_impl; [by apply IH|]. intros [h2 ns2] [Hp2 Hk2].
  split; [done|by eapply keeps_trans].
Qed.

(** The fields that a call of a map leaves alone. *)
Definition same_owners (m m' : memory) : Prop :=
  queue m' = queue m /\ slots m' = slots m /\ scancode_slots m' = scancode_slots m /\ boxes m' = boxes m /\
  cache m' = cache m /\ slot m' = slot m.

Lemma map_operation_ok refs m live c :
  owns refs m live ->
  ok_or_oom (fun m' => owns refs m' live /\ same_owners m m' /\ keeps live (contents_of m) (contents_of m'))
    (map_operation map_commands c m).
Proof.
  intros Ho. pose proof Ho as [Hp _ _]. unfold map_operation.
  set (rest := Alloc (queue m) ArcQueue :: Alloc (slots m) TaskSlots ::
    match scancode_slots m with Some p => [Alloc p ScancodeSlots] | None => [] end ++
    box_blocks (boxes m) ++ cache_blocks (cache m)).
  assert (Hperm : forall ns, ns ++ rest ++ live ≡ₚ (rest ++ ns) ++ live) by (intros ns; solve_Permutation).
  assert (Hrest : blocks m = rest ++ nodes m) by (unfold blocks, rest; by rewrite <- !app_comm_cons, <- !app_assoc).
  eapply ok_or_oom_bind; [eapply (node_commands_ok _ (rest ++ live)); [|apply Hmap]|].
  { eapply hp_perm; [symmetry; apply Hperm|]. by rewrite <- Hrest. }
  intros [h ns] [Hp' Hk]. cbn [ok_or_oom]. split_and!; [|done|].
  - eapply (owns_frame refs m); [done|done|done| |].
    + eapply hp_perm; [|exact Hp']. rewrite Hperm. apply reflexive_eq. f_equal. unfold blocks, rest. simpl.
      by rewrite <- !app_assoc.
    + eapply keeps_mono; [|exact Hk]. intros b Hb. apply elem_of_app. left. apply elem_of_cons in Hb as [->|Hb]; [by left|].
      right. right. apply elem_of_app. right. apply elem_of_app. by right.
  - eapply keeps_mono; [|exact Hk]. intros b Hb. apply elem_of_app. by right.
Qed.

(** A new waker that has joined the others. *)
Lemma owns_new_waker refs m live i p h1 h2 :
  owns refs m live -> cache m !! i = None ->
  holds 8 (queue m) [1 + Z.of_nat (size (cache m)) + 1; 1] h1 -> keeps (tail (blocks m) ++ live) (contents_of m) h1 ->
  hp h2 (waker_block p :: blocks m ++ live) -> holds 8 p [1; 1; i; queue m] h2 -> keeps (blocks m ++ live) h1 h2 ->
  owns (recount refs i 1) (set_cached (<[i := p]> (cache m)) (set_contents h2 m)) live.
Proof.
  intros [Hp Hw Hq] Hi Hq1 Hk1 Hp2 Hh2 Hk2. constructor; cbn [set_cached set_contents contents_of cache queue].
  - eapply hp_perm; [|exact Hp2]. unfold blocks. simpl. rewrite (cache_blocks_insert _ _ _ Hi). solve_Permutation.
  - intros j q [[<- <-]|[Hne Hj]]%lookup_insert_Some; [by rewrite recount_eq|]. rewrite recount_ne by done.
    assert (waker_block q ∈ tail (blocks m) ++ live) as Hin.
    { apply elem_of_app. left. by eapply blocks_cached, cache_blocks_elem. }
    eapply (waker_block_ok q _ h1 h2 (blocks m ++ live)); [done|by right|exact Hk2|].
    eapply (waker_block_ok q _ (contents_of m) h1); [done|exact Hin|exact Hk1|by apply Hw].
  - rewrite map_size_insert_None by done. eapply (queue_block_ok _ _ h1); [done|by left|exact Hk2|].
    by replace (1 + Z.of_nat (S (size (cache m)))) with (1 + Z.of_nat (size (cache m)) + 1) by lia.
Qed.

Lemma cache_waker_ok refs m live i :
  owns refs m live -> Z.of_nat (size (cache m)) < 2 ^ 62 -> cache m !! i = None ->
  ok_or_oom (fun m' => exists p, cache m' = <[i := p]> (cache m) /\
    boxes m' = boxes m /\ slot m' = slot m /\ scancode_slots m' = scancode_slots m /\
    owns (recount refs i 1) m' live /\ keeps live (contents_of m) (contents_of m')) (cache_waker map_commands i m).
Proof.
  intros Ho Hsz Hi. pose proof Ho as [Hp Hw Hq]. pose proof (lk_counters _ _ _ _ _ Hlay) as Hc.
  unfold cache_waker. rewrite Hi.
  destruct (Arc_clone_ok lo hi (queue m) ArcQueue (1 + Z.of_nat (size (cache m))) [1] (contents_of m)
    (tail (blocks m) ++ live) Hp) as (h1 & -> & Hp1 & Hq1 & Hk1); [lia|exact Hq|lia|].
  cbn [mbind res_bind]. change (Alloc (queue m) ArcQueue :: tail (blocks m) ++ live) with (blocks m ++ live) in Hp1.
  eapply ok_or_oom_bind; [apply (allocate_words_ok lo hi ArcTaskWaker [1; 1; i; queue m] h1 (blocks m ++ live));
    [done|by apply layout_okb_spec|simpl; lia]|].
  intros [p h2] (Hp2 & Hh2 & Hk2). pose proof (owns_new_waker _ _ _ _ _ _ _ Ho Hi Hq1 Hk1 Hp2 Hh2 Hk2) as Ho2.
  eapply ok_or_oom_impl; [by apply map_operation_ok|].
  intros m' (Ho' & (_ & _ & E1 & E2 & E3 & E4) & Hk'). exists p. split_and!; [done..|].
  assert (Hlive : forall (bs : list allocation) b, b ∈ live -> b ∈ bs ++ live) by (intros bs b Hb; apply elem_of_app; by right).
  eapply keeps_trans; [eapply keeps_mono; [apply Hlive|exact Hk1]|].
  eapply keeps_trans; [eapply keeps_mono; [apply Hlive|exact Hk2]|exact Hk'].
Qed.

(** The memory of a box, if it has any. *)
Abbreviation box_block x := (if decide (0 < layout_size (al_layout x)) then [x] else []).

Lemma Box_pin_ok l (h : heap A) live :
  hp h live -> layout_size l = 0 \/ layout_ok l ->
  ok_or_oom (fun '(x, h') => al_layout x = l /\ hp h' (box_block x ++ live) /\ keeps live h h') (Box_pin l h).
Proof.
  intros Hp Hl. unfold Box_pin. destruct (Z.eqb_spec (layout_size l) 0) as [E|E].
  - simpl. rewrite decide_False by lia. split_and!; [done|done|by apply keeps_ram].
  - destruct Hl as [?|Hl]; [done|]. eapply ok_or_oom_bind; [by apply allocate_ok|]. intros [p h1] [Hp1 Hr]. simpl.
    rewrite decide_True by apply Hl. split_and!; [done|done|by apply keeps_ram].
Qed.

Lemma spawn_task_ok refs m live i l :
  owns refs m live -> boxes m !! i = None -> layout_size l = 0 \/ layout_ok l ->
  ok_or_oom (fun m' => owns refs m' live /\ (exists x, al_layout x = l /\ boxes m' = <[i := x]> (boxes m)) /\
    cache m' = cache m /\ slot m' = slot m /\ scancode_slots m' = scancode_slots m /\
    keeps live (contents_of m) (contents_of m')) (spawn_task map_commands i l m).
Proof.
  intros Ho Hi Hl. unfold spawn_task. eapply ok_or_oom_bind; [apply (Box_pin_ok l _ (blocks m ++ live)); [apply Ho|done]|].
  intros [x h] (Ex & Hp & Hk). assert (Hlive : forall b, b ∈ live -> b ∈ blocks m ++ live) by (intros b Hb; apply elem_of_app; by right).
  assert (owns refs (set_boxes (<[i := x]> (boxes m)) (set_contents h m)) live) as Ho1.
  { eapply (owns_frame refs m); [done|done|done| |].
    - eapply hp_perm; [|exact Hp]. unfold blocks. simpl. rewrite (box_blocks_insert _ _ _ Hi). solve_Permutation.
    - eapply keeps_mono; [|exact Hk]. intros b Hb. by apply counted_blocks. }
  eapply ok_or_oom_impl; [by apply map_operation_ok|]. intros m' (Ho' & (_ & _ & E3 & E4 & E5 & E6) & Hk').
  split_and!; [done|by exists x|done|done|done|]. eapply keeps_trans; [eapply keeps_mono; [exact Hlive|exact Hk]|exact Hk'].
Qed.

Lemma Box_drop_ok x (h : heap A) live :
  hp h (box_block x ++ live) -> 0 <= layout_size (al_layout x) ->
  exists h', Box_drop x h = Ok h' /\ hp h' live /\ keeps live h h'.
Proof.
  intros Hp H0. unfold Box_drop. destruct (Z.eqb_spec (layout_size (al_layout x)) 0) as [E|E].
  - rewrite decide_False in Hp by lia. exists h. split_and!; [done|done|by apply keeps_ram].
  - rewrite decide_True in Hp by lia. by apply deallocate_ok.
Qed.
End memory_facts.

(** ** The memory and the machine *)

Section linked.
Context {A : Type} `{!GlobalAlloc A} `{!AllocContract A} `{!AllocTotal A} (lo hi : Z).
Context (ArcQueue TaskSlots ScancodeSlots ExampleTask PrintKeypresses : Layout).
Context (drop_ArrayQueue : Z -> heap A -> res (heap A)) (map_commands : list map_call -> list command).
Hypothesis Hlay : layouts_ok ArcQueue TaskSlots ScancodeSlots ExampleTask PrintKeypresses.
Hypothesis Hmap : forall seen, Forall command_ok (map_commands seen).
Context {K : Type}.
Abbreviation memory := (memory A).
Abbreviation blocks := (blocks ArcQueue TaskSlots ScancodeSlots).
Abbreviation owns := (owns lo hi ArcQueue TaskSlots ScancodeSlots).
Abbreviation future_map := (gmap Z (Task (kernel_future K))).

(** The references that the cache and [WAKER] hold. *)
Definition references (wc : gmap Z Waker) (reg : option Waker) (i : Z) : Z :=
  Z.of_nat ((match wc !! i with Some _ => 1 | None => 0 end) + in_slot i reg).

(** The memory of a machine with the cache [wc], the tasks [tk] and the registered waker
    [reg]; [started]: the scancode queue exists. *)
Record linked (wc : gmap Z Waker) (tk : future_map) (reg : option Waker) (started : bool)
    (m : memory) (live : list allocation) : Prop := {
  ln_owns : owns (references wc reg) m live;
  ln_cache : forall i, is_Some (cache m !! i) <-> is_Some (wc !! i);
  ln_boxes : forall i, is_Some (boxes m !! i) <-> is_Some (tk !! i);
  ln_tasks : forall i, is_Some (wc !! i) -> is_Some (tk !! i);
  ln_slot : slot m = match reg with Some (FromTaskWaker i) => cache m !! i | _ => None end;
  ln_registered : forall i, reg = Some (FromTaskWaker i) -> is_Some (wc !! i);
  ln_started : scancode_slots m = None <-> started = false;
  ln_layouts : forall i x, boxes m !! i = Some x -> 0 <= layout_size (al_layout x);
  ln_few : (size (boxes m) <= 2)%nat;
}.

Lemma references_bound wc reg i : 0 <= references wc reg i <= 2.
Proof. unfold references, in_slot. destruct (wc !! i), reg as [[j|]|]; try destruct (decide _); simpl; lia. Qed.

(** What is registered is dropped; it is in the cache, so this is never the last reference. *)
Lemma linked_drop wc tk reg b m live :
  linked wc tk reg b m live ->
  exists m', drop_registered ArcQueue drop_ArrayQueue m = Ok m' /\ linked wc tk None b m' live /\
    keeps live (contents_of m) (contents_of m') /\
    (m' = m \/ exists p, slot m = Some p /\ load 8 p (contents_of m) = Ok 2 /\
       m' = set_slot None (set_contents (store 8 p 1 (contents_of m)) m)).
Proof.
  intros Hl. pose proof Hl as [Ho Hc Hb Ht Hs Hr Hst Hlo Hf]. unfold drop_registered.
  destruct (slot m) as [p|] eqn:Ep.
  2: { exists m. split_and!; [done| |by apply keeps_ram|by left]. constructor; try done.
       eapply owns_ext; [|exact Ho]. intros i. unfold references. destruct reg as [[j|]|]; [|done..]. simpl.
       destruct (decide (j = i)) as [->|]; [|done]. destruct (Hr i eq_refl) as [w Hw].
       destruct (proj2 (Hc i)) as [q Hq]; [by exists w|]. congruence. }
  destruct reg as [[i|]|]; [|done..]. symmetry in Hs. destruct (Hr i eq_refl) as [w Hw].
  assert (references wc (Some (FromTaskWaker i)) i = 2) as E2
    by (unfold references; simpl; rewrite Hw, decide_True by done; done).
  destruct (drop_waker_ok lo hi ArcQueue TaskSlots ScancodeSlots ExampleTask PrintKeypresses drop_ArrayQueue Hlay
    _ m live i p Ho Hs) as (E & Ho' & Hk); [lia|].
  rewrite E, E2 in *. cbn [mbind res_bind]. eexists. split; [reflexivity|]. split_and!; [|exact Hk|].
  - constructor; try done. eapply owns_ext; [|by apply owns_slot, Ho']. intros j. unfold references. destruct (decide (j = i)) as [->|Hne].
    + by rewrite recount_eq, Hw.
    + rewrite recount_ne by done. simpl. by rewrite decide_False by congruence.
  - right. exists p. split_and!; [done| |done]. apply (load_head p 2 [1; i; queue m]). rewrite <- E2. by apply Ho.
Qed.

Lemma linked_register wc tk reg b m live i :
  linked wc tk reg b m live -> is_Some (wc !! i) -> reg = None \/ reg = Some (FromTaskWaker i) ->
  exists m', register_waker ArcQueue drop_ArrayQueue i m = Ok m' /\
    linked wc tk (Some (FromTaskWaker i)) b m' live /\ keeps live (contents_of m) (contents_of m').
Proof.
  intros Hl Hi Hreg. pose proof Hl as [Ho Hc Hb Ht Hs Hr Hst Hlo Hf]. unfold register_waker.
  destruct (proj2 (Hc i) Hi) as [p Hp]. rewrite Hp. destruct Hi as [w Hw].
  pose proof (references_bound wc reg i) as Hbd.
  destruct (clone_waker_ok lo hi ArcQueue TaskSlots ScancodeSlots ExampleTask PrintKeypresses Hlay _ m live i p Ho Hp)
    as (h1 & -> & Ho1 & Hk1); [lia|].
  cbn [mbind res_bind]. destruct Hreg as [-> | ->]; unfold drop_registered; cbn [set_contents slot contents_of]; rewrite Hs.
  - cbn [mbind res_bind]. eexists. split; [reflexivity|]. split; [|exact Hk1].
    constructor; try done; [|by intros j [= <-]; exists w]. eapply owns_ext; [|by apply owns_slot, Ho1]. intros j.
    unfold references. destruct (decide (j = i)) as [->|Hne].
    + rewrite recount_eq, Hw. simpl. by rewrite decide_True.
    + rewrite recount_ne by done. simpl. by rewrite decide_False by congruence.
  - rewrite Hp. assert (references wc (Some (FromTaskWaker i)) i = 2) as E2
      by (unfold references; simpl; rewrite Hw, decide_True by done; done).
    destruct (drop_waker_ok lo hi ArcQueue TaskSlots ScancodeSlots ExampleTask PrintKeypresses drop_ArrayQueue Hlay
      _ _ live i p Ho1 Hp) as (E & Ho' & Hk); [rewrite recount_eq; lia|].
    cbn [set_contents contents_of] in E. rewrite E. cbn [mbind res_bind].
    eexists. split; [reflexivity|]. split; [|by eapply keeps_trans].
    constructor; try done. eapply owns_ext; [|by apply owns_slot, owns_slot, Ho']. intros j.
    destruct (decide (j = i)) as [->|Hne]; [rewrite !recount_eq; lia|by rewrite !recount_ne].
Qed.

(** A waker that is cached already. *)
Lemma linked_cache_hit wc tk reg b m live i w :
  linked wc tk reg b m live -> wc !! i = Some w -> linked (<[i := FromTaskWaker i]> wc) tk reg b m live.
Proof.
  intros [Ho Hc Hb Ht Hs Hr Hst Hlo Hf] Hw.
  assert (Hsome : forall j, is_Some (<[i := FromTaskWaker i]> wc !! j) <-> is_Some (wc !! j)).
  { intros j. destruct (decide (j = i)) as [->|Hne]; [rewrite lookup_insert_eq, Hw; by split|by rewrite lookup_insert_ne]. }
  constructor; try done.
  - eapply owns_ext; [|exact Ho]. intros j. unfold references.
    destruct (decide (j = i)) as [->|Hne]; [by rewrite lookup_insert_eq, Hw|by rewrite lookup_insert_ne].
  - intros j. by rewrite Hsome.
  - intros j Hj. apply Ht. by rewrite <- Hsome.
  - intros j Hj. rewrite Hsome. by apply Hr.
Qed.

Lemma linked_size wc tk reg b m live : linked wc tk reg b m live -> (size (cache m) <= 2)%nat.
Proof.
  intros [_ Hc Hb Ht _ _ _ _ Hf]. transitivity (size (boxes m)); [|done]. rewrite <- !(size_dom (D := gset Z)).
  apply subseteq_size. intros j. rewrite !elem_of_dom, Hc, Hb. apply Ht.
Qed.

(** The waker of a task that has none is not registered. *)
Lemma linked_unregistered wc tk reg b m live i :
  linked wc tk reg b m live -> wc !! i = None -> in_slot i reg = 0%nat.
Proof.
  intros Hl Hw. destruct reg as [[j|]|]; [|done..]. simpl. destruct (decide (j = i)) as [->|]; [|done].
  destruct (ln_registered _ _ _ _ _ _ Hl i eq_refl) as [? ?]. congruence.
Qed.

Lemma linked_cache wc tk reg b m live i :
  linked wc tk reg b m live -> is_Some (tk !! i) ->
  ok_or_oom (fun m' => linked (<[i := FromTaskWaker i]> wc) tk reg b m' live /\
    keeps live (contents_of m) (contents_of m')) (cache_waker map_commands i m).
Proof.
  intros Hl Hi. pose proof Hl as [Ho Hc Hb Ht Hs Hr Hst Hlo Hf]. destruct (wc !! i) as [w|] eqn:Hw.
  { destruct (proj2 (Hc i)) as [p Ep]; [by exists w|]. unfold cache_waker. rewrite Ep. simpl.
    split; [by eapply linked_cache_hit|by apply keeps_ram]. }
  assert (cache m !! i = None) as Ep.
  { destruct (cache m !! i) as [p|] eqn:Ep; [|done]. destruct (proj1 (Hc i)) as [? ?]; [by exists p|congruence]. }
  pose proof (linked_unregistered _ _ _ _ _ _ i Hl Hw) as H0. pose proof (linked_size _ _ _ _ _ _ Hl) as Hsz.
  eapply ok_or_oom_impl; [eapply (cache_waker_ok lo hi _ _ _ _ _ map_commands Hlay Hmap); [done|lia|done]|].
  intros m' (p & Ecache & Eb & Es & Esc & Ho' & Hk). split; [|exact Hk].
  constructor; rewrite ?Ecache, ?Eb, ?Es, ?Esc; try done.
  - eapply owns_ext; [|exact Ho']. intros j. unfold references. destruct (decide (j = i)) as [->|Hne].
    + by rewrite recount_eq, lookup_insert_eq, H0.
    + by rewrite recount_ne, lookup_insert_ne.
  - intros j. destruct (decide (j = i)) as [->|Hne]; [rewrite !lookup_insert_eq; split; by eexists|by rewrite !lookup_insert_ne].
  - intros j. destruct (decide (j = i)) as [->|Hne]; [done|rewrite lookup_insert_ne by done; apply Ht].
  - rewrite Hs. destruct reg as [[j|]|]; [|done..]. rewrite lookup_insert_ne; [done|]. intros ->.
    destruct (Hr j eq_refl) as [? ?]. congruence.
  - intros j Hj. destruct (Hr j Hj) as [w Hjw]. exists w. rewrite lookup_insert_ne; [done|congruence].
Qed.

(** [tasks.remove]: the box is freed. *)
Lemma remove_box_ok refs m live i x :
  owns refs m live -> boxes m !! i = Some x -> 0 <= layout_size (al_layout x) ->
  exists h', Box_drop x (contents_of m) = Ok h' /\
    owns refs (set_boxes (delete i (boxes m)) (set_contents h' m)) live /\ keeps live (contents_of m) h'.
Proof.
  intros Ho Hx H0. pose proof Ho as [Hp _ _]. set (m1 := set_boxes (delete i (boxes m)) m).
  destruct (Box_drop_ok lo hi x (contents_of m) (blocks m1 ++ live)) as (h' & E & Hp' & Hk).
  { eapply hp_perm; [|exact Hp]. unfold blocks. simpl. rewrite (box_blocks_delete _ _ _ Hx). solve_Permutation. }
  - done.
  - exists h'. split; [exact E|]. split; [|eapply keeps_mono; [|exact Hk]; intros b Hb; apply elem_of_app; by right].
    eapply (owns_frame lo hi ArcQueue TaskSlots ScancodeSlots ExampleTask PrintKeypresses Hlay refs m); try done.
    eapply keeps_mono; [|exact Hk]. intros b Hb. by apply (counted_blocks ArcQueue TaskSlots ScancodeSlots m1 live).
Qed.

(** The calls of the maps. *)
Lemma linked_map wc tk reg b m live c :
  linked wc tk reg b m live ->
  ok_or_oom (fun m' => linked wc tk reg b m' live /\ same_owners m m' /\ keeps live (contents_of m) (contents_of m'))
    (map_operation map_commands c m).
Proof.
  intros [Ho Hc Hb Ht Hs Hr Hst Hlo Hf].
  eapply ok_or_oom_impl; [by apply (map_operation_ok lo hi _ _ _ _ _ map_commands Hlay Hmap)|].
  intros m' (Ho' & Hsame & Hk). split_and!; [|done|done]. destruct Hsame as (E1 & E2 & E3 & E4 & E5 & E6).
  constructor; rewrite ?E3, ?E4, ?E5, ?E6; done.
Qed.

Lemma linked_remove wc tk reg b m live i :
  linked wc tk reg b m live -> in_slot i reg = 0%nat -> is_Some (wc !! i) ->
  ok_or_oom (fun m' => linked (delete i wc) (delete i tk) reg b m' live /\ keeps live (contents_of m) (contents_of m'))
    (remove_task ArcQueue drop_ArrayQueue map_commands i m).
Proof.
  intros Hl0 H0 [w Hw]. unfold remove_task. eapply ok_or_oom_bind; [by apply linked_map|]. intros m1 (Hl1 & _ & Hk1).
  pose proof Hl1 as [Ho Hc Hb Ht Hs Hr Hst Hlo Hf].
  destruct (proj2 (Hb i)) as [x Hx]; [apply Ht; by exists w|]. destruct (proj2 (Hc i)) as [p Hp]; [by exists w|].
  rewrite Hx. destruct (remove_box_ok _ _ _ _ _ Ho Hx (Hlo i x Hx)) as (h2 & -> & Ho2 & Hk2). cbn [mbind res_bind].
  eapply ok_or_oom_bind; [by apply (map_operation_ok lo hi _ _ _ _ _ map_commands Hlay Hmap)|].
  intros m3 (Ho3 & (_ & _ & E3 & E4 & E5 & E6) & Hk3). simpl in E3, E4, E5, E6. rewrite <- E5 in Hp. rewrite Hp.
  destruct (drop_last_ok lo hi ArcQueue TaskSlots ScancodeSlots ExampleTask PrintKeypresses drop_ArrayQueue Hlay
    _ _ live i p Ho3 Hp) as (h4 & -> & Ho4 & Hk4); [unfold references; by rewrite Hw, H0|].
  cbn [mbind res_bind ok_or_oom]. split; [|by eapply keeps_trans, keeps_trans, keeps_trans].
  assert (Hdel : forall {B} (f : gmap Z B) j, is_Some (delete i f !! j) <-> j <> i /\ is_Some (f !! j)).
  { intros B f j. destruct (decide (j = i)) as [->|Hne]; [rewrite lookup_delete_eq; split; [by intros []|by intros []]|].
    rewrite lookup_delete_ne by done. by split; [|intros []]. }
  constructor; cbn [set_cached set_contents cache boxes slot scancode_slots]; rewrite ?E3, ?E4, ?E5, ?E6; try done.
  - rewrite E5 in Ho4. eapply owns_cached; [|exact Ho4]. cbn [set_cached cache]. intros j [Hne _]%Hdel. unfold references.
    by rewrite lookup_delete_ne.
  - intros j. by rewrite !Hdel, Hc.
  - intros j. by rewrite !Hdel, Hb.
  - intros j. rewrite !Hdel. intros []. split; [done|by apply Ht].
  - rewrite Hs. destruct reg as [[j|]|]; [|done..]. simpl in H0. destruct (decide (j = i)); [done|].
    by rewrite lookup_delete_ne.
  - intros j ->. simpl in H0. rewrite Hdel. destruct (decide (j = i)); [done|]. split; [done|by apply Hr].
  - intros j y [_ Hj]%lookup_delete_Some. by eapply Hlo.
  - rewrite map_size_delete_Some by by exists x. lia.
Qed.

(** The buffer of the scancode queue. *)
Lemma linked_scancodes wc tk reg m live :
  linked wc tk reg false m live ->
  ok_or_oom (fun m' => linked wc tk reg true m' live /\ keeps live (contents_of m) (contents_of m'))
    ('(p, h) ← allocate ScancodeSlots (contents_of m); Ok (set_scancode_slots p (set_contents h m))).
Proof.
  intros [Ho Hc Hb Ht Hs Hr Hst Hlo Hf]. eapply ok_or_oom_bind; [apply allocate_ok; [apply Ho|apply Hlay]|].
  intros [p h] [Hp Hram]. cbn [ok_or_oom]. split; [|by apply keeps_ram].
  constructor; try done. eapply owns_frame; [done|exact Ho|done|done| |by apply keeps_ram].
  eapply hp_perm; [|exact Hp]. unfold blocks. simpl. rewrite (proj2 Hst) by done. simpl. solve_Permutation.
Qed.
End linked.

Section running.
Context {A : Type} `{!GlobalAlloc A} `{!AllocContract A} `{!AllocTotal A} (lo hi : Z).
Context (ArcQueue TaskSlots ScancodeSlots ExampleTask PrintKeypresses : Layout).
Context (drop_ArrayQueue : Z -> heap A -> res (heap A)) (map_commands : list map_call -> list command).
Hypothesis Hlay : layouts_ok ArcQueue TaskSlots ScancodeSlots ExampleTask PrintKeypresses.
Hypothesis Hmap : forall seen, Forall command_ok (map_commands seen).
Context {QS QT C W K E P : Type}.
Context `{AQS : ArrayQueue Z QS} `{AQT : ArrayQueue Z QT} `{OC : OnceCell QS C}.
Context `{AW : AtomicWaker W} `{PK : PcKeyboard K E} `{PIC : ChainedPics P}.
Context `{!ArrayQueueLaws Z QS} `{!ArrayQueueLaws Z QT} `{!OnceCellLaws QS C}.
Context `{!AtomicWakerLaws W} `{!ChainedPicsLaws P}.
Abbreviation sys := (sys QT C W K P).
Abbreviation memory := (memory A).
Abbreviation linked := (linked lo hi ArcQueue TaskSlots ScancodeSlots).
Abbreviation memory_step := (memory_step ArcQueue ScancodeSlots drop_ArrayQueue map_commands).

(** Whether the keyboard task has been polled. *)
Definition started (s : sys) : bool :=
  in_poll (pc s) ||
  match tasks s !! KEYS with Some (mkTask _ (print_keypresses (Some _))) => true | _ => false end.

Definition linked_sys (s : sys) (m : memory) (live : list allocation) : Prop :=
  linked (waker_cache s) (tasks s) (registered (globals s)) (started s) m live.

(** Steps that the memory does not take part in. *)
Lemma linked_same (s s' : sys) m live :
  linked_sys s m live -> waker_cache s' = waker_cache s ->
  (forall i, is_Some (tasks s' !! i) <-> is_Some (tasks s !! i)) ->
  registered (globals s') = registered (globals s) -> started s' = started s -> linked_sys s' m live.
Proof.
  unfold linked_sys. intros [Ho Hc Hb Ht Hs Hr Hst Hlo Hf] E1 E2 E3 E4. rewrite E1, E3, E4.
  constructor; try done; intros i; rewrite E2; auto.
Qed.

Lemma linked_quiet (s s' : sys) m live :
  linked_sys s m live -> waker_cache s' = waker_cache s -> tasks s' = tasks s ->
  registered (globals s') = registered (globals s) -> in_poll (pc s') = in_poll (pc s) -> linked_sys s' m live.
Proof.
  intros Hl E1 E2 E3 E4. apply (linked_same s); [done|done|by rewrite E2|done|]. unfold started. by rewrite E2, E4.
Qed.

(** What a keyboard interrupt does to [WAKER]. *)
Lemma add_scancode_takes c b (g g' : statics QT C W P) :
  globals_ok g -> cell_ok b g -> add_scancode c g = Ok g' ->
  registered g' = if has_room g then None else registered g.
Proof.
  intros Hg Hc Ea. pose proof (add_scancode_spec c b g Hg Hc) as Ha. rewrite Ea in Ha.
  inversion Ha as [sc Hwf Hst|x cell slot Hx Hr Hp Hn Hs|x cell slot q Hx Hr Hp Hn Hs Hq Hcap|]; subst; simpl.
  - simpl in Hst. by destruct (has_room g).
  - rewrite Hr. exact Hs.
  - rewrite Hr. exact Hs.
Qed.

Lemma keyboard_takes c (s s' : sys) :
  inv s -> sys_step (EKeyboard c) s = Ok s' ->
  registered (globals s') =
    if interrupts_enabled s && pic_accepts (as_u8 Keyboard) (PICS (globals s)) && has_room (globals s)
    then None else registered (globals s).
Proof.
  intros Hi Hs. cbn [sys_step] in Hs. unfold interrupt in Hs.
  destruct (_ && pic_accepts _ _) eqn:Ed; cbn [mbind res_bind andb] in Hs; [|by simplify_eq].
  unfold keyboard_interrupt_handler in Hs. set (g0 := set_PICS _ (globals s)) in Hs.
  destruct Hi as [[? ? ?] _ _ _ (o & _ & Hcell & _) _].
  destruct (add_scancode c g0) as [g1| | |] eqn:Ea; cbn [mbind res_bind] in Hs; [|done..].
  pose proof (add_scancode_takes c _ g0 g1 ltac:(by constructor) Hcell Ea) as Hr.
  change (registered g1 = if has_room (globals s) then None else registered (globals s)) in Hr.
  injection Hs as <-. unfold resume. simpl. destruct (has_room (globals s)), (pc s); done.
Qed.

Lemma irq_memory_ok e (s s' : sys) m live :
  e <> EMain -> inv s -> linked_sys s m live -> sys_step e s = Ok s' ->
  exists m', memory_step e s m = Ok m' /\ linked_sys s' m' live /\ keeps live (contents_of m) (contents_of m') /\
    (m' = m \/ exists p, slot m = Some p /\ load 8 p (contents_of m) = Ok 2 /\
       m' = set_slot None (set_contents (store 8 p 1 (contents_of m)) m)).
Proof.
  intros He Hi Hl Hs. destruct (irq_owns e s s' He Hs) as (E1 & E2 & E3 & _).
  assert (Es : started s' = started s) by (unfold started; by rewrite E2, E3).
  assert (Hquiet : registered (globals s') = registered (globals s) ->
    exists m', Ok m = Ok m' /\ linked_sys s' m' live /\ keeps live (contents_of m) (contents_of m') /\
      (m' = m \/ exists p, slot m = Some p /\ load 8 p (contents_of m) = Ok 2 /\
         m' = set_slot None (set_contents (store 8 p 1 (contents_of m)) m))).
  { intros Er. exists m. split_and!; [done| |by apply keeps_ram|by left].
    apply (linked_same s); [done|done|by rewrite E2|done|done]. }
  destruct e as [| |c]; [done|..]; cbn [WakerMemory.memory_step].
  - apply Hquiet. cbn [sys_step] in Hs. unfold interrupt in Hs. destruct (_ && _); [|by simplify_eq].
    unfold timer_interrupt_handler, print in Hs.
    destruct (Screen.print_lib _ _) as [sc| | |]; simpl in Hs; simplify_eq. unfold resume. simpl. by destruct (pc s).
  - pose proof (keyboard_takes c s s' Hi Hs) as Er. destruct (_ && has_room _); [|by apply Hquiet].
    destruct (linked_drop lo hi ArcQueue TaskSlots ScancodeSlots ExampleTask PrintKeypresses drop_ArrayQueue Hlay
      _ _ _ _ _ _ Hl) as (m' & Ed & Hl' & Hk & Hc).
    exists m'. split_and!; [done| |done|done]. unfold linked_sys. by rewrite E1, E2, Er, Es.
Qed.

(** The start of a poll. *)
Lemma poll_memory_ok (s s' : sys) m live i :
  inv s -> owned s -> linked_sys s m live -> pc s = RunTask i -> main_step s = Ok s' ->
  ok_or_oom (fun m' => linked_sys s' m' live /\ keeps live (contents_of m) (contents_of m')) (memory_step EMain s m).
Proof.
  intros Hi [_ Hreg] Hl Epc Hs. pose proof Hi as [[_ Hgw _] _ Hc Ho (o & Hk & _) _]. cbn [WakerMemory.memory_step].
  unfold main_step in Hs. rewrite Epc in *.
  destruct (tasks s !! i) as [task|] eqn:Et.
  2: { simplify_eq. simpl. split; [|by apply keeps_ram]. apply (linked_same s); try done.
       unfold started. simpl. by rewrite Epc. }
  rewrite Executor.entry_or_insert_spec in Hs by apply Hc. unfold start_poll.
  assert (Hst : started s = match o with Some _ => true | None => false end)
    by (unfold started; rewrite Epc, Hk; by destruct o).
  eapply ok_or_oom_bind; [eapply (linked_cache lo hi _ _ _ _ _ _ Hlay Hmap); [exact Hl|by exists task]|].
  intros m1 [Hl1 Hk1]. rewrite Hst in Hl1. destruct (decide (i = KEYS)) as [->|Hne].
  - rewrite Hk in Et. injection Et as <-. cbn [future] in *. destruct o as [k|]; cbn [enter_poll] in Hs.
    { simplify_eq. split; [exact Hl1|exact Hk1]. }
    unfold ScancodeStream_new in Hs. destruct (oc_try_init_once _ _); simpl in Hs; simplify_eq.
    eapply ok_or_oom_impl; [eapply (linked_scancodes lo hi _ _ _ _ _ Hlay); exact Hl1|].
    intros m2 [Hl2 Hk2]. split; [exact Hl2|by eapply keeps_trans].
  - rewrite (Ho _ _ Hne Et) in *. cbn [enter_poll] in Hs. unfold main_println in Hs.
    destruct (Screen.print_bin _ _) as [sc| | |]; simpl in Hs; simplify_eq.
    eapply ok_or_oom_impl; [eapply (linked_remove lo hi _ _ _ _ _ drop_ArrayQueue map_commands Hlay Hmap); [exact Hl1|..]|].
    + destruct Hgw as [-> | ->]; [done|]. simpl. by rewrite decide_False by congruence.
    + rewrite lookup_insert_eq. by eexists.
    + intros m2 [Hl2 Hk2]. split; [|by eapply keeps_trans]. unfold linked_sys. simpl.
      assert (Hst' : started (finish_task i (set_globals (set_screen sc (globals s))
        (set_cache (<[i:=FromTaskWaker i]> (waker_cache s)) s))) = match o with Some _ => true | None => false end).
      { unfold started. simpl. rewrite lookup_delete_ne, Hk by done. by destruct o. }
      rewrite Hst'. exact Hl2.
Qed.

Lemma pop_registered r (g g' : statics QT C W P) : pop_scancode g = Ok (r, g') -> registered g' = registered g.
Proof.
  unfold pop_scancode. destruct (oc_try_get _) as [q|]; simpl; [|done].
  destruct (aq_pop q) as [[x q']|]; intros H; by simplify_eq.
Qed.

(** [poll_next]. *)
Lemma stream_memory_ok (s s' : sys) m live i w k st :
  inv s -> owned s -> linked_sys s m live -> pc s = InStream i w k st -> main_step s = Ok s' ->
  ok_or_oom (fun m' => linked_sys s' m' live /\ keeps live (contents_of m) (contents_of m')) (memory_step EMain s m).
Proof.
  intros Hi [_ Hreg] Hl Epc Hs. pose proof Hi as [[_ Hgw _] _ Hc Ho (o & Hk & Hcell & Hpc) _].
  assert (Hsame : forall s1 : sys, waker_cache s1 = waker_cache s -> tasks s1 = tasks s -> in_poll (pc s1) = true ->
    started s1 = started s) by (intros s1 _ Et Ep; unfold started; by rewrite Ep, Epc).
  cbn [WakerMemory.memory_step]. unfold main_step in Hs. rewrite Epc in *. destruct Hpc as (_ & -> & -> & Hst).
  destruct st as [| | |x|[[x|]|]]; cbn [poll_next_step] in Hs; cbn [ok_or_oom].
  1,3: destruct (pop_scancode _) as [[[x|] g]| | |] eqn:Ep; cbn [mbind res_bind] in Hs; simplify_eq;
      (split; [|by apply keeps_ram]); apply (linked_same s); try done; try (by apply Hsame);
      simpl; by eapply pop_registered.
  - simplify_eq. cbn [mbind res_bind] in Hs. simplify_eq.
    destruct (linked_register lo hi ArcQueue TaskSlots ScancodeSlots ExampleTask PrintKeypresses drop_ArrayQueue Hlay
      _ _ _ _ _ _ KEYS Hl) as (m' & Er & Hl' & Hk'); [apply Hreg; by right|exact Hgw|].
    rewrite Er. split; [|done]. unfold linked_sys. simpl. unfold registered at 1. simpl.
    rewrite aw_registered_register. rewrite (Hsame _) by done. exact Hl'.
  - cbn [mbind res_bind] in Hs. simplify_eq.
    destruct (linked_drop lo hi ArcQueue TaskSlots ScancodeSlots ExampleTask PrintKeypresses drop_ArrayQueue Hlay
      _ _ _ _ _ _ Hl) as (m' & Ed & Hl' & Hk' & _).
    rewrite Ed. split; [|done]. unfold linked_sys. simpl. unfold registered at 1. simpl.
    rewrite (proj2 (aw_take_spec _)). rewrite (Hsame _) by done. exact Hl'.
  - simplify_eq. split; [|by apply keeps_ram]. apply (linked_same s); try done. by apply Hsame.
  - done.
  - simplify_eq. split; [|by apply keeps_ram]. apply (linked_same s); try done.
    + intros j. simpl. destruct (decide (j = KEYS)) as [->|Hne]; [rewrite lookup_insert_eq, Hk; split; by eexists|].
      by rewrite lookup_insert_ne.
    + unfold started. simpl. by rewrite lookup_insert_eq, Epc.
Qed.

Lemma memory_step_ok e (s s' : sys) m live :
  inv s -> owned s -> linked_sys s m live -> sys_step e s = Ok s' ->
  ok_or_oom (fun m' => linked_sys s' m' live /\ keeps live (contents_of m) (contents_of m')) (memory_step e s m).
Proof.
  intros Hi Hw Hl Hs. destruct (decide (e = EMain)) as [->|He].
  2: { destruct (irq_memory_ok e s s' m live He Hi Hl Hs) as (m' & -> & Hl' & Hk & _). by split. }
  cbn [sys_step] in Hs. destruct (pc s) as [|i|i w k st|i w k c| | | | | |] eqn:Epc.
  2: by eapply poll_memory_ok.
  2: by eapply stream_memory_ok.
  all: cbn [WakerMemory.memory_step]; unfold main_step in Hs; rewrite Epc in *; cbn [ok_or_oom];
    (split; [|by apply keeps_ram]).
  - destruct (aq_pop _) as [[j q]|]; simplify_eq; by apply (linked_quiet s); [|..|simpl; rewrite Epc].
  - unfold handle_scancode in Hs. destruct (kb_add_byte c k) as [[[ev|]|] k1];
      [destruct (kb_process_keyevent ev k1) as [[key|] k2]; [unfold print in Hs; destruct (Screen.print_lib _ _)|]|..];
      simpl in Hs; simplify_eq; by apply (linked_quiet s); [|..|simpl; rewrite Epc].
  - injection Hs as <-. apply (linked_quiet s); [done..|]. simpl. rewrite Epc. by destruct (aq_is_empty _).
  - injection Hs as <-. by apply (linked_quiet s); [|..|simpl; rewrite Epc].
  - injection Hs as <-. apply (linked_quiet s); [done..|]. simpl. rewrite Epc. by destruct (aq_is_empty _).
  - injection Hs as <-. by apply (linked_quiet s); [|..|simpl; rewrite Epc].
  - injection Hs as <-. by apply (linked_quiet s); [|..|simpl; rewrite Epc].
  - by injection Hs as <-.
Qed.

(** The machine with its memory: out of memory apart, it does what the machine does. *)
Definition runs_like (r : res sys) (live : list allocation) (h : heap A) (x : res (sys * memory)) : Prop :=
  match x with
  | Ok (s, m) => r = Ok s /\ linked_sys s m live /\ keeps live h (contents_of m)
  | Panic p => out_of_memory p \/ r = Panic p
  | Undef => False
  | Diverge => False
  end.

Lemma run_full_ok es live : forall (s : sys) (m : memory),
  inv s -> owned s -> linked_sys s m live ->
  runs_like (run_events es s) live (contents_of m)
    (run_full ArcQueue ScancodeSlots drop_ArrayQueue map_commands es (s, m)).
Proof.
  induction es as [|e es IH]; intros s m Hi Hw Hl; [split_and!; [done|done|by apply keeps_ram]|].
  rewrite run_events_cons.
  change (run_full ?q ?sl ?d ?mc (e :: es) ?x) with (y ← full_step q sl d mc e x; run_full q sl d mc es y).
  unfold full_step. cbn [fst snd].
  pose proof (event_ok_step e s Hi) as He. destruct (sys_step e s) as [s1|p| |] eqn:E1; try done; cbn [mbind res_bind].
  2: by simpl; right.
  pose proof (memory_step_ok e s s1 m live Hi Hw Hl E1) as Hm.
  destruct (memory_step e s m) as [m1|p| |]; [|by simpl; left|done..]. cbn [mbind res_bind]. destruct Hm as [Hl1 Hk1].
  specialize (IH s1 m1 (proj1 He) (owned_step e s s1 Hi Hw E1) Hl1). unfold runs_like in *.
  destruct (run_full _ _ _ _ es (s1, m1)) as [[s2 m2]|p| |]; [|done..]. destruct IH as (E2 & Hl2 & Hk2).
  split_and!; [done|done|by eapply keeps_trans].
Qed.

(** ** The start *)

Lemma boots_tasks (s : sys) :
  boots s -> waker_cache s = ∅ /\ registered (globals s) = None /\ started s = false /\
    forall i, is_Some (tasks s !! i) <-> i = 0 \/ i = KEYS.
Proof.
  intros (ex & n & g & Hsp & [_ Hwk _ _] & ->).
  destruct (Spawn.spawn_all_spawned (Q := QT) 0 [example_task; @print_keypresses K None])
    as ([ex' n'] & E' & [_ _ Hdom Htasks _ _]); [by split|simpl; lia|].
  unfold spawn_kernel_tasks in Hsp. rewrite Hsp in E'. injection E' as <- <-. simpl in Hdom.
  apply Spawn.spawn_all_cache in Hsp. simpl.
  assert (H1 : Executor.tasks ex !! KEYS = Some (mkTask KEYS (print_keypresses None))) by exact (Htasks 1%nat _ eq_refl).
  assert (H0 : Executor.tasks ex !! 0 = Some (mkTask 0 example_task)) by exact (Htasks 0%nat _ eq_refl).
  split_and!; [done|unfold registered; simpl; by rewrite Hwk, aw_registered_new|unfold started; simpl; by rewrite H1|].
  intros i. split; [|intros [-> | ->]; by eexists]. intros [t Ht].
  destruct (decide (i = 0)) as [->|Hn0]; [by left|]. destruct (decide (i = KEYS)) as [->|Hn1]; [by right|].
  rewrite Hdom in Ht; [done|]. change (i ∉ [0; 1]). by rewrite !elem_of_cons, elem_of_nil; intros [?|[?|[]]].
Qed.

Lemma new_executor_ok refs (h : heap A) live :
  hp lo hi h live ->
  ok_or_oom (fun m => owns lo hi ArcQueue TaskSlots ScancodeSlots refs m live /\
    boxes m = ∅ /\ cache m = ∅ /\ slot m = None /\ scancode_slots m = None /\ keeps live h (contents_of m))
    (new_executor ArcQueue TaskSlots h).
Proof.
  intros Hp. unfold new_executor.
  eapply ok_or_oom_bind; [apply allocate_ok; [exact Hp|apply Hlay]|]. intros [sl h1] [Hp1 Hr1].
  eapply ok_or_oom_bind; [apply (allocate_words_ok lo hi ArcQueue [1; 1] h1 (Alloc sl TaskSlots :: live));
    [done|apply Hlay|apply Hlay]|].
  intros [q h2] (Hp2 & Hq2 & Hk2). cbn [ok_or_oom]. split_and!; try done.
  eapply keeps_trans; [by apply (keeps_ram live h h1)|]. eapply keeps_mono; [|exact Hk2]. intros b' Hin'. by right.
Qed.

Lemma new_memory_ok (s : sys) (h : heap A) live :
  boots s -> hp lo hi h live ->
  ok_or_oom (fun m => linked_sys s m live /\ keeps live h (contents_of m))
    (new_memory ArcQueue TaskSlots ExampleTask PrintKeypresses map_commands h).
Proof.
  intros Hb Hp. destruct (boots_tasks s Hb) as (Ec & Er & Est & Etk). unfold new_memory.
  set (refs := references (waker_cache s) (registered (globals s))).
  eapply ok_or_oom_bind; [by apply (new_executor_ok refs)|]. intros m2 (Ho & B2 & C2 & S2 & D2 & Hk2).
  eapply ok_or_oom_bind; [eapply (spawn_task_ok lo hi _ _ _ _ _ map_commands Hlay Hmap); [exact Ho|by rewrite B2|apply Hlay]|].
  intros m3 (Ho3 & (x & Ex & B3) & C3 & S3 & D3 & Hk3). rewrite B2 in B3. rewrite C2 in C3. rewrite S2 in S3. rewrite D2 in D3.
  eapply ok_or_oom_impl; [eapply (spawn_task_ok lo hi _ _ _ _ _ map_commands Hlay Hmap); [exact Ho3|by rewrite B3|apply Hlay]|].
  intros m4 (Ho4 & (y & Ey & B4) & C4 & S4 & D4 & Hk4). rewrite B3 in B4. rewrite C3 in C4. rewrite S3 in S4. rewrite D3 in D4.
  assert (Hsz : forall l, layout_size l = 0 \/ layout_ok l -> 0 <= layout_size l) by (intros l [->|[_ ?]]; lia).
  split.
  - unfold linked_sys. constructor; rewrite ?B4, ?C4, ?S4, ?D4; [exact Ho4|rewrite ?Ec, ?Er, ?Est; try done..].
    + intros i. rewrite !lookup_empty. split; by intros [].
    + intros i. rewrite Etk, !lookup_insert_is_Some, lookup_empty. unfold KEYS.
      split; [intros [<-|[_ [<-|[_ [? ?]]]]]; [by right|by left|done]|intros [-> | ->]; [right; split; [done|by left]|by left]].
    + intros i. rewrite lookup_empty. by intros [].
    + intros i z [[_ <-]|[_ [[_ <-]|[_ Hz]]%lookup_insert_Some]]%lookup_insert_Some; [rewrite Ey|rewrite Ex|done]; apply Hsz, Hlay.
  - eapply keeps_trans; [exact Hk2|]. by eapply keeps_trans.
Qed.

(** ** After the first sleep *)

(** The keyboard task is the only one left, and has been polled. *)
Record alone (s : sys) : Prop := {
  al_tasks : forall i, is_Some (tasks s !! i) -> i = KEYS;
  al_cached : is_Some (waker_cache s !! KEYS);
  al_started : exists k, tasks s !! KEYS = Some (mkTask KEYS (print_keypresses (Some k)));
}.

Lemma alone_same (s s' : sys) :
  alone s -> tasks s' = tasks s -> waker_cache s' = waker_cache s -> alone s'.
Proof. intros [] E1 E2. constructor; by rewrite ?E1, ?E2. Qed.

Lemma alone_step e (s s' : sys) : inv s -> alone s -> sys_step e s = Ok s' -> alone s'.
Proof.
  intros Hi Ha Hs. destruct (decide (e = EMain)) as [->|He].
  2: { destruct (irq_owns e s s' He Hs) as (E1 & E2 & _). by apply (alone_same s). }
  pose proof Ha as [Ht Hc (k0 & Hk0)]. pose proof Hi as [_ _ Hw _ (o & Hk & _ & Hpc) _].
  cbn [sys_step] in Hs. unfold main_step in Hs. destruct (pc s) as [|i|i w k st|i w k c| | | | | |] eqn:Epc.
  4: destruct (handle_scancode c k (globals s)) as [[k' g']| | |]; cbn [mbind res_bind] in Hs;
    [injection Hs as <-; by apply (alone_same s)|done..].
  4-9: injection Hs as <-; by apply (alone_same s).
  - destruct (aq_pop _) as [[j q]|]; injection Hs as <-; by apply (alone_same s).
  - destruct (tasks s !! i) as [task|] eqn:Et; [|injection Hs as <-; by apply (alone_same s)].
    assert (i = KEYS) as -> by (apply Ht; by exists task). rewrite Hk0 in Et. injection Et as <-.
    rewrite Executor.entry_or_insert_spec in Hs by apply Hw. cbn [future enter_poll] in Hs. injection Hs as <-.
    constructor; simpl; [done|by rewrite lookup_insert_eq|by exists k0].
  - destruct Hpc as (_ & -> & -> & Hst). destruct st as [| | |x|[[x|]|]]; [| | | |injection Hs as <-; by apply (alone_same s)|done|].
    5: { injection Hs as <-. constructor; simpl; [|done|exists k; by rewrite lookup_insert_eq].
         intros j [<-|[_ Hj]]%lookup_insert_is_Some; [done|by apply Ht]. }
    all: match type of Hs with context [poll_next_step ?w ?st ?g] =>
        destruct (poll_next_step w st g) as [[st' g']| | |] end; cbn [mbind res_bind] in Hs;
      [injection Hs as <-; by apply (alone_same s)|done..].
Qed.

(** What is taken out of [WAKER] or put there does not change who owns what. *)
Lemma drop_registered_blocks m m' :
  drop_registered ArcQueue drop_ArrayQueue m = Ok m' ->
  blocks ArcQueue TaskSlots ScancodeSlots m' = blocks ArcQueue TaskSlots ScancodeSlots m.
Proof.
  unfold drop_registered. destruct (slot m) as [p|]; [|by intros [= <-]].
  destruct (Waker_drop _ _ _ _); simpl; [by intros [= <-]|done..].
Qed.

Lemma register_waker_blocks i m m' :
  register_waker ArcQueue drop_ArrayQueue i m = Ok m' ->
  blocks ArcQueue TaskSlots ScancodeSlots m' = blocks ArcQueue TaskSlots ScancodeSlots m.
Proof.
  unfold register_waker. destruct (cache m !! i) as [p|]; [|done].
  destruct (Arc_clone p (contents_of m)) as [h| | |]; cbn [mbind res_bind]; [|done..].
  destruct (drop_registered _ _ _) as [m1| | |] eqn:Ed; cbn [mbind res_bind]; [|done..].
  intros [= <-]. by apply drop_registered_blocks in Ed.
Qed.

(** Then no operation allocates or frees. *)
Lemma memory_step_alone e (s s' : sys) m live :
  inv s -> owned s -> alone s -> linked_sys s m live -> sys_step e s = Ok s' ->
  exists m', memory_step e s m = Ok m' /\ linked_sys s' m' live /\ keeps live (contents_of m) (contents_of m') /\
    blocks ArcQueue TaskSlots ScancodeSlots m' = blocks ArcQueue TaskSlots ScancodeSlots m.
Proof.
  intros Hi Hw [Ht Hc (k0 & Hk0)] Hl Hs. pose proof (memory_step_ok e s s' m live Hi Hw Hl Hs) as Hm.
  assert (Hd : exists m', memory_step e s m = Ok m' /\
    blocks ArcQueue TaskSlots ScancodeSlots m' = blocks ArcQueue TaskSlots ScancodeSlots m).
  2: { destruct Hd as (m' & Em & Hb). rewrite Em in Hm. exists m'. by destruct Hm. }
  clear Hm. destruct (linked_drop lo hi ArcQueue TaskSlots ScancodeSlots ExampleTask PrintKeypresses drop_ArrayQueue Hlay
    _ _ _ _ _ _ Hl) as (md & Ed & _). pose proof (drop_registered_blocks _ _ Ed) as Hbd.
  destruct e as [| |c]; cbn [WakerMemory.memory_step]; [|by exists m|destruct (_ && _); [by exists md|by exists m]].
  pose proof Hi as [[_ Hgw _] _ _ _ (o & Hk & _ & Hpc) _].
  destruct (pc s) as [|i|i w k st|i w k c| | | | | |] eqn:Epc; try by exists m.
  - destruct (tasks s !! i) as [task|] eqn:Et; [|by exists m].
    assert (i = KEYS) as -> by (apply Ht; by exists task). rewrite Hk0 in Et. injection Et as <-.
    destruct (proj2 (ln_cache _ _ _ _ _ _ _ _ _ _ _ Hl KEYS) Hc) as [p Hp].
    unfold start_poll, cache_waker. rewrite Hp. by exists m.
  - destruct Hpc as (_ & -> & _ & Hst). destruct st as [| | |x|[[x|]|]]; try (by exists m); [|by exists md].
    destruct (linked_register lo hi ArcQueue TaskSlots ScancodeSlots ExampleTask PrintKeypresses drop_ArrayQueue Hlay
      _ _ _ _ _ _ KEYS Hl Hc Hgw) as (m' & Er & _).
    exists m'. split; [exact Er|by eapply register_waker_blocks].
Qed.

(** Runs that go on as the machine does, with the same blocks. *)
Definition runs_in_place (r : res sys) (m0 : memory) (live : list allocation) (x : res (sys * memory)) : Prop :=
  match x with
  | Ok (s, m) => r = Ok s /\ linked_sys s m live /\ keeps live (contents_of m0) (contents_of m) /\
      blocks ArcQueue TaskSlots ScancodeSlots m = blocks ArcQueue TaskSlots ScancodeSlots m0
  | Panic p => r = Panic p
  | Undef => False
  | Diverge => False
  end.

Lemma run_full_alone es live : forall (s : sys) (m : memory),
  inv s -> owned s -> alone s -> linked_sys s m live ->
  runs_in_place (run_events es s) m live (run_full ArcQueue ScancodeSlots drop_ArrayQueue map_commands es (s, m)).
Proof.
  induction es as [|e es IH]; intros s m Hi Hw Ha Hl; [split_and!; [done|done|by apply keeps_ram|done]|].
  rewrite run_events_cons.
  change (run_full ?q ?sl ?d ?mc (e :: es) ?x) with (y ← full_step q sl d mc e x; run_full q sl d mc es y).
  unfold full_step. cbn [fst snd].
  pose proof (event_ok_step e s Hi) as He. destruct (sys_step e s) as [s1|p| |] eqn:E1; try done; cbn [mbind res_bind].
  destruct (memory_step_alone e s s1 m live Hi Hw Ha Hl E1) as (m1 & -> & Hl1 & Hk1 & Hb1). cbn [mbind res_bind].
  specialize (IH s1 m1 (proj1 He) (owned_step e s s1 Hi Hw E1) (alone_step e s s1 Hi Ha E1) Hl1).
  unfold runs_in_place in *. destruct (run_full _ _ _ _ es (s1, m1)) as [[s2 m2]|p| |]; [|done..].
  destruct IH as (E2 & Hl2 & Hk2 & Hb2). split_and!; [done|done|by eapply keeps_trans|congruence].
Qed.

(** When the processor sleeps, the first task is gone. *)
Lemma halted_alone (es : list event) (s0 s : sys) :
  boots s0 -> run_events es s0 = Ok s -> pc s = Halted -> alone s.
Proof.
  intros Hb Hrun Hpc. pose proof (boots_spec s0 Hb) as (Hi0 & _ & _).
  pose proof (echo_run _ _ _ _ (boots_echo s0 Hb) Hrun) as He. pose proof (e_inv _ _ He) as Hi.
  pose proof (owned_run _ _ _ Hi0 (boots_owned s0 Hb) Hrun) as [_ Hk].
  destruct (halted_idle s Hi Hpc) as (_ & Hw & _ & Hr & _).
  pose proof Hi as [_ _ _ _ (o & Ho & _ & Hok) _]. rewrite Hpc in Hok. destruct Hok as (_ & _ & Hsus). constructor.
  - intros i [t Ht]. destruct (e_dom _ _ He i t Ht) as [->|?]; [|done].
    destruct (e_first _ _ He) as [Hz|Hz]; [by exists t|rewrite Hw in Hz; by apply not_elem_of_nil in Hz|congruence].
  - apply Hk. left. by rewrite Hr.
  - destruct o as [k|]; [by exists k|]. simpl in Hsus. rewrite Hw in Hsus. by apply not_elem_of_nil in Hsus.
Qed.
End running.

(** ** Properties *)

Section properties.
Context {A : Type} `{GA : GlobalAlloc A} (AC : AllocContract A) (AT : AllocTotal A).
Context {QS QT C W K E P : Type}.
Context `{AQS : ArrayQueue Z QS} `{AQT : ArrayQueue Z QT} `{OC : OnceCell QS C}.
Context `{AW : AtomicWaker W} `{PK : PcKeyboard K E} `{PIC : ChainedPics P}.
Context (L1 : ArrayQueueLaws Z QS) (L2 : ArrayQueueLaws Z QT) (L3 : OnceCellLaws QS C).
Context (L4 : AtomicWakerLaws W) (L5 : ChainedPicsLaws P).

(** The memory when the processor sleeps. *)
Lemma halted_memory lo hi ArcQueue TaskSlots ScancodeSlots (s : sys QT C W K P) (m : memory A) live :
  inv s -> linked_sys lo hi ArcQueue TaskSlots ScancodeSlots s m live -> pc s = Halted ->
  (forall i, Wakers.strong_count i s = if decide (i = KEYS) then 2 else 0)%nat ->
  exists p, cache m = {[KEYS := p]} /\ slot m = Some p.
Proof.
  intros Hi [_ Hc _ _ Hs _ _ _ _] Hpc Hn. destruct (halted_idle s Hi Hpc) as (_ & _ & _ & Hr & _).
  rewrite Hr in Hs. unfold Wakers.strong_count, cached in Hn. rewrite Hr in Hn. cbn [in_slot] in Hn.
  assert (Hk : is_Some (cache m !! KEYS)).
  { apply Hc. specialize (Hn KEYS). rewrite !decide_True in Hn by done. destruct (waker_cache s !! KEYS); [by eexists|done]. }
  destruct Hk as [p Hp]. exists p. split; [|by rewrite Hs]. apply map_eq. intros i.
  destruct (decide (i = KEYS)) as [->|Hne]; [by rewrite lookup_singleton_eq|]. rewrite lookup_singleton_ne by done.
  destruct (cache m !! i) as [q|] eqn:Eq; [|done]. destruct (proj1 (Hc i)) as [w Hw]; [by exists q|].
  specialize (Hn i). rewrite Hw, (decide_False (P := i = KEYS)) in Hn by done. simpl in Hn. lia.
Qed.

(** C8: the executor's memory is safe.  Over any allocator that keeps its contract,
    whatever the layouts of the futures and of the queues are, whatever the maps do with
    their own nodes, and however interrupts interleave, the kernel with its memory does what the machine does, unless an
    allocation fails: no [TaskWaker] is used after it was freed or freed twice.  The heap
    then holds exactly the blocks of the queues, the tasks, the cached wakers and the maps
    beside those of the rest of the kernel, which are untouched; the counter in the memory of
    each waker is the number of references that there are.  An interrupt handler never
    calls the allocator: all it does to the heap is to count the registered waker down
    from 2 to 1.  When the processor sleeps, the only waker left is that of the keyboard
    task, and it is the registered one. *)
Theorem executor_memory_safe (lo hi : Z)
    (ArcQueue TaskSlots ScancodeSlots ExampleTask PrintKeypresses : Layout)
    (drop_ArrayQueue : Z -> heap A -> res (heap A)) (map_commands : list map_call -> list command)
    (es : list event) (s0 : sys QT C W K P) (h : heap A) (live : list allocation) :
  layouts_ok ArcQueue TaskSlots ScancodeSlots ExampleTask PrintKeypresses ->
  (forall seen, Forall command_ok (map_commands seen)) ->
  boots s0 -> hp lo hi h live ->
  match (m0 ← new_memory ArcQueue TaskSlots ExampleTask PrintKeypresses map_commands h;
         run_full ArcQueue ScancodeSlots drop_ArrayQueue map_commands es (s0, m0)) with
  | Ok (s, m) =>
      run_events es s0 = Ok s /\
      hp lo hi (contents_of m) (blocks ArcQueue TaskSlots ScancodeSlots m ++ live) /\
      keeps live h (contents_of m) /\
      (forall i p, cache m !! i = Some p ->
         load 8 p (contents_of m) = Ok (Z.of_nat (Wakers.strong_count i s))) /\
      (forall e m', e <> EMain -> memory_step ArcQueue ScancodeSlots drop_ArrayQueue map_commands e s m = Ok m' ->
         m' = m \/ exists p, slot m = Some p /\ load 8 p (contents_of m) = Ok 2 /\
           m' = set_slot None (set_contents (store 8 p 1 (contents_of m)) m)) /\
      (pc s = Halted -> exists p, cache m = {[KEYS := p]} /\ slot m = Some p)
  | Panic p => out_of_memory p \/ run_events es s0 = Panic p
  | Undef => False
  | Diverge => False
  end.
Proof.
  intros Hlay Hmap Hb Hp. pose proof (boots_spec s0 Hb) as (Hi0 & _ & _).
  pose proof (new_memory_ok lo hi _ _ _ _ _ map_commands Hlay Hmap s0 h live Hb Hp) as Hm.
  destruct (new_memory _ _ _ _ _ h) as [m0|p| |]; [|by left|done..]. destruct Hm as [Hl0 Hk0]. cbn [mbind res_bind].
  pose proof (run_full_ok lo hi _ _ _ _ _ drop_ArrayQueue map_commands Hlay Hmap es live s0 m0 Hi0 (boots_owned s0 Hb) Hl0) as Hr.
  unfold runs_like in Hr. destruct (run_full _ _ _ _ es (s0, m0)) as [[s m]|p| |]; try done.
  destruct Hr as (Er & Hl & Hk). pose proof (run_events_inv es s0 s Hi0 Er) as Hi.
  pose proof (ln_owns _ _ _ _ _ _ _ _ _ _ _ Hl) as Ho. split_and!.
  - exact Er.
  - apply Ho.
  - by eapply keeps_trans.
  - intros i p Hc. exact (load_head _ _ _ _ (ow_wakers _ _ _ _ _ _ _ _ Ho i p Hc)).
  - intros e m' Hne Em. destruct (linked_drop lo hi _ _ _ _ _ drop_ArrayQueue Hlay _ _ _ _ _ _ Hl) as (m1 & Ed & _ & _ & Hc).
    destruct e as [| |c]; [done|..]; simpl in Em; [left; congruence|].
    destruct (_ && _); [|left; congruence]. rewrite Ed in Em. by injection Em as <-.
  - intros Hpc. eapply halted_memory; [done|exact Hl|done|]. by apply (halted_counts es s0 s).
Qed.

(** C21: after its first sleep the kernel cannot run out of memory.  Whatever the maps do
    with their nodes and however the kernel got there: from the first time that the
    processor sleeps, no operation of the executor, of its tasks or of a handler
    allocates or frees.  So whatever happens next, the executor owns the blocks that it
    owned then, its memory follows the machine, what the rest of the kernel holds is
    untouched, and the only way to stop is the full task queue. *)
Theorem executor_allocates_before_first_sleep (lo hi : Z)
    (ArcQueue TaskSlots ScancodeSlots ExampleTask PrintKeypresses : Layout)
    (drop_ArrayQueue : Z -> heap A -> res (heap A)) (map_commands : list map_call -> list command)
    (es es' : list event) (s0 s : sys QT C W K P) (h : heap A) (m0 m : memory A) (live : list allocation) :
  layouts_ok ArcQueue TaskSlots ScancodeSlots ExampleTask PrintKeypresses ->
  (forall seen, Forall command_ok (map_commands seen)) ->
  boots s0 -> hp lo hi h live ->
  new_memory ArcQueue TaskSlots ExampleTask PrintKeypresses map_commands h = Ok m0 ->
  run_full ArcQueue ScancodeSlots drop_ArrayQueue map_commands es (s0, m0) = Ok (s, m) -> pc s = Halted ->
  match run_full ArcQueue ScancodeSlots drop_ArrayQueue map_commands es' (s, m) with
  | Ok (s', m') =>
      run_events es' s = Ok s' /\
      blocks ArcQueue TaskSlots ScancodeSlots m' = blocks ArcQueue TaskSlots ScancodeSlots m /\
      hp lo hi (contents_of m') (blocks ArcQueue TaskSlots ScancodeSlots m ++ live) /\
      keeps live (contents_of m) (contents_of m')
  | Panic p => p = UnwrapFailed "task queue full" /\ run_events es' s = Panic p
  | Undef => False
  | Diverge => False
  end.
Proof.
  intros Hlay Hmap Hb Hp Em Er Hpc. pose proof (boots_spec s0 Hb) as (Hi0 & _ & _).
  pose proof (new_memory_ok lo hi _ _ _ _ _ map_commands Hlay Hmap s0 h live Hb Hp) as Hm. rewrite Em in Hm.
  destruct Hm as [Hl0 _]. pose proof (boots_owned s0 Hb) as Hw0.
  pose proof (run_full_ok lo hi _ _ _ _ _ drop_ArrayQueue map_commands Hlay Hmap es live s0 m0 Hi0 Hw0 Hl0) as Hr.
  rewrite Er in Hr. destruct Hr as (Ev & Hl & _). pose proof (run_events_inv es s0 s Hi0 Ev) as Hi.
  pose proof (run_full_alone lo hi _ _ _ _ _ drop_ArrayQueue map_commands Hlay Hmap es' live s m Hi
    (owned_run es s0 s Hi0 Hw0 Ev) (halted_alone es s0 s Hb Ev Hpc) Hl) as Ha.
  destruct (run_full _ _ _ _ es' (s, m)) as [[s' m']|p| |]; cbn [runs_in_place] in Ha; [| |done..].
  - destruct Ha as (E' & Hl' & Hk & Hbl). split_and!; [done|done| |done]. rewrite <- Hbl. apply Hl'.
  - split; [|done]. pose proof (run_events_outcome es' s Hi) as Ho. by rewrite Ha in Ho.
Qed.
End properties.

Import Reference.

(** Layouts as they might be: the first future has no state. *)
Module WakerMemoryReference.
Definition ArcQueue0 : Layout := mkLayout 384 128.
Definition TaskSlots0 : Layout := mkLayout 1600 8.
Definition ScancodeSlots0 : Layout := mkLayout 1600 8.
Definition ExampleTask0 : Layout := mkLayout 0 1.
Definition PrintKeypresses0 : Layout := mkLayout 96 8.
Lemma layouts0 : layouts_ok ArcQueue0 TaskSlots0 ScancodeSlots0 ExampleTask0 PrintKeypresses0.
Proof. constructor; try (by apply layout_okb_spec); [simpl; lia|by left|right; by apply layout_okb_spec]. Qed.
Definition drop0 {A} (q : Z) (h : heap A) : res (heap A) := Ok h.
(** Each map has one node, which it allocates for the first entry, and writes to. *)
Definition commands0 (seen : list map_call) : list command :=
  match last seen with
  | Some (InsertTask 0) => [CAlloc (mkLayout 280 8); CStore 0 0 24]
  | Some (InsertWaker 0) => [CAlloc (mkLayout 280 8); CStore 0 0 24]
  | _ => [CStore 0 24 24]
  end.
Lemma commands0_ok seen : Forall command_ok (commands0 seen).
Proof. unfold commands0. destruct (last seen) as [[[]|[]| |]|]; by apply commands_okb_sound. Qed.
End WakerMemoryReference.
Import WakerMemoryReference.

(** The kernel runs until it sleeps; the first task's waker has been freed, and the waker
    of the keyboard task has two references. *)
Lemma executor_memory_safe_witness :
  exists s m, (m0 ← new_memory ArcQueue0 TaskSlots0 ExampleTask0 PrintKeypresses0 commands0 heap0;
      run_full ArcQueue0 ScancodeSlots0 drop0 commands0 (replicate 20 EMain) (boot0, m0)) = Ok (s, m) /\
    exists p, cache m = {[KEYS := p]} /\ slot m = Some p /\ load 8 p (contents_of m) = Ok 2 /\
      length (blocks ArcQueue0 TaskSlots0 ScancodeSlots0 m) = 7%nat.
Proof.
  pose proof (executor_memory_safe _ _ _ _ _ _ _ 0x444444440000 (0x444444440000 + 102400) ArcQueue0 TaskSlots0 ScancodeSlots0
    ExampleTask0 PrintKeypresses0 drop0 commands0 (replicate 20 EMain) boot0 heap0 [] layouts0 commands0_ok boots_boot0 hp_heap0) as H.
  destruct (is_ok_inv (m0 ← new_memory ArcQueue0 TaskSlots0 ExampleTask0 PrintKeypresses0 commands0 heap0;
      run_full ArcQueue0 ScancodeSlots0 drop0 commands0 (replicate 20 EMain) (boot0, m0))) as [[s m] Ek]; [vm_compute; reflexivity|].
  rewrite Ek in H. exists s, m. split; [exact Ek|]. destruct H as (Er & _ & _ & Hn & _ & Hh).
  assert (Hs : match run_events (replicate 20 EMain) boot0 with
      Ok s => pc s = Halted /\ Wakers.strong_count KEYS s = 2%nat | _ => False end) by (vm_compute; by split).
  rewrite Er in Hs. destruct Hs as [Hpc Hs]. destruct (Hh Hpc) as (p & Hc & Hp). exists p. split_and!; [exact Hc|exact Hp| |].
  - rewrite (Hn KEYS p), Hs by (rewrite Hc; apply lookup_singleton_eq). reflexivity.
  - assert (Hl : match (m0 ← new_memory ArcQueue0 TaskSlots0 ExampleTask0 PrintKeypresses0 commands0 heap0;
        run_full ArcQueue0 ScancodeSlots0 drop0 commands0 (replicate 20 EMain) (boot0, m0)) with
      Ok (_, m) => length (blocks ArcQueue0 TaskSlots0 ScancodeSlots0 m) = 7%nat | _ => False end) by (vm_compute; reflexivity).
    rewrite Ek in Hl. exact Hl.
Defined.

(** The kernel sleeps, and a key wakes it up. *)
Lemma executor_allocates_before_first_sleep_witness :
  exists m0 s m s' m', new_memory ArcQueue0 TaskSlots0 ExampleTask0 PrintKeypresses0 commands0 heap0 = Ok m0 /\
    run_full ArcQueue0 ScancodeSlots0 drop0 commands0 (replicate 20 EMain) (boot0, m0) = Ok (s, m) /\
    run_full ArcQueue0 ScancodeSlots0 drop0 commands0 (EKeyboard 30 :: replicate 20 EMain) (s, m) = Ok (s', m') /\
    consumed s' = [30] /\
    blocks ArcQueue0 TaskSlots0 ScancodeSlots0 m' = blocks ArcQueue0 TaskSlots0 ScancodeSlots0 m.
Proof.
  set (S0 := (sys (list_queue Z) (option (list_queue Z)) (option Waker) unit (list Z)
    * memory (FixedSizeBlockAllocator.t BumpAllocator.t))%type).
  assert (Hall : forall (r : res (memory (FixedSizeBlockAllocator.t BumpAllocator.t))) (f g : S0 -> res S0),
    match r with Ok m0 => match f (boot0, m0) with
      | Ok x => pc x.1 = Halted /\ match g x with Ok y => consumed y.1 = [30] | _ => False end
      | _ => False end | _ => False end ->
    exists m0 x y, r = Ok m0 /\ f (boot0, m0) = Ok x /\ pc x.1 = Halted /\ g x = Ok y /\ consumed y.1 = [30]).
  { intros r f g. destruct r as [m0| | |]; [|done..]. destruct (f (boot0, m0)) as [x| | |] eqn:Ef; [|done..].
    destruct (g x) as [y| | |] eqn:Eg; intros [Hpc Hc]; [|done..]. by exists m0, x, y. }
  destruct (Hall (new_memory ArcQueue0 TaskSlots0 ExampleTask0 PrintKeypresses0 commands0 heap0)
    (run_full ArcQueue0 ScancodeSlots0 drop0 commands0 (replicate 20 EMain))
    (run_full ArcQueue0 ScancodeSlots0 drop0 commands0 (EKeyboard 30 :: replicate 20 EMain)))
    as (m0 & [s m] & [s' m'] & Em & Er & Hpc & E2 & Hc); [vm_compute; by split|]. clear Hall.
  pose proof (executor_allocates_before_first_sleep _ _ _ _ _ _ _ 0x444444440000 (0x444444440000 + 102400)
    ArcQueue0 TaskSlots0 ScancodeSlots0 ExampleTask0 PrintKeypresses0 drop0 commands0 (replicate 20 EMain)
    (EKeyboard 30 :: replicate 20 EMain) boot0 s heap0 m0 m [] layouts0 commands0_ok boots_boot0 hp_heap0 Em Er Hpc) as H.
  rewrite E2 in H. destruct H as (_ & Hb & _).
  exists m0, s, m, s', m'. split_and!; [exact Em|exact Er|exact E2|exact Hc|exact Hb].
Defined.
