(* ===== verification/Kernel.v ===== *)
(** * The kernel from its entry point

    [kernel_main] of [src/min-rust-os/src/main.rs] up to [executor.run()], where
    [System.v] and [WakerMemory.v] take over: the banner, [init], paging and the heap,
    the values it puts on the heap, the executor and the tasks with their memory.  Hardware
    interrupts can arrive behind each statement after [init] that prints or uses
    the heap, and behind each turn of the loop ([point]); they are delivered through the
    descriptor tables that [init] has loaded. *)

From S2P Require Import Prelude Fmt Regions Layout GlobalAlloc Bump FixedSizeBlock Frames Paging HeapInit Vga Console Collections Queue Task Keyboard Interrupts Exceptions System Echo Wakers WakerMemory.
From stdpp Require Import base option gmap strings list list_numbers.
From Stdlib Require Import ZArith Lia.
Local Open Scope Z_scope.

#[local] Existing Instances BootInfoFrameAllocator.BootInfo_FrameAllocator
  BootInfoFrameAllocator.BootInfo_FrameAllocatorSafe.

(** Where interrupts can arrive in [kernel_main]. *)
Inductive point :=
| AfterInit | AfterHeap                                (* [init()], [init_heap(...)] *)
| AfterBox | AfterBoxShown                             (* [Box::new(41)], [println!] *)
| AfterPush (i : Z) | AfterVecShown                    (* [vec.push(i)], [println!] *)
| AfterShared | AfterRc | AfterClone | AfterCountShown (* [vec![1, 2, 3]], [Rc::new], [clone], [println!] *)
| AfterDrop | AfterDropShown                           (* [drop], [println!] *)
| AfterExecutor | AfterSpawn (task_id : Z).            (* [Executor::new()], [spawn] *)

(** [bootloader::BootInfo] *)
Record BootInfo := mkBootInfo { physical_memory_offset : Z; memory_map : list MemoryRegion }.

Section kernel.
Context {profile : BuildProfile}.
Context {QS QT C W K E P G M H : Type}.
Context `{AQS : ArrayQueue Z QS} `{AQT : ArrayQueue Z QT} `{OC : OnceCell QS C}.
Context `{AW : AtomicWaker W} `{PK : PcKeyboard K E} `{PIC : ChainedPics P} `{PI : ChainedPicsInit P}.
Context `{GD : Gdt G} `{HE : !Heap H} `{MA : !Mapper M} `{PO : !PagingOps} `{PG : !PageOps} `{PH : !PhysOps}.

(** The statics, the processor and the heap. *)
Record kernel := mkKernel {
  processor : cpu G Handler;
  globals : statics QT C W P;
  heap : Collections.heap (FixedSizeBlockAllocator.t H);
}.

Definition set_processor (c : cpu G Handler) (k : kernel) : kernel := mkKernel c (globals k) (heap k).
Definition set_globals (g : statics QT C W P) (k : kernel) : kernel := mkKernel (processor k) g (heap k).
Definition set_heap (h : Collections.heap (FixedSizeBlockAllocator.t H)) (k : kernel) : kernel :=
  mkKernel (processor k) (globals k) h.

(** The static of [allocator.rs]; [mem] is what its memory holds, which does not matter. *)
Definition ALLOCATOR (mem : gmap Z FixedSizeBlockAllocator.ListNode) : FixedSizeBlockAllocator.t H :=
  FixedSizeBlockAllocator.new mem.

(** ** Interrupts *)

(** [stack_fault] and [rsp] as in [Exceptions.v]: the stack of [kernel_main]. *)
Variable stack_fault : Z -> option Z.
Variable rsp : Z.

Definition raise (v : InterruptIndex) (scancode : Z) (k : kernel) : res kernel :=
  if interrupt_flag (processor k) && pic_accepts (as_u8 v) (PICS (globals k)) then
    o ← exception stack_fault (processor k) rsp (as_u8 v) [] (mkContext [] [] [] scancode)
          (set_PICS (pic_deliver (as_u8 v) (PICS (globals k))) (globals k));
    match o with
    | Resumes g => Ok (set_globals g k)
    | Hangs _ => Diverge
    end
  else Ok k.

Definition serve (es : list event) (k : kernel) : res kernel :=
  for_each (fun e k =>
    match e with
    | EMain => Ok k
    | ETimer => raise Timer 0 k
    | EKeyboard c => raise Keyboard c k
    end) es k.

(** ** The statements of [kernel_main] *)

(** [println!] of [main.rs]. *)
Definition k_println (text : list Z) (k : kernel) : res kernel :=
  g ← main_println text (globals k); Ok (set_globals g k).

Definition show_banner (k : kernel) : res kernel :=
  s ← banner (screen (globals k)); Ok (set_globals (set_screen s (globals k)) k).

(** [min_rust_os::init()]; [stack] is the address of the double fault stack. *)
Definition initialise (stack : Z) (k : kernel) : res kernel :=
  '(c, p) ← init stack (processor k) (PICS (globals k));
  Ok (mkKernel c (set_PICS p (globals k)) (heap k)).

(** Paging and the heap.  [m] is what the page table registers and the memory hold. *)
Definition initialise_heap (OffsetPageTable_new : Z * PageTable -> Z -> M) (m : machine)
    (boot_info : BootInfo) (k : kernel) : res kernel :=
  phys_mem_offset ← virt_addr_new (physical_memory_offset boot_info);
  mapper ← Paging.init OffsetPageTable_new m phys_mem_offset;
  let frame_allocator := BootInfoFrameAllocator.init (memory_map boot_info) in
  '(r, _, _, al) ← init_heap mapper frame_allocator (allocator (heap k));
  match r with
  | Some _ => Panic (UnwrapFailed "heap initialisation failed")
  | None => Ok (set_heap (mkHeap al (ram (heap k))) k)
  end.

Variable irqs : point -> list event.
Definition interrupted (p : point) (k : kernel) : res kernel := serve (irqs p) k.

(** The box. *)
Definition make_box (k : kernel) : res (Z * kernel) :=
  '(heap_value, h) ← Box_new 4 41 (heap k);
  k ← interrupted AfterBox (set_heap h k);
  k ← k_println (bytes_of "Heap value at " ++ pointer heap_value) k;
  k ← interrupted AfterBoxShown k;
  Ok (heap_value, k).

(** The vector. *)
Definition push_loop (xs : list Z) (x : Vec * kernel) : res (Vec * kernel) :=
  for_each (fun i '(vec, k) =>
    '(vec, h) ← push 4 i vec (heap k);
    k ← interrupted (AfterPush i) (set_heap h k);
    Ok (vec, k)) xs x.
Definition make_vec (k : kernel) : res (Vec * kernel) :=
  '(vec, k) ← push_loop (seqZ 0 500) (Vec_new, k);
  k ← k_println (bytes_of "vec at " ++ pointer (buf vec)) k;
  k ← interrupted AfterVecShown k;
  Ok (vec, k).

(** The reference counted vector: both references, and the count that is shown. *)
Definition make_rc (k : kernel) : res (Z * Z * Z * kernel) :=
  '(v, h) ← vec_of 4 [1; 2; 3] (heap k);
  k ← interrupted AfterShared (set_heap h k);
  '(reference_counted, h) ← Rc_new v (heap k);
  k ← interrupted AfterRc (set_heap h k);
  '(cloned_reference, h) ← Rc_clone reference_counted (heap k);
  k ← interrupted AfterClone (set_heap h k);
  n ← Collections.strong_count cloned_reference (heap k);
  k ← k_println (bytes_of "Current reference count is " ++ decimal n) k;
  k ← interrupted AfterCountShown k;
  Ok (reference_counted, cloned_reference, n, k).

Definition drop_rc (reference_counted cloned_reference : Z) (k : kernel) : res (Z * kernel) :=
  h ← Rc_drop reference_counted (heap k);
  k ← interrupted AfterDrop (set_heap h k);
  n ← Collections.strong_count cloned_reference (heap k);
  k ← k_println (bytes_of "Reference count is now: " ++ decimal n) k;
  k ← interrupted AfterDropShown k;
  Ok (n, k).

(** The executor: what it holds, and its memory, which is the heap from here on.  The
    layouts and what the maps do with their nodes as in [WakerMemory.v]. *)
Variables ArcQueue TaskSlots ExampleTask PrintKeypresses : Layout.
Variable map_commands : list map_call -> list command.
Abbreviation memory := (memory (FixedSizeBlockAllocator.t H)).

(** [executor.spawn(Task::new(future))]: [TaskId::new], [Box::pin], [tasks.insert], [push]. *)
Definition spawn (f : kernel_future K) (l : Layout) (x : Executor.t (kernel_future K) QT * Z * memory * kernel) :
    res (Executor.t (kernel_future K) QT * Z * memory * kernel) :=
  let '(executor, NEXT_ID, m, k) := x in
  let '(task, next) := Task_new f NEXT_ID in
  m ← spawn_task map_commands (id task) l m;
  executor ← Executor.spawn task executor;
  k ← interrupted (AfterSpawn (id task)) k;
  Ok (executor, next, m, k).

Definition make_executor (k : kernel) : res (Executor.t (kernel_future K) QT * memory * kernel) :=
  m ← new_executor ArcQueue TaskSlots (heap k);
  k ← interrupted AfterExecutor k;
  x ← spawn example_task ExampleTask (Executor.new, 0, m, k);
  '(executor, _, m, k) ← spawn (print_keypresses None) PrintKeypresses x;
  Ok (executor, m, k).

(** What [kernel_main] still owns when the executor runs, and the two counts. *)
Record locals := mkLocals {
  heap_value : Z; vec : Vec; cloned_reference : Z; first_count : Z; second_count : Z;
}.

(** [kernel_main] up to [executor.run()]. *)
Definition kernel_main (OffsetPageTable_new : Z * PageTable -> Z -> M) (m : machine) (boot_info : BootInfo)
    (stack : Z) (k : kernel) : res (sys QT C W K P * locals * memory) :=
  k ← show_banner k;
  k ← initialise stack k;
  k ← interrupted AfterInit k;
  k ← initialise_heap OffsetPageTable_new m boot_info k;
  k ← interrupted AfterHeap k;
  '(heap_value, k) ← make_box k;
  '(vec, k) ← make_vec k;
  '(reference_counted, cloned_reference, n1, k) ← make_rc k;
  '(n2, k) ← drop_rc reference_counted cloned_reference k;
  '(executor, m, k) ← make_executor k;
  Ok (start executor (globals k), mkLocals heap_value vec cloned_reference n1 n2, m).
End kernel.
Arguments kernel QT C W P G H : clear implicits.

(** ** Facts *)

Section facts.
Context {profile : BuildProfile}.
Context {QS QT C W K E P G M H : Type}.
Context `{AQS : ArrayQueue Z QS} `{AQT : ArrayQueue Z QT} `{OC : OnceCell QS C}.
Context `{AW : AtomicWaker W} `{PK : PcKeyboard K E} `{PIC : ChainedPics P} `{PI : ChainedPicsInit P}.
Context `{GD : Gdt G} `{HE : !Heap H} `{MA : !Mapper M} `{PO : !PagingOps} `{PG : !PageOps} `{PH : !PhysOps}.
Context `{!OnceCellLaws QS C} `{!ChainedPicsLaws P} `{!GdtLaws G} `{!HeapLaws H}.
Context (stack_fault : Z -> option Z) (rsp stack : Z).
Hypothesis stack_fault_vector : forall sp f, stack_fault sp = Some f -> f = STACK_SEGMENT_FAULT \/ f = PAGE_FAULT.
Hypothesis ist_usable : stack_fault (stack + STACK_SIZE) = None.
Hypothesis stack_usable : stack_fault rsp = None.
Abbreviation kernel := (kernel QT C W P G H).

(** The state of the kernel after [init]. *)
Record ready (k : kernel) : Prop := {
  rd_tables : tables_loaded stack (processor k);
  rd_idt : idtr (processor k) = IDT_gates (cs (processor k));
  rd_statics : fresh_statics (globals k);
}.

Lemma fresh_set_screen sc (g : statics QT C W P) :
  Screen.wf sc -> fresh_statics g -> fresh_statics (set_screen sc g).
Proof. intros Hs []. by constructor. Qed.

(** The handlers leave the statics as they need to be, and the line accepted. *)
Lemma raise_ok v c (k : kernel) :
  ready k -> exists k', raise stack_fault rsp v c k = Ok k' /\ ready k' /\ heap k' = heap k.
Proof.
  intros [Ht Hi Hs]. unfold raise. pose proof Hs as [Hcell Hwk Hsc Hp]. rewrite Hp, andb_true_r.
  destruct (interrupt_flag (processor k)); [|by exists k].
  unfold exception. rewrite (deliver_loaded stack_fault stack_fault_vector stack) by done.
  set (g0 := set_PICS (pic_deliver (as_u8 v) (PICS (globals k))) (globals k)).
  assert (Hdone : forall sc, Screen.wf sc -> fresh_statics
    (set_PICS (pic_notify_end_of_interrupt (as_u8 v) (PICS g0)) (set_screen sc g0))).
  { intros sc Hwf. constructor; [done|done|done|]. intros v'. simpl. by rewrite (pic_eoi (as_u8 v) (as_u8 v')). }
  unfold answer. rewrite stack_usable. destruct v.
  - change (IDT !! as_u8 Timer) with (Some (mkEntry timer_interrupt_handler_fn None)).
    cbv iota beta. cbn [handler]. rewrite bool_decide_eq_false_2 by done. cbn [run_handler].
    unfold timer_interrupt_handler. destruct (print_ok (bytes_of ".") g0) as (sc & -> & Hwf); [done|].
    cbn [mbind res_bind]. eexists. split; [reflexivity|]. split; [|done]. constructor; [done|done|]. by apply Hdone.
  - change (IDT !! as_u8 Keyboard) with (Some (mkEntry keyboard_interrupt_handler_fn None)).
    cbv iota beta. cbn [handler]. rewrite bool_decide_eq_false_2 by done. cbn [run_handler port_0x60].
    unfold keyboard_interrupt_handler, add_scancode. change (SCANCODE_QUEUE g0) with (SCANCODE_QUEUE (globals k)).
    rewrite Hcell, oc_get_uninit.
    destruct (println_ok (bytes_of "WARNING: scancode queue uninitialised") g0) as (sc & -> & Hwf); [done|].
    cbn [mbind res_bind]. eexists. split; [reflexivity|]. split; [|done]. constructor; [done|done|]. by apply Hdone.
Qed.

Lemma serve_ok es : forall k : kernel,
  ready k -> exists k', serve stack_fault rsp es k = Ok k' /\ ready k' /\ heap k' = heap k.
Proof.
  induction es as [|e es IH]; intros k Hk; [by exists k|]. unfold serve. cbn [for_each].
  assert (exists k1, match e with EMain => Ok k | ETimer => raise stack_fault rsp Timer 0 k
    | EKeyboard c => raise stack_fault rsp Keyboard c k end = Ok k1 /\ ready k1 /\ heap k1 = heap k)
    as (k1 & -> & Hk1 & Hh1) by (destruct e; [by exists k|by apply raise_ok|by apply raise_ok]).
  destruct (IH k1 Hk1) as (k2 & E2 & Hk2 & Hh2). exists k2. split_and!; [exact E2|done|congruence].
Qed.

Lemma k_println_ok text (k : kernel) :
  ready k -> exists k', k_println text k = Ok k' /\ ready k' /\ heap k' = heap k.
Proof.
  intros [Ht Hi Hs]. unfold k_println.
  destruct (main_println_ok text (globals k)) as (sc & -> & Hwf); [apply Hs|].
  cbn [mbind res_bind]. eexists. split; [reflexivity|]. split; [|done].
  constructor; [done|done|]. by apply fresh_set_screen.
Qed.

(** The ways to stop before the executor runs. *)
Definition boots_or_stops {B} (Q : B -> Prop) (r : res B) : Prop :=
  match r with
  | Ok b => Q b
  | Panic p => p = UnwrapFailed "heap initialisation failed" \/ out_of_memory p
  | Undef => False
  | Diverge => False
  end.

Lemma boots_bind {B B'} (Q' : B -> Prop) (Q : B' -> Prop) (r : res B) (f : B -> res B') :
  boots_or_stops Q' r -> (forall b, Q' b -> boots_or_stops Q (f b)) -> boots_or_stops Q (r ≫= f).
Proof. destruct r; simpl; auto. Qed.

Lemma boots_impl {B} (Q Q' : B -> Prop) (r : res B) :
  boots_or_stops Q r -> (forall b, Q b -> Q' b) -> boots_or_stops Q' r.
Proof. destruct r; simpl; auto. Qed.

Lemma boots_oom {B} (Q : B -> Prop) (r : res B) : ok_or_oom Q r -> boots_or_stops Q r.
Proof. destruct r; simpl; auto. Qed.

(** A statement that neither stops nor touches the heap. *)
Lemma boots_step {B} (k : kernel) (f : kernel -> res kernel) (Q : B -> Prop) (rest : kernel -> res B) :
  (exists k', f k = Ok k' /\ ready k' /\ heap k' = heap k) ->
  (forall k', ready k' -> heap k' = heap k -> boots_or_stops Q (rest k')) ->
  boots_or_stops Q (k' ← f k; rest k').
Proof. intros (k' & -> & Hk & Hh) Hr. by apply Hr. Qed.

Abbreviation heap_hp := (hp (A := FixedSizeBlockAllocator.t H) HEAP_START (HEAP_START + HEAP_SIZE)).
Definition BOX : Layout := mkLayout 4 4.
Context (irqs : point -> list event).
Abbreviation interrupted := (interrupted stack_fault rsp irqs).

Lemma ready_heap h (k : kernel) : ready k -> ready (set_heap h k).
Proof. by intros []. Qed.

(** Interrupts between two statements, and a print. *)
Lemma boots_irq {B} p (k : kernel) (Q : B -> Prop) (rest : kernel -> res B) :
  ready k -> (forall k', ready k' -> heap k' = heap k -> boots_or_stops Q (rest k')) ->
  boots_or_stops Q (k' ← interrupted p k; rest k').
Proof. intros Hk. apply (boots_step k (interrupted p)). by apply serve_ok. Qed.

Lemma boots_println {B} text (k : kernel) (Q : B -> Prop) (rest : kernel -> res B) :
  ready k -> (forall k', ready k' -> heap k' = heap k -> boots_or_stops Q (rest k')) ->
  boots_or_stops Q (k' ← k_println text k; rest k').
Proof. intros Hk. apply (boots_step k (k_println text)). by apply k_println_ok. Qed.

(** A result that is returned with the kernel after a print. *)
Lemma boots_shown {B} text p (k : kernel) (Q : B -> Prop) (ret : kernel -> B) :
  ready k -> (forall k', ready k' -> heap k' = heap k -> Q (ret k')) ->
  boots_or_stops Q (k' ← k_println text k; k' ← interrupted p k'; Ok (ret k')).
Proof.
  intros Hk HQ. apply boots_println; [done|]. intros k1 R1 E1. apply boots_irq; [done|]. intros k2 R2 E2.
  apply HQ; [done|congruence].
Qed.

Lemma make_box_ok (k : kernel) live :
  ready k -> heap_hp (heap k) live ->
  boots_or_stops (fun '(p, k') => ready k' /\ heap_hp (heap k') (Alloc p BOX :: live) /\
    holds 4 p [41] (heap k') /\ keeps live (heap k) (heap k')) (make_box stack_fault rsp irqs k).
Proof.
  intros Hk Hp. unfold make_box. eapply boots_bind;
    [apply boots_oom, (Box_new_ok HEAP_START (HEAP_START + HEAP_SIZE) 4 41 (heap k) live); [by right; right; left|done]|].
  intros [p h] (Hp1 & Hh1 & Hk1). apply boots_irq; [by apply ready_heap|]. intros k1 R1 E1.
  apply (boots_shown _ _ _ _ (fun k' => (p, k'))); [done|]. intros k2 R2 E2. simpl in E1. by rewrite E2, E1.
Qed.

Lemma push_loop_ok xs live : forall ys v (k : kernel),
  ready k -> heap_hp (heap k) (vec_owns 4 v ++ live) -> vec_ok 4 v ys (heap k) -> cap v = capacity 4 (length ys) ->
  4 * (8 * (Z.of_nat (length ys + length xs) + 1)) <= 2 ^ 63 - 1 ->
  boots_or_stops (fun '(v', k') => ready k' /\ heap_hp (heap k') (vec_owns 4 v' ++ live) /\
    vec_ok 4 v' (ys ++ xs) (heap k') /\ keeps live (heap k) (heap k') /\ cap v' = capacity 4 (length (ys ++ xs)))
    (push_loop stack_fault rsp irqs xs (v, k)).
Proof.
  induction xs as [|x xs IH]; intros ys v k Hk Hp Hv Hc Hb.
  { rewrite app_nil_r. simpl. split_and!; [done|done|done|by apply keeps_ram|done]. }
  pose proof Hv as [Hl _ _]. unfold push_loop. cbn [for_each].
  match goal with |- context [for_each ?body xs] => change (for_each body xs) with (push_loop stack_fault rsp irqs xs) end.
  rewrite res_bind_assoc. eapply boots_bind; [apply boots_oom, (push_ok HEAP_START (HEAP_START + HEAP_SIZE) 4 x v ys (heap k) live);
    [by right; right; left|done|done|]|].
  { rewrite Hc, Hl. pose proof (capacity_bounds 4 (length ys)). unfold grown. change (MIN_NON_ZERO_CAP 4) with 4. simpl in Hb. nia. }
  intros [v1 h1] (Hp1 & Hv1 & Hk1 & Hc1). rewrite res_bind_assoc.
  apply boots_irq; [by apply ready_heap|]. intros k1 R1 E1. simpl in E1. cbn [mbind res_bind].
  eapply boots_impl; [apply (IH (ys ++ [x])); [done|by rewrite E1|by rewrite E1| |]|].
  - rewrite Hc1, Hc, Hl, length_app, Nat.add_comm. done.
  - rewrite length_app. simpl in *. rewrite <- Nat.add_assoc. done.
  - intros [v2 k2]. rewrite <- app_assoc, E1. intros (? & ? & ? & ? & ?). split_and!; try done. by eapply keeps_trans.
Qed.

Lemma make_vec_ok (k : kernel) live :
  ready k -> heap_hp (heap k) live ->
  boots_or_stops (fun '(v, k') => ready k' /\ heap_hp (heap k') (vec_block 4 v :: live) /\
    vec_ok 4 v (seqZ 0 500) (heap k') /\ cap v = 512 /\ keeps live (heap k) (heap k')) (make_vec stack_fault rsp irqs k).
Proof.
  intros Hk Hp. unfold make_vec. eapply boots_bind;
    [apply (push_loop_ok (seqZ 0 500) live [] Vec_new k); [done|done|done|done|rewrite length_seqZ; simpl; lia]|].
  intros [v k1] (R1 & Hp1 & Hv1 & Hk1 & Hc).
  assert (capacity 4 (length ([] ++ seqZ 0 500)) = 512) as E512 by (vm_compute; reflexivity). rewrite E512 in Hc.
  rewrite vec_owns_cons in Hp1 by lia.
  apply (boots_shown _ _ _ _ (fun k' => (v, k'))); [done|]. intros k2 R2 E2. rewrite E2.
  split_and!; [exact R2|exact Hp1|exact Hv1|exact Hc|exact Hk1].
Qed.

Lemma make_rc_ok (k : kernel) live :
  ready k -> heap_hp (heap k) live ->
  boots_or_stops (fun '(rc, rc', n, k') => ready k' /\ rc' = rc /\ n = 2 /\
    exists v, heap_hp (heap k') (Alloc rc RcBox :: vec_block 4 v :: live) /\
      vec_ok 4 v [1; 2; 3] (heap k') /\ rc_ok rc 2 v (heap k') /\ keeps live (heap k) (heap k'))
    (make_rc stack_fault rsp irqs k).
Proof.
  intros Hk Hp. unfold make_rc. eapply boots_bind;
    [apply boots_oom, (vec_of_ok HEAP_START (HEAP_START + HEAP_SIZE) 4 [1; 2; 3] (heap k) live); [by right; right; left|done|done|simpl; lia]|].
  intros [v h1] (Hp1 & Hv1 & Hk1). apply boots_irq; [by apply ready_heap|]. intros k1 R1 E1. simpl in E1.
  eapply boots_bind; [apply boots_oom, (Rc_new_ok HEAP_START (HEAP_START + HEAP_SIZE)); by rewrite E1|].
  intros [rc h2] (Hp2 & Hr2 & Hk2). apply boots_irq; [by apply ready_heap|]. intros k2 R2 E2. simpl in E2. rewrite E2.
  destruct (Rc_clone_ok _ _ rc 1 v h2 _ Hp2 Hr2) as (h3 & -> & Hp3 & Hr3 & Hk3); [unfold WORD; lia|].
  cbn [mbind res_bind]. apply boots_irq; [by apply ready_heap|]. intros k3 R3 E3. simpl in E3. rewrite E3.
  rewrite (strong_count_ok _ _ _ _ Hr3). cbn [mbind res_bind].
  apply (boots_shown _ _ _ _ (fun k' => (rc, rc, 1 + 1, k'))); [done|]. intros k4 R4 E4. rewrite E4, E3. split_and!; [done..|].
  rewrite E1 in Hk2. assert (keeps (vec_block 4 v :: live) h1 h3) as Hk13 by (by eapply keeps_trans).
  exists v. split_and!; [done| |done|].
  - eapply vec_ok_keeps; [lia|by left|exact Hk13|exact Hv1].
  - eapply keeps_trans; [exact Hk1|]. eapply (keeps_mono live (vec_block 4 v :: live)); [intros b Hb; by right|exact Hk13].
Qed.

Lemma drop_rc_ok rc v (k : kernel) live :
  ready k -> heap_hp (heap k) (Alloc rc RcBox :: live) -> rc_ok rc 2 v (heap k) ->
  boots_or_stops (fun '(n, k') => ready k' /\ n = 1 /\ heap_hp (heap k') (Alloc rc RcBox :: live) /\
    rc_ok rc 1 v (heap k') /\ keeps live (heap k) (heap k')) (drop_rc stack_fault rsp irqs rc rc k).
Proof.
  intros Hk Hp Hr. unfold drop_rc.
  destruct (Rc_drop_ok _ _ rc 2 v (heap k) live Hp Hr) as (h1 & -> & Hp1 & Hr1 & Hk1); [lia|].
  cbn [mbind res_bind]. apply boots_irq; [by apply ready_heap|]. intros k1 R1 E1. simpl in E1. rewrite E1.
  rewrite (strong_count_ok _ _ _ _ Hr1). cbn [mbind res_bind].
  apply (boots_shown _ _ _ _ (fun k' => (2 - 1, k'))); [done|]. intros k2 R2 E2. by rewrite E2, E1.
Qed.

Context `{!ChainedPicsInitLaws P} `{!MapperLaws M} `{!PagingLaws} `{!PageLaws} `{!PhysLaws}.

Lemma show_banner_ok (k : kernel) :
  Screen.wf (screen (globals k)) ->
  exists sc, show_banner k = Ok (set_globals (set_screen sc (globals k)) k) /\ Screen.wf sc.
Proof.
  intros Hwf. unfold show_banner. rewrite banner_print by done.
  match goal with |- context [Screen.print_bin ?p ?s] =>
    destruct (Screen.print_bin_wf p s Hwf) as (sc & -> & Hsc) end. by exists sc.
Qed.

(** What a box holds survives what happens to others. *)
Lemma box_kept p (h h' : Collections.heap (FixedSizeBlockAllocator.t H)) live :
  keeps live h h' -> Alloc p BOX ∈ live -> holds 4 p [41] h -> holds 4 p [41] h'.
Proof. intros Hk Hp. eapply (holds_keeps 4 p [41] (Alloc p BOX)); [lia|done|reflexivity|done]. Qed.

(** What the bootloader hands over: interrupts are set up by no one yet, the lines of
    the timer and of the keyboard are not masked, the statics have their initial
    values, and the complete physical memory is mapped. *)
Record handed_over (m : machine) (boot_info : BootInfo) (k : kernel) : Prop := {
  ho_tr : tr (processor k) = None;
  ho_lines : forall v, pic_unmasked (as_u8 v - PIC_1_OFFSET) (PICS (globals k)) = true;
  ho_screen : Screen.wf (screen (globals k));
  ho_cell : SCANCODE_QUEUE (globals k) = oc_uninit;
  ho_waker : WAKER (globals k) = aw_new;
  ho_heap : exists mem, allocator (heap k) = ALLOCATOR mem;
  ho_offset : canonical (physical_memory_offset boot_info);
  ho_mapped : exists tables, phys_mapped m (physical_memory_offset boot_info) tables;
  ho_frames : BootInfoFrameAllocator.map_ok (memory_map boot_info);
}.

Lemma initialise_ok (k : kernel) :
  tr (processor k) = None -> (forall v, pic_unmasked (as_u8 v - PIC_1_OFFSET) (PICS (globals k)) = true) ->
  Screen.wf (screen (globals k)) -> SCANCODE_QUEUE (globals k) = oc_uninit -> WAKER (globals k) = aw_new ->
  exists k', initialise stack k = Ok k' /\ ready k' /\ heap k' = heap k.
Proof.
  intros Htr Hl Hwf Hc Hw. unfold initialise.
  destruct (init_loads stack (processor k) (PICS (globals k)) Htr) as (c & -> & Ht & Hi & _). cbn [mbind res_bind].
  eexists. split; [reflexivity|]. split; [|done]. constructor; [done|done|]. constructor; [done|done|done|].
  intros v. simpl. replace (as_u8 v) with (PIC_1_OFFSET + (as_u8 v - PIC_1_OFFSET)) by lia.
  apply pic_initialize_spec; [|apply Hl]. destruct v; unfold as_u8, PIC_1_OFFSET; lia.
Qed.

Lemma initialise_heap_ok (OffsetPageTable_new : Z * PageTable -> Z -> M) m boot_info (k k0 : kernel) :
  handed_over m boot_info k0 -> ready k -> heap k = heap k0 ->
  boots_or_stops (fun k' => ready k' /\ heap_hp (heap k') []) (initialise_heap OffsetPageTable_new m boot_info k).
Proof.
  intros [_ _ _ _ _ [mem Hm] Ho [tables Ht] Hf] Hk Eh. unfold initialise_heap.
  rewrite virt_addr_new_ok by done. cbn [mbind res_bind]. unfold Paging.init, active_level_4_table.
  destruct (pm_cr3 _ _ _ Ht) as [t4 Ht4]. destruct (pm_offset _ _ _ Ht (cr3 m)) as [Hcan _]; [done|].
  rewrite virt_addr_add_ok by done. cbn [mbind res_bind]. unfold deref_table.
  rewrite (pm_tables _ _ _ Ht _ _ Ht4). cbn [mbind res_bind]. rewrite Eh, Hm. unfold ALLOCATOR.
  match goal with |- context [init_heap ?mp ?fa ?al] =>
    destruct (init_heap_returns mp fa mem []) as (r & m' & a' & al' & -> & Hal) end.
  { simpl. split_and!; [done|lia|unfold WORD; lia|constructor]. }
  cbn [mbind res_bind]. destruct r as [e|]; [by left|]. cbn [boots_or_stops]. split; [by apply ready_heap|].
  split; [|apply client_ok_nil]. by apply Hal.
Qed.
End facts.

(** ** Dependencies that satisfy the laws *)

Module KernelReference.
Export System.Reference ExceptionsReference.

(** The level 4 table lies at the physical address 0x1000, which is mapped at
    0x10000001000. *)
Definition table0 : PageTable := fun _ => FrameNotPresent.
Definition machine0 : machine :=
  mkMachine 0x1000 (fun a => if a =? 0x10000001000 then Some table0 else None).
(** 128 KiB of memory are enough for the 25 pages of the heap. *)
Definition memory0 : list MemoryRegion := [mkRegion 0x1000 0x2000 (Unusable 2); mkRegion 0x2000 0x22000 Usable].
Lemma memory0_ok : BootInfoFrameAllocator.map_ok memory0.
Proof. split; [forall_elems ltac:(simpl; lia)|forall_elems ltac:(by split)|done]. Qed.
Definition boot_info0 : BootInfo := mkBootInfo 0x10000000000 memory0.
Definition kernel0 : kernel (list_queue Z) (option (list_queue Z)) (option Waker) (list Z)
    (list (option Descriptor)) BumpAllocator.t :=
  mkKernel cpu0 statics0 (mkHeap (FixedSizeBlockAllocator.new ∅) ∅).

Lemma handed_over0 : handed_over machine0 boot_info0 kernel0.
Proof.
  constructor; try done.
  - constructor; simpl; [apply wf_cleared|unfold BUFFER_WIDTH; lia..].
  - by exists ∅.
  - left. simpl. lia.
  - exists (fun f => if f =? 0x1000 then Some table0 else None). constructor.
    + intros f [t Hf]. destruct (Z.eqb_spec f 0x1000) as [->|]; [|done]. split; [left; simpl; lia|lia].
    + intros f t Hf. destruct (Z.eqb_spec f 0x1000) as [->|]; [|done]. injection Hf as <-. reflexivity.
    + by exists table0.
  - exact memory0_ok.
Qed.
End KernelReference.
Import KernelReference.

(** ** Properties *)

Section properties.
Context {profile : BuildProfile}.
Context {QS QT C W K E P G M H : Type}.
Context `{AQS : ArrayQueue Z QS} `{AQT : ArrayQueue Z QT} `{OC : OnceCell QS C}.
Context `{AW : AtomicWaker W} `{PK : PcKeyboard K E} `{PIC : ChainedPics P} `{PI : ChainedPicsInit P}.
Context `{GD : Gdt G} `{HE : !Heap H} `{MA : !Mapper M} `{PO : !PagingOps} `{PG : !PageOps} `{PH : !PhysOps}.
Context (L1 : OnceCellLaws QS C) (L2 : ChainedPicsLaws P) (L3 : GdtLaws G) (L4 : HeapLaws H).
Context (L5 : ChainedPicsInitLaws P) (L6 : MapperLaws M) (L7 : PagingLaws) (L8 : PageLaws) (L9 : PhysLaws).
Context (L10 : ArrayQueueLaws Z QT) (L11 : ArrayQueueLaws Z QS) (L12 : AtomicWakerLaws W).
Context (stack_fault : Z -> option Z) (rsp stack : Z) (irqs : point -> list event).
Context (ArcQueue TaskSlots ScancodeSlots ExampleTask PrintKeypresses : Layout) (map_commands : list map_call -> list command).
Abbreviation kernel := (kernel QT C W P G H).
Abbreviation memory := (memory (FixedSizeBlockAllocator.t H)).
Abbreviation kernel_main := (kernel_main (K := K) stack_fault rsp irqs ArcQueue TaskSlots ExampleTask PrintKeypresses map_commands).
Abbreviation heap_hp := (hp (A := FixedSizeBlockAllocator.t H) HEAP_START (HEAP_START + HEAP_SIZE)).
Abbreviation blocks := (blocks ArcQueue TaskSlots ScancodeSlots).

(** The blocks that [kernel_main] owns; [v] is the shared vector. *)
Definition kernel_blocks (l : locals) (v : Vec) : list allocation :=
  [Alloc (cloned_reference l) RcBox; vec_block 4 v; vec_block 4 (vec l); Alloc (heap_value l) BOX].

(** The state in which [executor.run()] is called. *)
Record booted (s : sys QT C W K P) (l : locals) (v : Vec) (m : memory) : Prop := {
  bt_boots : boots s;
  bt_counts : first_count l = 2 /\ second_count l = 1;
  bt_box : holds 4 (heap_value l) [41] (contents_of m);
  bt_vec : vec_ok 4 (vec l) (seqZ 0 500) (contents_of m);
  bt_cap : cap (vec l) = 512;
  bt_rc : rc_ok (cloned_reference l) 1 v (contents_of m);
  bt_shared : vec_ok 4 v [1; 2; 3] (contents_of m);
  bt_memory : linked_sys HEAP_START (HEAP_START + HEAP_SIZE) ArcQueue TaskSlots ScancodeSlots s m (kernel_blocks l v);
}.

(** What [kernel_main] owns is still there after others have used the heap. *)
Lemma booted_values s l v m (h : Collections.heap (FixedSizeBlockAllocator.t H)) :
  booted s l v m -> keeps (kernel_blocks l v) (contents_of m) h ->
  holds 4 (heap_value l) [41] h /\ vec_ok 4 (vec l) (seqZ 0 500) h /\ rc_ok (cloned_reference l) 1 v h /\
  vec_ok 4 v [1; 2; 3] h.
Proof.
  intros [_ _ Hbox Hv _ Hr Hsh _] Hk. unfold kernel_blocks in Hk. split_and!.
  - eapply box_kept; [exact Hk|by do 3 right; left|exact Hbox].
  - eapply (vec_ok_keeps 4 (vec l)); [lia| |exact Hk|exact Hv]. by do 2 right; left.
  - eapply (holds_keeps 8 _ _ (Alloc (cloned_reference l) RcBox)); [lia|by left|reflexivity|exact Hk|exact Hr].
  - eapply (vec_ok_keeps 4 v); [lia| |exact Hk|exact Hsh]. by right; left.
Qed.

Section run.
Hypothesis Hlay : layouts_ok ArcQueue TaskSlots ScancodeSlots ExampleTask PrintKeypresses.
Hypothesis Hmap : forall seen, Forall command_ok (map_commands seen).
Hypothesis stack_fault_vector : forall sp f, stack_fault sp = Some f -> f = STACK_SEGMENT_FAULT \/ f = PAGE_FAULT.
Hypothesis ist_usable : stack_fault (stack + STACK_SIZE) = None.
Hypothesis stack_usable : stack_fault rsp = None.

Lemma spawn_kernel_tasks_ok :
  exists ex1 ex n, Executor.spawn (mkTask 0 example_task) Executor.new = Ok ex1 /\
    Executor.spawn (mkTask KEYS (@print_keypresses K None)) ex1 = Ok ex /\
    spawn_kernel_tasks (QT := QT) (K := K) 0 = Ok (ex, n).
Proof.
  destruct (Spawn.spawn_all_spawned (Q := QT) 0 [example_task; @print_keypresses K None])
    as ([ex n] & E1 & _); [by split|simpl; lia|].
  unfold spawn_kernel_tasks. rewrite E1. unfold Spawn.spawn_all in E1. cbn [for_each] in E1.
  change (Task_new (@example_task K) 0) with (mkTask 0 (@example_task K), 1) in E1. cbn iota beta in E1.
  destruct (Executor.spawn (mkTask 0 example_task) Executor.new) as [ex1| | |]; cbn [mbind res_bind] in E1; [|done..].
  change (Task_new (@print_keypresses K None) 1) with (mkTask KEYS (@print_keypresses K None), 2) in E1.
  cbn iota beta in E1.
  destruct (Executor.spawn (mkTask KEYS _) ex1) as [ex2| | |] eqn:E2; cbn [mbind res_bind] in E1; [|done..].
  injection E1 as <- <-. by exists ex1, ex2, 2.
Qed.

(** The executor's memory fails for lack of memory only; interrupts do not interfere. *)
Lemma make_executor_ok (k : kernel) live :
  ready stack k -> heap_hp (heap k) live ->
  boots_or_stops (fun '(ex, m, k') => ready stack k' /\ boots (start ex (globals k')) /\
      linked_sys HEAP_START (HEAP_START + HEAP_SIZE) ArcQueue TaskSlots ScancodeSlots (start ex (globals k')) m live /\
      keeps live (heap k) (contents_of m))
    (make_executor (K := K) stack_fault rsp irqs ArcQueue TaskSlots ExampleTask PrintKeypresses map_commands k).
Proof.
  intros Hk Hp. destruct spawn_kernel_tasks_ok as (ex1 & ex & n & E1 & E2 & Esp).
  assert (Hboots : forall k' : kernel, ready stack k' -> boots (start ex (globals k')))
    by (intros k' R'; exists ex, n, (globals k'); split_and!; [done|apply R'|done]).
  pose proof (new_memory_ok HEAP_START (HEAP_START + HEAP_SIZE) _ _ _ _ _ map_commands Hlay Hmap _ (heap k) live (Hboots k Hk) Hp) as Hm.
  unfold make_executor, spawn, new_memory in *.
  destruct (new_executor _ _ _) as [m1|p| |]; cbn [mbind res_bind] in *; [|by right|done..].
  eapply boots_irq; [done..|]. intros k1 R1 _.
  change (Task_new (@example_task K) 0) with (mkTask 0 (@example_task K), 1). cbn [id].
  destruct (spawn_task map_commands 0 _ _) as [m2|p| |]; cbn [mbind res_bind] in *; [|by right|done..].
  rewrite E1. cbn [mbind res_bind]. rewrite res_bind_assoc. eapply boots_irq; [done..|]. intros k2 R2 _. cbn [mbind res_bind].
  change (Task_new (@print_keypresses K None) 1) with (mkTask KEYS (@print_keypresses K None), 2). cbn [id].
  destruct (spawn_task map_commands KEYS _ _) as [m3|p| |]; cbn [mbind res_bind] in *; [|by right|done..].
  rewrite E2. cbn [mbind res_bind]. rewrite res_bind_assoc. eapply boots_irq; [done..|]. intros k3 R3 _.
  destruct Hm as [Hl Hkp]. split_and!; [done|by apply Hboots| |exact Hkp].
  destruct (boots_tasks _ (Hboots k Hk)) as (A1 & A2 & A3 & A4). destruct (boots_tasks _ (Hboots k3 R3)) as (B1 & B2 & B3 & B4).
  eapply linked_same; [exact Hl|done|done|by rewrite A2, B2|by rewrite A3, B3].
Qed.

Lemma kernel_main_ok (OffsetPageTable_new : Z * PageTable -> Z -> M) (m : machine) (boot_info : BootInfo) (k : kernel) :
  handed_over m boot_info k ->
  boots_or_stops (fun '(s, l, mem) => exists v, booted s l v mem) (kernel_main OffsetPageTable_new m boot_info stack k).
Proof.
  intros Hho. unfold Kernel.kernel_main.
  destruct (show_banner_ok k (ho_screen _ _ _ Hho)) as (sc & -> & Hsc). cbn [mbind res_bind].
  eapply (boots_step stack _ (initialise stack)).
  { destruct Hho. by apply (initialise_ok (PI := PI) stack). }
  intros k1 R1 E1. eapply boots_irq; [done..|]. intros k2 R2 E2.
  eapply boots_bind; [eapply (initialise_heap_ok stack _ m boot_info _ k); [done|done|by rewrite E2, E1]|].
  intros k3 [R3 H3]. eapply boots_irq; [done..|]. intros k4 R4 E4. rewrite <- E4 in H3.
  eapply boots_bind; [by apply (make_box_ok stack_fault rsp stack stack_fault_vector ist_usable stack_usable irqs k4 [])|].
  intros [p k5] (R5 & H5 & Hb5 & _).
  eapply boots_bind; [by apply (make_vec_ok stack_fault rsp stack stack_fault_vector ist_usable stack_usable irqs k5 [Alloc p BOX])|].
  intros [v k7] (R7 & H7 & Hv7 & Hc7 & K7).
  eapply boots_bind; [by apply (make_rc_ok stack_fault rsp stack stack_fault_vector ist_usable stack_usable irqs k7 [vec_block 4 v; Alloc p BOX])|].
  intros [[[rc rc'] n1] k9] (R9 & -> & -> & v3 & H9 & Hv9 & Hr9 & K9).
  eapply boots_bind; [by apply (drop_rc_ok stack_fault rsp stack stack_fault_vector ist_usable stack_usable irqs rc v3 k9 [vec_block 4 v3; vec_block 4 v; Alloc p BOX])|].
  intros [n2 k11] (R11 & -> & H11 & Hr11 & K11).
  eapply boots_bind; [by apply (make_executor_ok k11)|]. intros [[ex mem] k13] (R13 & Hb13 & Hl13 & K13).
  cbn [boots_or_stops]. exists v3.
  assert (Hbt : forall h, keeps [Alloc rc RcBox; vec_block 4 v3; vec_block 4 v; Alloc p BOX] (heap k11) h ->
    holds 4 p [41] h /\ vec_ok 4 v (seqZ 0 500) h /\ rc_ok rc 1 v3 h /\ vec_ok 4 v3 [1; 2; 3] h).
  { intros h Kh. split_and!.
    - eapply (box_kept p _ _ _ Kh); [by right; right; right; left|]. eapply (box_kept p _ _ _ K11); [by right; right; left|].
      eapply (box_kept p _ _ _ K9); [by right; left|]. eapply (box_kept p _ _ _ K7); [by left|exact Hb5].
    - eapply (vec_ok_keeps 4 v); [lia|by right; right; left|exact Kh|].
      eapply (vec_ok_keeps 4 v _ [vec_block 4 v3; vec_block 4 v; Alloc p BOX]); [lia|by right; left|exact K11|].
      eapply (vec_ok_keeps 4 v _ [vec_block 4 v; Alloc p BOX]); [lia|by left|exact K9|exact Hv7].
    - eapply (holds_keeps 8 _ _ (Alloc rc RcBox)); [lia|by left|reflexivity|exact Kh|exact Hr11].
    - eapply (vec_ok_keeps 4 v3); [lia|by right; left|exact Kh|].
      eapply (vec_ok_keeps 4 v3 _ [vec_block 4 v3; vec_block 4 v; Alloc p BOX]); [lia|by left|exact K11|exact Hv9]. }
  destruct (Hbt _ K13) as (V1 & V2 & V3 & V4). by constructor.
Qed.

(** A kernel that has booted settles, unless memory runs out; then it goes on for ever. *)
Lemma booted_runs drop_ArrayQueue s l v m :
  booted s l v m ->
  match run_full ArcQueue ScancodeSlots drop_ArrayQueue map_commands (settle s) (s, m) with
  | Ok (s1, m1) => pc s1 = Halted /\
      forall ess, Forall (fun es => (keys es <= 100)%nat) ess ->
        exists s2 m2, run_full ArcQueue ScancodeSlots drop_ArrayQueue map_commands (schedule ess s1) (s1, m1) = Ok (s2, m2) /\
          pc s2 = Halted /\ consumed s2 = observe delivered (schedule ess s1) s1 /\ blocks m2 = blocks m1
  | Panic p => out_of_memory p
  | Undef => False
  | Diverge => False
  end.
Proof.
  intros [Hb _ _ _ _ _ _ Hl]. pose proof (boots_spec s Hb) as (Hi & _ & Ha0). pose proof (boots_owned s Hb) as Hw.
  destruct (halts (steps_left s) s Hi) as (s1 & E1 & Hi1 & Hpc1 & Ha1); [done|]. fold (settle s) in E1.
  pose proof (run_full_ok HEAP_START (HEAP_START + HEAP_SIZE) _ _ _ _ _ drop_ArrayQueue map_commands Hlay Hmap (settle s) _ s m Hi Hw Hl) as Hr.
  rewrite E1 in Hr. destruct (run_full _ _ _ _ (settle s) (s, m)) as [[s' m1]|p| |]; cbn [runs_like] in Hr; [|by destruct Hr|done..].
  destruct Hr as ([= <-] & Hl1 & _). split; [done|]. intros ess Hess.
  destruct (schedule_ok ess s1 Hi1 Hpc1 Hess) as (s2 & E2 & Hi2 & Hpc2 & Ha2 & _).
  destruct (halted_idle s2 Hi2 Hpc2) as (_ & _ & Hc2 & _).
  pose proof (run_full_alone HEAP_START (HEAP_START + HEAP_SIZE) _ _ _ _ _ drop_ArrayQueue map_commands Hlay Hmap (schedule ess s1) _ s1 m1
    Hi1 (owned_run _ s s1 Hi Hw E1) (halted_alone _ s s1 Hb E1 Hpc1) Hl1) as Hf.
  rewrite E2 in Hf. destruct (run_full _ _ _ _ (schedule ess s1) (s1, m1)) as [[s3 m2]|p| |]; cbn [runs_in_place] in Hf; [|done..].
  destruct Hf as ([= <-] & _ & _ & Hbl). exists s2, m2. split_and!; [done|done| |done]. by rewrite Hc2, Ha2, Ha1, Ha0.
Qed.
End run.

(** C6: the kernel boots.  From what the bootloader hands over, however many timer and
    keyboard interrupts arrive behind the statements of [kernel_main] after [init], it
    either stops because a page of the heap could not be mapped or the heap is exhausted,
    with the message that says so, or it reaches [executor.run()] in the state [boots]
    that the theorems of [System.v] start from.  Then the two reference counts that were
    printed are 2 and 1.  The heap holds the box with 41, the vector with the numbers below 500 in
    a block for 512, the shared vector with its one remaining reference, and beside them exactly
    the blocks of the new executor ([blocks]: its queue, the boxed futures, the nodes of the
    maps; no waker and no scancode queue yet).  Nothing is undefined and no interrupt is lost in a handler
    that does not return.  From there, left alone, the executor either runs out of memory
    or puts the processor to sleep.  Once it sleeps it does not stop: through
    any number of bursts of up to 100 keys and any ticks, each interleaved with the executor in any way
    and followed by time to settle, it handles every scancode that reaches the
    handler, in the memory it has, and sleeps again. *)
Theorem kernel_boots (drop_ArrayQueue : Z -> Collections.heap (FixedSizeBlockAllocator.t H) -> res (Collections.heap (FixedSizeBlockAllocator.t H)))
    (OffsetPageTable_new : Z * PageTable -> Z -> M) (m : machine) (boot_info : BootInfo) (k : kernel) :
  layouts_ok ArcQueue TaskSlots ScancodeSlots ExampleTask PrintKeypresses ->
  (forall seen, Forall command_ok (map_commands seen)) ->
  (forall sp f, stack_fault sp = Some f -> f = STACK_SEGMENT_FAULT \/ f = PAGE_FAULT) ->
  stack_fault (stack + STACK_SIZE) = None -> stack_fault rsp = None ->
  handed_over m boot_info k ->
  boots_or_stops (fun '(s, l, mem) =>
    boots s /\ first_count l = 2 /\ second_count l = 1 /\
    load 4 (heap_value l) (contents_of mem) = Ok 41 /\
    Collections.iter 4 (vec l) (contents_of mem) = Ok (seqZ 0 500) /\ cap (vec l) = 512 /\
    (exists v, rc_ok (cloned_reference l) 1 v (contents_of mem) /\ Collections.iter 4 v (contents_of mem) = Ok [1; 2; 3] /\
      heap_hp (contents_of mem) (blocks mem ++ kernel_blocks l v)) /\
    cache mem = ∅ /\ slot mem = None /\ scancode_slots mem = None /\ (forall i, is_Some (boxes mem !! i) <-> i = 0 \/ i = KEYS) /\
    match run_full ArcQueue ScancodeSlots drop_ArrayQueue map_commands (settle s) (s, mem) with
    | Ok (s1, mem1) => pc s1 = Halted /\
        forall ess, Forall (fun es => (keys es <= 100)%nat) ess ->
          exists s2 mem2,
            run_full ArcQueue ScancodeSlots drop_ArrayQueue map_commands (schedule ess s1) (s1, mem1) = Ok (s2, mem2) /\
            pc s2 = Halted /\ consumed s2 = observe delivered (schedule ess s1) s1 /\ blocks mem2 = blocks mem1
    | Panic p => out_of_memory p
    | Undef => False
    | Diverge => False
    end)
    (kernel_main OffsetPageTable_new m boot_info stack k).
Proof.
  intros Hlay Hmap Hvec Hist Hrsp Hho. eapply boots_impl; [by apply kernel_main_ok|].
  intros [[s l] mem] (v & Hbt). pose proof Hbt as [Hb [H1 H2] Hbox Hv Hc Hr Hs Hl].
  destruct (boots_tasks s Hb) as (Ec & Er & Est & Etk). pose proof Hl as [Ho Lc Lb _ Ls _ Lst _ _].
  split_and!; [done|done|done|by apply load_holds|by apply iter_ok|done| | | | | |by eapply booted_runs].
  - exists v. split_and!; [done|by apply iter_ok|apply Ho].
  - apply map_empty. intros i. destruct (cache mem !! i) as [p|] eqn:Ei; [|done].
    destruct (proj1 (Lc i)) as [w Hw]; [by exists p|]. by rewrite Ec in Hw.
  - by rewrite Ls, Er.
  - by apply Lst.
  - intros i. by rewrite Lb, Etk.
Qed.
End properties.

(** Interrupts between the statements, and during the loop. *)
Definition irqs0 (p : point) : list event :=
  match p with
  | AfterInit => [ETimer; EKeyboard 30; EMain]
  | AfterPush 7 => [EKeyboard 30]
  | AfterClone => [ETimer]
  | AfterSpawn 0 => [EKeyboard 158; ETimer]
  | _ => []
  end.
Import WakerMemoryReference.
Abbreviation kernel_main0 :=
  (kernel_main (profile := dev_profile) (K := unit) (M := gmap Z (Z * list PageTableFlag)) stack_fault0 0x10000 irqs0
    ArcQueue0 TaskSlots0 ExampleTask0 PrintKeypresses0 commands0 (fun _ _ => ∅) machine0 boot_info0 0x20000 kernel0).

Lemma kernel_main0_ok : exists x, kernel_main0 = Ok x.
Proof. apply is_ok_inv. vm_compute. reflexivity. Qed.

Lemma kernel_boots_witness :
  exists s l mem, kernel_main0 = Ok (s, l, mem) /\ boots s /\ first_count l = 2 /\ second_count l = 1 /\
    load 4 (heap_value l) (contents_of mem) = Ok 41 /\ cache mem = ∅.
Proof.
  pose proof (kernel_boots (profile := dev_profile) (K := unit) (M := gmap Z (Z * list PageTableFlag)) _ _ _ _ _ _ _ _ _ _ _ _
    stack_fault0 0x10000 0x20000 irqs0 ArcQueue0 TaskSlots0 ScancodeSlots0 ExampleTask0 PrintKeypresses0 commands0 drop0
    (fun _ _ => ∅) machine0 boot_info0 kernel0 layouts0 commands0_ok stack_fault0_vector eq_refl eq_refl handed_over0) as Hb.
  destruct kernel_main0_ok as [[[s l] mem] Ek]. rewrite Ek in Hb. exists s, l, mem. destruct Hb as (H1 & H2 & H3 & H4 & _ & _ & _ & H5 & _).
  split_and!; [exact Ek|exact H1|exact H2|exact H3|exact H4|exact H5].
Defined.
