(* ===== verification/LibTests.v ===== *)
(** * The library's tests

    [cargo test] of the library: [test_kernel_main] of [src/min-rust-os/src/lib.rs] runs
    [init] and then the tests of [src/min-rust-os/src/interrupts.rs] and
    [src/min-rust-os/src/vga_buffer.rs] under the harness, while the timer and the keyboard
    interrupt them; and [tests/basic_boot.rs], which does not enable interrupts. *)

From S2P Require Import Prelude Fmt GlobalAlloc Bump FixedSizeBlock Collections Queue Task Vga Keyboard Interrupts Harness Exceptions System Kernel.
From stdpp Require Import base option gmap strings list.
From Stdlib Require Import ZArith Lia.
Local Open Scope Z_scope.

Section tests.
Context {QS QT C W P G H : Type}.
Context `{AQS : ArrayQueue Z QS} `{AQT : ArrayQueue Z QT} `{OC : OnceCell QS C}.
Context `{AW : AtomicWaker W} `{PIC : ChainedPics P} `{PI : ChainedPicsInit P} `{GD : Gdt G} `{HE : !Heap H}.
Variable stack_fault : Z -> option Z.
Variables stack rsp : Z.
(** What the processor passes to the breakpoint handler. *)
Variable frame : context.

(** What a test works on. *)
Abbreviation computer := (kernel QT C W P G H).

(** What a test does between two points at which interrupts can arrive. *)
Abbreviation action := (computer -> res computer).

(** The library's [WRITER], with its lock held and interrupts disabled. *)
Definition with_WRITER (f : Writer.t -> res Writer.t) : action := fun m =>
  let s := screen (globals m) in
  w ← f (Writer.mk (Screen.lib_column s) (ColourCode_new Pink Black) (Screen.chars s));
  Ok (set_globals (set_screen (Screen.mk (Writer.buffer w) (Writer.column_position w) (Screen.bin_column s)) (globals m)) m).

(** [int3()]; the code behind it runs only if the handler returns. *)
Definition test_breakpoint_exception : action := fun m =>
  o ← exception stack_fault (processor m) rsp BREAKPOINT [] frame (globals m);
  match o with
  | Resumes g => Ok (set_globals g m)
  | Hangs _ => Diverge
  end.

Definition test_println_simple : action := with_WRITER (Writer.println [bytes_of "test_println_simple output"]).
Definition test_println_many : list action :=
  replicate 200 (with_WRITER (Writer.println [bytes_of "test_println_many output"])).
Definition OUTPUT : list Z := bytes_of "Some test string that fits on a single line".
Definition test_println_output : action := with_WRITER (Writer.test_println_output OUTPUT).

(** The interrupts [irqs i] arrive before the [i]-th action. *)
Definition interleave (irqs : nat -> list event) (actions : list action) : action := fun m =>
  for_each (fun '(i, f) m => m ← serve stack_fault rsp (irqs i) m; f m) (imap pair actions) m.

(** A function as a test: every outcome but a return is a failure. *)
Definition test_case (name : string) (f : action) : test computer :=
  mkTest (bytes_of name) (fun m =>
    match f m with
    | Ok m => (m, None)
    | Panic _ => (m, Some (bytes_of "panicked"))
    | Undef | Diverge => (m, Some (bytes_of "did not return"))
    end).

(** The tests in the order of the modules; [irqs n i] arrive in the [n]-th of them. *)
Definition lib_tests (irqs : nat -> nat -> list event) : list (test computer) := [
  test_case "min_rust_os::interrupts::test_breakpoint_exception" (interleave (irqs 0%nat) [test_breakpoint_exception]);
  test_case "min_rust_os::vga_buffer::test_println_simple" (interleave (irqs 1%nat) [test_println_simple]);
  test_case "min_rust_os::vga_buffer::test_println_many" (interleave (irqs 2%nat) test_println_many);
  test_case "min_rust_os::vga_buffer::test_println_output" (interleave (irqs 3%nat) [test_println_output])].

(** [tests/basic_boot.rs] *)
Definition test_println : action := with_WRITER (Writer.println [bytes_of "test_println output"]).
Definition basic_boot_tests : list (test computer) := [test_case "basic_boot::test_println" test_println].

(** [_start] of [tests/basic_boot.rs] with its panic handler, up to the endless loop. *)
Definition basic_boot_start {U} `{SP : SerialPort U} (h : Harness.t U computer) : res (Harness.t U computer) :=
  test_main basic_boot_tests h.

(** ** Facts *)

Context `{!OnceCellLaws QS C} `{!ChainedPicsLaws P} `{!GdtLaws G}.
Hypothesis stack_fault_vector : forall sp f, stack_fault sp = Some f -> f = STACK_SEGMENT_FAULT \/ f = PAGE_FAULT.
Hypothesis ist_usable : stack_fault (stack + STACK_SIZE) = None.
Hypothesis stack_usable : stack_fault rsp = None.

(** A computer whose screen is in order, at least. *)
Definition displays (m : computer) : Prop := Screen.wf (screen (globals m)).

(** An action that returns on every computer that satisfies [I]. *)
Definition passes (I : computer -> Prop) (f : action) : Prop := forall m, I m -> exists m', f m = Ok m' /\ I m'.

Definition all_pass (I : computer -> Prop) (tests : list (test computer)) : Prop :=
  Forall (fun x => exists name f, x = test_case name f /\ passes I f) tests.

(** What a test of the writer needs of [I]. *)
Class Screenwise (I : computer -> Prop) : Prop := {
  sw_wf m : I m -> Screen.wf (screen (globals m));
  sw_set m sc : I m -> Screen.wf sc -> I (set_globals (set_screen sc (globals m)) m);
}.
#[local] Instance ready_Screenwise : Screenwise (ready stack).
Proof. split; [by intros m [_ _ []]|]. intros m sc [] Hs. constructor; [done|done|by apply fresh_set_screen]. Qed.
#[local] Instance displays_Screenwise : Screenwise displays.
Proof. by split. Qed.

(** Interrupts change nothing that the tests need. *)
Lemma interleave_passes irqs actions :
  Forall (passes (ready stack)) actions -> passes (ready stack) (interleave irqs actions).
Proof.
  intros Ha m Hm. unfold interleave. apply (for_each_inv (fun _ m => ready stack m)); [exact Hm|].
  intros done0 [i f] rest m1 E Hm1.
  destruct (serve_ok stack_fault rsp stack stack_fault_vector ist_usable stack_usable (irqs i) m1 Hm1) as (m2 & -> & Hm2 & _).
  cbn [mbind res_bind]. assert (Hin : (i, f) ∈ imap pair actions) by (rewrite E; apply elem_of_app; right; by left).
  apply elem_of_lookup_imap in Hin as (j & g & [= -> ->] & Hg).
  apply (proj1 (Forall_forall _ _) Ha g); [by eapply list_elem_of_lookup_2|done].
Qed.

Lemma breakpoint_passes : passes (ready stack) test_breakpoint_exception.
Proof.
  intros m [Ht Hi Hs]. unfold test_breakpoint_exception, exception.
  rewrite (deliver_loaded stack_fault stack_fault_vector stack) by done. unfold answer.
  change (IDT !! BREAKPOINT) with (Some (mkEntry breakpoint_handler None)). cbv iota beta.
  rewrite bool_decide_eq_false_2, stack_usable by done. cbn [handler run_handler]. unfold breakpoint.
  destruct (println_ok (bytes_of "EXCEPTION: BREAKPOINT" ++ [10] ++ stack_frame frame) (globals m)) as (sc & -> & Hsc); [apply Hs|].
  cbn [mbind res_bind]. eexists. split; [reflexivity|]. constructor; [done|done|by apply fresh_set_screen].
Qed.

Lemma with_WRITER_passes I f :
  Screenwise I -> (forall w, Writer.wf w -> exists w', f w = Ok w' /\ Writer.wf w') -> passes I (with_WRITER f).
Proof.
  intros HI Hf m Hm. pose proof (sw_wf m Hm) as [Hc Hl Hb]. unfold with_WRITER.
  destruct (Hf (Writer.mk (Screen.lib_column (screen (globals m))) (ColourCode_new Pink Black) (Screen.chars (screen (globals m)))))
    as (w & -> & [Hw1 Hw2]); [done|].
  cbn [mbind res_bind]. eexists. split; [reflexivity|]. apply sw_set; [done|]. by constructor.
Qed.

Lemma println_passes I pieces : Screenwise I -> passes I (with_WRITER (Writer.println pieces)).
Proof.
  intros HI. apply with_WRITER_passes; [done|]. intros w Hw. unfold Writer.println, Writer._print.
  rewrite Writer.write_fmt_concat.
  destruct (Writer.write_string_wf (mjoin (pieces ++ [[10]])) w Hw) as (w' & E & Hw' & _). by exists w'.
Qed.

Lemma output_passes : passes (ready stack) test_println_output.
Proof.
  apply with_WRITER_passes; [apply _|]. intros w Hw.
  destruct (Writer.test_println_output_ok OUTPUT w Hw) as (w' & E & Hw' & _); [by repeat constructor|unfold BUFFER_WIDTH; simpl; lia|].
  by exists w'.
Qed.

Lemma lib_tests_pass irqs : all_pass (ready stack) (lib_tests irqs).
Proof.
  repeat constructor; eexists _, _; (split; [reflexivity|]); apply interleave_passes.
  - by apply Forall_singleton, breakpoint_passes.
  - by apply Forall_singleton, println_passes, _.
  - by apply Forall_replicate, println_passes, _.
  - by apply Forall_singleton, output_passes.
Qed.

Lemma basic_boot_tests_pass : all_pass displays basic_boot_tests.
Proof. repeat constructor. eexists _, _. split; [reflexivity|]. apply println_passes, _. Qed.

(** Tests that pass make a verdict without a failure. *)
Lemma verdict_passes I (tests : list (test computer)) : forall m,
  all_pass I tests -> I m -> exists m', verdict tests m = (tests, None, m') /\ I m'.
Proof.
  induction tests as [|x tests IH]; intros m Ht Hm; [by exists m|].
  apply Forall_cons in Ht as [(name & f & -> & Hf) Ht]. destruct (Hf m Hm) as (m1 & E1 & Hm1).
  destruct (IH m1 Ht Hm1) as (m2 & E2 & Hm2). exists m2. cbn [verdict]. simpl call. by rewrite E1, E2.
Qed.

(** A failure's message is one of two. *)
Lemma test_case_plain I (tests : list (test computer)) x m m' info :
  all_pass I tests -> x ∈ tests -> call x m = (m', Some info) -> plain info.
Proof.
  intros Ht Hx. apply (proj1 (Forall_forall _ _)) with (1 := Ht) in Hx as (name & f & -> & _). simpl.
  destruct (f m); intros E; simplify_eq; by apply (bool_decide_unpack _).
Qed.
End tests.

(** ** Properties *)

Section properties.
Context {QS QT C W P G H U : Type}.
Context `{AQS : ArrayQueue Z QS} `{AQT : ArrayQueue Z QT} `{OC : OnceCell QS C}.
Context `{AW : AtomicWaker W} `{PIC : ChainedPics P} `{PI : ChainedPicsInit P} `{GD : Gdt G} `{HE : !Heap H} `{SP : SerialPort U}.
Context (L1 : OnceCellLaws QS C) (L2 : ChainedPicsLaws P) (L3 : ChainedPicsInitLaws P) (L4 : GdtLaws G) (L5 : SerialPortLaws U).

(** Tests that pass are reported as such. *)
Lemma passing_tests_succeed I (tests : list (test (kernel QT C W P G H))) (h : Harness.t U _) :
  all_pass I tests -> I (machine h) -> is_word (Z.of_nat (length tests)) ->
  Forall (fun x => plain (type_name x)) tests ->
  exists h' v, test_main tests h = Ok h' /\ exit_port h' = Some v /\
    qemu_status v = test_success_exit_code /\ sent h' = sent h ++ report (length tests) tests None.
Proof.
  intros Ht Hm Hn Hp. pose proof (test_main_ok tests h Hn Hp) as Hmain.
  destruct (verdict_passes I tests (machine h) Ht Hm) as (m' & Ev & _). rewrite Ev in Hmain.
  destruct Hmain as (h' & v & E1 & E2 & E3 & E4 & _).
  - intros x s s' info. by apply (test_case_plain I).
  - exists h', v. split_and!; [done|done|by apply E3|exact E4].
Qed.

(** C19: the tests of the library pass.  On a computer whose stacks can be used, with the
    statics as they are at the start, whatever is on its screen and whenever the timer and
    the keyboard interrupt, between the tests and within them, [test_kernel_main] runs
    [init] and the four tests (the breakpoint exception is delivered and returned from,
    and the three tests of [println!] find what they print, although the handlers print
    on the same screen), reports each of them on the serial line and ends QEMU with the
    status of a success; so does [tests/basic_boot.rs]. *)
Theorem library_tests_pass (stack_fault : Z -> option Z) (stack rsp : Z) (frame : context)
    (irqs : nat -> nat -> list event) (h : Harness.t U (kernel QT C W P G H)) :
  (forall sp f, stack_fault sp = Some f -> f = STACK_SEGMENT_FAULT \/ f = PAGE_FAULT) ->
  stack_fault (stack + STACK_SIZE) = None -> stack_fault rsp = None ->
  tr (processor (machine h)) = None ->
  (forall v, pic_unmasked (as_u8 v - PIC_1_OFFSET) (PICS (globals (machine h))) = true) ->
  Screen.wf (screen (globals (machine h))) -> SCANCODE_QUEUE (globals (machine h)) = oc_uninit ->
  WAKER (globals (machine h)) = aw_new ->
  let tests := lib_tests stack_fault rsp frame irqs in
  let boot_tests := basic_boot_tests (QT := QT) (C := C) (W := W) (P := P) (G := G) (H := H) in
  (exists h' v, test_kernel_main (initialise stack) tests h = Ok h' /\ exit_port h' = Some v /\
    qemu_status v = test_success_exit_code /\ sent h' = sent h ++ report 4 tests None) /\
  exists h' v, basic_boot_start h = Ok h' /\ exit_port h' = Some v /\
    qemu_status v = test_success_exit_code /\ sent h' = sent h ++ report 1 boot_tests None.
Proof.
  intros Hvec Hist Hrsp Htr Hpics Hwf Hcell Hwk tests boot_tests. split.
  - destruct (initialise_ok stack (machine h)) as (m & Em & Hm & _); [done..|].
    unfold test_kernel_main. rewrite Em. cbn [mbind res_bind].
    apply (passing_tests_succeed (ready stack) tests (mk (SERIAL1 h) m (exit_port h)));
      [by apply lib_tests_pass|done|by vm_compute|by repeat constructor; apply (bool_decide_unpack _)].
  - apply (passing_tests_succeed displays basic_boot_tests h);
      [by apply basic_boot_tests_pass|done|by vm_compute|by repeat constructor; apply (bool_decide_unpack _)].
Qed.
End properties.

Import KernelReference HarnessReference.

Lemma library_tests_pass_witness :
  let h : Harness.t (list Z) _ := mk None kernel0 None in
  let tests := lib_tests stack_fault0 0x10000 (mkContext [] [] [] 0) (fun _ _ => [ETimer; EKeyboard 30]) in
  exists h' v, test_kernel_main (initialise 0x20000) tests h = Ok h' /\ exit_port h' = Some v /\
    qemu_status v = test_success_exit_code /\ sent h' = sent h ++ report 4 tests None.
Proof.
  intros h tests. destruct handed_over0 as [H1 H2 H3 H4 H5 _ _ _ _].
  destruct (library_tests_pass _ _ _ _ _ stack_fault0 0x20000 0x10000 (mkContext [] [] [] 0)
    (fun _ _ => [ETimer; EKeyboard 30]) h stack_fault0_vector eq_refl eq_refl H1 H2 H3 H4 H5) as [Hlib _]. exact Hlib.
Defined.

(** Why [test_println_output] disables interrupts: if a key could be pressed between its
    [writeln!] and the loop that reads the line back, the warning that the handler prints
    would move the line up, and the assertion would fail. *)
Example output_test_interrupted :
  (k ← initialise 0x20000 kernel0;
   interleave stack_fault0 0x10000 (fun i => if decide (i = 1%nat) then [EKeyboard 30] else [])
     [with_WRITER (Writer.write_fmt [[10]; OUTPUT; [10]]);
      with_WRITER (fun w => _ ← Writer.check_output OUTPUT w; Ok w)] k) = Panic AssertFailed.
Proof. vm_compute. reflexivity. Qed.
