(* ===== verification/HeapTests.v ===== *)
(** * The heap tests

    [tests/heap_allocation.rs]: [main] boots like [kernel_main] up to the heap, and the
    three tests run under the harness on the kernel's allocator.  Interrupts arrive
    after [init] and while the tests run; their handlers do not touch the heap. *)

From S2P Require Import Prelude Regions Layout GlobalAlloc Bump FixedSizeBlock Frames Paging HeapInit Vga Collections Queue Task Keyboard Interrupts Harness Exceptions System Kernel.
From stdpp Require Import base option gmap strings list list_numbers.
From Stdlib Require Import ZArith Lia.
Local Open Scope Z_scope.

(** ** The tests on the kernel's allocator *)

Section allocator.
Context {H : Type} `{HL : HeapLaws H}.
Abbreviation heap := (Collections.heap (FixedSizeBlockAllocator.t H)).

(** The heap with [live] handed out, and with a block of the smallest size class that
    is either free or in [live]. *)
Definition hp_small (lo hi : Z) : heap -> list allocation -> Prop :=
  @hp (FixedSizeBlockAllocator.t H) _ (FixedSizeBlockAllocator.reserve_contract 0 1) lo hi.

Lemma hp_small_box lo hi (h : heap) p :
  hp lo hi h [Alloc p (mkLayout 4 4)] -> hp_small lo hi h [Alloc p (mkLayout 4 4)].
Proof.
  intros [Hi Hc]. split; [|exact Hc].
  by apply (FixedSizeBlockAllocator.inv_reserve 0 lo hi _ [Alloc p (mkLayout 4 4)]); [simpl; lia|].
Qed.

(** The first test runs out of memory, or it leaves a small block on its list. *)
Lemma simple_allocation_ok lo hi (h : heap) :
  hp lo hi h [] -> ok_or_oom (fun h' => hp_small lo hi h' []) (simple_allocation h).
Proof.
  intros Hp. change (simple_allocation h) with ('(p, h1) ← Box_new 4 41 h; simple_rest p h1).
  eapply ok_or_oom_bind; [apply (Box_new_ok lo hi 4 41 h []); [by right; right; left|done]|].
  intros [p h1] (Hp1 & Hh1 & _). apply hp_small_box in Hp1.
  eapply ok_or_oom_impl; [eapply (@simple_rest_ok _ _ _ (FixedSizeBlockAllocator.reserve_total 0 1)); done|].
  by intros h' [Hp' _].
Qed.

(** The second one keeps it. *)
Lemma large_keeps_small {profile : BuildProfile} lo hi (h : heap) :
  hp_small lo hi h [] -> ok_or_oom (fun h' => hp_small lo hi h' []) (large_and_multiple_allocations h).
Proof.
  intros Hp. eapply ok_or_oom_impl;
    [eapply (@large_and_multiple_allocations_ok _ _ _ (FixedSizeBlockAllocator.reserve_total 0 1)); done|].
  by intros h' [Hp' _].
Qed.

(** A box of a small value finds that block. *)
Lemma small_box lo hi v (h : heap) :
  hp_small lo hi h [] -> exists x h1, Box_new 8 v h = Ok (x, h1).
Proof.
  intros [Hr _]. unfold Box_new, allocate.
  destruct (FixedSizeBlockAllocator.reserve_alloc 0 1 lo hi (allocator h) [] (mkLayout 8 8) Hr)
    as (p & a & Ea & [(-> & _ & Hn)|[[Hp _] _]]); [by apply layout_okb_spec|..].
  - specialize (Hn eq_refl). vm_compute in Hn. lia.
  - simpl in Hp. change (ga_alloc (allocator h) (mkLayout 8 8)) with
      (FixedSizeBlockAllocator.alloc (allocator h) (mkLayout 8 8)). rewrite Ea. cbn [mbind res_bind].
    rewrite (proj2 (Z.eqb_neq p 0)) by done. by eexists _, _.
Qed.

(** So the third one never runs out of memory. *)
Lemma many_boxes_ok lo hi (h : heap) :
  hp_small lo hi h [] -> exists h', many_boxes h = Ok h' /\ hp_small lo hi h' [].
Proof.
  intros Hp. apply (for_each_inv (fun _ h => hp_small lo hi h [])); [exact Hp|].
  intros _ i _ h1 _ Hp1. destruct (small_box lo hi i h1 Hp1) as (x & h2 & E). rewrite E. cbn [mbind res_bind].
  destruct (@one_box_ok _ _ _ (FixedSizeBlockAllocator.reserve_total 0 1) lo hi i h1 [] x h2 Hp1 E)
    as (h3 & E3 & Hp3 & _). by exists h3.
Qed.
End allocator.

(** ** [main] *)

Section main.
Context {profile : BuildProfile}.
Context {QS QT C W P G M H U : Type}.
Context `{AQS : ArrayQueue Z QS} `{AQT : ArrayQueue Z QT} `{OC : OnceCell QS C}.
Context `{AW : AtomicWaker W} `{PIC : ChainedPics P} `{PI : ChainedPicsInit P} `{SP : SerialPort U}.
Context `{GD : Gdt G} `{HE : !Heap H} `{MA : !Mapper M} `{PO : !PagingOps} `{PG : !PageOps} `{PH : !PhysOps}.
Context (stack_fault : Z -> option Z) (rsp stack : Z).
Abbreviation kernel := (kernel QT C W P G H).

(** The text of a [PanicInfo]. *)
Variable message : panic -> list Z.

(** The interrupts [irqs i] arrive while the [i]-th test runs. *)
Definition heap_test (name : string) (es : list event)
    (f : Collections.heap (FixedSizeBlockAllocator.t H) -> res (Collections.heap (FixedSizeBlockAllocator.t H))) :
    test kernel :=
  mkTest (bytes_of name) (fun k =>
    match k ← serve stack_fault rsp es k; h ← f (heap k); Ok (set_heap h k) with
    | Ok k' => (k', None)
    | Panic p => (k, Some (message p))
    | Undef | Diverge => (k, Some (bytes_of "did not return"))
    end).

Definition heap_tests (irqs : nat -> list event) : list (test kernel) := [
  heap_test "heap_allocation::simple_allocation" (irqs 2%nat) simple_allocation;
  heap_test "heap_allocation::large_and_multiple_allocations" (irqs 3%nat) large_and_multiple_allocations;
  heap_test "heap_allocation::many_boxes" (irqs 4%nat) many_boxes].

(** [main] up to [test_main]. *)
Definition boot (OffsetPageTable_new : Z * PageTable -> Z -> M) (m : Paging.machine) (boot_info : BootInfo)
    (irqs : nat -> list event) (k : kernel) : res kernel :=
  k ← initialise stack k;
  k ← serve stack_fault rsp (irqs 0%nat) k;
  k ← initialise_heap OffsetPageTable_new m boot_info k;
  serve stack_fault rsp (irqs 1%nat) k.

(** [main] with the panic handler behind it, up to the endless loop at its end. *)
Definition main (OffsetPageTable_new : Z * PageTable -> Z -> M) (m : Paging.machine) (boot_info : BootInfo)
    (irqs : nat -> list event) (h : Harness.t U kernel) : res (Harness.t U kernel) :=
  match boot OffsetPageTable_new m boot_info irqs (machine h) with
  | Ok k => test_main (heap_tests irqs) (mk (SERIAL1 h) k (exit_port h))
  | Panic p => test_panic_handler (message p) h
  | Undef => Undef
  | Diverge => Diverge
  end.

(** ** Facts *)

Context `{!OnceCellLaws QS C} `{!ChainedPicsLaws P} `{!GdtLaws G} `{!HeapLaws H}.
Context `{!ChainedPicsInitLaws P} `{!MapperLaws M} `{!PagingLaws} `{!PageLaws} `{!PhysLaws}.
Hypothesis stack_fault_vector : forall sp f, stack_fault sp = Some f -> f = STACK_SEGMENT_FAULT \/ f = PAGE_FAULT.
Hypothesis ist_usable : stack_fault (stack + STACK_SIZE) = None.
Hypothesis stack_usable : stack_fault rsp = None.
Hypothesis message_plain : forall p, plain (message p).

Lemma boot_ok (OffsetPageTable_new : Z * PageTable -> Z -> M) m boot_info irqs (k : kernel) :
  handed_over m boot_info k ->
  boots_or_stops (fun k' => ready stack k' /\ hp HEAP_START (HEAP_START + HEAP_SIZE) (heap k') [])
    (boot OffsetPageTable_new m boot_info irqs k).
Proof.
  intros Hho. unfold boot. eapply (boots_step stack _ (initialise stack)).
  { destruct Hho. by apply (initialise_ok (PI := PI) stack). }
  intros k1 R1 E1. eapply (boots_step stack _ (serve stack_fault rsp _)); [by eapply serve_ok|]. intros k2 R2 E2.
  eapply boots_bind; [eapply (initialise_heap_ok stack _ m boot_info _ k); [done|done|congruence]|].
  intros k3 [R3 H3]. destruct (serve_ok stack_fault rsp stack stack_fault_vector ist_usable stack_usable (irqs 1%nat) k3 R3)
    as (k4 & -> & R4 & E4). simpl. by rewrite E4.
Qed.

(** A test on a kernel that has booted. *)
Lemma heap_test_call name es f (Q : _ -> Prop) (k : kernel) :
  ready stack k -> ok_or_oom Q (f (heap k)) ->
  (exists k', call (heap_test name es f) k = (k', None) /\ ready stack k' /\ Q (heap k') /\ f (heap k) = Ok (heap k')) \/
  (exists p, out_of_memory p /\ call (heap_test name es f) k = (k, Some (message p)) /\ f (heap k) = Panic p).
Proof.
  intros Hk Hf. simpl.
  destruct (serve_ok stack_fault rsp stack stack_fault_vector ist_usable stack_usable es k Hk) as (k1 & -> & R1 & E1).
  cbn [mbind res_bind]. rewrite E1. destruct (f (heap k)) as [h|p| |]; simpl in *; [left|right|done|done].
  - eexists. split_and!; [reflexivity|by apply ready_heap|done|done].
  - by exists p.
Qed.

Lemma heap_tests_plain irqs x (s s' : kernel) info :
  x ∈ heap_tests irqs -> call x s = (s', Some info) -> plain info.
Proof.
  intros Hx. assert (exists name es f, x = heap_test name es f) as (name & es & f & ->).
  { unfold heap_tests in Hx. repeat (apply elem_of_cons in Hx as [->|Hx]; [by eexists _, _, _|]).
    by apply not_elem_of_nil in Hx. }
  simpl. destruct (_ ≫= _); intros E; simplify_eq; [done|by apply (bool_decide_unpack _)..].
Qed.

(** What decides the outcome: the first two tests. *)
Definition first_two (h : Collections.heap (FixedSizeBlockAllocator.t H)) :=
  h ← simple_allocation h; large_and_multiple_allocations h.

(** Which of the tests can fail, and why. *)
Lemma heap_tests_verdict irqs (k : kernel) :
  ready stack k -> hp HEAP_START (HEAP_START + HEAP_SIZE) (heap k) [] ->
  match verdict (heap_tests irqs) k with
  | (passed, None, k') => passed = heap_tests irqs /\ is_ok (first_two (heap k)) = true /\
      hp HEAP_START (HEAP_START + HEAP_SIZE) (heap k') []
  | (passed, Some (x, info), _) => (exists p, out_of_memory p /\ info = message p) /\
      is_ok (first_two (heap k)) = false /\
      exists n, (n < 2)%nat /\ passed = take n (heap_tests irqs) /\ heap_tests irqs !! n = Some x
  end.
Proof.
  intros Hk Hh. unfold heap_tests, first_two. cbn [verdict].
  destruct (heap_test_call "heap_allocation::simple_allocation" (irqs 2%nat) simple_allocation _ k Hk
    (simple_allocation_ok _ _ _ Hh)) as [(k1 & -> & R1 & S1 & ->)|(p & Hp & -> & ->)];
    [|split_and!; [by exists p|done|by exists 0%nat; split_and!; [lia|..]]].
  cbn [mbind res_bind].
  destruct (heap_test_call "heap_allocation::large_and_multiple_allocations" (irqs 3%nat)
    large_and_multiple_allocations _ k1 R1 (large_keeps_small _ _ _ S1)) as [(k2 & -> & R2 & S2 & ->)|(p & Hp & -> & ->)];
    [|split_and!; [by exists p|done|by exists 1%nat; split_and!; [lia|..]]].
  destruct (many_boxes_ok _ _ _ S2) as (h3 & E3 & S3).
  destruct (heap_test_call "heap_allocation::many_boxes" (irqs 4%nat) many_boxes
    (fun h' => hp_small HEAP_START (HEAP_START + HEAP_SIZE) h' []) k2 R2) as [(k3 & -> & R3 & [Hr Hc] & _)|(p & _ & _ & E)].
  - by rewrite E3.
  - split_and!; [done|done|]. split; [exact (FixedSizeBlockAllocator.reserve_inv _ _ _ _ _ _ Hr)|exact Hc].
  - by rewrite E3 in E.
Qed.
End main.

(** ** Properties *)

Section properties.
Context {profile : BuildProfile}.
Context {QS QT C W P G M H U : Type}.
Context `{AQS : ArrayQueue Z QS} `{AQT : ArrayQueue Z QT} `{OC : OnceCell QS C}.
Context `{AW : AtomicWaker W} `{PIC : ChainedPics P} `{PI : ChainedPicsInit P} `{SP : SerialPort U}.
Context `{GD : Gdt G} `{HE : !Heap H} `{MA : !Mapper M} `{PO : !PagingOps} `{PG : !PageOps} `{PH : !PhysOps}.
Context (L1 : OnceCellLaws QS C) (L2 : ChainedPicsLaws P) (L3 : GdtLaws G) (L4 : HeapLaws H).
Context (L5 : ChainedPicsInitLaws P) (L6 : MapperLaws M) (L7 : PagingLaws) (L8 : PageLaws) (L9 : PhysLaws).
Context (L10 : SerialPortLaws U).

(** C20: the heap tests fail for lack of memory only.  From what the bootloader hands
    over, whatever interrupts arrive, the test binary ends QEMU, with the status of a
    success exactly when the heap can be set up and the first two tests return.  Then
    all three tests are reported on the serial line, and everything they allocated
    is freed: the third test, which allocates eight times the heap's size in
    total, cannot fail, since it reuses the small block that the first one has left.
    Otherwise the message on the serial line says that the heap could not be set up,
    or which of the first two tests ran out of memory. *)
Theorem heap_allocation_tests_pass (stack_fault : Z -> option Z) (rsp stack : Z) (message : panic -> list Z)
    (OffsetPageTable_new : Z * PageTable -> Z -> M) (m : Paging.machine) (boot_info : BootInfo)
    (irqs : nat -> list event) (h : Harness.t U (kernel QT C W P G H)) :
  (forall sp f, stack_fault sp = Some f -> f = STACK_SEGMENT_FAULT \/ f = PAGE_FAULT) ->
  stack_fault (stack + STACK_SIZE) = None -> stack_fault rsp = None ->
  (forall p, plain (message p)) -> handed_over m boot_info (machine h) ->
  let tests := heap_tests stack_fault rsp message irqs in
  exists h' v, main stack_fault rsp stack message OffsetPageTable_new m boot_info irqs h = Ok h' /\
    exit_port h' = Some v /\
    (qemu_status v = test_success_exit_code <->
      is_ok (k ← boot stack_fault rsp stack OffsetPageTable_new m boot_info irqs (machine h); first_two (heap k))
        = true) /\
    (qemu_status v = test_success_exit_code ->
      sent h' = sent h ++ report 3 tests None /\ hp HEAP_START (HEAP_START + HEAP_SIZE) (heap (machine h')) []) /\
    (qemu_status v <> test_success_exit_code ->
      exists p, (p = UnwrapFailed "heap initialisation failed" \/ out_of_memory p) /\
       (sent h' = sent h ++ bytes_of "[failed]" ++ [10; 10] ++ bytes_of "Error: " ++ message p ++ [10; 10] \/
        exists n x, (n < 2)%nat /\ tests !! n = Some x /\
          sent h' = sent h ++ report 3 (take n tests) (Some (x, message p)))).
Proof.
  intros Hvec Hist Hrsp Hmsg Hho tests. unfold main.
  pose proof (boot_ok stack_fault rsp stack Hvec Hist Hrsp OffsetPageTable_new m boot_info irqs _ Hho) as Hb.
  destruct (boot _ _ _ _ _ _ _ _) as [k|p| |]; simpl in Hb; [| |done|done].
  - destruct Hb as [Hk Hh].
    pose proof (heap_tests_verdict stack_fault rsp stack message Hvec Hist Hrsp irqs k Hk Hh) as Hv.
    pose proof (test_main_ok tests (mk (SERIAL1 h) k (exit_port h))) as Ht. fold tests in Hv.
    cbn [machine] in Ht. destruct (verdict tests k) as [[passed failed] k'].
    destruct Ht as (h' & v & E1 & E2 & E3 & E4 & E5); [by vm_compute|by repeat constructor; apply (bool_decide_unpack _)| |].
    { intros x s s' info. by apply heap_tests_plain. }
    exists h', v. cbn [mbind res_bind]. destruct failed as [[x info]|].
    + destruct Hv as ((p & Hp & ->) & -> & n & Hn & -> & Hx).
      split_and!; [done|done|by split; [intros ?%E3|]|by intros ?%E3|]. intros _. exists p.
      split; [by right|]. right. by exists n, x.
    + destruct Hv as (-> & -> & Hh'). rewrite E5. split_and!; [done|done|by rewrite E3|done|].
      intros []. by apply E3.
  - destruct (test_panic_handler_ok (message p) h (Hmsg p)) as (h' & E1 & E2 & E3 & _).
    exists h', 0x11. split_and!; [done|done|done|done|]. intros _. exists p. split; [done|by left].
Qed.
End properties.

Import KernelReference.

Lemma heap_allocation_tests_pass_witness :
  let h : Harness.t (list Z) _ := mk None kernel0 None in
  let message := fun _ => bytes_of "panicked" in
  let irqs := fun _ => [ETimer; EKeyboard 30; EMain] in
  exists h' v, main (profile := dev_profile) (M := gmap Z (Z * list PageTableFlag)) stack_fault0 0x10000 0x20000
      message (fun _ _ => ∅) machine0 boot_info0 irqs h = Ok h' /\ exit_port h' = Some v /\
    (qemu_status v = test_success_exit_code <->
      is_ok (k ← boot (profile := dev_profile) (M := gmap Z (Z * list PageTableFlag)) stack_fault0 0x10000 0x20000
        (fun _ _ => ∅) machine0 boot_info0 irqs (machine h); first_two (profile := dev_profile) (heap k)) = true).
Proof.
  intros h message irqs.
  assert (forall p : panic, plain (message p)) as Hm by (intros p; by apply (bool_decide_unpack _)).
  destruct (heap_allocation_tests_pass (profile := dev_profile) (M := gmap Z (Z * list PageTableFlag)) _ _ _ _ _ _ _ _ _ _
    stack_fault0 0x10000 0x20000 message (fun _ _ => ∅) machine0 boot_info0 irqs h
    stack_fault0_vector eq_refl eq_refl Hm handed_over0)
    as (h' & v & E1 & E2 & E3 & _).
  exists h', v. split_and!; [exact E1|exact E2|exact E3].
Defined.
