(* ===== verification/KernelMemory.v ===== *)
(** * The kernel's values while it runs

    [kernel_main] of [src/min-rust-os/src/main.rs] puts a box, a vector and a reference
    counted vector on the heap and still owns them when it calls [executor.run()], which
    uses the same heap for its queues, tasks and wakers ([WakerMemory.v]).  Both
    together, from what the bootloader hands over, under any interrupts. *)

From S2P Require Import Prelude Fmt Regions Layout GlobalAlloc Bump FixedSizeBlock Frames Paging HeapInit Vga Console Collections Queue Task Keyboard Interrupts Exceptions System Echo Wakers WakerMemory Kernel.
From stdpp Require Import base option gmap strings list list_numbers.
From Stdlib Require Import ZArith Lia.
Local Open Scope Z_scope.

Section properties.
Context {profile : BuildProfile}.
Context {QS QT C W K E P G M H : Type}.
Context `{AQS : ArrayQueue Z QS} `{AQT : ArrayQueue Z QT} `{OC : OnceCell QS C}.
Context `{AW : AtomicWaker W} `{PK : PcKeyboard K E} `{PIC : ChainedPics P} `{PI : ChainedPicsInit P}.
Context `{GD : Gdt G} `{HE : !Heap H} `{MA : !Mapper M} `{PO : !PagingOps} `{PG : !PageOps} `{PH : !PhysOps}.
Context (L1 : OnceCellLaws QS C) (L2 : ChainedPicsLaws P) (L3 : GdtLaws G) (L4 : HeapLaws H).
Context (L5 : ChainedPicsInitLaws P) (L6 : MapperLaws M) (L7 : PagingLaws) (L8 : PageLaws) (L9 : PhysLaws).
Context (L10 : ArrayQueueLaws Z QT) (L11 : ArrayQueueLaws Z QS) (L12 : AtomicWakerLaws W).

Section layouts.
Context (ArcQueue TaskSlots ScancodeSlots ExampleTask PrintKeypresses : Layout).
Abbreviation heap_of_kernel := (Collections.heap (FixedSizeBlockAllocator.t H)).
Context (drop_ArrayQueue : Z -> heap_of_kernel -> res heap_of_kernel) (map_commands : list map_call -> list command).

(** [kernel_main] without its end: [es] are the operations and interrupts after
    [executor.run()] has been called. *)
Definition kernel_runs (stack_fault : Z -> option Z) (rsp stack : Z)
    (OffsetPageTable_new : Z * PageTable -> Z -> M) (m : machine) (boot_info : BootInfo)
    (irqs : point -> list event) (es : list event) (k : kernel QT C W P G H) :
    res (sys QT C W K P * locals * memory (FixedSizeBlockAllocator.t H)) :=
  '(s, l, m) ← kernel_main stack_fault rsp irqs ArcQueue TaskSlots ExampleTask PrintKeypresses map_commands
    OffsetPageTable_new m boot_info stack k;
  '(s, m) ← run_full ArcQueue ScancodeSlots drop_ArrayQueue map_commands es (s, m);
  Ok (s, l, m).
End layouts.

(** C7: the kernel's values survive.  From what the bootloader hands over, through any
    interleaving of the executor, its tasks and interrupts, whatever the futures and
    queues need on the heap: unless the heap cannot be set up, memory runs out, or the
    task queue overflows, the box of [kernel_main] still holds 41, its vector the
    numbers below 500, and the shared vector its three numbers with one reference. *)
Theorem kernel_values_survive (ArcQueue TaskSlots ScancodeSlots ExampleTask PrintKeypresses : Layout)
    (drop_ArrayQueue : Z -> Collections.heap (FixedSizeBlockAllocator.t H) -> res (Collections.heap (FixedSizeBlockAllocator.t H)))
    (map_commands : list map_call -> list command) (stack_fault : Z -> option Z) (rsp stack : Z)
    (OffsetPageTable_new : Z * PageTable -> Z -> M) (m : machine) (boot_info : BootInfo)
    (irqs : point -> list event) (es : list event) (k : kernel QT C W P G H) :
  layouts_ok ArcQueue TaskSlots ScancodeSlots ExampleTask PrintKeypresses ->
  (forall seen, Forall command_ok (map_commands seen)) ->
  (forall sp f, stack_fault sp = Some f -> f = STACK_SEGMENT_FAULT \/ f = PAGE_FAULT) ->
  stack_fault (stack + STACK_SIZE) = None -> stack_fault rsp = None ->
  handed_over m boot_info k ->
  match kernel_runs ArcQueue TaskSlots ScancodeSlots ExampleTask PrintKeypresses drop_ArrayQueue map_commands
          stack_fault rsp stack OffsetPageTable_new m boot_info irqs es k with
  | Ok (s, l, mem) =>
      load 4 (heap_value l) (contents_of mem) = Ok 41 /\
      Collections.iter 4 (Kernel.vec l) (contents_of mem) = Ok (seqZ 0 500) /\
      exists v, rc_ok (cloned_reference l) 1 v (contents_of mem) /\ Collections.iter 4 v (contents_of mem) = Ok [1; 2; 3]
  | Panic p =>
      p = UnwrapFailed "heap initialisation failed" \/ out_of_memory p \/ p = UnwrapFailed "task queue full"
  | Undef => False
  | Diverge => False
  end.
Proof.
  intros Hlay Hmap Hvec Hist Hrsp Hho. unfold kernel_runs.
  pose proof (kernel_main_ok (K := K) L1 L2 L3 L4 L5 L6 L7 L8 L9 L10 L12 stack_fault rsp stack irqs _ _ _ _ _ map_commands Hlay Hmap
    Hvec Hist Hrsp OffsetPageTable_new m boot_info k Hho) as Hb.
  destruct (kernel_main _ _ _ _ _ _ _ _ _ _ _ _ _) as [[[s l] m0]|p| |]; cbn [boots_or_stops mbind res_bind] in *; [|tauto|done..].
  destruct Hb as (v & Hbt). pose proof (bt_boots _ _ _ _ _ _ _ _ Hbt) as Hs. pose proof (boots_spec s Hs) as (Hi & _ & _).
  pose proof (run_full_ok HEAP_START (HEAP_START + HEAP_SIZE) _ _ _ _ _ drop_ArrayQueue map_commands Hlay Hmap es _ s m0 Hi (boots_owned s Hs)
    (bt_memory _ _ _ _ _ _ _ _ Hbt)) as Hf.
  destruct (run_full _ _ _ _ es (s, m0)) as [[s' mem]|p| |]; cbn [runs_like mbind res_bind] in *; [| |done..].
  2: { destruct Hf as [?|Hf]; [tauto|]. pose proof (run_events_outcome es s Hi) as Ho. rewrite Hf in Ho. tauto. }
  destruct Hf as (_ & _ & Hk). destruct (booted_values _ _ _ _ _ _ _ _ _ Hbt Hk) as (V1 & V2 & V3 & V4).
  split_and!; [by apply load_holds|by apply iter_ok|]. exists v. split; [exact V3|by apply iter_ok].
Qed.
End properties.

Import KernelReference WakerMemoryReference.

(** The kernel boots under interrupts, sleeps, and handles a key. *)
Definition events0 : list event := replicate 25 EMain ++ [EKeyboard 30; ETimer] ++ replicate 25 EMain.

Lemma kernel_values_survive_witness :
  exists s l mem,
    kernel_runs (profile := dev_profile) (K := unit) (M := gmap Z (Z * list PageTableFlag))
      ArcQueue0 TaskSlots0 ScancodeSlots0 ExampleTask0 PrintKeypresses0 drop0 commands0 stack_fault0 0x10000 0x20000
      (fun _ _ => ∅) machine0 boot_info0 irqs0 events0 kernel0 = Ok (s, l, mem) /\
    consumed s = [30] /\ load 4 (heap_value l) (contents_of mem) = Ok 41 /\
    Collections.iter 4 (Kernel.vec l) (contents_of mem) = Ok (seqZ 0 500).
Proof.
  pose proof (kernel_values_survive (profile := dev_profile) (K := unit) (M := gmap Z (Z * list PageTableFlag))
    _ _ _ _ _ _ _ _ _ _ _ _ ArcQueue0 TaskSlots0 ScancodeSlots0 ExampleTask0 PrintKeypresses0 drop0 commands0
    stack_fault0 0x10000 0x20000 (fun _ _ => ∅) machine0 boot_info0 irqs0 events0 kernel0
    layouts0 commands0_ok stack_fault0_vector eq_refl eq_refl handed_over0) as Hk.
  match type of Hk with match ?r with _ => _ end =>
    assert (Hc : match r with Ok (s, _, _) => consumed s = [30] | _ => False end) by (vm_compute; reflexivity);
    destruct r as [[[s l] mem]| | |]; [|done..]
  end.
  exists s, l, mem. destruct Hk as (H1 & H2 & _). split_and!; [reflexivity|exact Hc|exact H1|exact H2].
Defined.
