(* ===== verification/Panics.v ===== *)
(** * After a panic

    The panic handler of [src/min-rust-os/src/main.rs] prints the message and enters
    [hlt_loop] of [src/min-rust-os/src/lib.rs], which halts until the next interrupt, for
    ever.  A panic outside of an interrupt handler leaves interrupts enabled, so
    the handlers of the timer and of the keyboard go on printing their dots and warnings on
    the same screen. *)

From S2P Require Import Prelude Fmt Regions Layout GlobalAlloc Bump FixedSizeBlock Vga Collections Queue Task Keyboard Interrupts Exceptions System Kernel.
From stdpp Require Import base option gmap strings list.
From Stdlib Require Import ZArith Lia.
Local Open Scope Z_scope.

Section panics.
Context {QS QT C W P G H : Type}.
Context `{AQS : ArrayQueue Z QS} `{AQT : ArrayQueue Z QT} `{OC : OnceCell QS C}.
Context `{AW : AtomicWaker W} `{PIC : ChainedPics P} `{PI : ChainedPicsInit P} `{GD : Gdt G} `{HE : !Heap H}.
Context (stack_fault : Z -> option Z) (rsp stack : Z).
Abbreviation kernel := (kernel QT C W P G H).

(** [hlt_loop]: the processor wakes up for each interrupt, and halts again. *)
Definition hlt_loop (irqs : list event) (k : kernel) : res kernel := serve stack_fault rsp irqs k.

(** A panic of code that runs on the kernel's stack; [message] is the text of the
    [PanicInfo]. *)
Definition panics (message : list Z) (irqs : list event) (k : kernel) : res kernel :=
  o ← panic_handler message (globals k);
  match o with
  | Hangs g => hlt_loop irqs (set_globals g k)
  | Resumes g => Ok (set_globals g k)
  end.

(** ** Facts *)

Context `{!OnceCellLaws QS C} `{!ChainedPicsLaws P}.
Hypothesis stack_fault_vector : forall sp f, stack_fault sp = Some f -> f = STACK_SEGMENT_FAULT \/ f = PAGE_FAULT.
Hypothesis ist_usable : stack_fault (stack + STACK_SIZE) = None.
Hypothesis stack_usable : stack_fault rsp = None.

(** What the handler of an interrupt prints while there is no scancode queue. *)
Definition printed (e : event) : list Z :=
  match e with
  | EMain => []
  | ETimer => bytes_of "."
  | EKeyboard _ => bytes_of "WARNING: scancode queue uninitialised" ++ [10]
  end.
Definition irq (v : InterruptIndex) (c : Z) : event := match v with Timer => ETimer | Keyboard => EKeyboard c end.

(** A handler prints, and changes nothing that the next one needs. *)
Lemma raise_prints v c (k : kernel) :
  ready stack k -> interrupt_flag (processor k) = true ->
  exists k', raise stack_fault rsp v c k = Ok k' /\ ready stack k' /\ interrupt_flag (processor k') = true /\
    Screen.print_lib [printed (irq v c)] (screen (globals k)) = Ok (screen (globals k')).
Proof.
  intros Hk Hif. destruct (raise_ok stack_fault rsp stack stack_fault_vector ist_usable stack_usable v c k Hk)
    as (k' & E & Hk' & _). exists k'. split_and!; [done|done|..]; unfold raise in E; destruct Hk as [Ht Hi Hs].
  - destruct (_ && _); [|by simplify_eq]. destruct (exception _ _ _ _ _ _ _) as [[g|g]| | |]; simpl in E; by simplify_eq.
  - rewrite Hif, (fs_pics _ Hs v) in E. cbn [andb] in E.
    unfold exception in E. rewrite (deliver_loaded stack_fault stack_fault_vector stack) in E by done.
    unfold answer in E. rewrite stack_usable in E. destruct v.
    + change (IDT !! as_u8 Timer) with (Some (mkEntry timer_interrupt_handler_fn None)) in E.
      cbv iota beta in E. cbn [handler] in E. rewrite bool_decide_eq_false_2 in E by done. cbn [run_handler] in E.
      unfold timer_interrupt_handler, print in E. cbn [screen set_PICS] in E.
      change (printed (irq Timer c)) with (bytes_of ".").
      destruct (Screen.print_lib [bytes_of "."] (screen (globals k))) as [sc| | |]; simpl in E; by simplify_eq.
    + change (IDT !! as_u8 Keyboard) with (Some (mkEntry keyboard_interrupt_handler_fn None)) in E.
      cbv iota beta in E. cbn [handler] in E. rewrite bool_decide_eq_false_2 in E by done. cbn [run_handler port_0x60] in E.
      unfold keyboard_interrupt_handler, add_scancode, println in E. cbn [screen set_PICS SCANCODE_QUEUE] in E.
      rewrite (fs_cell _ Hs), oc_get_uninit in E. cbn [irq printed].
      rewrite Screen.print_lib_concat in E. cbn [mjoin list_join app] in E. rewrite ?app_nil_r in E.
      match type of E with context [Screen.print_lib [?t] ?s] =>
        change (Screen.print_lib [t] s = Ok (screen (globals k'))); destruct (Screen.print_lib [t] s) as [sc| | |] end;
        simpl in E; by simplify_eq.
Qed.

Lemma serve_prints es : forall k : kernel,
  ready stack k -> interrupt_flag (processor k) = true ->
  exists k', hlt_loop es k = Ok k' /\ ready stack k' /\
    Screen.print_lib (printed <$> es) (screen (globals k)) = Ok (screen (globals k')).
Proof.
  induction es as [|e es IH]; intros k Hk Hif.
  { exists k. split_and!; [done|done|]. by destruct (screen (globals k)). }
  assert (exists k1, match e with EMain => Ok k | ETimer => raise stack_fault rsp Timer 0 k
    | EKeyboard c => raise stack_fault rsp Keyboard c k end = Ok k1 /\ ready stack k1 /\
      interrupt_flag (processor k1) = true /\ Screen.print_lib [printed e] (screen (globals k)) = Ok (screen (globals k1)))
    as (k1 & E1 & Hk1 & Hif1 & P1).
  { destruct e as [| |c]; [|by apply (raise_prints Timer 0)|by apply (raise_prints Keyboard c)].
    exists k. split_and!; [done..|]. rewrite Screen.print_lib_concat. by destruct (screen (globals k)). }
  destruct (IH k1 Hk1 Hif1) as (k2 & E2 & Hk2 & P2).
  exists k2. unfold hlt_loop, serve in *. cbn [for_each]. rewrite E1. split_and!; [exact E2|done|].
  change (printed <$> e :: es) with ([printed e] ++ (printed <$> es)).
  rewrite Screen.print_lib_app, P1 by apply Hk. exact P2.
Qed.

(** The ticks of the timer. *)
Lemma dots n : mjoin (printed <$> replicate n ETimer) = replicate n 46.
Proof. induction n as [|n IH]; [done|]. cbn. by rewrite <- IH. Qed.
End panics.

(** ** The screen *)

Import Writer.
Abbreviation pink := (ColourCode_new Pink Black).

Lemma split_lines_snoc s : split_lines (s ++ [10]) = split_lines s ++ [[]].
Proof.
  induction s as [|b s IH]; [done|]. cbn [app split_lines]. rewrite IH. destruct (b =? 10); [done|].
  destruct (split_lines_cons s) as (l & ls & ->). done.
Qed.

(** A line feed at the end starts an empty row. *)
Lemma wrap_snoc s : wrap (s ++ [10]) = wrap s ++ [[]].
Proof. unfold wrap. rewrite split_lines_snoc, fmap_app, join_app. done. Qed.

Lemma length_paint_all cc ls : forall under, length (paint_all cc under ls) = length ls.
Proof. induction ls as [|l ls IH]; intros under; simpl; [done|]. by rewrite IH. Qed.

Lemma paint_all_snoc cc ls : forall under,
  ls <> [] -> paint_all cc under (ls ++ [[]]) = paint_all cc under ls ++ [blank_row cc].
Proof.
  induction ls as [|l ls IH]; intros under Hl; [done|]. cbn [app paint_all]. f_equal.
  destruct ls as [|l' ls]; [done|]. by apply IH.
Qed.

(** Each row shows its line. *)
Lemma lookup_paint_all cc ls : forall under i line,
  ls !! i = Some line ->
  exists row, paint_all cc under ls !! i = Some row /\ take (length line) (ascii_character <$> row) = line.
Proof.
  induction ls as [|l ls IH]; intros under [|i] line Hi; simpl in *; [done|done| |by apply IH].
  injection Hi as ->. eexists. split; [reflexivity|]. unfold paint. rewrite fmap_app, <- list_fmap_compose.
  rewrite take_app_length' by (by rewrite length_fmap). apply map_id.
Qed.

(** A window on a window. *)
Lemma last_rows_last {A} n (xs ys : list A) :
  (n <= length xs)%nat -> (1 <= length ys)%nat -> last_rows (S n) (last_rows n xs ++ ys) = last_rows (S n) (xs ++ ys).
Proof.
  intros Hx Hy. unfold last_rows. set (k := (length xs - n)%nat).
  assert (E : xs ++ ys = take k xs ++ (drop k xs ++ ys)) by (by rewrite app_assoc, take_drop).
  rewrite E, !length_app, length_take, length_drop.
  replace (k `min` length xs + (length xs - k + length ys) - S n)%nat with (k + (length ys - 1))%nat by lia.
  rewrite drop_app_add' by (rewrite length_take; lia). f_equal. lia.
Qed.

(** The message stands above a blank row. *)
Lemma message_shown message (sc : Screen.t) :
  Screen.wf sc -> Screen.bin_column sc = 0%nat ->
  exists sc' lst, Screen.print_bin [message; [10]] sc = Ok sc' /\ Screen.wf sc' /\
    Screen.lib_column sc' = Screen.lib_column sc /\ Screen.chars sc !! (BUFFER_HEIGHT - 1)%nat = Some lst /\
    Screen.chars sc' = last_rows (BUFFER_HEIGHT - 1) (take (BUFFER_HEIGHT - 1) (Screen.chars sc)
      ++ paint_all pink lst (wrap (sanitise <$> message))) ++ [blank_row pink].
Proof.
  intros Hwf Hcol. destruct (Screen.print_bin_shows [message; [10]] sc Hwf Hcol) as (lst & sc' & Hl & E & Hlib & (Hb & _)).
  exists sc', lst. destruct (Screen.print_bin_wf [message; [10]] sc Hwf) as (sc1 & E1 & Hwf1).
  rewrite E in E1. injection E1 as <-. split_and!; [done..|]. cbn [buffer] in Hb. rewrite Hb.
  change (mjoin [message; [10]]) with (message ++ [10]). rewrite fmap_app. change (sanitise <$> [10]) with [10].
  rewrite wrap_snoc, paint_all_snoc, app_assoc.
  - change BUFFER_HEIGHT with (S (BUFFER_HEIGHT - 1)) at 1. rewrite last_rows_snoc; [done|].
    rewrite length_app, length_take. destruct (Screen.wf_chars _ Hwf) as [-> _]. unfold BUFFER_HEIGHT. lia.
  - destruct (wrap_cons (sanitise <$> message)) as (l & ls & ->). done.
Qed.

(** What the library's writer prints on a blank last row. *)
Lemma lib_shown pieces (sc : Screen.t) :
  Screen.wf sc -> Screen.chars sc !! (BUFFER_HEIGHT - 1)%nat = Some (blank_row pink) ->
  exists sc', Screen.print_lib pieces sc = Ok sc' /\
    Screen.chars sc' = last_rows BUFFER_HEIGHT (take (BUFFER_HEIGHT - 1) (Screen.chars sc)
      ++ paint_all pink (blank_row pink) (wrap (replicate (Screen.lib_column sc) 32 ++ (sanitise <$> mjoin pieces)))).
Proof.
  intros [Hw Hl _] Hlast.
  pose proof (at_line_blank (mk (Screen.lib_column sc) pink (Screen.chars sc)) (conj Hw Hl) Hlast) as Hat.
  destruct (write_string_at (mjoin pieces) _ _ _ _ Hat) as (w & E & Hb & _).
  { apply Forall_forall. intros b Hbb. apply elem_of_replicate in Hbb as [-> _]. done. }
  eexists. unfold Screen.print_lib, _print. rewrite write_fmt_concat, E. split; [reflexivity|exact Hb].
Qed.

(** The rows that dots take from the column [c] on. *)
Lemma dots_rows c n j :
  (0 < j)%nat ->
  (length (wrap (replicate c 32%Z ++ (sanitise <$> replicate n 46%Z))) <= j <-> c + n <= j * BUFFER_WIDTH)%nat.
Proof.
  intros Hj. rewrite fmap_replicate. change (sanitise 46) with 46. rewrite wrap_chunks.
  - destruct (length_chunks j (replicate c 32 ++ replicate n 46)) as [H1 H2].
    rewrite length_app, !length_replicate in H1, H2. split; [|by apply H1]. intros Hle.
    destruct (decide (c + n <= j * BUFFER_WIDTH)%nat) as [|Hgt]; [done|]. specialize (H2 ltac:(lia)). lia.
  - apply Forall_app. split; apply Forall_forall; intros b Hb; apply elem_of_replicate in Hb as [-> _]; done.
Qed.

(** ** Properties *)

Section properties.
Context {QS QT C W P G H : Type}.
Context `{AQS : ArrayQueue Z QS} `{AQT : ArrayQueue Z QT} `{OC : OnceCell QS C}.
Context `{AW : AtomicWaker W} `{PIC : ChainedPics P} `{PI : ChainedPicsInit P} `{GD : Gdt G} `{HE : !Heap H}.
Context (L1 : OnceCellLaws QS C) (L2 : ChainedPicsLaws P).

(** C37: what becomes of a panic's message.  When the kernel panics after [init] and before the
    executor runs, with interrupts enabled and the binary's cursor at the left edge, where
    every [println!] leaves it, the message is printed, whatever it is, and the processor stays in
    [hlt_loop], which serves every interrupt without a further failure.  The handlers go on
    printing a dot for each tick and a warning for each key, from the column of the library's own cursor.  The screen is
    the last 25 rows of what was above, the rows of the message, and the rows of the handlers'
    text: the row of the message that is the [i]-th from its end can be read as long as
    that text takes at most [25 - i] rows.  Beyond 24 rows nothing but the handlers' text is left.  Ticks
    alone take [j] rows as long as there are no more than [j * 80] columns of them. *)
Theorem panic_message_scrolls_away (stack_fault : Z -> option Z) (rsp stack : Z) (message : list Z) (es : list event)
    (k : kernel QT C W P G H) :
  (forall sp f, stack_fault sp = Some f -> f = STACK_SEGMENT_FAULT \/ f = PAGE_FAULT) ->
  stack_fault (stack + STACK_SIZE) = None -> stack_fault rsp = None ->
  ready stack k -> interrupt_flag (processor k) = true ->
  Screen.bin_column (screen (globals k)) = 0%nat ->
  let lines := wrap (sanitise <$> message) in
  let column := Screen.lib_column (screen (globals k)) in
  let text := wrap (replicate column 32 ++ (sanitise <$> mjoin (printed <$> es))) in
  exists k' lst, panics stack_fault rsp message es k = Ok k' /\
    Screen.chars (screen (globals k)) !! (BUFFER_HEIGHT - 1)%nat = Some lst /\
    Screen.chars (screen (globals k')) = last_rows BUFFER_HEIGHT (take (BUFFER_HEIGHT - 1) (Screen.chars (screen (globals k)))
      ++ paint_all pink lst lines ++ paint_all pink (blank_row pink) text) /\
    (forall i line, lines !! (length lines - i)%nat = Some line -> (0 < i <= length lines)%nat ->
       (length text + i <= BUFFER_HEIGHT)%nat ->
       exists row, Screen.chars (screen (globals k')) !! (BUFFER_HEIGHT - length text - i)%nat = Some row /\
         take (length line) (ascii_character <$> row) = line) /\
    ((BUFFER_HEIGHT <= length text)%nat ->
       Screen.chars (screen (globals k')) = last_rows BUFFER_HEIGHT (paint_all pink (blank_row pink) text)) /\
    (forall n j, es = replicate n ETimer -> (0 < j)%nat -> (length text <= j <-> column + n <= j * BUFFER_WIDTH)%nat).
Proof.
  intros Hvec Hist Hrsp Hk Hif Hcol lines column text. pose proof (fs_screen _ (rd_statics _ _ Hk)) as Hwf.
  destruct (message_shown message _ Hwf Hcol) as (sc & lst & E & Hsc & Hlib & Hlst & Hch). fold lines in Hch.
  unfold panics, panic_handler, main_println. rewrite E. cbn [fmap res_fmap mbind res_bind].
  set (k1 := set_globals (set_screen sc (globals k)) k).
  assert (Hk1 : ready stack k1) by (destruct Hk; constructor; [done|done|by apply fresh_set_screen]).
  destruct (serve_prints stack_fault rsp stack Hvec Hist Hrsp es k1 Hk1 Hif) as (k2 & E2 & _ & P2).
  change (screen (globals k1)) with sc in P2. set (above := take (BUFFER_HEIGHT - 1) (Screen.chars (screen (globals k)))) in *.
  set (rows := paint_all pink lst lines) in *.
  assert (Ha : length above = (BUFFER_HEIGHT - 1)%nat)
    by (unfold above; rewrite length_take; destruct (Screen.wf_chars _ Hwf) as [-> _]; done).
  assert (Hr : length rows = length lines) by apply length_paint_all.
  assert (Hlast : length (last_rows (BUFFER_HEIGHT - 1) (above ++ rows)) = (BUFFER_HEIGHT - 1)%nat)
    by (apply length_last_rows; rewrite length_app; lia).
  assert (Htx : (1 <= length text)%nat) by (unfold text; destruct (wrap_cons (replicate column 32 ++ (sanitise <$> mjoin (printed <$> es))))
    as (l & ls & ->); simpl; lia).
  destruct (lib_shown (printed <$> es) sc Hsc) as (sc2 & P3 & Hc).
  { rewrite Hch, lookup_app_r by lia. by rewrite Hlast, Nat.sub_diag. }
  rewrite P2 in P3. injection P3 as <-. rewrite Hlib, Hch, take_app_length' in Hc by done. fold column in Hc. fold text in Hc.
  change BUFFER_HEIGHT with (S (BUFFER_HEIGHT - 1)) in Hc at 1.
  rewrite last_rows_last in Hc by (rewrite ?length_app, ?length_paint_all; lia).
  change (S (BUFFER_HEIGHT - 1)) with BUFFER_HEIGHT in Hc. rewrite <- app_assoc in Hc.
  exists k2, lst. split_and!; [exact E2|exact Hlst|exact Hc| | |].
  - intros i line Hi Hn Hfit. destruct (lookup_paint_all pink lines lst _ line Hi) as (row & Hrow & Htk). exists row. split; [|exact Htk].
    rewrite Hc. unfold last_rows. rewrite !length_app, length_paint_all, Ha, Hr, lookup_drop.
    rewrite lookup_app_r by (rewrite Ha; unfold BUFFER_HEIGHT in *; lia).
    rewrite lookup_app_l by (rewrite Ha, Hr; unfold BUFFER_HEIGHT in *; lia). rewrite <- Hrow. f_equal. rewrite Ha. unfold BUFFER_HEIGHT in *. lia.
  - intros Hfull. rewrite Hc, app_assoc. unfold last_rows. rewrite !length_app, !length_paint_all, Ha, Hr.
    rewrite drop_app_ge by (rewrite length_app, Ha, Hr; unfold BUFFER_HEIGHT in *; lia). f_equal.
    rewrite length_app, Ha, Hr. unfold BUFFER_HEIGHT in *. lia.
  - intros n j -> Hj. unfold text. rewrite dots. by apply dots_rows.
Qed.
End properties.

Import KernelReference.

(** The kernel panics after [init]; 5 ticks and a key later the message can still be read. *)
Lemma panic_message_scrolls_away_witness :
  exists k k', initialise 0x20000 kernel0 = Ok k /\
    panics stack_fault0 0x10000 (bytes_of "panicked") (replicate 5 ETimer ++ [EKeyboard 30]) k = Ok k' /\
    exists row, Screen.chars (screen (globals k')) !! 22%nat = Some row /\ take 8 (ascii_character <$> row) = bytes_of "panicked".
Proof.
  destruct handed_over0.
  destruct (initialise_ok 0x20000 kernel0) as (k & E & Hk & _); [done..|].
  assert (Hs : interrupt_flag (processor k) = true /\ Screen.bin_column (screen (globals k)) = 0%nat /\
    Screen.lib_column (screen (globals k)) = 0%nat) by (vm_compute in E; injection E as <-; done).
  destruct Hs as (H1 & H2 & H3).
  destruct (panic_message_scrolls_away _ _ stack_fault0 0x10000 0x20000 (bytes_of "panicked") (replicate 5 ETimer ++ [EKeyboard 30]) k
    stack_fault0_vector eq_refl eq_refl Hk H1 H2) as (k' & lst & Ek & _ & _ & Hv & _).
  exists k, k'. split_and!; [exact E|exact Ek|]. rewrite H3 in Hv.
  apply (Hv 1%nat (bytes_of "panicked")); vm_compute; [reflexivity|lia|lia].
Defined.
