(* ===== verification/Refine.v ===== *)
(** * The machine refines the executor

    [System.v] gives the running kernel as a machine with one step per atomic
    operation, because interrupts can arrive between any two.  [Task.v] gives
    [Executor::run_ready_tasks] of [src/min-rust-os/src/task/executor.rs] as a function
    over any futures.  Here the two async functions of the kernel are futures in the
    sense of [Task.v], and the machine without interrupts does what the function
    says. *)

From S2P Require Import Prelude Queue Task Vga Keyboard Interrupts System.
From stdpp Require Import base option gmap strings list.
From Stdlib Require Import ZArith Lia.
Local Open Scope Z_scope.

Section futures.
Context {QS QT C W K E P : Type}.
Context `{AQS : ArrayQueue Z QS} `{AQT : ArrayQueue Z QT} `{OC : OnceCell QS C}.
Context `{AW : AtomicWaker W} `{PK : PcKeyboard K E}.
Abbreviation statics := (statics QT C W P).

(** [print_keypresses] from [scancodes.next().await] on: the [while let] runs until
    the stream is pending.  It takes one turn more than there are scancodes. *)
Fixpoint poll_keypresses (fuel : nat) (waker : Waker) (keyboard : K) (g : statics) :
    res (Poll unit * K * statics) :=
  match fuel with
  | O => Diverge
  | S fuel =>
      '(r, g) ← poll_next waker g;
      match r with
      | Ready (Some scancode) =>
          '(keyboard, g) ← handle_scancode scancode keyboard g;
          poll_keypresses fuel waker keyboard g
      | Ready None => Ok (Ready tt, keyboard, g)
      | Pending => Ok (Pending, keyboard, g)
      end
  end.

(** [poll] of the two async functions. *)
Definition kernel_poll (fuel : nat) (f : kernel_future K) (waker : Waker) (g : statics) :
    res (Poll unit * kernel_future K * statics) :=
  match f with
  | example_task =>
      g ← main_println (bytes_of "async number: 42") g;
      Ok (Ready tt, example_task, g)
  | print_keypresses None =>
      g ← ScancodeStream_new g;
      '(r, keyboard, g) ← poll_keypresses fuel waker kb_new g;
      Ok (r, print_keypresses (Some keyboard), g)
  | print_keypresses (Some keyboard) =>
      '(r, keyboard, g) ← poll_keypresses fuel waker keyboard g;
      Ok (r, print_keypresses (Some keyboard), g)
  end.

(** A future works on the statics; the queue of the executor is one of them. *)
Definition kernel_Future (fuel : nat) : Future (kernel_future K) statics QT :=
  fun f waker g q =>
    '(r, f, g) ← kernel_poll fuel f waker (set_task_queue q g);
    Ok (r, f, g, task_queue g).
End futures.

Section simulation.
Context {QS QT C W K E P : Type}.
Context `{AQS : ArrayQueue Z QS} `{AQT : ArrayQueue Z QT} `{OC : OnceCell QS C}.
Context `{AW : AtomicWaker W} `{PK : PcKeyboard K E} `{PIC : ChainedPics P}.
Abbreviation sys := (sys QT C W K P).
Abbreviation statics := (statics QT C W P).

(** [n] operations of the machine without interrupts. *)
Definition run_main (n : nat) (s : sys) : res sys := run_events (replicate n EMain) s.

Lemma run_main_add n m s : run_main (n + m) s = run_main n s ≫= run_main m.
Proof. unfold run_main, run_events. rewrite replicate_add. apply for_each_app. Qed.

(** The machine started in [s] does what [r] says. *)
Definition sim {B} (s : sys) (r : res B) (Q : B -> sys -> Prop) : Prop :=
  match r with
  | Ok b => exists n s', run_main n s = Ok s' /\ Q b s'
  | Panic p => exists n, run_main n s = Panic p
  | Undef | Diverge => True
  end.

Lemma sim_bind {B B'} s (r : res B) (f : B -> res B') Q' Q :
  sim s r Q' -> (forall b s', Q' b s' -> sim s' (f b) Q) -> sim s (r ≫= f) Q.
Proof.
  destruct r as [b|p| |]; cbn [mbind res_bind]; [|done..].
  intros (n & s1 & E1 & H1) Hf. specialize (Hf b s1 H1).
  destruct (f b) as [b'|p| |]; [|  |done|done].
  - destruct Hf as (m & s2 & E2 & H2). exists (n + m)%nat, s2. by rewrite run_main_add, E1.
  - destruct Hf as (m & E2). exists (n + m)%nat. by rewrite run_main_add, E1.
Qed.

Lemma sim_ret {B} s (b : B) (Q : B -> sys -> Prop) : Q b s -> sim s (Ok b) Q.
Proof. intros H. by exists 0%nat, s. Qed.

(** One operation. *)
Lemma sim_step {B} s (r : res B) (f : B -> sys) :
  main_step s = (b ← r; Ok (f b)) -> sim s r (fun b s' => s' = f b).
Proof.
  intros Hs. destruct r as [b|p| |]; [| |done|done]; cbn [mbind res_bind] in Hs.
  - exists 1%nat, (f b). split; [|done]. unfold run_main, run_events. cbn [replicate for_each sys_step].
    by rewrite Hs.
  - exists 1%nat. unfold run_main, run_events. cbn [replicate for_each sys_step]. by rewrite Hs.
Qed.

Lemma sim_one {B} s s' (b : B) (Q : B -> sys -> Prop) : main_step s = Ok s' -> Q b s' -> sim s (Ok b) Q.
Proof.
  intros Hs HQ. exists 1%nat, s'. split; [|done]. unfold run_main, run_events.
  cbn [replicate for_each sys_step]. by rewrite Hs.
Qed.

Lemma sim_impl {B} s (r : res B) (Q Q' : B -> sys -> Prop) :
  sim s r Q -> (forall b s', Q b s' -> Q' b s') -> sim s r Q'.
Proof.
  destruct r as [b|p| |]; [|done..]. intros (n & s' & E1 & H) HQ. exists n, s'. eauto.
Qed.

(** ** [poll_next] *)

(** The state with [pc] and the statics replaced. *)
Definition at_pc (c : program_counter K) (g : statics) (s : sys) : sys := set_pc c (set_globals g s).

Lemma sim_stage s i w kb st :
  pc s = InStream i w kb st ->
  sim s (poll_next_step w st (globals s)) (fun '(st', g) s' => s' = at_pc (InStream i w kb st') g s).
Proof.
  intros Epc. destruct st as [| | |x|r].
  5: { apply sim_ret. unfold at_pc, set_pc, set_globals. destruct s. simpl in *. by subst. }
  all: eapply sim_impl; [apply (sim_step s _ (fun '(st', g) => at_pc (InStream i w kb st') g s))|by intros [st' g] s'].
  all: unfold main_step; rewrite Epc; destruct (poll_next_step _ _ _) as [[st' g]| | |]; done.
Qed.

Lemma sim_poll_next s i w kb :
  pc s = InStream i w kb FastPop ->
  sim s (poll_next w (globals s)) (fun '(r, g) s' => s' = at_pc (InStream i w kb (Return r)) g s).
Proof.
  intros Epc. unfold poll_next.
  eapply sim_bind; [by apply sim_stage|]. intros [st1 g1] s1 ->. cbn beta iota.
  eapply sim_bind; [apply (sim_stage (at_pc (InStream i w kb st1) g1 s)); done|]. intros [st2 g2] s2 ->. cbn beta iota.
  eapply sim_bind; [apply (sim_stage (at_pc (InStream i w kb st2) g2 _)); done|]. intros [st3 g3] s3 ->. cbn beta iota.
  eapply sim_bind; [apply (sim_stage (at_pc (InStream i w kb st3) g3 _)); done|]. intros [st4 g4] s4 ->. cbn beta iota.
  destruct st4 as [| | |x|r]; [done..|]. by apply sim_ret.
Qed.

(** Where [poll_keypresses] leaves the machine: at the return of the last
    [poll_next], with the tasks untouched. *)
Definition polled (s : sys) (i : Z) (w : Waker) (r : Poll unit) (kb : K) (g : statics) (s' : sys) : Prop :=
  pc s' = InStream i w kb (Return (match r with Ready _ => Ready None | Pending => Pending end)) /\
  globals s' = g /\ tasks s' = tasks s /\ waker_cache s' = waker_cache s /\
  interrupts_enabled s' = interrupts_enabled s.

Lemma sim_poll_keypresses fuel : forall s i w kb,
  pc s = InStream i w kb FastPop ->
  sim s (poll_keypresses fuel w kb (globals s)) (fun '(r, kb', g) s' => polled s i w r kb' g s').
Proof.
  induction fuel as [|fuel IH]; intros s i w kb Epc; [done|]. cbn [poll_keypresses].
  eapply sim_bind; [by apply sim_poll_next|]. intros [r g1] s1 ->. cbn beta iota.
  destruct r as [[c|]|].
  - eapply (sim_bind _ (Ok tt) (fun _ => '(keyboard, g) ← handle_scancode c kb g1; poll_keypresses fuel w keyboard g)
      (fun _ s' => s' = at_pc (Handle i w kb c) g1 s)).
    { by apply (sim_one _ (at_pc (Handle i w kb c) g1 s)). }
    intros _ s2 ->. eapply sim_bind.
    { apply (sim_step (at_pc (Handle i w kb c) g1 s) (handle_scancode c kb g1)
        (fun '(kb', g) => log_consumed c (at_pc (InStream i w kb' FastPop) g s))).
      unfold main_step. simpl pc. cbv iota beta. simpl globals.
      destruct (handle_scancode c kb g1) as [[kb' g]| | |]; done. }
    intros [kb' g2] s3 ->. cbn beta iota. eapply sim_impl; [by apply (IH (log_consumed c (at_pc (InStream i w kb' FastPop) g2 s)))|].
    intros [[r kb''] g3] s4 H. exact H.
  - by apply sim_ret.
  - by apply sim_ret.
Qed.

(** ** [run_ready_tasks] *)

(** A task that can be suspended is stored under its own identifier. *)
Definition well_named (m : gmap Z (Task (kernel_future K))) : Prop :=
  forall i t, m !! i = Some t -> id t = i \/ future t = example_task.

Lemma well_named_delete i m : well_named m -> well_named (delete i m).
Proof. intros Hm j t [_ Hj]%lookup_delete_Some. by apply Hm. Qed.
Lemma well_named_insert i f m : well_named m -> well_named (<[i := mkTask i f]> m).
Proof. intros Hm j t [[<- <-]|[_ Hj]]%lookup_insert_Some; [by left|by apply Hm]. Qed.

(** The executor's fields and the statics are those of the machine. *)
Record represents (ex : Executor.t (kernel_future K) QT) (g : statics) (s : sys) : Prop := {
  rp_tasks : tasks s = Executor.tasks ex;
  rp_cache : waker_cache s = Executor.waker_cache ex;
  rp_globals : globals s = set_task_queue (Executor.task_queue ex) g;
  rp_ids : well_named (tasks s);
}.

Context (fuel : nat).
#[local] Existing Instance kernel_Future.

Lemma set_task_queue_id (g : statics) : set_task_queue (task_queue g) g = g.
Proof. by destruct g. Qed.

(** What [run_ready_tasks] does with the outcome of a poll. *)
Definition settle (i : Z) (m : gmap Z (Task (kernel_future K))) (cache : gmap Z Waker)
    (x : Poll unit * kernel_future K * statics) : Executor.t (kernel_future K) QT * statics :=
  let '(r, f, g) := x in
  match r with
  | Ready _ => (Executor.mk (delete i m) (task_queue g) (delete i cache), g)
  | Pending => (Executor.mk (<[i := mkTask i f]> m) (task_queue g) cache, g)
  end.

Definition settled (s : sys) (x : Executor.t (kernel_future K) QT * statics) (s' : sys) : Prop :=
  represents x.1 x.2 s' /\ pc s' = RunPop /\ interrupts_enabled s' = interrupts_enabled s.

(** From the return of [poll_next] to the next [pop]. *)
Lemma sim_settle s i w r kb g s1 s2 :
  well_named (tasks s) ->
  tasks s1 = tasks s -> interrupts_enabled s1 = interrupts_enabled s -> polled s1 i w r kb g s2 ->
  sim s2 (Ok (settle i (tasks s) (waker_cache s1) (r, print_keypresses (Some kb), g))) (settled s).
Proof.
  intros Hids Ht Hi (Epc & Hg & Ht2 & Hc2 & Hi2). rewrite Ht in Ht2. rewrite Hi in Hi2.
  destruct r as [[]|].
  - apply (sim_one s2 (finish_task i s2)); [unfold main_step; by rewrite Epc|]. split; [|done]. constructor; simpl; [by rewrite Ht2|by rewrite Hc2|by rewrite Hg, set_task_queue_id|].
    rewrite Ht2. by apply well_named_delete.
  - apply (sim_one s2 (set_pc RunPop (set_tasks (<[i := mkTask i (print_keypresses (Some kb))]> (tasks s2)) s2)));
      [unfold main_step; by rewrite Epc|]. split; [|done]. constructor; simpl; [by rewrite Ht2|by rewrite Hc2|by rewrite Hg, set_task_queue_id|].
    rewrite Ht2. by apply well_named_insert.
Qed.

Lemma sim_kernel_poll s i w cache f :
  well_named (tasks s) -> pc s = RunTask i -> is_Some (tasks s !! i) ->
  main_step s = enter_poll i w f (set_cache cache s) ->
  sim s (kernel_poll fuel f w (globals s)) (fun x s' => sim s' (Ok (settle i (tasks s) cache x)) (settled s)).
Proof.
  intros Hids Epc _ Hstep.
  assert (Hkeys : forall kb s1, s1 = set_pc (InStream i w kb FastPop) (set_globals (globals s1) (set_cache cache s)) ->
    sim s1 ('(r, keyboard, g) ← poll_keypresses fuel w kb (globals s1); Ok (r, print_keypresses (Some keyboard), g))
      (fun x s' => sim s' (Ok (settle i (tasks s) cache x)) (settled s))).
  { intros kb s1 E1. eapply sim_bind; [apply (sim_poll_keypresses fuel s1 i w kb); by rewrite E1|].
    intros [[r kb'] g] s2 Hp. apply sim_ret.
    replace cache with (waker_cache s1) by (by rewrite E1).
    eapply (sim_settle s i w r kb' g s1); [done|by rewrite E1|by rewrite E1|done]. }
  destruct f as [|[kb|]]; cbn [kernel_poll].
  - eapply sim_bind; [apply (sim_step s _ (fun g => finish_task i (set_globals g (set_cache cache s))));
      rewrite Hstep; done|].
    intros g s1 ->. apply sim_ret. apply sim_ret. split; [|done].
    constructor; simpl; [done|done|by rewrite set_task_queue_id|]. by apply well_named_delete.
  - eapply (sim_bind s (Ok tt) (fun _ => _) (fun _ s' => s' = set_pc (InStream i w kb FastPop) (set_cache cache s))).
    { apply (sim_one s (set_pc (InStream i w kb FastPop) (set_cache cache s))); [by rewrite Hstep|done]. }
    intros _ s1 ->. by apply (Hkeys kb (set_pc (InStream i w kb FastPop) (set_cache cache s))).
  - eapply sim_bind; [apply (sim_step s _ (fun g => set_pc (InStream i w kb_new FastPop) (set_globals g (set_cache cache s))));
      rewrite Hstep; done|].
    intros g s1 ->. by apply (Hkeys kb_new (set_pc (InStream i w kb_new FastPop) (set_globals g (set_cache cache s)))).
Qed.

Lemma sim_run_task i ex g s :
  represents ex g s -> pc s = RunTask i ->
  sim s (Executor.run_task (FU := kernel_Future fuel) i ex g) (settled s).
Proof.
  intros [Ht Hc Hg Hids] Epc. unfold Executor.run_task. rewrite <- Ht, <- Hc.
  destruct (tasks s !! i) as [task|] eqn:Ei.
  2: { apply (sim_one s (set_pc RunPop s)); [unfold main_step; by rewrite Epc, Ei|by split]. }
  destruct (Executor.entry_or_insert i (waker_cache s)) as [w cache] eqn:Ew.
  pose proof (sim_kernel_poll s i w cache (future task) Hids Epc ltac:(by eexists)) as Hsim.
  unfold main_step in Hsim at 1. rewrite Epc, Ei, Ew in Hsim. specialize (Hsim eq_refl).
  eapply (sim_bind _ _ (fun x => Ok (settle i (tasks s) cache x))) in Hsim; [|intros x s1 H1; exact H1].
  unfold Task_poll, future_poll, kernel_Future. rewrite <- Hg.
  destruct (Hids i task Ei) as [Hid|Hex].
  - rewrite Hid. destruct (kernel_poll fuel (future task) w (globals s)) as [[[[] f] g']| | |]; done.
  - rewrite Hex in *. cbn [kernel_poll] in *. destruct (main_println _ (globals s)); done.
Qed.

Lemma sim_run_ready_tasks n : forall ex g s,
  represents ex g s -> pc s = RunPop ->
  sim s (Executor.run_ready_tasks (FU := kernel_Future fuel) n ex g) (fun x s' =>
    represents x.1 x.2 s' /\ pc s' = SleepCheck /\ interrupts_enabled s' = interrupts_enabled s).
Proof.
  induction n as [|n IH]; intros ex g s Hr Epc; [done|]. cbn [Executor.run_ready_tasks].
  pose proof Hr as [Ht Hc Hg Hids].
  destruct (aq_pop (Executor.task_queue ex)) as [[i q]|] eqn:Eq.
  - set (s1 := set_pc (RunTask i) (set_globals (set_task_queue q (globals s)) s)).
    eapply (sim_bind s (Ok tt) (fun _ => _) (fun _ s' => s' = s1)).
    { apply (sim_one s s1); [|done]. unfold main_step. rewrite Epc, Hg. simpl. by rewrite Eq, <- Hg. }
    intros _ s' ->. eapply sim_bind.
    { apply (sim_run_task i (Executor.mk (Executor.tasks ex) q (Executor.waker_cache ex)) g s1); [|done].
      constructor; [done|done|unfold s1; simpl; by rewrite Hg|done]. }
    intros [ex' g'] s2 (Hr2 & Hpc2 & Hi2). eapply sim_impl; [by apply IH|].
    intros x s3 (Hr3 & Hpc3 & Hi3). split_and!; [done|done|by rewrite Hi3].
  - apply (sim_one s (set_pc SleepCheck s)); [unfold main_step; rewrite Epc, Hg; simpl; by rewrite Eq|by split].
Qed.
End simulation.

(** ** The function returns *)

Section totality.
Context {QS QT C W K E P : Type}.
Context `{AQS : ArrayQueue Z QS} `{AQT : ArrayQueue Z QT} `{OC : OnceCell QS C}.
Context `{AW : AtomicWaker W} `{PK : PcKeyboard K E} `{PIC : ChainedPics P}.
Context `{!ArrayQueueLaws Z QS} `{!ArrayQueueLaws Z QT} `{!OnceCellLaws QS C} `{!AtomicWakerLaws W}.
Abbreviation sys := (sys QT C W K P).
Abbreviation statics := (statics QT C W P).

(** What the futures need of the statics, and keep. *)
Record fit (started : bool) (g : statics) : Prop := {
  fit_screen : Screen.wf (screen g);
  fit_cell : cell_ok started g;
}.

Lemma poll_next_total w (g : statics) :
  fit true g ->
  exists g', poll_next w g = Ok (match scancodes g with x :: _ => Ready (Some x) | [] => Pending end, g') /\
    fit true g' /\ scancodes g' = tail (scancodes g) /\ task_queue g' = task_queue g.
Proof.
  intros [Hs Hc]. unfold poll_next. pose proof (pop_scancode_ok true g Hc eq_refl) as Hpop.
  destruct (scancodes g) as [|x xs] eqn:Es.
  - exists (set_WAKER (aw_register w (WAKER g)) g).
    pose proof (pop_scancode_ok true (set_WAKER (aw_register w (WAKER g)) g) Hc eq_refl) as Hpop2.
    change (scancodes (set_WAKER (aw_register w (WAKER g)) g)) with (scancodes g) in *. rewrite Es in Hpop2.
    cbn [poll_next_step]. rewrite Hpop. cbn [mbind res_bind poll_next_step]. rewrite Hpop2.
    cbn [mbind res_bind poll_next_step]. split_and!; [done|by constructor|done|done].
  - destruct Hpop as (cell & Hp & Hcell & Hsc). exists (set_SCANCODE_QUEUE cell g).
    cbn [poll_next_step]. rewrite Hp. cbn [mbind res_bind poll_next_step]. split_and!; [done|by constructor|done|done].
Qed.

Lemma handle_scancode_total c kb (g : statics) b :
  fit b g -> exists kb' sc, handle_scancode c kb g = Ok (kb', set_screen sc g) /\ Screen.wf sc.
Proof.
  intros [Hs Hc]. unfold handle_scancode. assert (Hg : g = set_screen (screen g) g) by (by destruct g).
  destruct (kb_add_byte c kb) as [[[e|]|] kb1]; [|by exists kb1, (screen g); rewrite <- Hg..].
  destruct (kb_process_keyevent e kb1) as [[key|] kb2]; [|by exists kb2, (screen g); rewrite <- Hg].
  destruct (print_ok (kb_fmt key) g Hs) as (sc & -> & Hsc). by exists kb2, sc.
Qed.

Lemma poll_keypresses_total n w : forall kb (g : statics),
  fit true g -> (length (scancodes g) < n)%nat ->
  exists kb' g', poll_keypresses n w kb g = Ok (Pending, kb', g') /\
    fit true g' /\ scancodes g' = [] /\ task_queue g' = task_queue g.
Proof.
  induction n as [|n IH]; intros kb g Hf Hn; [lia|]. cbn [poll_keypresses].
  destruct (poll_next_total w g Hf) as (g1 & -> & Hf1 & Hs1 & Hq1). cbn [mbind res_bind].
  destruct (scancodes g) as [|x xs]; [by exists kb, g1|].
  destruct (handle_scancode_total x kb g1 true Hf1) as (kb1 & sc & -> & Hsc). cbn [mbind res_bind].
  destruct (IH kb1 (set_screen sc g1)) as (kb2 & g2 & E2 & Hf2 & Hs2 & Hq2).
  - destruct Hf1. by constructor.
  - change (scancodes (set_screen sc g1)) with (scancodes g1). rewrite Hs1. simpl in *. lia.
  - exists kb2, g2. split_and!; [done|done|done|by rewrite Hq2].
Qed.

(** The tasks are the kernel's. *)
Record kernel_tasks (m : gmap Z (Task (kernel_future K))) (g : statics) : Prop := {
  kt_other : forall i t, i <> KEYS -> m !! i = Some t -> future t = example_task;
  kt_keys : exists o, m !! KEYS = Some (mkTask KEYS (print_keypresses o)) /\
    fit (match o with Some _ => true | None => false end) g;
}.

Lemma kernel_tasks_named m g : kernel_tasks m g -> well_named m.
Proof.
  intros [Ho (o & Hk & _)] i t Hi. destruct (decide (i = KEYS)) as [->|Hne]; [left|right; by eapply Ho].
  rewrite Hk in Hi. by injection Hi as <-.
Qed.

Context (fuel : nat).

Lemma run_task_total i (ex : Executor.t (kernel_future K) QT) (g : statics) :
  kernel_tasks (Executor.tasks ex) g -> (length (scancodes g) < fuel)%nat ->
  exists ex' g', Executor.run_task (FU := kernel_Future fuel) i ex g = Ok (ex', g') /\
    kernel_tasks (Executor.tasks ex') g' /\ (length (scancodes g') <= length (scancodes g))%nat /\
    Executor.task_queue ex' = Executor.task_queue ex.
Proof.
  intros [Ho (o & Hk & Hf)] Hn. unfold Executor.run_task.
  destruct (Executor.entry_or_insert i (Executor.waker_cache ex)) as [w cache].
  unfold Task_poll, future_poll, kernel_Future.
  destruct (decide (i = KEYS)) as [->|Hne].
  - rewrite Hk. cbn [future id kernel_poll].
    assert (Hpoll : forall kb g1, fit true g1 -> scancodes g1 = scancodes g ->
      exists kb' g', poll_keypresses fuel w kb g1 = Ok (Pending, kb', g') /\ fit true g' /\
        scancodes g' = [] /\ task_queue g' = task_queue g1).
    { intros kb g1 H1 E1. apply poll_keypresses_total; [done|by rewrite E1]. }
    assert (Hput : forall kb' g', fit true g' -> kernel_tasks
      (<[KEYS := mkTask KEYS (print_keypresses (Some kb'))]> (Executor.tasks ex)) g').
    { intros kb' g' H'. constructor; [|by exists (Some kb'); rewrite lookup_insert_eq].
      intros j t Hj. rewrite lookup_insert_ne by done. by apply Ho. }
    destruct o as [kb|]; cbn [kernel_poll].
    + destruct (Hpoll kb (set_task_queue (Executor.task_queue ex) g)) as (kb' & g' & -> & Hf' & Hs' & Hq');
        [destruct Hf; by constructor|done|]. cbn [mbind res_bind].
      eexists _, g'. split; [reflexivity|]. split_and!; [by apply Hput|rewrite Hs'; simpl; lia|done].
    + destruct Hf as [Hs Hc]. unfold cell_ok in Hc.
      destruct (oc_try_get (SCANCODE_QUEUE g)) as [q|] eqn:Eq; [naive_solver|].
      destruct (aq_new_spec (A := Z) (Q := QS) 100 ltac:(lia)) as [Hni Hnc].
      destruct (oc_init_first (aq_new 100) _ Eq) as (cell & Hin & Hget).
      unfold ScancodeStream_new. simpl SCANCODE_QUEUE. rewrite Hin. cbn [expect mbind res_bind].
      destruct (Hpoll kb_new (set_SCANCODE_QUEUE cell (set_task_queue (Executor.task_queue ex) g)))
        as (kb' & g' & -> & Hf' & Hs' & Hq').
      { constructor; [done|]. unfold cell_ok. simpl. by rewrite Hget. }
      { unfold scancodes. simpl. by rewrite Hget, Eq. }
      cbn [mbind res_bind]. eexists _, g'. split; [reflexivity|].
      split_and!; [by apply Hput|rewrite Hs'; simpl; lia|done].
  - destruct (Executor.tasks ex !! i) as [task|] eqn:Ei.
    2: { eexists _, _. split; [reflexivity|]. split_and!; [by constructor; [|by exists o]|done|done]. }
    rewrite (Ho i task Hne Ei). cbn [kernel_poll].
    destruct (main_println_ok (bytes_of "async number: 42") (set_task_queue (Executor.task_queue ex) g)) as (sc & -> & Hsc);
      [apply Hf|]. cbn [mbind res_bind]. eexists _, _. split; [reflexivity|]. split_and!; [|done|done].
    constructor; simpl.
    + intros j t Hj [_ Hjt]%lookup_delete_Some. by eapply Ho.
    + exists o. rewrite lookup_delete_ne by done. split; [done|]. destruct Hf. by constructor.
Qed.

Lemma kernel_run_ready_total n : forall (ex : Executor.t (kernel_future K) QT) (g : statics),
  kernel_tasks (Executor.tasks ex) g -> (length (scancodes g) < fuel)%nat ->
  (length (aq_items (Executor.task_queue ex)) < n)%nat ->
  exists x, Executor.run_ready_tasks (FU := kernel_Future fuel) n ex g = Ok x.
Proof.
  induction n as [|n IH]; intros ex g Hk Hf Hn; [lia|]. cbn [Executor.run_ready_tasks].
  destruct (aq_items (Executor.task_queue ex)) as [|i rest] eqn:Eq.
  - rewrite aq_pop_nil by done. by eexists.
  - destruct (aq_pop_cons _ _ _ Eq) as (q & -> & Hi & _).
    destruct (run_task_total i (Executor.mk (Executor.tasks ex) q (Executor.waker_cache ex)) g)
      as (ex' & g' & -> & Hk' & Hs' & Hq'); [done|done|]. cbn [mbind res_bind].
    apply IH; [done|lia|]. rewrite Hq'. simpl in *. rewrite Hi. lia.
Qed.
End totality.

(** ** Properties *)

Section properties.
Context {QS QT C W K E P : Type}.
Context `{AQS : ArrayQueue Z QS} `{AQT : ArrayQueue Z QT} `{OC : OnceCell QS C}.
Context `{AW : AtomicWaker W} `{PK : PcKeyboard K E} `{PIC : ChainedPics P}.
Context (L1 : ArrayQueueLaws Z QS) (L2 : ArrayQueueLaws Z QT) (L3 : OnceCellLaws QS C).
Context (L4 : AtomicWakerLaws W) (L5 : ChainedPicsLaws P).

(** C9: the machine of the running kernel refines the executor.  Whenever the kernel,
    after any interleaving with interrupts, is about to enter [run_ready_tasks], that
    function, on the kernel's two futures, returns; and if no interrupt arrives, the
    machine comes to the end of [run_ready_tasks] with exactly the tasks, the wakers,
    the queue, the screen and the other statics that the function returns. *)
Theorem kernel_refines_executor (es : list event) (s0 s : sys QT C W K P) :
  boots s0 -> run_events es s0 = Ok s -> pc s = RunPop ->
  let ex := Executor.mk (tasks s) (task_queue (globals s)) (waker_cache s) in
  let polls := S (length (scancodes (globals s))) in
  let turns := S (length (woken (globals s))) in
  exists ex' g' n s',
    Executor.run_ready_tasks (FU := kernel_Future polls) turns ex (globals s) = Ok (ex', g') /\
    run_main n s = Ok s' /\ pc s' = SleepCheck /\ tasks s' = Executor.tasks ex' /\
    waker_cache s' = Executor.waker_cache ex' /\
    globals s' = set_task_queue (Executor.task_queue ex') g' /\
    interrupts_enabled s' = interrupts_enabled s.
Proof.
  intros H0 Hrun Hpc ex polls turns. apply boots_spec in H0 as [Hinv _]. apply run_events_inv in Hrun; [|done].
  destruct Hrun as [Hg _ _ Ho (o & Hk & Hcell & _) _]. rewrite Hpc in Hcell.
  assert (Hkt : kernel_tasks (Executor.tasks ex) (globals s)).
  { constructor; [exact Ho|]. exists o. split; [exact Hk|]. constructor; [apply Hg|exact Hcell]. }
  destruct (kernel_run_ready_total polls turns ex (globals s) Hkt) as ([ex' g'] & Er);
    [unfold polls; lia|unfold turns, woken; simpl; lia|].
  pose proof (sim_run_ready_tasks polls turns ex (globals s) s) as Hsim. rewrite Er in Hsim.
  destruct Hsim as (n & s' & En & [Ht Hc Hgl _] & Hpc' & Hi); [|done|].
  { constructor; [done|done|simpl; by destruct (globals s)|by eapply kernel_tasks_named]. }
  exists ex', g', n, s'. done.
Qed.
End properties.

Import Reference.

Lemma kernel_refines_executor_witness :
  exists ex' g' n s',
    Executor.run_ready_tasks (FU := kernel_Future (S (length (scancodes (globals boot0)))))
      (S (length (woken (globals boot0))))
      (Executor.mk (tasks boot0) (task_queue (globals boot0)) (waker_cache boot0)) (globals boot0) = Ok (ex', g') /\
    run_main n boot0 = Ok s' /\ pc s' = SleepCheck /\ tasks s' = Executor.tasks ex'.
Proof.
  destruct (kernel_refines_executor _ _ _ _ _ [] boot0 boot0 boots_boot0 eq_refl eq_refl)
    as (ex' & g' & n & s' & H1 & H2 & H3 & H4 & _).
  exists ex', g', n, s'. split_and!; [exact H1|exact H2|exact H3|exact H4].
Defined.
